(* ===== verification/_CoqProject ===== *)
-Q . S2P
Prelude.v
Float64.v
GoLib.v
GoJson.v
Domain.v
Uuid.v
Settings.v
Retry.v
Redis.v
Postgres.v
RateLimiter.v
GoTime.v
CircuitBreaker.v
Hub.v
Metrics.v
TemplateEngine.v
Effects.v
Contract.v
Reference.v
Queue.v
Rows.v
Provider.v
Repository.v
Lifecycle.v
Processor.v
OneMessage.v
Scheduler.v
Pool.v
Dispatcher.v
Handlers.v
Templates.v
Pumps.v
Api.v
Refinement.v
NoPanic.v
Wire.v
Timing.v
System.v
Duplicates.v
Progress.v
Shutdown.v
App.v
Monitoring.v
Outage.v
Commands.v
