(* ===== verification/Prelude.v ===== *)
(** * Insider notification system: verification library

    ** The program

    An HTTP API accepts notifications (SMS, email, push), stores them in PostgreSQL
    and enqueues a message for each in Redis; one worker process per channel takes
    messages from the queue at a limited rate, claims the rows, sends them to a
    webhook through a circuit breaker, and settles each one: sent, queued for a
    delayed retry, or dead-lettered.  Every worker also runs a scheduler that queues
    due notifications, promotes delayed retries and returns messages whose visibility
    timeout expired.  API and workers share nothing but the database and Redis.

    ** How it is modelled

    - Data are records with the source's fields ([Notification], [Template], [Message]
      in Domain.v); Go's [int] is Z with [wrap64] where it can overflow, [float64]
      arithmetic is exact rounding to 53 bits (Float64.v), strings are byte strings,
      times are nanoseconds since the epoch in UTC.
    - Every operation that touches the database, Redis, the clock, the network or
      shared memory is a program: a tree of atomic effects (Effects.v, [eff], [prog])
      with Go's control flow; a nil dereference or an index out of range is [Panic].
      [run] executes one program alone; [sched_step], [run_schedule] and [sys_step]
      interleave the goroutines of several processes effect by effect, with
      goroutines starting, and processes dying and starting again, at any time.
    - The environment ([Env]) decides, per position in the execution, the clock, the
      failure of a call (before or after it took effect), UUIDs, random draws, the
      webhook's answers and the cancellation of the context.
    - The tables with the constraints of the migrations, and every statement of
      queries.go, are Postgres.v ([DB], [sql], [exec_sql]); sorted sets, keys with a
      time to live and the commands the program sends are the interface of Redis.v.
    - Code outside the repository is a class with its laws and a reference instance on
      which the witnesses run: [RedisServer], [PgEngine] (scan order, timestamps,
      admission of values, collation), [UUIDLib], [TextTemplate], [LuaNumber] (how Lua
      prints a number), [WebsocketLib], [EnvLib]; the drivers' answers at start-up are
      the record [Calls].  encoding/json, time and strconv are Go's standard library
      and are modelled as far as the program uses them (GoLib.v, GoJson.v, GoTime.v).

    ** The files

    - Prelude, Float64, GoLib, GoJson, GoTime: results, 64-bit integers, reflexive
      transitive closure, orderings and tactics; rounding; Go's standard library with
      the round trips of JSON and of RFC 3339 times.
    - Domain: internal/domain, queue/message.go.  Settings: internal/config.
      Retry: internal/retry/strategy.go.  Uuid, Redis, Postgres: the services.
    - RateLimiter: queue/redis/ratelimiter.go, the two Lua scripts.  CircuitBreaker:
      the critical sections of provider/circuitbreaker.go.  Provider: the interface of
      provider.go with the class of what its users rely on ([ProviderSpec]), and its
      instances: webhook/client.go and, over any provider, the breaker's [Send].
      Hub: the hub of internal/websocket; Pumps, which follows Templates, its clients'
      goroutines.  Metrics: observability/metrics.go.  TemplateEngine:
      the cache of template/engine.go.
    - Effects: programs, sequential and interleaved execution.  Contract: contracts of
      programs, that is what each effect may ask, given what the earlier ones
      answered, with the rules by which they compose and the passage from "every
      program meets the contract" to an invariant of all executions.  Reference: a
      concrete environment and world for witnesses.
    - Queue: producer.go, consumer.go, helpers.go.  Rows: scanNotifications.
      Repository: repository/postgres and retry/deadletter.go.  Scheduler:
      queue/redis/scheduler.go.
    - Processor, OneMessage (its two paths compared), Pool, Dispatcher: internal/worker.
    - Handlers, Templates: api/handler.  Api: router.go, the middleware, health,
      metrics and WebSocket handlers.
    - Lifecycle: the abstract machine of a notification's life and the protocol that
      makes a program's effects steps of it.  Refinement: every program of the system
      keeps the protocol.
    - NoPanic, Wire, Timing: three contracts that the programs meet, each with its
      invariant.  What a program needs never to panic; what it may put into the queues
      and the tables, so that they stay typed; how long what it puts there may make
      others wait.
    - System: passes of a worker over a batch, interleavings and crashes.  Duplicates:
      an execution that delivers a notification twice.  Progress:
      rounds of a worker, scheduler and dispatcher, and what they make of a notification.
      Shutdown: the end of RunWorker, Dispatcher.Stop and Pool.Stop, as a machine of
      goroutines, and batches in work when the context is cancelled.  App: internal/app,
      the migration and tracing calls it makes, and the deployment.  Monitoring: what
      GET /metrics shows of it.  Outage: a worker whose breaker is open.  Commands: cmd/
      and api/server.go.

    The theorems on the worker are proved against the interface: [ProviderSpec] for what
    a run of it does, [ProviderObeys] (Refinement) for the protocol and panics,
    [ProviderWired] (Wire) and [ProviderTimely] (Timing) for the other contracts; App
    wires the breaker around the webhook client, which meets them all.  The other Go
    interfaces (queue, repositories) have one implementation each and are called
    directly.

    ** What the theorems show

    - The whole system: [deployment_safe] (constraints, truthful rows and empty hubs in
      every execution of the deployment), [lifecycle_refinement] (executions are runs
      of the abstract machine), [one_call_per_claim] (the provider is called at most
      once for each time a notification was claimed), [deployment_never_panics],
      [deployment_keeps_types] (every queued member decodes and every row is scanned
      back, in every execution),
      [rows_persist], [rows_tell_the_truth], [database_integrity],
      [accepted_is_delivered] (from a client's 201, over the schedule, the queue, the
      worker and its delayed retries, to a row that is sent or failed for good),
      [accepted_batch_is_delivered].  The end of a worker: [Stop_terminates], [worker_conserves].
    - Workers: [ProcessBatch_settles], [Process_settles], [Process_is_a_batch_of_one]
      (the two paths of the processor agree), [claim_exclusive],
      [DequeueBatch_hands_over], [Ack_removes], [dispatch_takes_granted],
      [dispatched_batch_settles], [poll_completes], [poll_lock_excludes], [pool_runs_all_once].
    - Limits and protection: [rate_window_bound], [breaker_state_matches_failures],
      [breaker_guards_provider], [NextDelay_within_quarter], [score_order],
      [oversized_body_refused].
    - API: [create_endpoint], [batch_endpoint], [cancel_endpoint], [list_endpoint],
      [batch_status_counts], [template_create_get], [template_update_endpoint],
      [template_delete_endpoint], [every_request_answered], [routes_unambiguous],
      [list_query_means_filter], [keyset_pages_complete].
    - WebSocket clients: [clients_served_in_order], [sessions_end], [act_step_hub].
    - Texts: [message_wire_round_trip], [itoa_round_trip], [DSN_injective],
      [load_defaults].  Start-up and exit: [NewInfra_resources],
      [commands_exit].
    - What the code does not do, by runs of the model and in general:
      [create_overwrites_sent], [delivered_twice],
      [cancel_overwrites_sent], [crash_strands_notification], [crash_loses_message],
      [cancelled_message_circulates], [ProcessBatch_keeps_unclaimable],
      [create_accepts_undelivered], [ProcessBatch_loses_on_db_error],
      [outage_fails_unsent] and [outage_outlasts_backoff],
      [metrics_endpoint_shows_nothing], [hubs_stay_empty],
      [websocket_never_upgrades], [panic_with_gzip_is_200],
      [template_update_not_rendered], [rate_limit_exceeded_on_collision],
      [DequeueBatch_drops_batch], [keyset_pages_skip_ties], [poll_never_ends],
      [pool_cancel_strands_task], [stop_strands_batch], [stop_hides_delivery],
      [stop_panics_dispatch], [empty_pool_never_works], [idle_polls_exhaust_limit],
      [DSN_ambiguous], [idle_writer_stays].

    ** Fuel and bounds

    The batch loop of the scheduler's [poll] and the eager polling of [dispatchLoop]
    have no bound in the code and take a fuel; [None] is a run that is still going.
    [poll_completes] gives a fuel that is enough (one more than the scheduled
    notifications), Progress gives each poll that one ([enough]), and [poll_never_ends]
    shows that without its hypotheses none is.  The tick loops take the number of
    ticks; the theorems on executions hold for all.  The pumps of a WebSocket client
    end within 518 steps once its context is done ([sessions_end]).
    [itoa]'s loop runs at most 19 times, the digits of the largest [int].

    ** Not modelled

    The float64 a number in template variables becomes (its literal is kept as it was
    given), spans and the log but for the middleware's lines, signal handling but for
    the cancellation it causes, the HTTP server's own loop (net/http), the sockets under
    the WebSocket pumps (their answers are part of the pumps' actions), goose's
    bookkeeping of migrations (the tables they create are [DB]), and testutil, which
    starts containers for tests. *)
From Stdlib Require Import ZArith Lia Sorted.
From stdpp Require Import base gmap list strings sorting fin_maps.

Open Scope Z_scope.

(** ** Results: Go's [(value, error)] pairs *)

(** A Go function returning [(A, error)] yields either a value ([Ok]) or a
    non-nil error ([Err]); no function modelled here uses both components at once. *)
Inductive result (E A : Type) : Type :=
| Ok (a : A)
| Err (e : E).
Arguments Ok {E A} _.
Arguments Err {E A} _.

#[export] Instance result_ret {E} : MRet (result E) := λ _ a, Ok a.
#[export] Instance result_bind {E} : MBind (result E) :=
  λ _ _ f r, match r with Ok a => f a | Err e => Err e end.
#[export] Instance result_fmap {E} : FMap (result E) :=
  λ _ _ f r, match r with Ok a => Ok (f a) | Err e => Err e end.

Definition is_ok {E A} (r : result E A) : bool :=
  match r with Ok _ => true | Err _ => false end.

Lemma result_bind_Ok {E A B} (r : result E A) (f : A → result E B) b :
  r ≫= f = Ok b → ∃ a, r = Ok a ∧ f a = Ok b.
Proof. destruct r; simpl; intros; [eauto|done]. Qed.

Lemma Ok_eq {E A} (a b : A) : @Ok E A a = Ok b → a = b.
Proof. congruence. Qed.

(** ** Machine integers *)

(** Go's [int] and [int64] on the 64-bit targets the program is built for:
    two's complement wrap-around at 64 bits. *)
Definition int64_min : Z := - 2 ^ 63.
Definition int64_max : Z := 2 ^ 63 - 1.
Definition wrap64 (z : Z) : Z := (z + 2 ^ 63) mod 2 ^ 64 - 2 ^ 63.
Definition in_int64 (z : Z) : Prop := int64_min ≤ z ≤ int64_max.

Lemma wrap64_id z : in_int64 z → wrap64 z = z.
Proof.
  unfold in_int64, int64_min, int64_max, wrap64. intros H.
  rewrite Z.mod_small; lia.
Qed.

Lemma wrap64_range z : in_int64 (wrap64 z).
Proof.
  unfold in_int64, int64_min, int64_max, wrap64.
  pose proof (Z.mod_pos_bound (z + 2 ^ 63) (2 ^ 64)). lia.
Qed.

(** ** Reflexive-transitive closure used by every step relation *)

Inductive star {S : Type} (R : S → S → Prop) : S → S → Prop :=
| star_refl s : star R s s
| star_snoc s1 s2 s3 : star R s1 s2 → R s2 s3 → star R s1 s3.

(** A property that holds initially and that each step preserves holds in every
    reachable state. *)
Lemma star_trans {S} (R : S → S → Prop) s1 s2 s3 :
  star R s1 s2 → star R s2 s3 → star R s1 s3.
Proof. intros H12 H23. induction H23; [done|]. eapply star_snoc; [by apply IHstar|done]. Qed.

Lemma star_invariant {S} (R : S → S → Prop) (I : S → Prop) :
  (∀ s s', I s → R s s' → I s') → ∀ s s', I s → star R s s' → I s'.
Proof. intros Hstep s s' Hs Hstar. induction Hstar; eauto. Qed.

Lemma star_mono {S} (R R' : S → S → Prop) s s' :
  (∀ s1 s2, R s1 s2 → R' s1 s2) → star R s s' → star R' s s'.
Proof. intros HR Hstar. induction Hstar; [constructor|]. eapply star_snoc; [done|by apply HR]. Qed.

(** ** Sorting by an integer key *)

Definition key_le {A} (key : A → Z) (a b : A) : Prop := key a ≤ key b.

#[export] Instance key_le_dec {A} (key : A → Z) : RelDecision (key_le key).
Proof. intros a b. unfold key_le. apply _. Defined.
#[export] Instance key_le_total {A} (key : A → Z) : Total (key_le key).
Proof. intros a b. unfold key_le. lia. Qed.
#[export] Instance key_le_trans {A} (key : A → Z) : Transitive (key_le key).
Proof. intros a b c. unfold key_le. lia. Qed.

(** [ORDER BY key ASC] and [ORDER BY key DESC]. *)
Definition order_asc {A} (key : A → Z) (l : list A) : list A := merge_sort (key_le key) l.
Definition order_desc {A} (key : A → Z) (l : list A) : list A :=
  merge_sort (key_le (λ a, - key a)) l.

Lemma order_asc_perm {A} (key : A → Z) l : order_asc key l ≡ₚ l.
Proof. apply merge_sort_Permutation. Qed.
Lemma order_desc_perm {A} (key : A → Z) l : order_desc key l ≡ₚ l.
Proof. apply merge_sort_Permutation. Qed.
Lemma order_asc_sorted {A} (key : A → Z) l : StronglySorted (key_le key) (order_asc key l).
Proof. apply StronglySorted_merge_sort; apply _. Qed.
Lemma order_desc_sorted {A} (key : A → Z) l :
  StronglySorted (key_le (λ a, - key a)) (order_desc key l).
Proof. apply StronglySorted_merge_sort; apply _. Qed.

Lemma StronglySorted_filter {A} (R : A → A → Prop) (P : A → Prop) `{!∀ x, Decision (P x)} l :
  StronglySorted R l → StronglySorted R (filter P l).
Proof.
  induction 1 as [|x l Hs IH Hall]; [constructor|]. rewrite filter_cons. case_decide; [|done].
  constructor; [done|]. apply Forall_forall. intros y [_ Hy]%list_elem_of_filter.
  rewrite Forall_forall in Hall. by apply Hall.
Qed.

(** Everything before an element of a sorted list is below it. *)
Lemma StronglySorted_app_le {A} (R : A → A → Prop) l1 l2 x y :
  StronglySorted R (l1 ++ l2) → x ∈ l1 → y ∈ l2 → R x y.
Proof.
  induction l1 as [|z l1 IH]; intros Hs Hx Hy; [by apply elem_of_nil in Hx|].
  cbn in Hs. inversion Hs as [|?? Hs' Hall]; subst. apply elem_of_cons in Hx as [->|Hx]; [|by apply IH].
  rewrite Forall_forall in Hall. apply Hall, elem_of_app. by right.
Qed.

(** ** Strings *)

Lemma string_app_cons c (a b : string) : String c a +:+ b = String c (a +:+ b).
Proof. done. Qed.
Lemma string_app_nil (b : string) : "" +:+ b = b.
Proof. done. Qed.
Lemma string_app_assoc (a b c : string) : (a +:+ b) +:+ c = a +:+ (b +:+ c).
Proof. induction a as [|x a IH]; [done|]. by rewrite !string_app_cons, IH. Qed.

Lemma string_app_nil_r (a : string) : a +:+ "" = a.
Proof. induction a as [|x a IH]; [done|]. by rewrite string_app_cons, IH. Qed.
Lemma append_inj (p a b : string) : p +:+ a = p +:+ b → a = b.
Proof. induction p as [|c p IH]; [done|]. rewrite !string_app_cons. intros [= Heq]. auto. Qed.

(** ** Lists *)

Lemma filter_all {A} (P : A → Prop) `{!∀ x, Decision (P x)} (l : list A) :
  (∀ x, x ∈ l → P x) → filter P l = l.
Proof.
  induction l as [|x l IH]; intros Hl; [done|].
  rewrite filter_cons, decide_True by (apply Hl; left).
  f_equal. apply IH. intros y Hy. apply Hl. by right.
Qed.

Lemma filter_none {A} (P : A → Prop) `{!∀ x, Decision (P x)} (l : list A) :
  (∀ x, x ∈ l → ¬ P x) → filter P l = [].
Proof.
  induction l as [|x l IH]; intros Hl; [done|].
  rewrite filter_cons, decide_False by (apply Hl; left).
  apply IH. intros y Hy. apply Hl. by right.
Qed.

Lemma NoDup_fst_filter {A B} (P : A * B → Prop) `{!∀ x, Decision (P x)} (l : list (A * B)) :
  NoDup l.*1 → NoDup (filter P l).*1.
Proof.
  induction l as [|[a b] l IH]; intros Hnd; [done|].
  apply NoDup_cons in Hnd as [Hin Hnd]. rewrite filter_cons. case_decide; [|by apply IH].
  apply NoDup_cons. split; [|by apply IH].
  intros (e & He & [_ Hx]%list_elem_of_filter)%list_elem_of_fmap.
  apply Hin. apply list_elem_of_fmap. by exists e.
Qed.

Lemma Forall2_elem_impl {A B} (P Q : A → B → Prop) (l : list A) (k : list B) :
  Forall2 P l k → (∀ x y, x ∈ l → y ∈ k → P x y → Q x y) → Forall2 Q l k.
Proof.
  induction 1 as [|x y l k Hxy _ IH]; intros HQ; constructor; [apply HQ; [left|left|done]|].
  apply IH. intros a b Ha Hb. apply HQ; by right.
Qed.

(** The list whose only element is [x]. *)
Lemma NoDup_singleton_of {A} (x : A) l : NoDup l → (∀ y, y ∈ l ↔ y = x) → l = [x].
Proof.
  intros Hnd Hin. destruct l as [|a l]; [by destruct (proj1 (elem_of_nil x)); apply Hin|].
  assert (a = x) as -> by (apply Hin; left). f_equal. apply NoDup_cons in Hnd as [Hx _].
  destruct l as [|b l]; [done|]. destruct Hx. assert (b = x) as <- by (apply Hin; right; left). left.
Qed.

Lemma NoDup_fmap_eq {A B} (f : A → B) (l : list A) x y :
  NoDup (f <$> l) → x ∈ l → y ∈ l → f x = f y → x = y.
Proof.
  intros Hnd [i Hi]%list_elem_of_lookup [j Hj]%list_elem_of_lookup Heq.
  assert (i = j) as ->; [|congruence].
  apply (NoDup_lookup _ _ _ (f x) Hnd); rewrite list_lookup_fmap; [by rewrite Hi|].
  by rewrite Hj, Heq.
Qed.

(** ** Automation *)

Create HintDb insider.
Create Rewrite HintDb insider.
#[export] Hint Rewrite string_app_cons string_app_nil string_app_assoc : insider.

(** Inverts one monadic step of a computation that succeeded. *)
Ltac bind_ok H :=
  let a := fresh "v" in let E := fresh "E" in
  apply result_bind_Ok in H as (a & E & H).

(** [case_bool] splits on the boolean test that blocks the goal. *)
Ltac case_bool :=
  match goal with
  | |- context [if ?b then _ else _] => destruct b eqn:?
  end.

(** [zbool] turns boolean comparisons on integers into propositions. *)
Ltac zbool :=
  repeat match goal with
  | H : (_ <? _) = true |- _ => apply Z.ltb_lt in H
  | H : (_ <? _) = false |- _ => apply Z.ltb_ge in H
  | H : (_ <=? _) = true |- _ => apply Z.leb_le in H
  | H : (_ <=? _) = false |- _ => apply Z.leb_gt in H
  | H : (_ =? _) = true |- _ => apply Z.eqb_eq in H
  | H : (_ =? _) = false |- _ => apply Z.eqb_neq in H
  | H : (_ && _) = true |- _ => apply andb_true_iff in H; destruct H
  | H : (_ || _) = false |- _ => apply orb_false_iff in H; destruct H
  end.

(** [closed_arith] decides closed comparisons by evaluation. *)
Ltac closed_arith := vm_compute; repeat split; first [reflexivity | discriminate | idtac].
