(* ===== verification/Float64.v ===== *)
(** * IEEE-754 binary64 arithmetic on integer-valued (scaled) floats

    Redis scores and the retry delays are Go [float64] values.  Every value the
    program builds is a dyadic rational, so a float is represented by an integer
    in a fixed binary unit (1 for scores, [2^-54] for delays) and an operation is
    the exact integer result rounded to 53 significant bits, ties to even.  No
    value comes near the exponent limits of binary64. *)
From S2P Require Import Prelude.
From Stdlib Require Import ZArith Lia.
From stdpp Require Import base numbers decidable.

Open Scope Z_scope.

(** Round [x >= 0] to a multiple of [2^e] ([e > 0]), half to even. *)
Definition round_at (x e : Z) : Z :=
  let q := x / 2 ^ e in
  let r := x mod 2 ^ e in
  let half := 2 ^ (e - 1) in
  (if r <? half then q
   else if half <? r then q + 1
   else if Z.even q then q else q + 1) * 2 ^ e.

(** The binary64 nearest to an integer: numbers below [2^53] are exact. *)
Definition f64 (x : Z) : Z :=
  let round_pos y :=
    let e := Z.log2 y - 52 in
    if e <=? 0 then y else round_at y e in
  if x <? 0 then - round_pos (- x) else round_pos x.

(** ** Rounding at one exponent *)

Lemma round_at_bounds x e :
  0 < e → 0 ≤ x → (x / 2 ^ e) * 2 ^ e ≤ round_at x e ≤ (x / 2 ^ e + 1) * 2 ^ e.
Proof.
  intros He Hx. unfold round_at.
  assert (0 < 2 ^ e) by lia.
  destruct (_ <? _); [nia|]. destruct (_ <? _); [nia|]. destruct (Z.even _); nia.
Qed.

(** The rounding error is at most half a unit. *)
Lemma round_at_error x e :
  0 < e → 0 ≤ x → x - 2 ^ (e - 1) ≤ round_at x e ≤ x + 2 ^ (e - 1).
Proof.
  intros He Hx. unfold round_at.
  assert (Hp : 2 ^ e = 2 * 2 ^ (e - 1)).
  { rewrite <- Z.pow_succ_r by lia. f_equal. lia. }
  assert (0 < 2 ^ (e - 1)) by lia.
  pose proof (Z.div_mod x (2 ^ e) ltac:(lia)) as Hd.
  pose proof (Z.mod_pos_bound x (2 ^ e) ltac:(lia)).
  repeat case_bool; zbool; nia.
Qed.

Lemma round_at_mono x y e :
  0 < e → 0 ≤ x ≤ y → round_at x e ≤ round_at y e.
Proof.
  intros He [Hx Hxy].
  assert (0 < 2 ^ e) by lia.
  pose proof (Z.div_le_mono x y (2 ^ e) ltac:(lia) Hxy) as Hq.
  destruct (decide (x / 2 ^ e = y / 2 ^ e)) as [Heq|Hne].
  - unfold round_at. rewrite <- Heq.
    pose proof (Z.div_mod x (2 ^ e) ltac:(lia)) as Hdx.
    pose proof (Z.div_mod y (2 ^ e) ltac:(lia)) as Hdy.
    rewrite <- Heq in Hdy.
    repeat case_bool; zbool; nia.
  - pose proof (round_at_bounds x e He Hx).
    pose proof (round_at_bounds y e He ltac:(lia)). nia.
Qed.

(** ** The rounding of nonnegative numbers *)

Definition f64_pos (y : Z) : Z :=
  let e := Z.log2 y - 52 in if e <=? 0 then y else round_at y e.

Lemma f64_nonneg x : 0 ≤ x → f64 x = f64_pos x.
Proof. intros. unfold f64, f64_pos. destruct (x <? 0) eqn:E; zbool; [lia|done]. Qed.

Lemma f64_opp x : f64 (- x) = - f64 x.
Proof.
  unfold f64. destruct (- x <? 0) eqn:E1, (x <? 0) eqn:E2; zbool; try lia.
  - by rewrite Z.opp_involutive.
  - assert (x = 0) as -> by lia. done.
Qed.

Lemma f64_pos_pow_lower y : 2 ^ 53 ≤ y → 2 ^ Z.log2 y ≤ f64_pos y.
Proof.
  intros Hy. unfold f64_pos.
  assert (Hl : 53 ≤ Z.log2 y) by (apply Z.log2_le_pow2; lia).
  destruct (_ <=? 0) eqn:E; zbool; [lia|].
  pose proof (round_at_bounds y (Z.log2 y - 52) ltac:(lia) ltac:(lia)) as [Hb _].
  pose proof (Z.log2_spec y ltac:(lia)) as [Hs _].
  assert (2 ^ Z.log2 y = 2 ^ 52 * 2 ^ (Z.log2 y - 52)) as Hp.
  { rewrite <- Z.pow_add_r by lia. f_equal. lia. }
  assert (2 ^ 52 ≤ y / 2 ^ (Z.log2 y - 52)).
  { apply Z.div_le_lower_bound; lia. }
  nia.
Qed.

Lemma f64_pos_pow_upper y : 2 ^ 53 ≤ y → f64_pos y ≤ 2 ^ (Z.log2 y + 1).
Proof.
  intros Hy. unfold f64_pos.
  assert (Hl : 53 ≤ Z.log2 y) by (apply Z.log2_le_pow2; lia).
  destruct (_ <=? 0) eqn:E; zbool; [lia|].
  pose proof (round_at_bounds y (Z.log2 y - 52) ltac:(lia) ltac:(lia)) as [_ Hb].
  pose proof (Z.log2_spec y ltac:(lia)) as [_ Hs].
  assert (2 ^ (Z.log2 y + 1) = 2 ^ 53 * 2 ^ (Z.log2 y - 52)) as Hp.
  { rewrite <- Z.pow_add_r by lia. f_equal. lia. }
  assert (y / 2 ^ (Z.log2 y - 52) < 2 ^ 53).
  { apply Z.div_lt_upper_bound; [lia|]. rewrite Z.mul_comm, <- Hp.
    replace (Z.log2 y + 1) with (Z.succ (Z.log2 y)) by lia. done. }
  assert (0 < 2 ^ (Z.log2 y - 52)) by lia. nia.
Qed.

Lemma f64_pos_small y : 0 ≤ y < 2 ^ 53 → f64_pos y = y.
Proof.
  intros [H0 H1]. unfold f64_pos.
  destruct (decide (y = 0)) as [->|Hne]; [done|].
  assert (Z.log2 y < 53) by (apply Z.log2_lt_pow2; lia).
  destruct (_ <=? 0) eqn:E; zbool; [done|lia].
Qed.

Lemma f64_pos_mono x y : 0 ≤ x ≤ y → f64_pos x ≤ f64_pos y.
Proof.
  intros [Hx Hxy].
  destruct (decide (y < 2 ^ 53)); [rewrite !f64_pos_small; lia|].
  destruct (decide (x < 2 ^ 53)).
  { rewrite (f64_pos_small x) by lia.
    pose proof (f64_pos_pow_lower y ltac:(lia)).
    assert (2 ^ 53 ≤ 2 ^ Z.log2 y).
    { apply Z.pow_le_mono_r; [lia|]. apply Z.log2_le_pow2; lia. }
    lia. }
  pose proof (Z.log2_le_mono x y Hxy).
  assert (53 ≤ Z.log2 x) by (apply Z.log2_le_pow2; lia).
  destruct (decide (Z.log2 x = Z.log2 y)) as [Heq|Hne].
  - unfold f64_pos. rewrite <- Heq.
    destruct (_ <=? 0) eqn:E; zbool; [lia|]. apply round_at_mono; lia.
  - pose proof (f64_pos_pow_upper x ltac:(lia)).
    pose proof (f64_pos_pow_lower y ltac:(lia)).
    assert (2 ^ (Z.log2 x + 1) ≤ 2 ^ Z.log2 y) by (apply Z.pow_le_mono_r; lia). lia.
Qed.

(** ** The properties the clients use *)

Lemma f64_nonneg_le x : 0 ≤ x → 0 ≤ f64 x.
Proof.
  intros. rewrite f64_nonneg by done.
  pose proof (f64_pos_mono 0 x ltac:(lia)). rewrite (f64_pos_small 0) in *; lia.
Qed.

Lemma f64_mono x y : x ≤ y → f64 x ≤ f64 y.
Proof.
  intros Hxy.
  destruct (decide (0 ≤ x)) as [Hx|Hx].
  { rewrite !f64_nonneg by lia. apply f64_pos_mono. lia. }
  destruct (decide (0 ≤ y)) as [Hy|Hy].
  { pose proof (f64_nonneg_le y Hy). pose proof (f64_nonneg_le (- x) ltac:(lia)).
    rewrite f64_opp in *. lia. }
  pose proof (f64_pos_mono (- y) (- x) ltac:(lia)) as H.
  rewrite <- !f64_nonneg, !f64_opp in H by lia. lia.
Qed.

Lemma f64_exact x : - 2 ^ 53 < x < 2 ^ 53 → f64 x = x.
Proof.
  intros H. destruct (decide (0 ≤ x)).
  - rewrite f64_nonneg, f64_pos_small; lia.
  - assert (f64 (- x) = - x) as Hf by (rewrite f64_nonneg, f64_pos_small; lia).
    rewrite f64_opp in Hf. lia.
Qed.

(** A 53-bit integer scaled by a power of two is representable. *)
Lemma f64_scaled m k : 0 ≤ k → - 2 ^ 53 < m < 2 ^ 53 → f64 (m * 2 ^ k) = m * 2 ^ k.
Proof.
  intros Hk Hm.
  assert (Hpos : ∀ n, 0 ≤ n < 2 ^ 53 → f64 (n * 2 ^ k) = n * 2 ^ k).
  { intros n Hn. assert (0 < 2 ^ k) by lia.
    rewrite f64_nonneg by nia. unfold f64_pos.
    destruct (_ <=? 0) eqn:E; [done|]. zbool.
    destruct (decide (n = 0)) as [->|Hne]; [done|].
    assert (Hlog : Z.log2 (n * 2 ^ k) = Z.log2 n + k)
      by (rewrite Z.log2_mul_pow2; lia).
    rewrite Hlog in *. set (e := Z.log2 n + k - 52) in *.
    assert (Z.log2 n < 53) by (apply Z.log2_lt_pow2; lia).
    assert (He : n * 2 ^ k = (n * 2 ^ (k - e)) * 2 ^ e).
    { rewrite <- Z.mul_assoc, <- Z.pow_add_r by lia.
      by replace (k - e + e) with k by lia. }
    rewrite He. unfold round_at.
    rewrite Z.mod_mul, Z.div_mul by lia.
    assert (0 < 2 ^ (e - 1)) by lia.
    destruct (0 <? 2 ^ (e - 1)) eqn:E2; zbool; lia. }
  destruct (decide (0 ≤ m)); [apply Hpos; lia|].
  specialize (Hpos (- m) ltac:(lia)).
  rewrite Z.mul_opp_l, f64_opp in Hpos. lia.
Qed.

(** Below [2^k] the rounding error is at most [2^(k-54)]. *)
Lemma f64_error x k : 53 < k → 0 ≤ x < 2 ^ k → x - 2 ^ (k - 54) ≤ f64 x ≤ x + 2 ^ (k - 54).
Proof.
  intros Hk Hx. rewrite f64_nonneg by lia. unfold f64_pos.
  assert (0 < 2 ^ (k - 54)) by lia.
  destruct (_ <=? 0) eqn:E; zbool; [lia|].
  destruct (decide (x = 0)) as [->|Hne]; [done|].
  assert (Z.log2 x < k) by (apply Z.log2_lt_pow2; lia).
  pose proof (round_at_error x (Z.log2 x - 52) ltac:(lia) ltac:(lia)) as Hr.
  assert (2 ^ (Z.log2 x - 52 - 1) ≤ 2 ^ (k - 54)) by (apply Z.pow_le_mono_r; lia). lia.
Qed.

#[export] Hint Resolve f64_mono f64_nonneg_le : insider.
