(* ===== verification/GoLib.v ===== *)
(** * The parts of Go's standard library the program's results depend on

    Decimal formatting ([fmt]'s [%d], [strconv.Atoi]), [strings.Join],
    [time.Duration.String] and the JSON value tree that [encoding/json] reads
    and writes.  Times are nanoseconds since the Unix epoch (an integer). *)
From S2P Require Import Prelude.
From Stdlib Require Import ZArith Lia Ascii.
From stdpp Require Import base numbers list strings pretty.

Open Scope Z_scope.

(** ** Durations, in nanoseconds *)

Definition Microsecond : Z := 1000.
Definition Millisecond : Z := 1000 * Microsecond.
Definition Second : Z := 1000 * Millisecond.
Definition Minute : Z := 60 * Second.

(** [fmt.Sprintf("%d", z)]. *)
Definition fmt_d (z : Z) : string := pretty z.

(** [strings.Join]. *)
Fixpoint strings_Join (l : list string) (sep : string) : string :=
  match l with
  | [] => ""
  | [s] => s
  | s :: l' => s +:+ sep +:+ strings_Join l' sep
  end.

(** ** Decimal parsing *)

Definition digit_val (c : ascii) : option Z :=
  let n := Z.of_nat (nat_of_ascii c) in
  if (48 <=? n) && (n <=? 57) then Some (n - 48) else None.

Fixpoint parse_digits (acc : Z) (s : string) : option Z :=
  match s with
  | EmptyString => Some acc
  | String c s' => match digit_val c with
                   | Some d => parse_digits (acc * 10 + d) s'
                   | None => None
                   end
  end.

(** [strconv.Atoi]: an optional sign, one or more digits, in the range of [int]
    (None is a non-nil error). *)
Definition strconv_Atoi (s : string) : option Z :=
  let signed := match s with
                | String "-" s' => Some (-1, s')
                | String "+" s' => Some (1, s')
                | _ => Some (1, s)
                end in
  match signed with
  | Some (_, EmptyString) | None => None
  | Some (sg, ds) =>
      match parse_digits 0 ds with
      | Some v => let z := sg * v in
                  if (int64_min <=? z) && (z <=? int64_max) then Some z else None
      | None => None
      end
  end.

(** ** [time.Duration.String] *)

Definition digit_char (d : Z) : ascii := ascii_of_nat (Z.to_nat (48 + d)).

(** The [prec] digits of [v / 10^prec]'s fraction without trailing zeros,
    preceded by a point unless none is left ([fmtFrac]). *)
Fixpoint frac_digits (v : Z) (prec : nat) (acc : string) : string :=
  match prec with
  | O => match acc with EmptyString => "" | _ => String "." acc end
  | S p => let d := v mod 10 in
           let acc' := if (d =? 0) && (String.eqb acc "") then "" else String (digit_char d) acc in
           frac_digits (v / 10) p acc'
  end.

Definition Duration_String (d : Z) : string :=
  let u := Z.abs d in
  let sign := if d <? 0 then "-"%string else ""%string in
  if u =? 0 then "0s"
  else if u <? Microsecond then sign +:+ fmt_d u +:+ "ns"
  else if u <? Millisecond then sign +:+ fmt_d (u / 1000) +:+ frac_digits u 3 "" +:+ "µs"
  else if u <? Second then sign +:+ fmt_d (u / 10 ^ 6) +:+ frac_digits u 6 "" +:+ "ms"
  else
    let s := u / Second in
    let secs := fmt_d (s mod 60) +:+ frac_digits u 9 "" +:+ "s" in
    let m := s / 60 in
    if m =? 0 then sign +:+ secs
    else let h := m / 60 in
         if h =? 0 then sign +:+ fmt_d m +:+ "m" +:+ secs
         else sign +:+ fmt_d h +:+ "h" +:+ fmt_d (m mod 60) +:+ "m" +:+ secs.

Example duration_4s : Duration_String (4 * Second) = "4s". Proof. reflexivity. Qed.
Example duration_ms : Duration_String 1050000 = "1.05ms". Proof. reflexivity. Qed.
Example duration_hms : Duration_String (3661 * Second + 500 * Millisecond) = "1h1m1.5s".
Proof. reflexivity. Qed.

(** ** JSON values

    The tree [encoding/json] encodes to or decodes from; a number is kept as the
    text of its literal. *)
#[local] Unset Elimination Schemes.
Inductive json : Type :=
| JNull
| JBool (b : bool)
| JNum (literal : string)
| JStr (s : string)
| JArr (l : list json)
| JObj (fields : list (string * json)).
#[local] Set Elimination Schemes.

Definition JInt (z : Z) : json := JNum (fmt_d z).
