(* ===== verification/GoJson.v ===== *)
(** * [encoding/json]: text and values

    The compact printer of [json.Marshal] and the parser behind [json.Unmarshal]
    and [Decoder.Decode], on the value tree [json] of [GoLib].  Strings are byte
    strings of valid UTF-8: bytes from 128 up are copied in both directions.
    The parser's recursion is bounded by a fuel, one unit per nesting level and
    per member; the length of the input is always enough ([json_Unmarshal]). *)
From S2P Require Import Prelude GoLib.
From Stdlib Require Import ZArith Lia Ascii Sorted OrdersEx.
From stdpp Require Import base numbers list strings.

Open Scope Z_scope.

Definition byte_of (c : ascii) : Z := Z.of_nat (nat_of_ascii c).
Definition DQ : ascii := ascii_of_nat 34.
Definition BS : ascii := ascii_of_nat 92.

(** ** Printing *)

Definition hex_char (z : Z) : ascii :=
  ascii_of_nat (Z.to_nat (if z <? 10 then 48 + z else 87 + z)).

(** [\u00XY] *)
Definition u_escape (n : Z) : string :=
  String BS (String "u" (String "0" (String "0"
    (String (hex_char (n / 16)) (String (hex_char (n mod 16)) EmptyString))))).

Definition escape_char (c : ascii) : string :=
  let n := byte_of c in
  if (n =? 34) || (n =? 92) then String BS (String c EmptyString)
  else if n =? 8 then String BS "b"
  else if n =? 12 then String BS "f"
  else if n =? 10 then String BS "n"
  else if n =? 13 then String BS "r"
  else if n =? 9 then String BS "t"
  else if (n <? 32) || (n =? 60) || (n =? 62) || (n =? 38) then u_escape n
  else String c EmptyString.

Fixpoint escape_string (s : string) : string :=
  match s with
  | EmptyString => EmptyString
  | String c s' => escape_char c +:+ escape_string s'
  end.

Definition json_quote (s : string) : string := String DQ (escape_string s +:+ String DQ EmptyString).

Fixpoint json_Marshal (j : json) : string :=
  match j with
  | JNull => "null"
  | JBool b => if b then "true" else "false"
  | JNum l => l
  | JStr s => json_quote s
  | JArr l => "[" +:+ strings_Join (json_Marshal <$> l) "," +:+ "]"
  | JObj fs =>
      "{" +:+ strings_Join ((λ '(k, v), json_quote k +:+ ":" +:+ json_Marshal v) <$> fs) "," +:+ "}"
  end.

(** ** Parsing *)

Definition is_ws (c : ascii) : bool :=
  let n := byte_of c in (n =? 32) || (n =? 9) || (n =? 10) || (n =? 13).

Fixpoint skip_ws (s : string) : string :=
  match s with
  | String c s' => if is_ws c then skip_ws s' else s
  | EmptyString => EmptyString
  end.

Fixpoint cut_prefix (p s : string) : option string :=
  match p, s with
  | EmptyString, _ => Some s
  | String c p', String c' s' => if Ascii.eqb c c' then cut_prefix p' s' else None
  | String _ _, EmptyString => None
  end.

Definition hex_val (c : ascii) : option Z :=
  let n := byte_of c in
  if (48 <=? n) && (n <=? 57) then Some (n - 48)
  else if (97 <=? n) && (n <=? 102) then Some (n - 87)
  else if (65 <=? n) && (n <=? 70) then Some (n - 55)
  else None.

Definition hex4 (s : string) : option (Z * string) :=
  match s with
  | String a (String b (String c (String d s'))) =>
      a ← hex_val a; b ← hex_val b; c ← hex_val c; d ← hex_val d;
      Some (((a * 16 + b) * 16 + c) * 16 + d, s')
  | _ => None
  end.

Definition chr (z : Z) : ascii := ascii_of_nat (Z.to_nat z).

(** The UTF-8 encoding of a code point. *)
Definition utf8 (r : Z) : string :=
  if r <? 128 then String (chr r) EmptyString
  else if r <? 2048 then
    String (chr (192 + r / 64)) (String (chr (128 + r mod 64)) EmptyString)
  else if r <? 65536 then
    String (chr (224 + r / 4096))
      (String (chr (128 + r / 64 mod 64)) (String (chr (128 + r mod 64)) EmptyString))
  else
    String (chr (240 + r / 262144))
      (String (chr (128 + r / 4096 mod 64))
        (String (chr (128 + r / 64 mod 64)) (String (chr (128 + r mod 64)) EmptyString))).

(** [\uXXXX] after the [u]: a surrogate pair is one code point, half of one is
    U+FFFD. *)
Definition parse_u (s : string) : option (string * string) :=
  '(r, s1) ← hex4 s;
  if (55296 <=? r) && (r <? 57344) then
    match cut_prefix (String BS "u") s1 with
    | Some s2 =>
        match hex4 s2 with
        | Some (r2, s3) =>
            if (r <? 56320) && (56320 <=? r2) && (r2 <? 57344)
            then Some (utf8 (65536 + (r - 55296) * 1024 + (r2 - 56320)), s3)
            else Some (utf8 65533, s1)
        | None => Some (utf8 65533, s1)
        end
    | None => Some (utf8 65533, s1)
    end
  else Some (utf8 r, s1).

(** The rest of a string literal, after the opening quote. *)
Fixpoint parse_string (fuel : nat) (s : string) : option (string * string) :=
  match fuel with
  | O => None
  | S fuel' =>
      match s with
      | EmptyString => None
      | String c s' =>
          let n := byte_of c in
          if n =? 34 then Some (EmptyString, s')
          else if n =? 92 then
            match s' with
            | EmptyString => None
            | String e s2 =>
                let m := byte_of e in
                let simple z := '(r, rest) ← parse_string fuel' s2; Some (String (chr z) r, rest) in
                if (m =? 34) || (m =? 92) || (m =? 47) then simple m
                else if m =? 98 then simple 8
                else if m =? 102 then simple 12
                else if m =? 110 then simple 10
                else if m =? 114 then simple 13
                else if m =? 116 then simple 9
                else if m =? 117 then
                  '(u, s3) ← parse_u s2;
                  '(r, rest) ← parse_string fuel' s3; Some (u +:+ r, rest)
                else None
            end
          else if n <? 32 then None
          else '(r, rest) ← parse_string fuel' s'; Some (String c r, rest)
      end
  end.

(** Numbers: the longest run of number characters, checked against the grammar. *)
Definition is_num_char (c : ascii) : bool :=
  let n := byte_of c in
  ((48 <=? n) && (n <=? 57)) || (n =? 43) || (n =? 45) || (n =? 46) || (n =? 69) || (n =? 101).

Fixpoint span_num (s : string) : string * string :=
  match s with
  | String c s' => if is_num_char c then let '(a, b) := span_num s' in (String c a, b)
                   else (EmptyString, s)
  | EmptyString => (EmptyString, EmptyString)
  end.

Fixpoint drop_digits (s : string) : string :=
  match s with
  | String c s' => match digit_val c with Some _ => drop_digits s' | None => s end
  | EmptyString => EmptyString
  end.

Definition digits1 (s : string) : option string :=
  match s with
  | String c s' => match digit_val c with Some _ => Some (drop_digits s') | None => None end
  | EmptyString => None
  end.

Definition valid_exp (s : string) : bool :=
  match s with
  | EmptyString => true
  | String c s' =>
      ((byte_of c =? 101) || (byte_of c =? 69)) &&
      match s' with
      | String sg s2 =>
          match digits1 (if (byte_of sg =? 43) || (byte_of sg =? 45) then s2 else s') with
          | Some EmptyString => true
          | _ => false
          end
      | EmptyString => false
      end
  end.

Definition valid_number (l : string) : bool :=
  let s := match cut_prefix "-" l with Some s => s | None => l end in
  let int := match s with
             | String "0" s' => Some s'
             | _ => digits1 s
             end in
  match int with
  | Some s1 =>
      match cut_prefix "." s1 with
      | Some s2 => match digits1 s2 with Some s3 => valid_exp s3 | None => false end
      | None => valid_exp s1
      end
  | None => false
  end.

Fixpoint parse_value (fuel : nat) (s : string) : option (json * string) :=
  match fuel with
  | O => None
  | S fuel' =>
      match skip_ws s with
      | EmptyString => None
      | String c s' =>
          let n := byte_of c in
          if n =? 34 then
            '(t, rest) ← parse_string (S (String.length s')) s'; Some (JStr t, rest)
          else if n =? 123 then
            match skip_ws s' with
            | String d rest => if byte_of d =? 125 then Some (JObj [], rest)
                               else '(fs, rest) ← parse_members fuel' s'; Some (JObj fs, rest)
            | EmptyString => None
            end
          else if n =? 91 then
            match skip_ws s' with
            | String d rest => if byte_of d =? 93 then Some (JArr [], rest)
                               else '(l, rest) ← parse_elements fuel' s'; Some (JArr l, rest)
            | EmptyString => None
            end
          else if n =? 110 then rest ← cut_prefix "ull" s'; Some (JNull, rest)
          else if n =? 116 then rest ← cut_prefix "rue" s'; Some (JBool true, rest)
          else if n =? 102 then rest ← cut_prefix "alse" s'; Some (JBool false, rest)
          else
            let '(l, rest) := span_num (String c s') in
            if valid_number l then Some (JNum l, rest) else None
      end
  end
with parse_members (fuel : nat) (s : string) : option (list (string * json) * string) :=
  match fuel with
  | O => None
  | S fuel' =>
      match skip_ws s with
      | String c s' =>
          if byte_of c =? 34 then
            '(k, s1) ← parse_string (S (String.length s')) s';
            s2 ← cut_prefix ":" (skip_ws s1);
            '(v, s3) ← parse_value fuel' s2;
            match skip_ws s3 with
            | String d rest =>
                if byte_of d =? 44 then
                  '(fs, rest) ← parse_members fuel' rest; Some ((k, v) :: fs, rest)
                else if byte_of d =? 125 then Some ([(k, v)], rest)
                else None
            | EmptyString => None
            end
          else None
      | EmptyString => None
      end
  end
with parse_elements (fuel : nat) (s : string) : option (list json * string) :=
  match fuel with
  | O => None
  | S fuel' =>
      '(v, s1) ← parse_value fuel' s;
      match skip_ws s1 with
      | String d rest =>
          if byte_of d =? 44 then '(l, rest) ← parse_elements fuel' rest; Some (v :: l, rest)
          else if byte_of d =? 93 then Some ([v], rest)
          else None
      | EmptyString => None
      end
  end.

(** [json.NewDecoder(r).Decode(&v)] reads one value and leaves the rest. *)
Definition json_Decode (s : string) : option json := fst <$> parse_value (S (String.length s)) s.

(** [json.Unmarshal]: nothing but white space may follow. *)
Definition json_Unmarshal (s : string) : option json :=
  match parse_value (S (String.length s)) s with
  | Some (j, rest) => match skip_ws rest with EmptyString => Some j | _ => None end
  | None => None
  end.

Example unmarshal_nested :
  json_Unmarshal (" {" +:+ json_quote "a" +:+ " : [1, -2.5e3,null ], " +:+
    json_quote "b" +:+ ":{}, " +:+ json_quote "c" +:+ ": " +:+ json_quote "q" +:+ " }")
  = Some (JObj [("a", JArr [JNum "1"; JNum "-2.5e3"; JNull]); ("b", JObj []); ("c", JStr "q")]).
Proof. reflexivity. Qed.
Example unmarshal_bad_number : json_Unmarshal "[01]" = None. Proof. reflexivity. Qed.
Example unmarshal_trailing : json_Unmarshal "1 2" = None. Proof. reflexivity. Qed.
Example decode_trailing : json_Decode "1 2" = Some (JNum "1"). Proof. reflexivity. Qed.

(** ** The parser reads back what the printer wrote *)

Section json_induction.
Variable P : json → Prop.
Hypothesis HNull : P JNull.
Hypothesis HBool : ∀ b, P (JBool b).
Hypothesis HNum : ∀ l, P (JNum l).
Hypothesis HStr : ∀ s, P (JStr s).
Hypothesis HArr : ∀ l, Forall P l → P (JArr l).
Hypothesis HObj : ∀ fs, Forall (λ f, P f.2) fs → P (JObj fs).

Fixpoint json_nested_ind (j : json) : P j :=
  match j with
  | JNull => HNull
  | JBool b => HBool b
  | JNum l => HNum l
  | JStr s => HStr s
  | JArr l => HArr l ((fix go l : Forall P l :=
      match l with [] => Forall_nil_2 _ | x :: l' => Forall_cons_2 _ _ _ (json_nested_ind x) (go l') end) l)
  | JObj fs => HObj fs ((fix go fs : Forall (λ f, P f.2) fs :=
      match fs with
      | [] => Forall_nil_2 _
      | f :: fs' => Forall_cons_2 (λ f, P f.2) f fs' (json_nested_ind f.2) (go fs')
      end) fs)
  end.
End json_induction.

(** Number literals the parser accepts as a whole. *)
Definition num_literal (l : string) : bool :=
  valid_number l && String.eqb (span_num l).1 l && negb (String.eqb l "").

Fixpoint json_ok (j : json) : bool :=
  match j with
  | JNum l => num_literal l
  | JArr l => forallb json_ok l
  | JObj fs => forallb (λ f, json_ok f.2) fs
  | _ => true
  end.

(** What follows a value does not extend a number. *)
Definition ends_value (rest : string) : bool :=
  match rest with String c _ => negb (is_num_char c) | EmptyString => true end.

Lemma parse_escape_char fuel c t :
  parse_string (S fuel) (escape_char c +:+ t) =
    '(r, rest) ← parse_string fuel t; Some (String c r, rest).
Proof. destruct c as [[] [] [] [] [] [] [] []]; reflexivity. Qed.

Lemma parse_string_escape s rest fuel :
  (String.length s < fuel)%nat →
  parse_string fuel (escape_string s +:+ String DQ rest) = Some (s, rest).
Proof.
  revert fuel. induction s as [|c s IH]; intros [|fuel] Hf; try (simpl in Hf; lia); [done|].
  cbn [escape_string]. rewrite string_app_assoc, parse_escape_char, IH by (simpl in Hf; lia). done.
Qed.

(** The fuel a value needs; at most the length of its text. *)
Definition need (ws : list nat) : nat := foldr (λ w n, S (Nat.max w n)) O ws.

Fixpoint weight (j : json) : nat :=
  match j with
  | JArr l => S (need (weight <$> l))
  | JObj fs => S (need ((λ f, weight f.2) <$> fs))
  | _ => 1
  end.

Lemma length_app_string (a b : string) :
  String.length (a +:+ b) = (String.length a + String.length b)%nat.
Proof. induction a as [|c a IH]; [done|]. rewrite string_app_cons. simpl. by rewrite IH. Qed.

Lemma need_le_join {A} (w : A → nat) (g : A → string) (l : list A) :
  (∀ x, x ∈ l → w x ≤ String.length (g x))%nat →
  (need (w <$> l) ≤ 1 + String.length (strings_Join (g <$> l) ","))%nat.
Proof.
  induction l as [|x l IH]; intros Hw; [simpl; lia|].
  assert (Hx : (w x ≤ String.length (g x))%nat) by (apply Hw; left).
  assert (Hl : (need (w <$> l) ≤ 1 + String.length (strings_Join (g <$> l) ","))%nat)
    by (apply IH; intros; apply Hw; by right).
  destruct l as [|y l]; [simpl in *; lia|].
  change (strings_Join (g <$> x :: y :: l) ",") with (g x +:+ "," +:+ strings_Join (g <$> y :: l) ",").
  change (need (w <$> x :: y :: l)) with (S (Nat.max (w x) (need (w <$> y :: l)))).
  rewrite !length_app_string. simpl String.length in *. lia.
Qed.

Lemma Marshal_obj fs :
  json_Marshal (JObj fs) =
    "{" +:+ strings_Join ((λ f, json_quote f.1 +:+ ":" +:+ json_Marshal f.2) <$> fs) "," +:+ "}".
Proof. simpl. do 3 f_equal. apply list_fmap_ext. by intros ? [] ?. Qed.

Lemma Forall_ok_in {A} (Q : A → Prop) (ok : A → bool) l :
  Forall (λ x, ok x = true → Q x) l → forallb ok l = true → ∀ x, x ∈ l → ok x = true ∧ Q x.
Proof.
  rewrite Forall_forall, forallb_forall. intros HQ Hok x Hx.
  assert (ok x = true) by (apply Hok; by apply list_elem_of_In). auto.
Qed.

Lemma weight_le_length j : json_ok j = true → (weight j ≤ String.length (json_Marshal j))%nat.
Proof.
  induction j as [|b|l|s|l IH|fs IH] using json_nested_ind; intros Hok.
  - simpl. lia.
  - destruct b; simpl; lia.
  - simpl in *. unfold num_literal in Hok. rewrite !andb_true_iff, negb_true_iff in Hok.
    destruct l; [by destruct Hok|simpl; lia].
  - simpl. lia.
  - cbn [json_Marshal weight]. rewrite !length_app_string. simpl String.length.
    pose proof (need_le_join weight json_Marshal l) as Hn.
    pose proof (Forall_ok_in _ _ _ IH Hok) as Hall.
    specialize (Hn (λ x Hx, proj2 (Hall x Hx))). lia.
  - rewrite Marshal_obj. cbn [weight]. rewrite !length_app_string. simpl String.length.
    pose proof (need_le_join (λ f : string * json, weight f.2)
      (λ f, json_quote f.1 +:+ ":" +:+ json_Marshal f.2) fs) as Hn.
    pose proof (Forall_ok_in _ _ _ IH Hok) as Hall.
    opose proof (Hn _) as Hn'; [|lia].
    intros x Hx. rewrite !length_app_string. pose proof (proj2 (Hall x Hx)). simpl. lia.
Qed.

(** A printed value starts with neither white space nor a closing bracket. *)
Lemma marshal_head j : json_ok j = true →
  ∃ c s, json_Marshal j = String c s ∧ is_ws c = false ∧ byte_of c ≠ 93.
Proof.
  intros Hok. destruct j as [|b|l|s|l|fs]; try (eexists _, _; by split_and!).
  - destruct b; eexists _, _; by split_and!.
  - simpl in Hok. unfold num_literal in Hok.
    rewrite !andb_true_iff, negb_true_iff in Hok. destruct Hok as [[_ Hspan] Hne].
    destruct l as [|c l]; [done|]. exists c, l. split; [done|].
    simpl in Hspan. destruct (is_num_char c) eqn:Hc; [|done].
    clear -Hc. unfold is_num_char, is_ws in *. split; [|]; zify; lia.
Qed.

Lemma span_num_app l rest :
  (span_num l).1 = l → ends_value rest = true → span_num (l +:+ rest) = (l, rest).
Proof.
  intros Hl Hr. induction l as [|c l IH].
  - rewrite string_app_nil. destruct rest as [|c rest]; [done|]. simpl in *.
    by destruct (is_num_char c).
  - rewrite string_app_cons. simpl in *. destruct (is_num_char c); [|done].
    destruct (span_num l) as [a b]. simpl in *. injection Hl as ->. by rewrite IH.
Qed.

Definition parses_back (j : json) : Prop := ∀ fuel rest,
  (weight j ≤ fuel)%nat → ends_value rest = true →
  parse_value fuel (json_Marshal j +:+ rest) = Some (j, rest).

Lemma parse_literal l rest fuel :
  num_literal l = true → ends_value rest = true →
  parse_value (S fuel) (l +:+ rest) = Some (JNum l, rest).
Proof.
  intros Hok Hr. unfold num_literal in Hok.
  rewrite !andb_true_iff, negb_true_iff, String.eqb_eq in Hok. destruct Hok as [[Hv Hs] Hne].
  destruct l as [|c l]; [done|].
  assert (Hc : is_num_char c = true) by (simpl in Hs; by destruct (is_num_char c)).
  assert (Hws : is_ws c = false) by (clear -Hc; unfold is_num_char, is_ws in *; lia).
  cbn [parse_value]. rewrite string_app_cons. cbn [skip_ws]. rewrite Hws.
  rewrite <- string_app_cons, span_num_app, Hv by done.
  clear -Hc. unfold is_num_char in Hc.
  repeat match goal with
  | |- context [if byte_of c =? ?k then _ else _] =>
      destruct (byte_of c =? k) eqn:E; [apply Z.eqb_eq in E; rewrite E in Hc; discriminate Hc|clear E]
  end. done.
Qed.

Lemma parse_quoted s rest fuel :
  parse_value (S fuel) (json_quote s +:+ rest) = Some (JStr s, rest).
Proof.
  unfold json_quote. rewrite string_app_cons, string_app_assoc, string_app_cons, string_app_nil.
  cbn [parse_value]. change (skip_ws (String DQ ?x)) with (String DQ x). cbn iota.
  change (byte_of DQ) with 34. cbn [Z.eqb Pos.eqb].
  rewrite parse_string_escape; [done|]. rewrite length_app_string.
  assert (String.length s ≤ String.length (escape_string s))%nat; [|simpl; lia].
  clear. induction s as [|c s IH]; [done|]. cbn [escape_string]. rewrite length_app_string. simpl.
  assert (1 ≤ String.length (escape_char c))%nat; [|lia].
  unfold escape_char. repeat case_bool; simpl; lia.
Qed.

Lemma parse_elements_back l rest fuel :
  Forall parses_back l → l ≠ [] → (need (weight <$> l) ≤ fuel)%nat →
  parse_elements fuel (strings_Join (json_Marshal <$> l) "," +:+ String "]" rest) = Some (l, rest).
Proof.
  revert fuel. induction l as [|j l IH]; [done|].
  intros fuel Hall _ Hf. inversion Hall as [|?? Hj Hl]; subst.
  destruct fuel as [|fuel]; [simpl in Hf; lia|].
  change (need (weight <$> j :: l)) with (S (Nat.max (weight j) (need (weight <$> l)))) in Hf.
  destruct l as [|j' l].
  - change (strings_Join (json_Marshal <$> [j]) ",") with (json_Marshal j).
    cbn [parse_elements]. rewrite Hj by (done || lia). reflexivity.
  - change (strings_Join (json_Marshal <$> j :: j' :: l) ",")
      with (json_Marshal j +:+ "," +:+ strings_Join (json_Marshal <$> j' :: l) ",").
    rewrite !string_app_assoc. cbn [parse_elements]. rewrite Hj by (done || lia).
    rewrite !string_app_cons, string_app_nil. 
    cbn [mbind option_bind]. change (skip_ws (String "," ?x)) with (String "," x).
    cbn iota. change (byte_of ",") with 44. cbn [Z.eqb Pos.eqb].
    rewrite IH by (done || lia). done.
Qed.

Lemma parse_members_back fs rest fuel :
  Forall (λ f, parses_back f.2) fs → fs ≠ [] → (need ((λ f, weight f.2) <$> fs) ≤ fuel)%nat →
  parse_members fuel
    (strings_Join ((λ f, json_quote f.1 +:+ ":" +:+ json_Marshal f.2) <$> fs) "," +:+ String "}" rest)
  = Some (fs, rest).
Proof.
  revert fuel. induction fs as [|[k v] fs IH]; [done|].
  intros fuel Hall _ Hf. inversion Hall as [|?? Hv Hl]; subst. cbn [fst snd] in Hv.
  destruct fuel as [|fuel]; [simpl in Hf; lia|].
  change (need ((λ f, weight f.2) <$> (k, v) :: fs))
    with (S (Nat.max (weight v) (need ((λ f, weight f.2) <$> fs)))) in Hf.
  assert (Hkey : ∀ t, parse_members (S fuel) (json_quote k +:+ ":" +:+ t) =
    '(v, s3) ← parse_value fuel t;
    match skip_ws s3 with
    | String d rest =>
        if byte_of d =? 44 then
          '(fs, rest) ← parse_members fuel rest; Some ((k, v) :: fs, rest)
        else if byte_of d =? 125 then Some ([(k, v)], rest)
        else None
    | EmptyString => None
    end).
  { intros t. pose proof (parse_quoted k (":" +:+ t) 0) as Hq. revert Hq.
    unfold json_quote. rewrite !string_app_cons, string_app_assoc, string_app_cons, !string_app_nil.
    cbn [parse_value parse_members]. change (skip_ws (String DQ ?x)) with (String DQ x).
    cbn iota. change (byte_of DQ) with 34. cbn [Z.eqb Pos.eqb].
    destruct (parse_string _ _) as [[k' s1]|]; [|done].
    cbn [mbind option_bind]. intros [= -> ->]. done. }
  destruct fs as [|[k' v'] fs].
  - change (strings_Join _ ",") with (json_quote k +:+ ":" +:+ json_Marshal v).
    rewrite !string_app_assoc, Hkey. rewrite Hv by (done || lia). reflexivity.
  - change (strings_Join ((λ f, json_quote f.1 +:+ ":" +:+ json_Marshal f.2) <$> (k, v) :: (k', v') :: fs) ",")
      with ((json_quote k +:+ ":" +:+ json_Marshal v) +:+ "," +:+
            strings_Join ((λ f, json_quote f.1 +:+ ":" +:+ json_Marshal f.2) <$> (k', v') :: fs) ",").
    rewrite !string_app_assoc, Hkey. rewrite Hv by (done || lia).
    cbn [mbind option_bind]. rewrite (string_app_cons ","), string_app_nil.
    change (skip_ws (String "," ?x)) with (String "," x).
    cbn iota. change (byte_of ",") with 44. cbn [Z.eqb Pos.eqb].
    rewrite IH by (done || lia). done.
Qed.

Lemma parse_value_Marshal j : json_ok j = true → parses_back j.
Proof.
  induction j as [|b|l|s|l IH|fs IH] using json_nested_ind; intros Hok [|fuel] rest Hf Hr;
    try (simpl in Hf; lia).
  - done.
  - by destruct b.
  - by apply parse_literal.
  - apply parse_quoted.
  - assert (Hall : Forall parses_back l)
      by (apply Forall_forall; intros x Hx; by apply (Forall_ok_in _ _ _ IH Hok)).
    cbn [weight] in Hf. destruct l as [|j l]; [done|].
    destruct (marshal_head j) as (c & s & Hm & Hws & Hc).
    { simpl in Hok. by apply andb_true_iff in Hok as [? _]. }
    pose proof (parse_elements_back (j :: l) rest fuel Hall ltac:(done) ltac:(lia)) as Hp.
    cbn [json_Marshal]. rewrite !string_app_assoc, !string_app_cons, !string_app_nil.
    cbn [parse_value]. change (skip_ws (String "[" ?x)) with (String "[" x).
    cbn iota. change (byte_of "[") with 91. cbn [Z.eqb Pos.eqb].
    rewrite Hp. cbn [mbind option_bind].
    assert (Hhead : ∃ t, strings_Join (json_Marshal <$> j :: l) "," +:+ String "]" rest = String c t).
    { destruct l as [|j' l]; simpl strings_Join; rewrite Hm; rewrite ?string_app_cons; by eexists. }
    destruct Hhead as [t ->]. cbn [skip_ws]. rewrite Hws.
    destruct (byte_of c =? 93) eqn:E; [by apply Z.eqb_eq in E|done].
  - assert (Hall : Forall (λ f, parses_back f.2) fs)
      by (apply Forall_forall; intros x Hx; by apply (Forall_ok_in _ _ _ IH Hok)).
    cbn [weight] in Hf. destruct fs as [|f fs]; [done|].
    pose proof (parse_members_back (f :: fs) rest fuel Hall ltac:(done) ltac:(lia)) as Hp.
    rewrite Marshal_obj. rewrite !string_app_assoc, !string_app_cons, !string_app_nil.
    cbn [parse_value]. change (skip_ws (String "{" ?x)) with (String "{" x).
    cbn iota. change (byte_of "{") with 123. cbn [Z.eqb Pos.eqb].
    rewrite Hp. cbn [mbind option_bind].
    assert (Hhead : ∃ t, strings_Join ((λ f, json_quote f.1 +:+ ":" +:+ json_Marshal f.2) <$> f :: fs) ","
      +:+ String "}" rest = String DQ t).
    { destruct fs as [|f' fs]; simpl strings_Join; unfold json_quote; rewrite ?string_app_cons; by eexists. }
    destruct Hhead as [t ->]. reflexivity.
Qed.

(** [json.Unmarshal] after [json.Marshal]. *)
Lemma Unmarshal_Marshal j : json_ok j = true → json_Unmarshal (json_Marshal j) = Some j.
Proof.
  intros Hok. unfold json_Unmarshal.
  pose proof (parse_value_Marshal j Hok (S (String.length (json_Marshal j))) "") as Hp.
  rewrite string_app_nil_r in Hp. rewrite Hp; [done| |done].
  pose proof (weight_le_length j Hok). lia.
Qed.

(** ** Into a [map[string]interface{}]

    A Go map has one value per key, the last one given, and is encoded with its keys in
    the order of their bytes.  Here it is that list of members. *)
Fixpoint map_set (k : string) (v : json) (m : list (string * json)) : list (string * json) :=
  match m with
  | [] => [(k, v)]
  | (k', v') :: m' =>
      match String_as_OT.compare k k' with
      | Eq => (k, v) :: m'
      | Lt => (k, v) :: m
      | Gt => (k', v') :: map_set k v m'
      end
  end.

Definition map_add (m fs : list (string * json)) : list (string * json) :=
  foldl (λ m f, map_set f.1 f.2 m) m fs.

(** The value of an [interface{}]: the objects in it are maps too. *)
Fixpoint go_value (j : json) : json :=
  match j with
  | JArr l => JArr (go_value <$> l)
  | JObj fs => JObj (map_add [] ((λ '(k, v), (k, go_value v)) <$> fs))
  | _ => j
  end.

Example go_value_last :
  go_value (JObj [("b", JNum "1"); ("a", JObj [("y", JNull); ("x", JNull)]); ("b", JNum "2")]) =
  JObj [("a", JObj [("x", JNull); ("y", JNull)]); ("b", JNum "2")].
Proof. reflexivity. Qed.

Definition keys_sorted : list (string * json) → Prop := StronglySorted (λ f g, String_as_OT.lt f.1 g.1).

Lemma key_after k k' : String_as_OT.lt k' k → String_as_OT.compare k k' = Gt.
Proof.
  intros Hlt. destruct (String_as_OT.compare_spec k k') as [->|Hlt'|_]; [| |done]; exfalso.
  - by eapply (irreflexivity String_as_OT.lt).
  - eapply (irreflexivity String_as_OT.lt k). by etransitivity.
Qed.

Lemma map_set_in k v m f : f ∈ map_set k v m → f = (k, v) ∨ f ∈ m.
Proof.
  induction m as [|[k' v'] m IH]; cbn [map_set].
  { intros ->%list_elem_of_singleton. by left. }
  destruct (String_as_OT.compare k k'); rewrite !elem_of_cons; [tauto..|].
  intros [->|[?|?]%IH]; tauto.
Qed.

Lemma map_add_in fs f : ∀ m, f ∈ map_add m fs → f ∈ m ∨ f ∈ fs.
Proof.
  induction fs as [|[k v] fs IH]; intros m Hf; [by left|].
  apply IH in Hf as [Hf|Hf]; rewrite elem_of_cons; [|tauto]. apply map_set_in in Hf as [->|?]; tauto.
Qed.

Lemma map_set_sorted k v m : keys_sorted m → keys_sorted (map_set k v m).
Proof.
  unfold keys_sorted. induction m as [|[k' v'] m IH]; intros Hs; cbn [map_set].
  { by repeat constructor. }
  apply StronglySorted_inv in Hs as [Hs Hall].
  destruct (String_as_OT.compare_spec k k') as [->|Hlt|Hgt].
  - by constructor.
  - constructor; [by constructor|]. constructor; [done|]. eapply Forall_impl; [exact Hall|].
    intros f Hf. cbn in *. by etransitivity.
  - constructor; [by apply IH|]. rewrite Forall_forall in Hall |- *. by intros f [->|Hf%Hall]%map_set_in.
Qed.

Lemma map_add_sorted fs : ∀ m, keys_sorted m → keys_sorted (map_add m fs).
Proof. induction fs as [|f fs IH]; intros m Hm; [done|]. by apply IH, map_set_sorted. Qed.

(** What is in order is appended. *)
Lemma map_add_in_order fs : ∀ m, keys_sorted (m ++ fs) → map_add m fs = m ++ fs.
Proof.
  induction fs as [|[k v] fs IH]; intros m Hs; cbn [map_add foldl]; [by rewrite app_nil_r|].
  assert (Hset : map_set k v m = m ++ [(k, v)]).
  { clear IH. induction m as [|[k' v'] m IHm]; [done|]. cbn [map_set app] in *.
    apply StronglySorted_inv in Hs as [Hs Hall]. rewrite key_after; [by rewrite IHm|].
    rewrite Forall_forall in Hall. apply (Hall (k, v)). apply elem_of_app. right. left. }
  change (foldl _ ?m0 fs) with (map_add m0 fs). cbn [fst snd]. rewrite Hset, IH; rewrite <- app_assoc; done.
Qed.

(** Reading a Go value back as one changes nothing. *)
Lemma go_value_idem j : go_value (go_value j) = go_value j.
Proof.
  induction j as [|b|l|s|l IH|fs IH] using json_nested_ind; try done; cbn [go_value]; f_equal.
  - rewrite <- list_fmap_compose. apply list_fmap_ext. intros i j Hj. by apply (Forall_lookup_1 _ _ _ _ IH Hj).
  - set (gs := (λ '(k, v), (k, go_value v)) <$> fs).
    assert (Hgs : ∀ f, f ∈ map_add [] gs → go_value f.2 = f.2).
    { intros f [Hf|Hf]%map_add_in; [by apply not_elem_of_nil in Hf|].
      apply list_elem_of_fmap in Hf as ([k v] & -> & Hf). cbn. rewrite Forall_forall in IH. by apply (IH (k, v)). }
    replace ((λ '(k, v), (k, go_value v)) <$> map_add [] gs) with (map_add [] gs).
    + apply (map_add_in_order _ []), map_add_sorted. constructor.
    + rewrite <- (list_fmap_id (map_add [] gs)) at 1. apply list_fmap_ext. intros i [k v] Hf%list_elem_of_lookup_2.
      cbn. f_equal. symmetry. by apply (Hgs (k, v)).
Qed.

Lemma go_value_ok j : json_ok j = true → json_ok (go_value j) = true.
Proof.
  induction j as [|b|l|s|l IH|fs IH] using json_nested_ind; intros Hok; try done; cbn [go_value json_ok] in *.
  - apply forallb_forall. intros x (y & -> & Hy)%list_elem_of_In%list_elem_of_fmap.
    rewrite Forall_forall in IH. apply IH; [done|]. rewrite forallb_forall in Hok. by apply Hok, list_elem_of_In.
  - apply forallb_forall. intros f Hf%list_elem_of_In. apply map_add_in in Hf as [Hf|Hf]; [by apply not_elem_of_nil in Hf|].
    apply list_elem_of_fmap in Hf as ([k v] & -> & Hf). cbn. rewrite Forall_forall in IH. apply (IH (k, v) Hf).
    rewrite forallb_forall in Hok. by apply (Hok (k, v)), list_elem_of_In.
Qed.

(** A [map[string]interface{}] or nil. *)
Definition is_map (j : json) : bool := match j with JNull | JObj _ => true | _ => false end.
