(* ===== verification/Domain.v ===== *)
(** * Domain entities (internal/domain, internal/queue/message.go,
      internal/repository/notification.go)

    Go's string types [Channel], [Priority] and [Status] are strings: a request
    can carry any value, and [Valid] decides which are accepted. *)
From S2P Require Import Prelude GoLib.
From Stdlib Require Import ZArith Lia.
From stdpp Require Import base numbers list strings gmap.

Open Scope Z_scope.

(** A 128-bit UUID, as a number. *)
Abbreviation uuid := N (only parsing).

(** ** Channel *)

Abbreviation Channel := string (only parsing).
Definition ChannelSMS : Channel := "sms".
Definition ChannelEmail : Channel := "email".
Definition ChannelPush : Channel := "push".

Definition Channel_Valid (c : Channel) : bool :=
  String.eqb c ChannelSMS || String.eqb c ChannelEmail || String.eqb c ChannelPush.

(** ** Priority *)

Abbreviation Priority := string (only parsing).
Definition PriorityHigh : Priority := "high".
Definition PriorityNormal : Priority := "normal".
Definition PriorityLow : Priority := "low".

Definition Priority_Valid (p : Priority) : bool :=
  String.eqb p PriorityHigh || String.eqb p PriorityNormal || String.eqb p PriorityLow.

Definition Priority_Score (p : Priority) : Z :=
  if String.eqb p PriorityHigh then 0
  else if String.eqb p PriorityNormal then 1
  else if String.eqb p PriorityLow then 2
  else 1.

(** ** Status *)

Abbreviation Status := string (only parsing).
Definition StatusPending : Status := "pending".
Definition StatusScheduled : Status := "scheduled".
Definition StatusQueued : Status := "queued".
Definition StatusProcessing : Status := "processing".
Definition StatusSent : Status := "sent".
Definition StatusFailed : Status := "failed".
Definition StatusCancelled : Status := "cancelled".

(** ** Entities *)

(** [TemplateVars] is the JSON of the Go map: [JNull] for a nil map, otherwise an
    object, its members in the order of their keys. *)
Record Notification := mkNotification {
  n_ID : uuid;
  n_BatchID : option uuid;
  n_IdempotencyKey : option string;
  n_Recipient : string;
  n_Channel : Channel;
  n_Content : string;
  n_Priority : Priority;
  n_Status : Status;
  n_TemplateID : option uuid;
  n_TemplateVars : json;
  n_ScheduledAt : option Z;
  n_ProviderMsgID : option string;
  n_Attempts : Z;
  n_MaxAttempts : Z;
  n_LastError : option string;
  n_SentAt : option Z;
  n_CreatedAt : Z;
  n_UpdatedAt : Z;
}.

Record Template := mkTemplate {
  t_ID : uuid;
  t_Name : string;
  t_Channel : Channel;
  t_Content : string;
  t_Variables : option (list string);
  t_CreatedAt : Z;
  t_UpdatedAt : Z;
}.

(** internal/queue/message.go *)
Record Message := mkMessage {
  m_NotificationID : uuid;
  m_Channel : Channel;
  m_Priority : Priority;
  m_ScheduledAt : option Z;
}.

(** internal/repository/notification.go *)
Record NotificationFilter := mkFilter {
  f_Channel : option Channel;
  f_Status : option Status;
  f_Priority : option Priority;
  f_Limit : Z;
  f_Offset : Z;
  f_Cursor : option Z;
}.

#[export] Instance Message_eq_dec : EqDecision Message.
Proof. solve_decision. Defined.

(** Field updates: Go assigns to one field of a struct. *)
Definition set_Status (s : Status) (n : Notification) : Notification :=
  {| n_ID := n_ID n; n_BatchID := n_BatchID n; n_IdempotencyKey := n_IdempotencyKey n;
     n_Recipient := n_Recipient n; n_Channel := n_Channel n; n_Content := n_Content n;
     n_Priority := n_Priority n; n_Status := s; n_TemplateID := n_TemplateID n;
     n_TemplateVars := n_TemplateVars n; n_ScheduledAt := n_ScheduledAt n;
     n_ProviderMsgID := n_ProviderMsgID n; n_Attempts := n_Attempts n;
     n_MaxAttempts := n_MaxAttempts n; n_LastError := n_LastError n; n_SentAt := n_SentAt n;
     n_CreatedAt := n_CreatedAt n; n_UpdatedAt := n_UpdatedAt n |}.

Definition set_Attempts (a : Z) (n : Notification) : Notification :=
  {| n_ID := n_ID n; n_BatchID := n_BatchID n; n_IdempotencyKey := n_IdempotencyKey n;
     n_Recipient := n_Recipient n; n_Channel := n_Channel n; n_Content := n_Content n;
     n_Priority := n_Priority n; n_Status := n_Status n; n_TemplateID := n_TemplateID n;
     n_TemplateVars := n_TemplateVars n; n_ScheduledAt := n_ScheduledAt n;
     n_ProviderMsgID := n_ProviderMsgID n; n_Attempts := a;
     n_MaxAttempts := n_MaxAttempts n; n_LastError := n_LastError n; n_SentAt := n_SentAt n;
     n_CreatedAt := n_CreatedAt n; n_UpdatedAt := n_UpdatedAt n |}.

Definition set_BatchID (b : option uuid) (n : Notification) : Notification :=
  {| n_ID := n_ID n; n_BatchID := b; n_IdempotencyKey := n_IdempotencyKey n;
     n_Recipient := n_Recipient n; n_Channel := n_Channel n; n_Content := n_Content n;
     n_Priority := n_Priority n; n_Status := n_Status n; n_TemplateID := n_TemplateID n;
     n_TemplateVars := n_TemplateVars n; n_ScheduledAt := n_ScheduledAt n;
     n_ProviderMsgID := n_ProviderMsgID n; n_Attempts := n_Attempts n;
     n_MaxAttempts := n_MaxAttempts n; n_LastError := n_LastError n; n_SentAt := n_SentAt n;
     n_CreatedAt := n_CreatedAt n; n_UpdatedAt := n_UpdatedAt n |}.

(** ** Errors (internal/domain/errors.go and wrapping)

    The sentinel errors are constructors; [EPg] is a [*pgconn.PgError] with its
    SQLSTATE code, [ENoRows] is [pgx.ErrNoRows], [EOther] any other error value,
    and [EWrap p e] is [fmt.Errorf("<p>: %w", e)]. *)
Inductive error : Type :=
| ErrNotFound | ErrDuplicateKey | ErrInvalidChannel | ErrInvalidPriority
| ErrInvalidRecipient | ErrInvalidContent | ErrNotCancellable | ErrBatchTooLarge
| ErrTemplateNotFound | ErrTemplateMissingVar | ErrRateLimited | ErrCircuitOpen
| ENoRows
| EPg (code : string) (msg : string)
| EOther (msg : string)
| EWrap (prefix : string) (e : error).

(** [err.Error()]. *)
Fixpoint Error (e : error) : string :=
  match e with
  | ErrNotFound => "not found"
  | ErrDuplicateKey => "duplicate idempotency key"
  | ErrInvalidChannel => "invalid channel: must be sms, email, or push"
  | ErrInvalidPriority => "invalid priority: must be high, normal, or low"
  | ErrInvalidRecipient => "recipient is required"
  | ErrInvalidContent => "content is required"
  | ErrNotCancellable => "notification cannot be cancelled in current status"
  | ErrBatchTooLarge => "batch size exceeds maximum of 1000"
  | ErrTemplateNotFound => "template not found"
  | ErrTemplateMissingVar => "template variable missing"
  | ErrRateLimited => "rate limited"
  | ErrCircuitOpen => "circuit breaker is open"
  | ENoRows => "no rows in result set"
  | EPg _ msg => msg
  | EOther msg => msg
  | EWrap p e => p +:+ ": " +:+ Error e
  end.

(** [errors.Is(err, target)] for the sentinels the program tests. *)
Fixpoint Is_NotFound (e : error) : bool :=
  match e with ErrNotFound => true | EWrap _ e => Is_NotFound e | _ => false end.
Fixpoint Is_DuplicateKey (e : error) : bool :=
  match e with ErrDuplicateKey => true | EWrap _ e => Is_DuplicateKey e | _ => false end.
Fixpoint Is_NoRows (e : error) : bool :=
  match e with ENoRows => true | EWrap _ e => Is_NoRows e | _ => false end.

(** [errors.As(err, &pgErr) && pgErr.Code == "23505"]. *)
Fixpoint Is_UniqueViolation (e : error) : bool :=
  match e with
  | EPg code _ => String.eqb code "23505"
  | EWrap _ e => Is_UniqueViolation e
  | _ => false
  end.

(** ** Facts used across the development *)

Lemma Channel_Valid_cases c :
  Channel_Valid c = true → c = ChannelSMS ∨ c = ChannelEmail ∨ c = ChannelPush.
Proof.
  unfold Channel_Valid. rewrite !orb_true_iff, !String.eqb_eq. tauto.
Qed.

Lemma Priority_Valid_cases p :
  Priority_Valid p = true → p = PriorityHigh ∨ p = PriorityNormal ∨ p = PriorityLow.
Proof.
  unfold Priority_Valid. rewrite !orb_true_iff, !String.eqb_eq. tauto.
Qed.

Lemma Priority_Score_range p : 0 ≤ Priority_Score p ≤ 2.
Proof. unfold Priority_Score. repeat case_bool; lia. Qed.

#[export] Hint Resolve Priority_Score_range : insider.
