(* ===== verification/Uuid.v ===== *)
(** * The UUID library (github.com/google/uuid)

    [uuid.UUID.String] and [uuid.Parse] are operations of the class [UUIDLib];
    the law states that a printed UUID is read back.  [RefUUID] prints and reads
    the canonical 8-4-4-4-12 form. *)
From S2P Require Import Prelude GoLib GoJson Domain.
From Stdlib Require Import ZArith Lia Ascii.
From stdpp Require Import base numbers list strings.

Open Scope Z_scope.

Class UUIDLib := {
  uuid_String : uuid → string;
  uuid_Parse : string → result error uuid;
}.

(** 128 bits. *)
Definition is_uuid (u : uuid) : Prop := (u < 2 ^ 128)%N.

Class UUIDLaws `{UUIDLib} : Prop := {
  uuid_Parse_String u : is_uuid u → uuid_Parse (uuid_String u) = Ok u;
}.

(** The last [w] hexadecimal digits of [z]. *)
Fixpoint hex_digits (w : nat) (z : Z) : string :=
  match w with
  | O => EmptyString
  | S w' => hex_digits w' (z / 16) +:+ String (hex_char (z mod 16)) EmptyString
  end.

Definition ref_uuid_String (u : uuid) : string :=
  let z := Z.of_N u in
  hex_digits 8 (z / 16 ^ 24) +:+ "-" +:+ hex_digits 4 (z / 16 ^ 20) +:+ "-" +:+
  hex_digits 4 (z / 16 ^ 16) +:+ "-" +:+ hex_digits 4 (z / 16 ^ 12) +:+ "-" +:+ hex_digits 12 z.

(** [w] hexadecimal digits, appended to the value read so far. *)
Fixpoint read_hex (w : nat) (acc : Z) (s : string) : option (Z * string) :=
  match w with
  | O => Some (acc, s)
  | S w' => match s with
            | String c s' => d ← hex_val c; read_hex w' (acc * 16 + d) s'
            | EmptyString => None
            end
  end.

(** A dash and [w] more digits. *)
Definition read_group (w : nat) (p : Z * string) : option (Z * string) :=
  s ← cut_prefix "-" p.2; read_hex w p.1 s.

Definition ref_uuid_Parse (s : string) : result error uuid :=
  match p1 ← read_hex 8 0 s; p2 ← read_group 4 p1; p3 ← read_group 4 p2; p4 ← read_group 4 p3;
        read_group 12 p4 with
  | Some (z, EmptyString) => Ok (Z.to_N z)
  | _ => Err (EOther "invalid UUID format")
  end.

Definition RefUUID : UUIDLib := {| uuid_String := ref_uuid_String; uuid_Parse := ref_uuid_Parse |}.

Lemma hex_val_char z : 0 ≤ z < 16 → hex_val (hex_char z) = Some z.
Proof.
  intros Hz. assert (Hall : forallb (λ n, bool_decide (hex_val (hex_char (Z.of_nat n)) = Some (Z.of_nat n)))
    (seq 0 16) = true) by reflexivity.
  rewrite forallb_forall in Hall. specialize (Hall (Z.to_nat z)).
  rewrite bool_decide_eq_true, Z2Nat.id in Hall by lia. apply Hall. apply in_seq. lia.
Qed.


Lemma read_hex_split w1 w2 acc s :
  read_hex (w1 + w2) acc s = '(a, s') ← read_hex w1 acc s; read_hex w2 a s'.
Proof.
  revert acc s. induction w1 as [|w1 IH]; intros acc s; [done|]. simpl.
  destruct s as [|c s]; [done|]. destruct (hex_val c) as [d|]; simpl; [apply IH|done].
Qed.

Lemma read_hex_digits w z acc rest :
  read_hex w acc (hex_digits w z +:+ rest) = Some (acc * 16 ^ Z.of_nat w + z mod 16 ^ Z.of_nat w, rest).
Proof.
  revert z acc rest. induction w as [|w IH]; intros z acc rest.
  - simpl. rewrite Z.mod_1_r. do 2 f_equal. lia.
  - cbn [hex_digits]. rewrite string_app_assoc. replace (S w) with (w + 1)%nat by lia.
    rewrite read_hex_split, IH. rewrite string_app_cons, string_app_nil.
    cbn [mbind option_bind read_hex]. rewrite hex_val_char by (apply Z.mod_pos_bound; lia).
    cbn [mbind option_bind]. do 2 f_equal.
    rewrite Nat2Z.inj_add, Z.pow_add_r by lia. change (16 ^ Z.of_nat 1) with 16.
    set (p := 16 ^ Z.of_nat w). assert (0 < p) by (apply Z.pow_pos_nonneg; lia).
    rewrite (Z.mul_comm p 16), Z.rem_mul_r by lia. lia.
Qed.

Lemma read_group_digits w z acc rest :
  read_group w (acc, "-" +:+ hex_digits w z +:+ rest) =
    Some (acc * 16 ^ Z.of_nat w + z mod 16 ^ Z.of_nat w, rest).
Proof. unfold read_group. cbn [fst snd]. rewrite string_app_cons, string_app_nil. apply read_hex_digits. Qed.

Lemma RefUUID_laws : @UUIDLaws RefUUID.
Proof.
  split. intros u Hu. unfold is_uuid in Hu. simpl. unfold ref_uuid_Parse, ref_uuid_String.
  set (z := Z.of_N u). assert (Hz : 0 ≤ z < 16 ^ 32) by (unfold z; change (16 ^ 32) with (2 ^ 128); lia).
  rewrite <- (string_app_nil_r (hex_digits 12 z)).
  rewrite read_hex_digits. cbn [mbind option_bind].
  do 4 (rewrite read_group_digits; cbn [mbind option_bind]).
  f_equal. change (Z.of_nat 8) with 8; change (Z.of_nat 4) with 4; change (Z.of_nat 12) with 12.
  assert (Hstep : ∀ a k, 0 ≤ a → 0 < k → z / (a * k) * k + z / a mod k = z / a).
  { intros a k Ha Hk. destruct (Z.eq_dec a 0) as [->|]; [|].
    - rewrite Z.mul_0_l, !Z.div_0_r_ext by done. simpl. rewrite Z.mod_0_l; lia.
    - rewrite <- Z.div_div by lia. pose proof (Z.div_mod (z / a) k ltac:(lia)). lia. }
  rewrite (Z.mod_small (z / 16 ^ 24)) by
    (split; [apply Z.div_pos; lia|apply Z.div_lt_upper_bound; [lia|rewrite <- Z.pow_add_r by lia; apply Hz]]).
  rewrite Z.mul_0_l, Z.add_0_l.
  change (16 ^ 24) with (16 ^ 20 * 16 ^ 4). rewrite Hstep by lia.
  change (16 ^ 20) with (16 ^ 16 * 16 ^ 4). rewrite Hstep by lia.
  change (16 ^ 16) with (16 ^ 12 * 16 ^ 4). rewrite Hstep by lia.
  pose proof (Z.div_mod z (16 ^ 12) ltac:(lia)).
  replace (z / 16 ^ 12 * 16 ^ 12 + z mod 16 ^ 12) with z by lia. unfold z. apply N2Z.id.
Qed.
