(* ===== verification/Retry.v ===== *)
(** * Retry backoff (internal/retry/strategy.go)

    [NextDelay] computes in [float64].  The exponential part is an exact
    integer: [float64(baseWait)] times a power of two, capped by
    [float64(maxWait)].  [rand.Float64()] is [k / 2^53] for an integer
    [0 <= k < 2^53], so every value after that is a multiple of [2^-54] and is
    kept as an integer in that unit; [f64] rounds where the hardware does.
    [math.Pow(2, attempt-1)] beyond the float range is [+Inf], which the cap
    replaces like any number above it. *)
From S2P Require Import Prelude GoLib Float64.
From Stdlib Require Import ZArith Lia.
From stdpp Require Import base numbers.

Open Scope Z_scope.

Record Strategy := mkStrategy { baseWait : Z; maxWait : Z }.

Definition NewStrategy (base max : Z) : Strategy := {| baseWait := base; maxWait := max |}.

(** [min(float64(baseWait) * math.Pow(2, float64(attempt-1)), float64(maxWait))],
    for [attempt >= 1] (the processor calls it after incrementing attempts). *)
Definition backoff (s : Strategy) (attempt : Z) : Z :=
  let delay := f64 (baseWait s) * 2 ^ (attempt - 1) in
  if f64 (maxWait s) <? delay then f64 (maxWait s) else delay.

(** [rnd] is the 53-bit numerator of [rand.Float64()]. *)
Definition NextDelay (s : Strategy) (attempt rnd : Z) : Z :=
  let delay := backoff s attempt in
  (* delay * 0.25 is delay * 2^52 units; rand*2-1 is (rnd - 2^52) / 2^52 *)
  let jitter := f64 (delay * (rnd - 2 ^ 52)) in
  let total := f64 (delay * 2 ^ 54 + jitter) in
  Z.quot total (2 ^ 54).

(** ** Lemmas *)

Definition valid_rand (k : Z) : Prop := 0 ≤ k < 2 ^ 53.

(** A configured wait: positive and below [2^50] ns, about 13 days. *)
Definition valid_wait (w : Z) : Prop := 0 < w < 2 ^ 50.

Lemma backoff_exact s a :
  valid_wait (baseWait s) → valid_wait (maxWait s) → 1 ≤ a →
  backoff s a = Z.min (baseWait s * 2 ^ (a - 1)) (maxWait s).
Proof.
  unfold valid_wait, backoff. intros Hb Hm Ha.
  rewrite !f64_exact by lia. case_bool; zbool; lia.
Qed.

Lemma backoff_range s a :
  valid_wait (baseWait s) → valid_wait (maxWait s) → 1 ≤ a →
  0 < backoff s a ≤ maxWait s.
Proof.
  intros Hb Hm Ha. rewrite backoff_exact by done.
  unfold valid_wait in *. assert (0 < 2 ^ (a - 1)) by lia. nia.
Qed.

(** The jitter is at most a quarter of the delay, whatever the rounding. *)
Lemma jitter_range d k :
  0 ≤ d < 2 ^ 53 → valid_rand k →
  - (d * 2 ^ 52) ≤ f64 (d * (k - 2 ^ 52)) ≤ d * 2 ^ 52.
Proof.
  unfold valid_rand. intros Hd Hk.
  pose proof (f64_scaled d 52 ltac:(lia) ltac:(lia)) as Hup.
  pose proof (f64_scaled (- d) 52 ltac:(lia) ltac:(lia)) as Hlo.
  pose proof (f64_mono (d * (k - 2 ^ 52)) (d * 2 ^ 52) ltac:(nia)).
  pose proof (f64_mono (- d * 2 ^ 52) (d * (k - 2 ^ 52)) ltac:(nia)). lia.
Qed.

Lemma jittered_total_range d k :
  0 ≤ d < 2 ^ 50 → valid_rand k →
  3 * d * 2 ^ 52 ≤ f64 (d * 2 ^ 54 + f64 (d * (k - 2 ^ 52))) ≤ 5 * d * 2 ^ 52.
Proof.
  intros Hd Hk. pose proof (jitter_range d k ltac:(lia) Hk) as Hj.
  pose proof (f64_scaled (3 * d) 52 ltac:(lia) ltac:(lia)) as Hlo.
  pose proof (f64_scaled (5 * d) 52 ltac:(lia) ltac:(lia)) as Hup.
  rewrite <- Hlo, <- Hup. split; apply f64_mono; lia.
Qed.

Lemma quot_54 n : 0 ≤ n → Z.quot n (2 ^ 54) = n / 2 ^ 54.
Proof. intros. apply Z.quot_div_nonneg; lia. Qed.

(** The range of a delay. *)
Lemma NextDelay_range s a k :
  valid_wait (baseWait s) → valid_wait (maxWait s) → 1 ≤ a → valid_rand k →
  let d := Z.min (baseWait s * 2 ^ (a - 1)) (maxWait s) in
  3 * d / 4 ≤ NextDelay s a k ≤ 5 * d / 4 ∧ in_int64 (NextDelay s a k).
Proof.
  intros Hb Hm Ha Hk d.
  pose proof (backoff_range s a Hb Hm Ha) as Hr.
  assert (Hd : d = backoff s a) by (by rewrite backoff_exact).
  unfold valid_wait in *. unfold NextDelay.
  pose proof (jittered_total_range (backoff s a) k ltac:(lia) Hk) as Ht.
  rewrite quot_54 by lia. rewrite Hd.
  set (t := f64 _) in *. unfold in_int64, int64_min, int64_max.
  assert (3 * backoff s a / 4 ≤ t / 2 ^ 54).
  { replace (3 * backoff s a / 4) with (3 * backoff s a * 2 ^ 52 / (4 * 2 ^ 52))
      by (apply Z.div_mul_cancel_r; lia).
    apply Z.div_le_mono; lia. }
  assert (t / 2 ^ 54 ≤ 5 * backoff s a / 4).
  { replace (5 * backoff s a / 4) with (5 * backoff s a * 2 ^ 52 / (4 * 2 ^ 52))
      by (apply Z.div_mul_cancel_r; lia).
    apply Z.div_le_mono; lia. }
  assert (0 ≤ 3 * backoff s a / 4) by (apply Z.div_pos; lia).
  assert (5 * backoff s a / 4 < 2 ^ 52) by (apply Z.div_lt_upper_bound; lia).
  lia.
Qed.

(** So the delays of a strategy are at most a quarter above its maximum. *)
Definition delays_within (D : Z) (s : Strategy) : Prop :=
  ∀ a rnd, 1 ≤ a → valid_rand rnd → 0 ≤ NextDelay s a rnd ≤ D.

Lemma delays_within_max s :
  valid_wait (baseWait s) → valid_wait (maxWait s) → delays_within (5 * maxWait s / 4) s.
Proof.
  intros Hb Hm a k Ha Hk. destruct (NextDelay_range s a k Hb Hm Ha Hk) as [[Hlo Hhi] _].
  pose proof (backoff_range s a Hb Hm Ha) as Hr. rewrite backoff_exact in Hr by done.
  set (dl := Z.min _ _) in *. split.
  - etransitivity; [|exact Hlo]. apply Z.div_pos; lia.
  - etransitivity; [exact Hhi|]. apply Z.div_le_mono; lia.
Qed.

(** ** Properties *)


