(* ===== verification/Redis.v ===== *)
(** * The Redis server the program talks to

    Redis is a service outside the repository: its commands are the operations
    of the class [RedisServer], and [RedisLaws] states the documented behaviour
    of each command the program sends, observed through the contents of a sorted
    set ([zset]), a key's time to live ([deadline]) and the holder of a
    [SET NX EX] lock ([lock_until]).  [RefRedis] is a concrete server that
    satisfies the laws; the witnesses run on it.

    A score is an integer-valued double (every score the program writes is one,
    see [Float64]); scores are ordered first, members break ties byte by byte. *)
From S2P Require Import Prelude.
From Stdlib Require Import ZArith Lia.
From stdpp Require Import base numbers list strings gmap sorting fin_maps.

Open Scope Z_scope.

(** ** Order of the entries of a sorted set *)

Definition entry_le (a b : string * Z) : Prop :=
  a.2 < b.2 ∨ (a.2 = b.2 ∧ String.le a.1 b.1).

#[export] Instance entry_le_dec : RelDecision entry_le.
Proof. intros a b. unfold entry_le. apply _. Defined.

#[export] Instance entry_le_total : Total entry_le.
Proof.
  intros [m1 s1] [m2 s2]. unfold entry_le; simpl.
  destruct (Z.lt_trichotomy s1 s2) as [|[->|]]; [by left; left| |by right; left].
  destruct (total String.le m1 m2); [left|right]; auto.
Qed.

#[export] Instance entry_le_trans : Transitive entry_le.
Proof.
  intros [m1 s1] [m2 s2] [m3 s3]. unfold entry_le; simpl.
  intros [?|[-> ?]] [?|[-> ?]]; [left; lia|left; lia|left; lia|right].
  split; [done|]. by transitivity m2.
Qed.

#[export] Instance entry_le_antisym : AntiSymm (=) entry_le.
Proof.
  intros [m1 s1] [m2 s2]. unfold entry_le; simpl.
  intros [?|[-> ?]] [?|[? ?]]; try lia. f_equal. by apply (anti_symm String.le).
Qed.

(** The entries of a sorted set in increasing order. *)
Definition sorted_entries (m : gmap string Z) : list (string * Z) :=
  merge_sort entry_le (map_to_list m).

Lemma sorted_entries_perm m : sorted_entries m ≡ₚ map_to_list m.
Proof. apply merge_sort_Permutation. Qed.

Lemma sorted_entries_sorted m : StronglySorted entry_le (sorted_entries m).
Proof. apply StronglySorted_merge_sort; apply _. Qed.

Lemma sorted_entries_lookup m x s : (x, s) ∈ sorted_entries m ↔ m !! x = Some s.
Proof. by rewrite sorted_entries_perm, elem_of_map_to_list. Qed.

Lemma sorted_entries_length m : length (sorted_entries m) = size m.
Proof. rewrite sorted_entries_perm. apply length_map_to_list. Qed.

Lemma sorted_entries_nodup m : NoDup (sorted_entries m).*1.
Proof. rewrite sorted_entries_perm. apply NoDup_fst_map_to_list. Qed.

Lemma sorted_entries_empty : sorted_entries ∅ = [].
Proof. unfold sorted_entries. by rewrite map_to_list_empty. Qed.

(** ** Commands *)

Class RedisServer (R : Type) := {
  zset : R → string → gmap string Z;
  deadline : R → string → option Z;
  lock_until : R → string → option Z;
  ZADD : string → Z → string → R → R;
  ZREM : string → list string → R → R;
  ZPOPMIN : string → nat → R → list (string * Z) * R;
  ZRANGEBYSCORE : string → Z → R → list string;       (* -inf .. max *)
  ZREMRANGEBYSCORE : string → Z → Z → R → R;
  ZCARD : string → R → nat;
  EXPIRE : string → Z → Z → R → R;                    (* key, server time, ttl in ns *)
  SETNX : string → Z → Z → R → bool * R;              (* key, server time, ttl in ns *)
  expire_keys : Z → R → R;                            (* the server's clock reaches a time *)
}.

Class RedisLaws (R : Type) `{RedisServer R} : Prop := {
  zset_ZADD k s m r k' :
    zset (ZADD k s m r) k' = if decide (k = k') then <[m:=s]> (zset r k') else zset r k';
  zset_ZREM k ms r k' x :
    zset (ZREM k ms r) k' !! x =
      if decide (k = k' ∧ x ∈ ms) then None else zset r k' !! x;
  ZPOPMIN_popped k n r : (ZPOPMIN k n r).1 = take n (sorted_entries (zset r k));
  zset_ZPOPMIN k n r k' x :
    zset (ZPOPMIN k n r).2 k' !! x =
      if decide (k = k' ∧ x ∈ (ZPOPMIN k n r).1.*1) then None else zset r k' !! x;
  ZRANGEBYSCORE_members k hi r :
    ZRANGEBYSCORE k hi r = (filter (λ e, e.2 ≤ hi) (sorted_entries (zset r k))).*1;
  zset_ZREMRANGEBYSCORE k lo hi r k' :
    zset (ZREMRANGEBYSCORE k lo hi r) k' =
      if decide (k = k') then filter (λ e, ¬ (lo ≤ e.2 ≤ hi)) (zset r k') else zset r k';
  ZCARD_size k r : ZCARD k r = size (zset r k);
  zset_EXPIRE k now ttl r k' : zset (EXPIRE k now ttl r) k' = zset r k';
  zset_SETNX k now ttl r k' : zset (SETNX k now ttl r).2 k' = zset r k';
  (* time to live of a sorted set: kept by ZADD, set by EXPIRE, forgotten when
     the last member goes *)
  deadline_empty k r : zset r k = ∅ → deadline r k = None;
  deadline_ZADD k s m r k' : deadline (ZADD k s m r) k' = deadline r k';
  deadline_ZREM k ms r k' :
    deadline (ZREM k ms r) k' = if decide (zset (ZREM k ms r) k' = ∅) then None else deadline r k';
  deadline_ZPOPMIN k n r k' :
    deadline (ZPOPMIN k n r).2 k' = if decide (zset (ZPOPMIN k n r).2 k' = ∅) then None else deadline r k';
  deadline_SETNX k now ttl r k' : deadline (SETNX k now ttl r).2 k' = deadline r k';
  deadline_ZREMRANGEBYSCORE k lo hi r k' :
    deadline (ZREMRANGEBYSCORE k lo hi r) k' =
      if decide (zset (ZREMRANGEBYSCORE k lo hi r) k' = ∅) then None else deadline r k';
  deadline_EXPIRE k now ttl r k' :
    deadline (EXPIRE k now ttl r) k' =
      if decide (k = k' ∧ zset r k ≠ ∅) then Some (now + ttl) else deadline r k';
  zset_expire_keys now r k :
    zset (expire_keys now r) k =
      match deadline r k with
      | Some d => if d <=? now then ∅ else zset r k
      | None => zset r k
      end;
  deadline_expire_keys now r k :
    deadline (expire_keys now r) k =
      match deadline r k with
      | Some d => if d <=? now then None else Some d
      | None => None
      end;
  (* the lock key *)
  SETNX_acquired k now ttl r :
    (SETNX k now ttl r).1 =
      match lock_until r k with Some d => d <=? now | None => true end;
  lock_until_SETNX k now ttl r k' :
    lock_until (SETNX k now ttl r).2 k' =
      if decide (k = k' ∧ (SETNX k now ttl r).1 = true) then Some (now + ttl)
      else lock_until r k';
  lock_until_ZADD k s m r k' : lock_until (ZADD k s m r) k' = lock_until r k';
  lock_until_ZREM k ms r k' : lock_until (ZREM k ms r) k' = lock_until r k';
  lock_until_ZPOPMIN k n r k' : lock_until (ZPOPMIN k n r).2 k' = lock_until r k';
  lock_until_ZREMRANGEBYSCORE k lo hi r k' :
    lock_until (ZREMRANGEBYSCORE k lo hi r) k' = lock_until r k';
  lock_until_EXPIRE k now ttl r k' : k ≠ k' → lock_until (EXPIRE k now ttl r) k' = lock_until r k';
  lock_until_expire_keys now r k : lock_until (expire_keys now r) k = lock_until r k;
}.

(** ** A reference server *)

Record RefRedis := mkRefRedis {
  ref_zsets : gmap string (gmap string Z);
  ref_ttl : gmap string Z;
  ref_locks : gmap string Z;
}.

Definition empty_RefRedis : RefRedis := mkRefRedis ∅ ∅ ∅.

Definition ref_get (r : RefRedis) (k : string) : gmap string Z := default ∅ (ref_zsets r !! k).

(** Replace one sorted set; an empty one disappears together with its TTL. *)
Definition ref_set (k : string) (m : gmap string Z) (r : RefRedis) : RefRedis :=
  {| ref_zsets := <[k := m]> (ref_zsets r);
     ref_ttl := if decide (m = ∅) then delete k (ref_ttl r) else ref_ttl r;
     ref_locks := ref_locks r |}.

Definition ref_deadline (r : RefRedis) (k : string) : option Z :=
  if decide (ref_get r k = ∅) then None else ref_ttl r !! k.

#[export] Instance RefRedis_server : RedisServer RefRedis := {|
  zset := ref_get;
  deadline := ref_deadline;
  lock_until r k := ref_locks r !! k;
  ZADD k s m r :=
    {| ref_zsets := <[k := <[m := s]> (ref_get r k)]> (ref_zsets r);
       ref_ttl := if decide (ref_get r k = ∅) then delete k (ref_ttl r) else ref_ttl r;
       ref_locks := ref_locks r |};
  ZREM k ms r := ref_set k (filter (λ e, e.1 ∉ ms) (ref_get r k)) r;
  ZPOPMIN k n r :=
    let popped := take n (sorted_entries (ref_get r k)) in
    (popped, ref_set k (filter (λ e, e.1 ∉ popped.*1) (ref_get r k)) r);
  ZRANGEBYSCORE k hi r := (filter (λ e, e.2 ≤ hi) (sorted_entries (ref_get r k))).*1;
  ZREMRANGEBYSCORE k lo hi r := ref_set k (filter (λ e, ¬ (lo ≤ e.2 ≤ hi)) (ref_get r k)) r;
  ZCARD k r := size (ref_get r k);
  EXPIRE k now ttl r :=
    if decide (ref_get r k = ∅) then r
    else {| ref_zsets := ref_zsets r; ref_ttl := <[k := now + ttl]> (ref_ttl r);
            ref_locks := ref_locks r |};
  SETNX k now ttl r :=
    let free := match ref_locks r !! k with Some d => d <=? now | None => true end in
    (free, if free then {| ref_zsets := ref_zsets r; ref_ttl := ref_ttl r;
                           ref_locks := <[k := now + ttl]> (ref_locks r) |}
           else r);
  expire_keys now r :=
    let gone k := match ref_deadline r k with Some d => d <=? now | None => false end in
    {| ref_zsets := filter (λ e, gone e.1 = false) (ref_zsets r);
       ref_ttl := ref_ttl r; ref_locks := ref_locks r |};
|}.

Lemma ref_get_set k m r k' :
  ref_get (ref_set k m r) k' = if decide (k = k') then m else ref_get r k'.
Proof.
  unfold ref_get, ref_set; simpl. rewrite lookup_insert. by case_decide.
Qed.

(** Removing the members of a list by [filter]. *)
Lemma lookup_filter_members (ms : list string) (m : gmap string Z) x :
  filter (λ e, e.1 ∉ ms) m !! x = if decide (x ∈ ms) then None else m !! x.
Proof.
  rewrite map_lookup_filter. destruct (m !! x); simpl; [|by case_decide].
  case_decide; [by rewrite option_guard_False by naive_solver|by rewrite option_guard_True].
Qed.

Lemma ref_deadline_nonempty r k : ref_get r k ≠ ∅ → ref_deadline r k = ref_ttl r !! k.
Proof. intros. unfold ref_deadline. by rewrite decide_False. Qed.

Lemma ref_get_ZADD k s m r k' :
  ref_get (ZADD k s m r) k' = if decide (k = k') then <[m:=s]> (ref_get r k') else ref_get r k'.
Proof.
  unfold ref_get at 1; simpl. rewrite lookup_insert. case_decide; [by subst|done].
Qed.

Lemma ref_deadline_set k m r k' :
  (m ≠ ∅ → ref_get r k ≠ ∅) →
  ref_deadline (ref_set k m r) k' =
    if decide (ref_get (ref_set k m r) k' = ∅) then None else ref_deadline r k'.
Proof.
  intros Hm. unfold ref_deadline at 1. case_decide as He; [done|].
  rewrite ref_get_set in He. unfold ref_set; simpl.
  case_decide as Hk; [subst k'|].
  - rewrite decide_False by done. by rewrite ref_deadline_nonempty by auto.
  - rewrite ref_deadline_nonempty by done. case_decide; [|done].
    by rewrite lookup_delete_ne.
Qed.

Lemma ref_get_expire now r k :
  ref_get (expire_keys now r) k =
    match ref_deadline r k with
    | Some d => if d <=? now then ∅ else ref_get r k
    | None => ref_get r k
    end.
Proof.
  unfold ref_get at 1; simpl. rewrite map_lookup_filter. unfold ref_get.
  destruct (ref_zsets r !! k) eqn:E; simpl.
  - destruct (ref_deadline r k) as [d|]; [|done].
    destruct (d <=? now); [|done]. by rewrite option_guard_False.
  - destruct (ref_deadline r k) as [d|]; [|done]. by destruct (d <=? now).
Qed.

(** Taking members out of a set. *)
Lemma ref_set_without k (ms : list string) r k' x :
  ref_get (ref_set k (filter (λ e : string * Z, e.1 ∉ ms) (ref_get r k)) r) k' !! x =
    if decide (k = k' ∧ x ∈ ms) then None else ref_get r k' !! x.
Proof.
  rewrite ref_get_set. case_decide; [subst|by rewrite decide_False by tauto].
  rewrite lookup_filter_members.
  destruct (decide (x ∈ _)); [rewrite decide_True|rewrite decide_False]; tauto.
Qed.

Lemma ref_deadline_filter k (P : string * Z → Prop) `{∀ e, Decision (P e)} r k' :
  ref_deadline (ref_set k (filter P (ref_get r k)) r) k' =
    if decide (ref_get (ref_set k (filter P (ref_get r k)) r) k' = ∅) then None else ref_deadline r k'.
Proof. apply ref_deadline_set. intros Hf Hr. by rewrite Hr, map_filter_empty in Hf. Qed.

Lemma ref_deadline_ZADD k s m (r : RefRedis) k' : ref_deadline (ZADD k s m r) k' = ref_deadline r k'.
Proof.
  unfold ref_deadline. rewrite ref_get_ZADD. simpl. destruct (decide (k = k')) as [<-|].
  - rewrite (decide_False (P := <[m:=s]> _ = ∅)) by apply insert_non_empty.
    case_decide; [by rewrite lookup_delete_eq|done].
  - repeat case_decide; try done. by rewrite lookup_delete_ne.
Qed.

Lemma ref_deadline_EXPIRE k now ttl (r : RefRedis) k' :
  ref_deadline (EXPIRE k now ttl r) k' =
    if decide (k = k' ∧ ref_get r k ≠ ∅) then Some (now + ttl) else ref_deadline r k'.
Proof.
  simpl. destruct (decide (ref_get r k = ∅)) as [He|He].
  - rewrite (decide_False (P := k = k' ∧ _)) by tauto. done.
  - unfold ref_deadline, ref_get in *; simpl in *. destruct (decide (k = k')) as [<-|Hk].
    + by rewrite decide_False, decide_True, lookup_insert_eq by tauto.
    + rewrite (decide_False (P := k = k' ∧ _)) by tauto. by rewrite lookup_insert_ne.
Qed.

#[export] Instance RefRedis_laws : RedisLaws RefRedis.
Proof.
  split; intros.
  - apply ref_get_ZADD.
  - apply ref_set_without.
  - done.
  - apply ref_set_without.
  - done.
  - simpl. rewrite ref_get_set. by case_decide; subst.
  - done.
  - simpl. by case_decide.
  - simpl. by case_match.
  - simpl in *. unfold ref_deadline. by rewrite decide_True.
  - apply ref_deadline_ZADD.
  - apply ref_deadline_filter.
  - apply ref_deadline_filter.
  - simpl. by case_match.
  - apply ref_deadline_filter.
  - apply ref_deadline_EXPIRE.
  - apply ref_get_expire.
  - change (ref_deadline (expire_keys now r) k =
      match ref_deadline r k with Some d => if d <=? now then None else Some d | None => None end).
    unfold ref_deadline at 1. rewrite ref_get_expire. unfold ref_deadline; simpl. repeat (case_decide || case_match); simplify_eq; try done.
  - done.
  - simpl. destruct (match ref_locks r !! k with Some d => d <=? now | None => true end); simpl.
    + rewrite lookup_insert. destruct (decide (k = k')).
      * by rewrite decide_True.
      * by rewrite decide_False by tauto.
    + by rewrite decide_False by (intros [_ ?]; done).
  - done.
  - done.
  - done.
  - done.
  - simpl. by case_decide.
  - done.
Qed.
