(* ===== verification/Postgres.v ===== *)
(** * The database: tables, constraints and SQL statements

    Models internal/migration/migrations (the tables and their constraints) and
    internal/repository/postgres/queries.go: every SQL statement of the program
    is a constructor of [sql], and [exec_sql] gives its effect on the tables.
    What the server does below the level of SQL is the class [PgEngine]: the
    order a scan returns rows in, timestamp resolution, the admission of text,
    [varchar(n)] and [jsonb] values and the text of the latter, the collation behind [ORDER BY name] and the
    planner's row estimate. *)
From S2P Require Import Prelude GoLib GoJson Domain.
From Stdlib Require Import ZArith Lia.
From stdpp Require Import base numbers list strings gmap sorting fin_maps.

Open Scope Z_scope.

(** ** What the server decides *)

Class PgEngine := {
  pg_scan : ∀ {A}, gmap uuid A → list (uuid * A);
  pg_timestamp : Z → Z;
  pg_text : string → option string;
  pg_varchar : nat → string → option string;
  pg_jsonb : json → option json;
  pg_jsonb_out : json → string;
  pg_order_by_name : list Template → list Template;
  pg_reltuples : gmap uuid Notification → Z;
}.

(** Printable ASCII without blanks is stored as it is where it fits. *)
Fixpoint plain_text (s : string) : bool :=
  match s with
  | EmptyString => true
  | String c s' => (33 <=? Ascii.nat_of_ascii c)%nat && (Ascii.nat_of_ascii c <=? 126)%nat && plain_text s'
  end.

Class PgLaws `{PgEngine} : Prop := {
  pg_scan_perm {A} (t : gmap uuid A) : pg_scan t ≡ₚ map_to_list t;
  pg_timestamp_mono t1 t2 : t1 ≤ t2 → pg_timestamp t1 ≤ pg_timestamp t2;
  pg_timestamp_idemp t : pg_timestamp (pg_timestamp t) = pg_timestamp t;
  pg_order_by_name_perm l : pg_order_by_name l ≡ₚ l;
  pg_varchar_plain n s : (String.length s ≤ n)%nat → plain_text s = true → pg_varchar n s = Some s;
  pg_jsonb_kind j v : pg_jsonb j = Some v → is_map j = true → is_map v = true;
  pg_jsonb_text j v : pg_jsonb j = Some v →
    ∃ v', json_Unmarshal (pg_jsonb_out v) = Some v' ∧ go_value v' = v;
}.

(** A byte order on template names, as under the C collation. *)
Definition name_le (a b : Template) : Prop := String.le (t_Name a) (t_Name b).
#[export] Instance name_le_dec : RelDecision name_le.
Proof. intros a b. unfold name_le. apply _. Defined.

(** Microsecond timestamps, ASCII text, rows scanned in key order. *)
Definition RefPg : PgEngine := {|
  pg_scan A t := map_to_list t;
  pg_timestamp t := t / 1000 * 1000;
  pg_text s := Some s;
  pg_varchar n s := if (String.length s <=? n)%nat then Some s else None;
  pg_jsonb j := if json_ok j then Some (go_value j) else None;
  pg_jsonb_out := json_Marshal;
  pg_order_by_name l := merge_sort name_le l;
  pg_reltuples t := 0;
|}.

Lemma RefPg_laws : @PgLaws RefPg.
Proof.
  split; simpl; intros.
  - done.
  - assert (t1 / 1000 ≤ t2 / 1000) by (apply Z.div_le_mono; lia). lia.
  - by rewrite Z.div_mul.
  - apply merge_sort_Permutation.
  - by rewrite (proj2 (Nat.leb_le _ _)).
  - destruct (json_ok j); [|done]. by destruct j; simplify_eq.
  - destruct (json_ok j) eqn:E; [|done]. simplify_eq. exists (go_value j).
    split; [by apply Unmarshal_Marshal, go_value_ok|apply go_value_idem].
Qed.

(** ** Tables *)

Record DeadLetter := mkDeadLetter {
  d_ID : uuid;
  d_NotificationID : uuid;
  d_LastError : string;
  d_Attempts : Z;
  d_FailedAt : Z;
}.

Record DB := mkDB {
  notifications : gmap uuid Notification;
  templates : gmap uuid Template;
  dead_letters : gmap uuid DeadLetter;
}.

Definition empty_DB : DB := mkDB ∅ ∅ ∅.

Definition set_notifications (t : gmap uuid Notification) (db : DB) : DB :=
  mkDB t (templates db) (dead_letters db).
Definition set_templates (t : gmap uuid Template) (db : DB) : DB :=
  mkDB (notifications db) t (dead_letters db).
Definition set_dead_letters (t : gmap uuid DeadLetter) (db : DB) : DB :=
  mkDB (notifications db) (templates db) t.

(** [CHECK (status IN (...))] *)
Definition Status_Check (s : Status) : bool :=
  bool_decide (s ∈ [StatusPending; StatusScheduled; StatusQueued; StatusProcessing;
                    StatusSent; StatusFailed; StatusCancelled]).

(** [status IN ('pending', 'queued')] *)
Definition claimable (n : Notification) : bool :=
  String.eqb (n_Status n) StatusPending || String.eqb (n_Status n) StatusQueued.

(** An [INT] column. *)
Definition pg_int4 (z : Z) : option Z :=
  if (- 2 ^ 31 <=? z) && (z <? 2 ^ 31) then Some z else None.

(** The value of a [varchar]/[text]/[jsonb]/[int] parameter, or the error of the
    statement. *)
Definition admit_value {A} (v : option A) : result error A :=
  match v with Some a => Ok a | None => Err (EPg "22000" "invalid value for column") end.

Definition admit_opt {A} (f : A → option A) (v : option A) : result error (option A) :=
  match v with None => Ok None | Some a => Some <$> admit_value (f a) end.

Definition check_violation : error := EPg "23514" "violates check constraint".
Definition unique_violation : error := EPg "23505" "duplicate key value violates unique constraint".
Definition fk_violation : error := EPg "23503" "violates foreign key constraint".

(** ** Dynamic WHERE clauses (NotificationRepo.List) *)

Inductive sqlarg := VText (s : string) | VTime (t : Z) | VInt (z : Z).

(** [<column> <op> $n] *)
Inductive Cond :=
| CondChannel (arg : nat)      (* channel = $n *)
| CondStatus (arg : nat)       (* status = $n *)
| CondPriority (arg : nat)     (* priority = $n *)
| CondCreatedBefore (arg : nat) (* created_at < $n *).

(** ** Statements *)

Inductive sql : Type → Type :=
| insertNotification (n : Notification) : sql unit
| insertNotificationBatch (ns : list Notification) : sql unit
| selectNotificationByID (id : uuid) : sql (option Notification)
| selectNotificationsByBatchID (batch : uuid) : sql (list Notification)
| updateNotificationStatus (id : uuid) (st : Status) : sql unit
| updateNotificationStatusWithError (id : uuid) (st : Status) (err : string) (attempts : Z) : sql unit
| updateNotificationSent (id : uuid) (msgID : string) : sql unit
| updateNotificationSentBatch (rows : list (uuid * string)) : sql unit
| selectPendingScheduled (limit : nat) : sql (list Notification)
| selectPendingForRecovery (limit : nat) : sql (list Notification)
| getAndMarkProcessing (id : uuid) : sql (option Notification)
| getAndMarkProcessingBatch (ids : list uuid) : sql (list Notification)
| updateBatchStatus (ids : list uuid) (st : Status) : sql unit
| countEstimate : sql Z
| countWhere (conds : list Cond) (args : list sqlarg) : sql Z
| listWhere (conds : list Cond) (limit_arg : nat) (offset_arg : option nat)
    (args : list sqlarg) : sql (list Notification)
| insertTemplate (t : Template) : sql unit
| selectTemplateByID (id : uuid) : sql (option Template)
| selectTemplateByName (name : string) : sql (option Template)
| updateTemplate (id : uuid) (name : string) (ch : Channel) (content : string)
    (vars : option (list string)) : sql unit
| deleteTemplate (id : uuid) : sql unit
| selectAllTemplates : sql (list Template)
| insertDeadLetter (d : DeadLetter) : sql unit.

(** [json.Marshal] of [Variables]: a nil slice is [null]. *)
Definition Variables_json (v : option (list string)) : json :=
  match v with None => JNull | Some l => JArr (JStr <$> l) end.

Section statements.
Context `{PgEngine}.

Definition table_rows {A} (t : gmap uuid A) : list A := (pg_scan t).*2.

(** Column values and CHECK constraints of an inserted notification; the columns
    the INSERT does not name are NULL. *)
Definition coerce_notification (n : Notification) : result error Notification :=
  idem ← admit_opt (pg_varchar 255) (n_IdempotencyKey n);
  recipient ← admit_value (pg_varchar 320 (n_Recipient n));
  channel ← admit_value (pg_varchar 10 (n_Channel n));
  content ← admit_value (pg_text (n_Content n));
  priority ← admit_value (pg_varchar 10 (n_Priority n));
  status ← admit_value (pg_varchar 20 (n_Status n));
  vars ← admit_value (pg_jsonb (n_TemplateVars n));
  attempts ← admit_value (pg_int4 (n_Attempts n));
  max_attempts ← admit_value (pg_int4 (n_MaxAttempts n));
  if Channel_Valid channel && Priority_Valid priority && Status_Check status then
    Ok {| n_ID := n_ID n; n_BatchID := n_BatchID n; n_IdempotencyKey := idem;
          n_Recipient := recipient; n_Channel := channel; n_Content := content;
          n_Priority := priority; n_Status := status; n_TemplateID := n_TemplateID n;
          n_TemplateVars := vars; n_ScheduledAt := pg_timestamp <$> n_ScheduledAt n;
          n_ProviderMsgID := None; n_Attempts := attempts; n_MaxAttempts := max_attempts;
          n_LastError := None; n_SentAt := None;
          n_CreatedAt := pg_timestamp (n_CreatedAt n);
          n_UpdatedAt := pg_timestamp (n_UpdatedAt n) |}
  else Err check_violation.

(** [idempotency_key ... UNIQUE]: NULLs never collide. *)
Definition key_taken (k : option string) (t : gmap uuid Notification) : bool :=
  match k with
  | None => false
  | Some key => bool_decide (Some key ∈ n_IdempotencyKey <$> (map_to_list t).*2)
  end.

Definition fk_ok (tid : option uuid) (db : DB) : bool :=
  match tid with None => true | Some t => bool_decide (is_Some (templates db !! t)) end.

Definition insert_notification (n : Notification) (db : DB) : result error DB :=
  row ← coerce_notification n;
  if bool_decide (is_Some (notifications db !! n_ID row)) ||
     key_taken (n_IdempotencyKey row) (notifications db)
  then Err unique_violation
  else if fk_ok (n_TemplateID row) db
  then Ok (set_notifications (<[n_ID row := row]> (notifications db)) db)
  else Err fk_violation.

(** The statements of one pgx batch run in one implicit transaction. *)
Fixpoint insert_notifications (ns : list Notification) (db : DB) : result error DB :=
  match ns with
  | [] => Ok db
  | n :: ns' => insert_notification n db ≫= insert_notifications ns'
  end.

(** UPDATE ... WHERE id = ANY(ids) AND P *)
Definition update_ids (ids : list uuid) (P : Notification → bool)
    (f : Notification → Notification) (t : gmap uuid Notification) : gmap uuid Notification :=
  map_imap (λ k n, Some (if bool_decide (k ∈ ids) && P n then f n else n)) t.

(** SET status = ..., updated_at = NOW() *)
Definition touch_status (now : Z) (st : Status) (n : Notification) : Notification :=
  {| n_ID := n_ID n; n_BatchID := n_BatchID n; n_IdempotencyKey := n_IdempotencyKey n;
     n_Recipient := n_Recipient n; n_Channel := n_Channel n; n_Content := n_Content n;
     n_Priority := n_Priority n; n_Status := st; n_TemplateID := n_TemplateID n;
     n_TemplateVars := n_TemplateVars n; n_ScheduledAt := n_ScheduledAt n;
     n_ProviderMsgID := n_ProviderMsgID n; n_Attempts := n_Attempts n;
     n_MaxAttempts := n_MaxAttempts n; n_LastError := n_LastError n; n_SentAt := n_SentAt n;
     n_CreatedAt := n_CreatedAt n; n_UpdatedAt := pg_timestamp now |}.

Definition touch_error (now : Z) (st : Status) (err : string) (attempts : Z)
    (n : Notification) : Notification :=
  {| n_ID := n_ID n; n_BatchID := n_BatchID n; n_IdempotencyKey := n_IdempotencyKey n;
     n_Recipient := n_Recipient n; n_Channel := n_Channel n; n_Content := n_Content n;
     n_Priority := n_Priority n; n_Status := st; n_TemplateID := n_TemplateID n;
     n_TemplateVars := n_TemplateVars n; n_ScheduledAt := n_ScheduledAt n;
     n_ProviderMsgID := n_ProviderMsgID n; n_Attempts := attempts;
     n_MaxAttempts := n_MaxAttempts n; n_LastError := Some err; n_SentAt := n_SentAt n;
     n_CreatedAt := n_CreatedAt n; n_UpdatedAt := pg_timestamp now |}.

Definition touch_sent (now : Z) (msgID : string) (n : Notification) : Notification :=
  {| n_ID := n_ID n; n_BatchID := n_BatchID n; n_IdempotencyKey := n_IdempotencyKey n;
     n_Recipient := n_Recipient n; n_Channel := n_Channel n; n_Content := n_Content n;
     n_Priority := n_Priority n; n_Status := StatusSent; n_TemplateID := n_TemplateID n;
     n_TemplateVars := n_TemplateVars n; n_ScheduledAt := n_ScheduledAt n;
     n_ProviderMsgID := Some msgID; n_Attempts := n_Attempts n;
     n_MaxAttempts := n_MaxAttempts n; n_LastError := n_LastError n;
     n_SentAt := Some (pg_timestamp now);
     n_CreatedAt := n_CreatedAt n; n_UpdatedAt := pg_timestamp now |}.

(** UPDATE ... WHERE id = ANY(ids), rejected when a matched row would violate the
    CHECK on status. *)
Definition update_status_where (ids : list uuid) (st : Status)
    (f : Notification → Notification) (db : DB) : result error DB :=
  if Status_Check st then
    Ok (set_notifications (update_ids ids (λ _, true) f (notifications db)) db)
  else if existsb (λ id, bool_decide (is_Some (notifications db !! id))) ids
  then Err check_violation else Ok db.

Definition mark_sent (now : Z) (id : uuid) (msgID : string) (db : DB) : result error DB :=
  m ← admit_value (pg_varchar 255 msgID);
  Ok (set_notifications (update_ids [id] (λ _, true) (touch_sent now m) (notifications db)) db).

Fixpoint mark_sent_batch (now : Z) (rows : list (uuid * string)) (db : DB) : result error DB :=
  match rows with
  | [] => Ok db
  | (id, m) :: rows' => mark_sent now id m db ≫= mark_sent_batch now rows'
  end.

(** *** WHERE clauses with numbered placeholders *)

Definition arg_at (args : list sqlarg) (n : nat) : option sqlarg :=
  match n with O => None | S i => args !! i end.

Definition text_arg (args : list sqlarg) (n : nat) : result error string :=
  match arg_at args n with
  | Some (VText s) => admit_value (pg_text s)
  | _ => Err (EPg "42P02" "there is no such text parameter")
  end.

Definition time_arg (args : list sqlarg) (n : nat) : result error Z :=
  match arg_at args n with
  | Some (VTime t) => Ok (pg_timestamp t)
  | _ => Err (EPg "42P02" "there is no such timestamp parameter")
  end.

(** LIMIT/OFFSET: a negative value is an error. *)
Definition count_arg (args : list sqlarg) (n : nat) : result error nat :=
  match arg_at args n with
  | Some (VInt z) => if z <? 0 then Err (EPg "2201W" "LIMIT must not be negative")
                     else Ok (Z.to_nat z)
  | _ => Err (EPg "42P02" "there is no such integer parameter")
  end.

Definition eval_cond (args : list sqlarg) (c : Cond) : result error (Notification → bool) :=
  match c with
  | CondChannel a => s ← text_arg args a; Ok (λ n, String.eqb (n_Channel n) s)
  | CondStatus a => s ← text_arg args a; Ok (λ n, String.eqb (n_Status n) s)
  | CondPriority a => s ← text_arg args a; Ok (λ n, String.eqb (n_Priority n) s)
  | CondCreatedBefore a => t ← time_arg args a; Ok (λ n, n_CreatedAt n <? t)
  end.

Fixpoint eval_where (args : list sqlarg) (cs : list Cond) : result error (Notification → bool) :=
  match cs with
  | [] => Ok (λ _, true)
  | c :: cs' => p ← eval_cond args c; q ← eval_where args cs'; Ok (λ n, p n && q n)
  end.

Definition rows_where (p : Notification → bool) (db : DB) : list Notification :=
  filter (λ n, p n = true) (table_rows (notifications db)).

(** [status = 'scheduled' AND scheduled_at <= NOW()]: false when scheduled_at is NULL. *)
Definition due (now : Z) (n : Notification) : bool :=
  String.eqb (n_Status n) StatusScheduled &&
  match n_ScheduledAt n with Some t => t <=? pg_timestamp now | None => false end.

(** [status IN ('pending', 'queued') AND scheduled_at IS NULL] *)
Definition recoverable (n : Notification) : bool :=
  claimable n && match n_ScheduledAt n with Some _ => false | None => true end.

(** *** Template rows *)

Definition coerce_template (t : Template) : result error Template :=
  name ← admit_value (pg_varchar 100 (t_Name t));
  channel ← admit_value (pg_varchar 10 (t_Channel t));
  content ← admit_value (pg_text (t_Content t));
  _ ← admit_value (pg_jsonb (Variables_json (t_Variables t)));
  if Channel_Valid channel then
    Ok {| t_ID := t_ID t; t_Name := name; t_Channel := channel; t_Content := content;
          t_Variables := t_Variables t; t_CreatedAt := pg_timestamp (t_CreatedAt t);
          t_UpdatedAt := pg_timestamp (t_UpdatedAt t) |}
  else Err check_violation.

(** [name ... UNIQUE], ignoring the row [self] (the one being updated). *)
Definition name_taken (self : uuid) (name : string) (t : gmap uuid Template) : bool :=
  bool_decide (name ∈ t_Name <$> (map_to_list (delete self t)).*2).

Definition insert_template (t : Template) (db : DB) : result error DB :=
  row ← coerce_template t;
  if bool_decide (is_Some (templates db !! t_ID row)) ||
     name_taken (t_ID row) (t_Name row) (templates db)
  then Err unique_violation
  else Ok (set_templates (<[t_ID row := row]> (templates db)) db).

Definition update_template (now : Z) (id : uuid) (name : string) (ch : Channel)
    (content : string) (vars : option (list string)) (db : DB) : result error DB :=
  match templates db !! id with
  | None => Ok db
  | Some old =>
      row ← coerce_template (mkTemplate id name ch content vars (t_CreatedAt old) now);
      if name_taken id (t_Name row) (templates db) then Err unique_violation
      else Ok (set_templates
                 (<[id := mkTemplate (t_ID old) (t_Name row) (t_Channel row) (t_Content row)
                            (t_Variables row) (t_CreatedAt old) (t_UpdatedAt row)]>
                    (templates db)) db)
  end.

(** The foreign key of notifications restricts the deletion of a template. *)
Definition template_referenced (id : uuid) (db : DB) : bool :=
  bool_decide (Some id ∈ n_TemplateID <$> (map_to_list (notifications db)).*2).

Definition insert_dead_letter (d : DeadLetter) (db : DB) : result error DB :=
  err ← admit_value (pg_text (d_LastError d));
  attempts ← admit_value (pg_int4 (d_Attempts d));
  if bool_decide (is_Some (dead_letters db !! d_ID d)) then Err unique_violation
  else if bool_decide (is_Some (notifications db !! d_NotificationID d))
  then Ok (set_dead_letters
             (<[d_ID d := mkDeadLetter (d_ID d) (d_NotificationID d) err attempts
                            (pg_timestamp (d_FailedAt d))]> (dead_letters db)) db)
  else Err fk_violation.

(** *** Execution

    A statement that fails leaves the tables as they were. *)
Definition write_result (r : result error DB) (db : DB) : result error unit * DB :=
  match r with Ok db' => (Ok tt, db') | Err e => (Err e, db) end.

Definition exec_sql {A} (q : sql A) (now : Z) (db : DB) : result error A * DB :=
  match q in sql A return result error A * DB with
  | insertNotification n => write_result (insert_notification n db) db
  | insertNotificationBatch ns => write_result (insert_notifications ns db) db
  | selectNotificationByID id => (Ok (notifications db !! id), db)
  | selectNotificationsByBatchID b =>
      (Ok (take 1000 (order_asc n_CreatedAt
             (rows_where (λ n, bool_decide (n_BatchID n = Some b)) db))), db)
  | updateNotificationStatus id st =>
      write_result (update_status_where [id] st (touch_status now st) db) db
  | updateNotificationStatusWithError id st err attempts =>
      write_result (e ← admit_value (pg_text err); a ← admit_value (pg_int4 attempts);
                    update_status_where [id] st (touch_error now st e a) db) db
  | updateNotificationSent id m => write_result (mark_sent now id m db) db
  | updateNotificationSentBatch rows => write_result (mark_sent_batch now rows db) db
  | selectPendingScheduled limit =>
      (Ok (take limit (order_asc (λ n, default 0 (n_ScheduledAt n))
             (rows_where (due now) db))), db)
  | selectPendingForRecovery limit =>
      (Ok (take limit (order_asc n_CreatedAt
             (rows_where recoverable db))), db)
  | getAndMarkProcessing id =>
      match notifications db !! id with
      | Some n =>
          if claimable n then
            let n' := touch_status now StatusProcessing n in
            (Ok (Some n'), set_notifications (<[id := n']> (notifications db)) db)
          else (Ok None, db)
      | None => (Ok None, db)
      end
  | getAndMarkProcessingBatch ids =>
      (Ok (touch_status now StatusProcessing <$>
             (filter (λ e, e.1 ∈ ids ∧ claimable e.2 = true) (pg_scan (notifications db))).*2),
       set_notifications
         (update_ids ids claimable (touch_status now StatusProcessing) (notifications db)) db)
  | updateBatchStatus ids st =>
      write_result (update_status_where ids st (touch_status now st) db) db
  | countEstimate => (Ok (Z.max (pg_reltuples (notifications db)) 0), db)
  | countWhere cs args =>
      (p ← eval_where args cs; Ok (Z.of_nat (length (rows_where p db))), db)
  | listWhere cs la oa args =>
      (p ← eval_where args cs; limit ← count_arg args la;
       offset ← match oa with None => Ok 0%nat | Some a => count_arg args a end;
       Ok (take limit (drop offset (order_desc n_CreatedAt (rows_where p db)))), db)
  | insertTemplate t => write_result (insert_template t db) db
  | selectTemplateByID id => (Ok (templates db !! id), db)
  | selectTemplateByName name =>
      (Ok (head (filter (λ t, t_Name t = name) (table_rows (templates db)))), db)
  | updateTemplate id name ch content vars =>
      write_result (update_template now id name ch content vars db) db
  | deleteTemplate id =>
      if template_referenced id db then (Err fk_violation, db)
      else (Ok tt, set_templates (delete id (templates db)) db)
  | selectAllTemplates => (Ok (pg_order_by_name (table_rows (templates db))), db)
  | insertDeadLetter d => write_result (insert_dead_letter d db) db
  end.
End statements.

(** ** Integrity of the tables *)

(** Two rows that agree on everything the constraints mention, except status. *)
Definition same_identity (n n' : Notification) : Prop :=
  n_ID n' = n_ID n ∧ n_IdempotencyKey n' = n_IdempotencyKey n ∧
  n_Channel n' = n_Channel n ∧ n_Priority n' = n_Priority n ∧
  n_TemplateID n' = n_TemplateID n.

Record notification_ok (k : uuid) (n : Notification) : Prop := {
  ok_key : n_ID n = k;
  ok_channel : Channel_Valid (n_Channel n) = true;
  ok_priority : Priority_Valid (n_Priority n) = true;
  ok_status : Status_Check (n_Status n) = true;
}.

(** Primary keys, CHECKs, UNIQUEs and foreign keys of the three tables. *)
Record db_wf (db : DB) : Prop := {
  wf_rows k n : notifications db !! k = Some n → notification_ok k n;
  wf_idem k1 k2 n1 n2 key :
    notifications db !! k1 = Some n1 → notifications db !! k2 = Some n2 →
    n_IdempotencyKey n1 = Some key → n_IdempotencyKey n2 = Some key → k1 = k2;
  wf_template_fk k n t :
    notifications db !! k = Some n → n_TemplateID n = Some t → is_Some (templates db !! t);
  wf_templates k t : templates db !! k = Some t → t_ID t = k ∧ Channel_Valid (t_Channel t) = true;
  wf_names k1 k2 t1 t2 :
    templates db !! k1 = Some t1 → templates db !! k2 = Some t2 → t_Name t1 = t_Name t2 → k1 = k2;
  wf_dead k d : dead_letters db !! k = Some d →
    d_ID d = k ∧ is_Some (notifications db !! d_NotificationID d);
}.

Lemma db_wf_empty : db_wf empty_DB.
Proof. split; intros *; rewrite ?lookup_empty; done. Qed.

Section integrity.
Context `{PgEngine}.

Lemma lookup_update_ids ids P f (t : gmap uuid Notification) k :
  update_ids ids P f t !! k =
    (λ n, if bool_decide (k ∈ ids) && P n then f n else n) <$> t !! k.
Proof. unfold update_ids. rewrite map_lookup_imap. by destruct (t !! k). Qed.

Lemma lookup_update_ids_inv ids P f t k n' :
  update_ids ids P f t !! k = Some n' →
  ∃ n, t !! k = Some n ∧ (n' = n ∨ (k ∈ ids ∧ P n = true ∧ n' = f n)).
Proof.
  rewrite lookup_update_ids. destruct (t !! k) as [n|] eqn:E; simpl; [|done].
  intros [= <-]. exists n. split; [done|].
  destruct (bool_decide (k ∈ ids)) eqn:Ek; simpl; [|by left].
  destruct (P n) eqn:EP; [right|by left]. by rewrite bool_decide_eq_true in Ek.
Qed.

Lemma lookup_update_ids_is_Some ids P f t k :
  is_Some (update_ids ids P f t !! k) ↔ is_Some (t !! k).
Proof. rewrite lookup_update_ids. apply fmap_is_Some. Qed.

Lemma insert_update_ids id f (t : gmap uuid Notification) n :
  t !! id = Some n → <[id := f n]> t = update_ids [id] (λ _, true) f t.
Proof.
  intros Hn. apply map_eq. intros k. rewrite lookup_insert, lookup_update_ids.
  case_decide as Hk; subst.
  - rewrite Hn. simpl. rewrite bool_decide_true; [done|by apply list_elem_of_singleton].
  - rewrite bool_decide_false; [by destruct (t !! k)|]. rewrite list_elem_of_singleton. congruence.
Qed.

(** Changing rows in place keeps the integrity as long as the new statuses pass
    the CHECK and the constrained columns are not touched. *)
Lemma wf_update_ids ids P f db :
  (∀ n, P n = true → same_identity n (f n) ∧ Status_Check (n_Status (f n)) = true) →
  db_wf db → db_wf (set_notifications (update_ids ids P f (notifications db)) db).
Proof.
  intros Hf [Hr Hi Hfk Ht Hnm Hd].
  assert (Hid : ∀ k n', update_ids ids P f (notifications db) !! k = Some n' →
    ∃ n, notifications db !! k = Some n ∧ same_identity n n' ∧
         (Status_Check (n_Status n) = true → Status_Check (n_Status n') = true)).
  { intros k n' (n & Hn & [->|(_ & HP & ->)])%lookup_update_ids_inv; exists n.
    - split_and!; [done| |done]. by split_and!.
    - by destruct (Hf n HP) as [? ?]. }
  split; simpl; intros *.
  - intros (n0 & Hn0 & (? & ? & Hc & Hp & ?) & Hs)%Hid.
    destruct (Hr _ _ Hn0). split; [congruence|by rewrite Hc|by rewrite Hp|auto].
  - intros (m1 & Hm1 & (_ & E1 & _) & _)%Hid (m2 & Hm2 & (_ & E2 & _) & _)%Hid.
    rewrite E1, E2. by apply (Hi _ _ _ _ _ Hm1 Hm2).
  - intros (m & Hm & (_ & _ & _ & _ & E) & _)%Hid. rewrite E. by apply (Hfk _ _ _ Hm).
  - apply Ht.
  - apply Hnm.
  - intros Hk. rewrite lookup_update_ids_is_Some. by apply Hd.
Qed.

Lemma admit_value_Ok {A} (v : option A) a : admit_value v = Ok a → v = Some a.
Proof. destruct v; simpl; congruence. Qed.

Lemma coerce_notification_ok n row :
  coerce_notification n = Ok row →
  notification_ok (n_ID n) row ∧ n_TemplateID row = n_TemplateID n ∧ n_ID row = n_ID n.
Proof.
  unfold coerce_notification. intros Hc. do 9 bind_ok Hc.
  destruct (_ && _ && _) eqn:EC; [|done]. injection Hc as <-. zbool. done.
Qed.

Lemma key_taken_false key (t : gmap uuid Notification) k n :
  key_taken (Some key) t = false → t !! k = Some n → n_IdempotencyKey n ≠ Some key.
Proof.
  simpl. rewrite bool_decide_eq_false. intros Hn Hk He. apply Hn.
  apply list_elem_of_fmap. exists n. split; [done|].
  apply list_elem_of_fmap. exists (k, n). split; [done|]. by apply elem_of_map_to_list.
Qed.

Lemma wf_insert_notification n db db' :
  insert_notification n db = Ok db' → db_wf db → db_wf db'.
Proof.
  unfold insert_notification. intros Hins [Hr Hi Hfk Ht Hnm Hd].
  bind_ok Hins. destruct (coerce_notification_ok n v E) as (Hok & Htid & Hid).
  destruct (_ || _) eqn:Eu; [done|]. zbool. destruct (fk_ok _ _) eqn:Efk; [|done].
  injection Hins as <-.
  match goal with Hb : bool_decide _ = false |- _ => rename Hb into Hfresh end.
  apply bool_decide_eq_false in Hfresh. apply eq_None_not_Some in Hfresh.
  split; simpl; intros *.
  - rewrite lookup_insert. case_decide; [|by apply Hr]. intros [= <-]. subst. by rewrite Hid.
  - rewrite !lookup_insert. repeat case_decide; simplify_eq/=; try done; intros; simplify_eq.
    + exfalso. eapply key_taken_false; [|done|done]. congruence.
    + exfalso. eapply key_taken_false; [|done|done]. congruence.
    + by eapply Hi.
  - rewrite lookup_insert. case_decide; [|by apply Hfk].
    intros [= <-] Ht'. unfold fk_ok in Efk. rewrite Ht' in Efk.
    by apply bool_decide_eq_true in Efk.
  - apply Ht.
  - apply Hnm.
  - intros Hk. destruct (Hd _ _ Hk) as [? Hsome]. split; [done|].
    rewrite lookup_insert. by case_decide.
Qed.

Lemma wf_insert_notifications ns db db' :
  insert_notifications ns db = Ok db' → db_wf db → db_wf db'.
Proof.
  revert db. induction ns as [|n ns IH]; simpl; intros db; [congruence|].
  intros Hi. bind_ok Hi. intros Hwf. eapply IH; [done|]. by eapply wf_insert_notification.
Qed.

Lemma wf_update_status ids st f db db' :
  (∀ n, same_identity n (f n) ∧ n_Status (f n) = st) →
  update_status_where ids st f db = Ok db' → db_wf db → db_wf db'.
Proof.
  unfold update_status_where. intros Hf. destruct (Status_Check st) eqn:E.
  - intros [= <-]. apply wf_update_ids. intros n _.
    destruct (Hf n) as [? ->]. done.
  - destruct (existsb _ _); [done|]. congruence.
Qed.

Lemma wf_mark_sent now id m db db' :
  mark_sent now id m db = Ok db' → db_wf db → db_wf db'.
Proof.
  unfold mark_sent. intros Hm. bind_ok Hm. injection Hm as <-.
  apply wf_update_ids. intros n _. by repeat split.
Qed.

Lemma wf_mark_sent_batch now rows db db' :
  mark_sent_batch now rows db = Ok db' → db_wf db → db_wf db'.
Proof.
  revert db. induction rows as [|[id m] rows IH]; simpl; intros db; [congruence|].
  intros Hm. bind_ok Hm. intros Hwf. eapply IH; [done|]. by eapply wf_mark_sent.
Qed.

Lemma coerce_template_ok t row :
  coerce_template t = Ok row → t_ID row = t_ID t ∧ Channel_Valid (t_Channel row) = true.
Proof.
  unfold coerce_template. intros Hc. do 4 bind_ok Hc.
  destruct (Channel_Valid v0) eqn:E'; [|done]. by injection Hc as <-.
Qed.

Lemma name_taken_false self name (t : gmap uuid Template) k u :
  name_taken self name t = false → t !! k = Some u → k ≠ self → t_Name u ≠ name.
Proof.
  unfold name_taken. rewrite bool_decide_eq_false. intros Hn Hk Hne He. apply Hn.
  apply list_elem_of_fmap. exists u. split; [done|].
  apply list_elem_of_fmap. exists (k, u). split; [done|].
  apply elem_of_map_to_list. by rewrite lookup_delete_ne.
Qed.

(** Writing one template row whose name no other row has. *)
Lemma wf_write_template id t db :
  t_ID t = id → Channel_Valid (t_Channel t) = true →
  name_taken id (t_Name t) (templates db) = false →
  db_wf db → db_wf (set_templates (<[id := t]> (templates db)) db).
Proof.
  intros Hid Hch Hname [Hr Hi Hfk Ht Hnm Hd]. split; simpl; intros *; try done.
  - by apply Hr.
  - by apply Hi.
  - intros Hk Hn. destruct (Hfk _ _ _ Hk Hn). rewrite lookup_insert. by case_decide.
  - rewrite lookup_insert. case_decide; [|apply Ht]. intros [= <-]. by subst.
  - rewrite !lookup_insert. repeat case_decide; simplify_eq/=; try done; intros; simplify_eq/=.
    + exfalso. by eapply (name_taken_false _ _ _ k2 t2 Hname).
    + exfalso. by eapply (name_taken_false _ _ _ k1 t1 Hname).
    + by eapply Hnm.
  - apply Hd.
Qed.

Lemma wf_insert_template t db db' :
  insert_template t db = Ok db' → db_wf db → db_wf db'.
Proof.
  unfold insert_template. intros Hi. bind_ok Hi. destruct (coerce_template_ok t v E).
  destruct (_ || _) eqn:Eu; [done|]. zbool. injection Hi as <-. by apply wf_write_template.
Qed.

Lemma wf_update_template now id name ch content vars db db' :
  update_template now id name ch content vars db = Ok db' → db_wf db → db_wf db'.
Proof.
  unfold update_template. destruct (templates db !! id) as [old|] eqn:Eo; [|congruence].
  intros Hu Hwf. bind_ok Hu. destruct (coerce_template_ok _ v E) as [_ Hc].
  destruct (name_taken _ _ _) eqn:Et; [done|]. injection Hu as <-.
  apply wf_write_template; try done; simpl. by destruct (wf_templates _ Hwf _ _ Eo).
Qed.

Lemma wf_delete_template id db :
  template_referenced id db = false → db_wf db →
  db_wf (set_templates (delete id (templates db)) db).
Proof.
  unfold template_referenced. rewrite bool_decide_eq_false.
  intros Href [Hr Hi Hfk Ht Hnm Hd]. split; simpl; intros *.
  - apply Hr.
  - apply Hi.
  - intros Hk Hn. rewrite lookup_delete. case_decide; [subst t|by eapply Hfk].
    exfalso. apply Href. apply list_elem_of_fmap. exists n. split; [done|].
    apply list_elem_of_fmap. exists (k, n). split; [done|]. by apply elem_of_map_to_list.
  - rewrite lookup_delete. case_decide; [done|apply Ht].
  - rewrite !lookup_delete. repeat case_decide; try done. apply Hnm.
  - apply Hd.
Qed.

Lemma wf_insert_dead_letter d db db' :
  insert_dead_letter d db = Ok db' → db_wf db → db_wf db'.
Proof.
  unfold insert_dead_letter. intros Hi. do 2 bind_ok Hi.
  destruct (bool_decide _); [done|]. destruct (bool_decide _) eqn:Efk; [|done].
  injection Hi as <-. apply bool_decide_eq_true in Efk.
  intros [Hr Hid Hfk Ht Hnm Hd]. split; simpl; intros *; try done.
  - apply Hr.
  - apply Hid.
  - apply Hfk.
  - apply Ht.
  - apply Hnm.
  - rewrite lookup_insert. case_decide; [|apply Hd]. by intros [= <-].
Qed.

Lemma write_result_snd r db :
  (write_result r db).2 = db ∨ r = Ok (write_result r db).2.
Proof. destruct r; simpl; auto. Qed.

Lemma wf_write r db :
  (∀ db', r = Ok db' → db_wf db') → db_wf db → db_wf (write_result r db).2.
Proof. destruct r; simpl; auto. Qed.

#[local] Hint Resolve wf_insert_notification wf_insert_notifications wf_mark_sent
  wf_mark_sent_batch wf_insert_template wf_update_template wf_insert_dead_letter : insider.

(** Every statement keeps the integrity of the tables. *)
Lemma exec_sql_wf {A} (q : sql A) now db : db_wf db → db_wf (exec_sql q now db).2.
Proof.
  intros Hwf. destruct q; cbn [exec_sql snd];
    try (apply wf_write; [by eauto with insider|done]); try done.
  - apply wf_write; [|done]. intros db' Hu. eapply wf_update_status; [|exact Hu|done].
    intros n. by repeat split.
  - apply wf_write; [|done]. intros db' Hu. do 2 bind_ok Hu.
    eapply wf_update_status; [|exact Hu|done]. intros n. by repeat split.
  - destruct (notifications db !! id) as [n|] eqn:En; [|done].
    destruct (claimable n); [|done]. cbn.
    rewrite (insert_update_ids id (touch_status now StatusProcessing)) by done.
    apply wf_update_ids; [|done]. intros n' _. by repeat split.
  - apply wf_update_ids; [|done]. intros n' _. by repeat split.
  - apply wf_write; [|done]. intros db' Hu. eapply wf_update_status; [|exact Hu|done].
    intros n. by repeat split.
  - destruct (template_referenced id db) eqn:E; [done|]. by apply wf_delete_template.
Qed.
End integrity.
