(* ===== verification/RateLimiter.v ===== *)
(** * Sliding-window rate limiter (internal/queue/redis/ratelimiter.go)

    The two Lua scripts run atomically inside Redis; they are translated
    statement by statement over the commands of [RedisServer].  A Lua number is
    a double, so [now] and [now - window] are rounded by [f64].  The text of a
    number in a member ([now .. '-' .. i]) is Lua's own conversion, the class
    [LuaNumber]; [math.random(1000000)] draws come from a stream per script
    execution.  The script sets the key's time to live, so every call is
    preceded by the server expiring keys at that moment. *)
From S2P Require Import Prelude GoLib Float64 Redis.
From Stdlib Require Import ZArith Lia.
From stdpp Require Import base numbers list strings gmap fin_maps.

Open Scope Z_scope.

(** Lua 5.1's [tostring] of an integer-valued number. *)
Class LuaNumber := lua_number : Z → string.

Record RateLimiter := mkRateLimiter { rl_limit : Z; rl_windowNs : Z }.

Definition NewRateLimiter (limit : Z) : RateLimiter :=
  {| rl_limit := limit; rl_windowNs := Second |}.

Definition ratelimit_key (channel : string) : string := "ratelimit:" +:+ channel.

Section scripts.
Context {R : Type} `{RedisServer R} `{LuaNumber}.

(** [window / 1000000000 + 1] seconds, as the server's EXPIRE takes it. *)
Definition script_ttl (window : Z) : Z := (window / Second + 1) * Second.

(** The member the [i]-th loop iteration of the batch script adds. *)
Definition batch_member (now : Z) (rnd : nat → Z) (i : nat) : string :=
  lua_number now +:+ "-" +:+ lua_number (Z.of_nat i) +:+ "-" +:+ lua_number (rnd i).

(** [for i = 1, allowed do ZADD ... end], from iteration [i] on. *)
Fixpoint add_entries (key : string) (now : Z) (rnd : nat → Z) (i n : nat) (r : R) : R :=
  match n with
  | O => r
  | S n' => add_entries key now rnd (S i) n' (ZADD key now (batch_member now rnd i) r)
  end.

(** [rateLimitScript]; [t] is the server's clock. *)
Definition rateLimitScript (key : string) (limit window now0 : Z) (t : Z) (rnd : nat → Z)
    (r : R) : Z * R :=
  let now := f64 now0 in
  let r := ZREMRANGEBYSCORE key 0 (f64 (now - window)) r in
  let count := Z.of_nat (ZCARD key r) in
  if count <? limit then
    let r := ZADD key now (lua_number now +:+ "-" +:+ lua_number (rnd 1%nat)) r in
    let r := EXPIRE key t (script_ttl window) r in
    (1, r)
  else (0, r).

(** [rateLimitBatchScript] *)
Definition rateLimitBatchScript (key : string) (limit window now0 requested : Z) (t : Z)
    (rnd : nat → Z) (r : R) : Z * R :=
  let now := f64 now0 in
  let r := ZREMRANGEBYSCORE key 0 (f64 (now - window)) r in
  let count := Z.of_nat (ZCARD key r) in
  let remaining := limit - count in
  if remaining <=? 0 then (0, r)
  else
    let allowed := Z.min requested remaining in
    let r := add_entries key now rnd 1 (Z.to_nat allowed) r in
    let r := EXPIRE key t (script_ttl window) r in
    (allowed, r).
End scripts.

(** ** The scripts on the contents of the key *)

Section specs.
Context {R : Type} `{RedisLaws R} `{LuaNumber}.

(** The members iterations [i .. i+n-1] add. *)
Definition batch_members (now : Z) (rnd : nat → Z) (i n : nat) : list string :=
  batch_member now rnd <$> seq i n.

Lemma add_entries_lookup key now rnd n : ∀ i (r : R) x,
  zset (add_entries key now rnd i n r) key !! x =
    if decide (x ∈ batch_members now rnd i n) then Some now else zset r key !! x.
Proof.
  induction n as [|n IH]; intros i r x.
  { destruct (decide _) as [Hin|]; [by apply elem_of_nil in Hin|done]. }
  cbn [add_entries]. rewrite IH, zset_ZADD, (decide_True (P := key = key)), lookup_insert by done.
  change (batch_members now rnd i (S n))
    with (batch_member now rnd i :: batch_members now rnd (S i) n).
  destruct (decide (x ∈ batch_members now rnd (S i) n)) as [Hin|Hin],
    (decide (batch_member now rnd i = x)) as [<-|Hne];
    destruct (decide (_ ∈ _ :: _)) as [Hc|Hc]; rewrite elem_of_cons in Hc; intuition congruence.
Qed.

Lemma add_entries_other key now rnd n : ∀ i (r : R) k,
  k ≠ key → zset (add_entries key now rnd i n r) k = zset r k.
Proof.
  induction n as [|n IH]; intros i r k Hk; simpl; [done|].
  rewrite IH, zset_ZADD, decide_False by congruence. done.
Qed.

Lemma add_entries_size_le key now rnd n : ∀ i (r : R),
  (size (zset (add_entries key now rnd i n r) key) ≤ size (zset r key) + n)%nat.
Proof.
  induction n as [|n IH]; intros i r; simpl; [lia|].
  specialize (IH (S i) (ZADD key now (batch_member now rnd i) r)).
  rewrite zset_ZADD, decide_True in IH by done.
  pose proof (map_size_insert (batch_member now rnd i) now (zset r key)) as Hs.
  destruct (zset r key !! _); simpl in Hs; unfold id in Hs; lia.
Qed.

Lemma add_entries_deadline key now rnd n : ∀ i (r : R) k,
  deadline (add_entries key now rnd i n r) k = deadline r k.
Proof.
  induction n as [|n IH]; intros i r k; simpl; [done|]. by rewrite IH, deadline_ZADD.
Qed.

(** What the cleanup leaves: entries newer than the window (or with a negative
    score, which no call writes). *)
Lemma cleanup_lookup key lo hi (r : R) x :
  zset (ZREMRANGEBYSCORE key lo hi r) key !! x =
    s ← zset r key !! x; if decide (lo ≤ s ≤ hi) then None else Some s.
Proof.
  rewrite zset_ZREMRANGEBYSCORE, decide_True, map_lookup_filter by done.
  destruct (zset r key !! x) as [s|]; simpl; [|done].
  case_decide; [by rewrite option_guard_False by tauto|by rewrite option_guard_True by tauto].
Qed.

Lemma cleanup_size key lo hi (r : R) :
  (size (zset (ZREMRANGEBYSCORE key lo hi r) key) ≤ size (zset r key))%nat.
Proof.
  rewrite zset_ZREMRANGEBYSCORE, decide_True by done.
  apply map_subseteq_size, map_filter_subseteq.
Qed.

(** The number a batch call grants is exactly what the window has left. *)
Lemma batch_script_allowed key limit window now req t rnd (r : R) :
  0 < req →
  let live := Z.of_nat (size (zset (ZREMRANGEBYSCORE key 0 (f64 (f64 now - window)) r) key)) in
  (rateLimitBatchScript key limit window now req t rnd r).1 =
    Z.max 0 (Z.min req (limit - live)).
Proof.
  intros Hreq live. unfold rateLimitBatchScript. rewrite ZCARD_size. fold live.
  destruct (_ <=? 0) eqn:E; zbool; simpl; lia.
Qed.
End specs.

(** ** The window bound

    [rl_trace hist acc r]: a sequence of batch calls on one key, at
    non-decreasing times, leads from an empty key to the server state [r];
    [hist] lists the calls, newest first, as (score, number granted), and [acc]
    the entries they wrote, one per granted send. *)
Section window.
Context {R : Type} `{RedisLaws R} `{LuaNumber}.
Variable rl : RateLimiter.
Variable key : string.

Definition last_time (hist : list (Z * Z)) : Z :=
  match hist with [] => 0 | (s, _) :: _ => s end.

Inductive rl_trace : list (Z * Z) → list (string * Z) → R → Prop :=
| trace_start r : zset r key = ∅ → rl_trace [] [] r
| trace_call hist acc r now req rnd allowed r' :
    rl_trace hist acc r →
    0 ≤ now < 2 ^ 62 → last_time hist ≤ f64 now → 0 < req →
    rateLimitBatchScript key (rl_limit rl) (rl_windowNs rl) now req now rnd
      (expire_keys now r) = (allowed, r') →
    rl_trace ((f64 now, allowed) :: hist)
      (((λ x, (x, f64 now)) <$> batch_members (f64 now) rnd 1 (Z.to_nat allowed)) ++ acc) r'.

(** The call constructor with the script's result projected. *)
Lemma trace_run hist acc r now req rnd :
  rl_trace hist acc r → 0 ≤ now < 2 ^ 62 → last_time hist ≤ f64 now → 0 < req →
  let res := rateLimitBatchScript key (rl_limit rl) (rl_windowNs rl) now req now rnd
    (expire_keys now r) in
  rl_trace ((f64 now, res.1) :: hist)
    (((λ x, (x, f64 now)) <$> batch_members (f64 now) rnd 1 (Z.to_nat res.1)) ++ acc) res.2.
Proof. intros. eapply trace_call; try done. apply surjective_pairing. Qed.

(** Sends granted since the score [from]. *)
Definition granted_since (from : Z) (hist : list (Z * Z)) : Z :=
  foldr (λ e n, if from <? e.1 then Z.max 0 e.2 + n else n) 0 hist.

(** The start of the window that ends with the newest call. *)
Definition window_start (hist : list (Z * Z)) : Z := f64 (last_time hist - rl_windowNs rl).

(** The invariant behind the bound: the live grants are in the set, the set is
    never larger than the limit, and the key cannot expire under a live grant. *)
Record rl_inv (hist : list (Z * Z)) (acc : list (string * Z)) (r : R) : Prop := {
  inv_live x s : (x, s) ∈ acc → window_start hist < s → zset r key !! x = Some s;
  inv_old x s : (x, s) ∈ acc → s ≤ last_time hist;
  inv_size : Z.of_nat (size (zset r key)) ≤ rl_limit rl;
  inv_deadline d x s :
    deadline r key = Some d → (x, s) ∈ acc → s ≤ f64 (d - script_ttl (rl_windowNs rl));
}.

Hypothesis rl_window : rl_windowNs rl = Second.
Hypothesis rl_limit_nonneg : 0 ≤ rl_limit rl.

Lemma window_ttl : script_ttl (rl_windowNs rl) = 2 * Second.
Proof. by rewrite rl_window. Qed.

Lemma window_start_mono hist now a :
  last_time hist ≤ f64 now → window_start hist ≤ window_start ((f64 now, a) :: hist).
Proof. intros. apply f64_mono. simpl. lia. Qed.

(** A live grant survives the server's expiry and the script's cleanup. *)
Lemma live_survives hist acc r now x s a :
  rl_inv hist acc r → 0 ≤ now < 2 ^ 62 → last_time hist ≤ f64 now →
  (x, s) ∈ acc → window_start ((f64 now, a) :: hist) < s →
  zset (ZREMRANGEBYSCORE key 0 (f64 (f64 now - rl_windowNs rl)) (expire_keys now r)) key !! x
    = Some s.
Proof.
  intros Hinv Hnow Hlast Hx Hs.
  pose proof (window_start_mono hist now a Hlast).
  pose proof (inv_live _ _ _ Hinv x s Hx ltac:(lia)) as Hl.
  rewrite cleanup_lookup, zset_expire_keys. unfold window_start in Hs. cbn in Hs.
  destruct (deadline r key) as [d|] eqn:Hd.
  - destruct (d <=? now) eqn:E; zbool.
    + pose proof (inv_deadline _ _ _ Hinv d x s Hd Hx) as Hds.
      pose proof (f64_error now 62 ltac:(lia) Hnow).
      pose proof (f64_mono (d - script_ttl (rl_windowNs rl)) (f64 now - rl_windowNs rl)) as Hm.
      rewrite window_ttl, rl_window in *. unfold Second, Millisecond, Microsecond in *. lia.
    + rewrite Hl. simpl. rewrite decide_False by lia. done.
  - rewrite Hl. simpl. rewrite decide_False by lia. done.
Qed.

Lemma deadline_after_cleanup r now hi d :
  deadline (ZREMRANGEBYSCORE key 0 hi (expire_keys now r)) key = Some d →
  deadline r key = Some d.
Proof.
  rewrite deadline_ZREMRANGEBYSCORE. case_decide; [done|].
  rewrite deadline_expire_keys. repeat case_match; naive_solver.
Qed.

Lemma size_after_cleanup hist acc r now hi :
  rl_inv hist acc r →
  Z.of_nat (size (zset (ZREMRANGEBYSCORE key 0 hi (expire_keys now r)) key)) ≤ rl_limit rl.
Proof.
  intros Hinv. pose proof (inv_size _ _ _ Hinv).
  pose proof (cleanup_size key 0 hi (expire_keys now r)) as Hc.
  rewrite zset_expire_keys in Hc.
  destruct (deadline r key) as [d|]; [destruct (d <=? now)|]; try lia.
  rewrite map_size_empty in Hc. lia.
Qed.

Lemma rl_inv_denied hist acc r now :
  rl_inv hist acc r → 0 ≤ now < 2 ^ 62 → last_time hist ≤ f64 now →
  rl_inv ((f64 now, 0) :: hist) acc
    (ZREMRANGEBYSCORE key 0 (f64 (f64 now - rl_windowNs rl)) (expire_keys now r)).
Proof.
  intros Hinv Hnow Hlast. split.
  - intros x s Hx Hs. by eapply live_survives.
  - intros x s Hx. pose proof (inv_old _ _ _ Hinv x s Hx). simpl. lia.
  - by eapply size_after_cleanup.
  - intros d x s Hd Hx. apply deadline_after_cleanup in Hd. by eapply inv_deadline.
Qed.

Lemma rl_inv_granted hist acc r now rnd n :
  rl_inv hist acc r → 0 ≤ now < 2 ^ 62 → last_time hist ≤ f64 now →
  let new := (λ x, (x, f64 now)) <$> batch_members (f64 now) rnd 1 n in
  let r1 := ZREMRANGEBYSCORE key 0 (f64 (f64 now - rl_windowNs rl)) (expire_keys now r) in
  NoDup (new ++ acc).*1 →
  Z.of_nat n ≤ rl_limit rl - Z.of_nat (size (zset r1 key)) →
  rl_inv ((f64 now, Z.of_nat n) :: hist) (new ++ acc)
    (EXPIRE key now (script_ttl (rl_windowNs rl)) (add_entries key (f64 now) rnd 1 n r1)).
Proof.
  intros Hinv Hnow Hlast new r1 Hnd Hn.
  assert (Hnew : ∀ x s, (x, s) ∈ new → s = f64 now ∧ x ∈ batch_members (f64 now) rnd 1 n).
  { unfold new. intros x s (y & [= -> ->] & Hy)%list_elem_of_fmap. done. }
  assert (Hold : ∀ x s, (x, s) ∈ new ++ acc → s ≤ f64 now).
  { intros x s [Hx|Hx]%elem_of_app; [by apply Hnew in Hx as [-> _]|].
    pose proof (inv_old _ _ _ Hinv x s Hx). lia. }
  split.
  - intros x s Hx Hs. rewrite zset_EXPIRE, add_entries_lookup.
    apply elem_of_app in Hx as [Hx|Hx].
    { apply Hnew in Hx as [-> Hx]. by rewrite decide_True. }
    rewrite decide_False; [by eapply live_survives|].
    intros Hin. rewrite fmap_app in Hnd. apply NoDup_app in Hnd as (_ & Hdisj & _).
    apply (Hdisj x).
    + unfold new. rewrite <- list_fmap_compose. apply list_elem_of_fmap. by exists x.
    + apply list_elem_of_fmap. by exists (x, s).
  - intros x s Hx. simpl. by eapply Hold.
  - rewrite zset_EXPIRE.
    pose proof (add_entries_size_le key (f64 now) rnd n 1 r1). lia.
  - intros d x s Hd Hx. rewrite deadline_EXPIRE in Hd. case_decide as Hk.
    + injection Hd as <-. rewrite Z.add_simpl_r. by eapply Hold.
    + exfalso. destruct (decide (zset (add_entries key (f64 now) rnd 1 n r1) key = ∅))
        as [He|He]; [|tauto].
      rewrite (deadline_empty _ _ He) in Hd. done.
Qed.

Lemma rl_trace_inv hist acc r : rl_trace hist acc r → NoDup acc.*1 → rl_inv hist acc r.
Proof.
  induction 1 as [r He|hist acc r now req rnd allowed r' Htr IH Hnow Hlast Hreq Hscript].
  - intros _. split; intros *; try (by intros ?%elem_of_nil).
    + rewrite He, map_size_empty. lia.
    + by intros _ ?%elem_of_nil.
  - intros Hnd. assert (Hinv : rl_inv hist acc r).
    { apply IH. rewrite fmap_app in Hnd. by apply NoDup_app in Hnd as (_ & _ & ?). }
    unfold rateLimitBatchScript in Hscript. rewrite ZCARD_size in Hscript.
    destruct (_ <=? 0) eqn:E; zbool; injection Hscript as <- <-.
    + by apply rl_inv_denied.
    + set (n := Z.to_nat _) in *.
      assert (Hz : Z.min req (rl_limit rl - Z.of_nat (size (zset (ZREMRANGEBYSCORE key 0
        (f64 (f64 now - rl_windowNs rl)) (expire_keys now r)) key))) = Z.of_nat n) by lia.
      rewrite Hz. apply rl_inv_granted; [done..|lia].
Qed.

Lemma granted_since_length hist acc r from :
  rl_trace hist acc r →
  granted_since from hist = Z.of_nat (length (filter (λ e, from < e.2) acc)).
Proof.
  induction 1 as [r He|hist acc r now req rnd allowed r' Htr IH Hnow Hlast Hreq Hscript];
    [done|].
  rewrite filter_app, length_app. cbn [granted_since foldr fst snd].
  change (foldr _ 0 hist) with (granted_since from hist). rewrite IH.
  destruct (from <? f64 now) eqn:E; zbool.
  - rewrite (filter_all _ (_ <$> _)); [rewrite length_fmap; unfold batch_members;
      rewrite length_fmap, length_seq; lia|].
    intros [x s] (y & [= -> ->] & _)%list_elem_of_fmap. done.
  - rewrite (filter_none _ (_ <$> _)); [simpl; lia|].
    intros [x s] (y & [= -> ->] & _)%list_elem_of_fmap. simpl. lia.
Qed.

End window.

(** ** Lua 5.1's number format, [%.14g] *)

Fixpoint strip_zeros (fuel : nat) (q : Z) : Z :=
  match fuel with
  | O => q
  | S f => if (q mod 10 =? 0) && negb (q =? 0) then strip_zeros f (q / 10) else q
  end.

(** Fourteen significant digits, trailing zeros dropped, exponent form from
    [10^14] on; for nonnegative integers. *)
Definition lua_14g (z : Z) : string :=
  if z <? 10 ^ 14 then fmt_d z
  else
    let e := Z.of_nat (String.length (fmt_d z)) - 1 in
    let u := 10 ^ (e - 13) in
    let q := z / u in
    let r := z mod u in
    let q := if 2 * r <? u then q else if u <? 2 * r then q + 1
             else if Z.even q then q else q + 1 in
    let '(q, e) := if q =? 10 ^ 14 then (10 ^ 13, e + 1) else (q, e) in
    match fmt_d (strip_zeros 14 q) with
    | EmptyString => ""
    | String c EmptyString => String c EmptyString +:+ "e+" +:+ fmt_d e
    | String c frac => String c EmptyString +:+ "." +:+ frac +:+ "e+" +:+ fmt_d e
    end.

Definition RefLua : LuaNumber := lua_14g.

Example lua_14g_now : lua_14g 1700000000123456789 = "1.7000000001235e+18".
Proof. reflexivity. Qed.

(** A concrete run: limit 3, a call for 2 sends, half a second later another. *)
Definition demo_rl : RateLimiter := NewRateLimiter 3.
Definition demo_key : string := ratelimit_key "sms".
Definition demo_now : Z := 1700000000 * Second.

Section runs.
#[local] Existing Instance RefLua.

Definition demo_call (rl : RateLimiter) (now req : Z) (rnd : nat → Z) (r : RefRedis) : Z * RefRedis :=
  rateLimitBatchScript demo_key (rl_limit rl) (rl_windowNs rl) now req now rnd
    (expire_keys now r).


(** Without distinct members the limit is exceeded.  Lua prints [now] with 14
    digits and Redis restarts the random sequence at every script execution, so
    calls within the same 100 microseconds write the same members and the set
    does not grow: with a limit of 5, three calls in 40 microseconds are granted
    3, 2 and again 2 sends. *)
Theorem rate_limit_exceeded_on_collision :
  ∃ hist acc (r : RefRedis),
    rl_trace (NewRateLimiter 5) demo_key hist acc r ∧
    granted_since (window_start (NewRateLimiter 5) hist) hist = 7.
Proof.
  set (rl := NewRateLimiter 5). set (rnd := λ _ : nat, 7).
  set (c1 := demo_call rl demo_now 3 rnd empty_RefRedis).
  set (c2 := demo_call rl (demo_now + 20000) 3 rnd c1.2).
  set (c3 := demo_call rl (demo_now + 40000) 3 rnd c2.2).
  set (entries (now n : Z) := (λ x, (x, f64 now)) <$> batch_members (f64 now) rnd 1 (Z.to_nat n)).
  exists [(f64 (demo_now + 40000), c3.1); (f64 (demo_now + 20000), c2.1); (f64 demo_now, c1.1)].
  exists (entries (demo_now + 40000) c3.1 ++ entries (demo_now + 20000) c2.1 ++
          entries demo_now c1.1 ++ []).
  exists c3.2. split; [|vm_compute; reflexivity].
  do 2 (refine (trace_run rl demo_key _ _ _ _ _ rnd _ _ _ _); [|closed_arith..]).
  refine (trace_run rl demo_key [] [] empty_RefRedis _ _ rnd _ _ _ _); [|closed_arith..].
  by apply trace_start.
Qed.
End runs.
