(* ===== verification/GoTime.v ===== *)
(** * RFC 3339 timestamps ([time.Time.Format] and [time.Parse] on
      [time.RFC3339] / [time.RFC3339Nano])

    An instant is nanoseconds since the Unix epoch, shown in UTC.  The calendar
    is the proleptic Gregorian one; years 0 to 9999 print with four digits. *)
From S2P Require Import Prelude GoLib.
From Stdlib Require Import ZArith Lia Ascii.
From stdpp Require Import base numbers list strings.

Open Scope Z_scope.

(** ** Civil dates *)

Record civil := mkCivil { c_year : Z; c_month : Z; c_day : Z }.

(** Days since 1970-01-01 to a date; [doe] is the day of a 400-year era that
    starts on 1 March. *)
Definition civil_of_doe (era doe : Z) : civil :=
  let yoe := (doe - doe / 1460 + doe / 36524 - doe / 146096) / 365 in
  let doy := doe - (365 * yoe + yoe / 4 - yoe / 100) in
  let mp := (5 * doy + 2) / 153 in
  let d := doy - (153 * mp + 2) / 5 + 1 in
  let m := if mp <? 10 then mp + 3 else mp - 9 in
  mkCivil (yoe + era * 400 + (if m <=? 2 then 1 else 0)) m d.

Definition civil_from_days (days : Z) : civil :=
  let z := days + 719468 in
  civil_of_doe (z / 146097) (z mod 146097).

(** A date to days since 1970-01-01. *)
Definition days_from_civil (c : civil) : Z :=
  let y := if c_month c <=? 2 then c_year c - 1 else c_year c in
  let era := y / 400 in
  let yoe := y mod 400 in
  let mp := if 2 <? c_month c then c_month c - 3 else c_month c + 9 in
  let doy := (153 * mp + 2) / 5 + c_day c - 1 in
  let doe := yoe * 365 + yoe / 4 - yoe / 100 + doy in
  era * 146097 + doe - 719468.

(** ** Formatting *)

(** The last [w] decimal digits of [z], zero padded. *)
Fixpoint pad_digits (w : nat) (z : Z) (acc : string) : string :=
  match w with
  | O => acc
  | S w' => pad_digits w' (z / 10) (String (digit_char (z mod 10)) acc)
  end.

Definition pad (w : nat) (z : Z) : string := pad_digits w z "".

Definition nanos_per_day : Z := 86400 * Second.

Definition format_date_time (t : Z) : string :=
  let c := civil_from_days (t / nanos_per_day) in
  let s := (t mod nanos_per_day) / Second in
  pad 4 (c_year c) +:+ "-" +:+ pad 2 (c_month c) +:+ "-" +:+ pad 2 (c_day c) +:+ "T" +:+
  pad 2 (s / 3600) +:+ ":" +:+ pad 2 (s / 60 mod 60) +:+ ":" +:+ pad 2 (s mod 60).

(** [t.UTC().Format(time.RFC3339)] *)
Definition Format_RFC3339 (t : Z) : string := format_date_time t +:+ "Z".

(** [t.UTC().Format(time.RFC3339Nano)]: the fraction without trailing zeros. *)
Definition Format_RFC3339Nano (t : Z) : string :=
  format_date_time t +:+ frac_digits (t mod Second) 9 "" +:+ "Z".

Example format_epoch : Format_RFC3339 0 = "1970-01-01T00:00:00Z". Proof. reflexivity. Qed.
Example format_leap :
  Format_RFC3339Nano (1709164799 * Second + 120 * Millisecond) = "2024-02-28T23:59:59.12Z".
Proof. reflexivity. Qed.
Example format_leap_day : Format_RFC3339 (1709164800 * Second) = "2024-02-29T00:00:00Z".
Proof. reflexivity. Qed.

(** ** Parsing *)

(** Exactly [w] digits. *)
Fixpoint get_digits (w : nat) (acc : Z) (s : string) : option (Z * string) :=
  match w with
  | O => Some (acc, s)
  | S w' => match s with
            | EmptyString => None
            | String c s' => match digit_val c with
                             | Some d => get_digits w' (acc * 10 + d) s'
                             | None => None
                             end
            end
  end.

(** One or two digits: Go's layout "15" accepts a one-digit hour. *)
Definition get_hour (s : string) : option (Z * string) :=
  match get_digits 2 0 s with
  | Some r => Some r
  | None => get_digits 1 0 s
  end.

Definition expect (c : ascii) (s : string) : option string :=
  match s with
  | String c' s' => if Ascii.eqb c c' then Some s' else None
  | EmptyString => None
  end.

(** The longest prefix of digits, with its value and length. *)
Fixpoint span_digits (acc : Z) (n : nat) (s : string) : Z * nat * string :=
  match s with
  | EmptyString => (acc, n, s)
  | String c s' => match digit_val c with
                   | Some d => span_digits (acc * 10 + d) (S n) s'
                   | None => (acc, n, s)
                   end
  end.

(** The optional fraction after the seconds, in nanoseconds; digits past the
    ninth are dropped. *)
Definition get_fraction (s : string) : option (Z * string) :=
  match s with
  | String c s' =>
      if Ascii.eqb c "." || Ascii.eqb c "," then
        let '(v, n, rest) := span_digits 0 0 s' in
        match n with
        | O => Some (0, s)
        | _ => Some (if (n <=? 9)%nat then v * 10 ^ (9 - Z.of_nat n)
                     else v / 10 ^ (Z.of_nat n - 9), rest)
        end
      else Some (0, s)
  | EmptyString => Some (0, s)
  end.

(** "Z" or a numeric offset, in seconds east of UTC; nothing may follow. *)
Definition get_zone (s : string) : option Z :=
  match s with
  | "Z" => Some 0
  | String c s' =>
      if Ascii.eqb c "+" || Ascii.eqb c "-" then
        '(hh, s1) ← get_digits 2 0 s';
        s2 ← expect ":" s1;
        '(mm, s3) ← get_digits 2 0 s2;
        match s3 with
        | EmptyString =>
            if (hh <=? 24) && (mm <=? 60)
            then Some ((if Ascii.eqb c "-" then -1 else 1) * (hh * 3600 + mm * 60))
            else None
        | _ => None
        end
      else None
  | EmptyString => None
  end.

Definition is_leap (y : Z) : bool := (y mod 4 =? 0) && (negb (y mod 100 =? 0) || (y mod 400 =? 0)).

Definition days_in_month (m y : Z) : Z :=
  if m =? 2 then if is_leap y then 29 else 28
  else if (m =? 4) || (m =? 6) || (m =? 9) || (m =? 11) then 30 else 31.

(** [time.Parse(time.RFC3339Nano, s)] as an instant. *)
Definition Parse_RFC3339Nano (s : string) : option Z :=
  '(y, s) ← get_digits 4 0 s; s ← expect "-" s;
  '(mo, s) ← get_digits 2 0 s; s ← expect "-" s;
  '(d, s) ← get_digits 2 0 s; s ← expect "T" s;
  '(h, s) ← get_hour s; s ← expect ":" s;
  '(mi, s) ← get_digits 2 0 s; s ← expect ":" s;
  '(sec, s) ← get_digits 2 0 s;
  '(nanos, s) ← get_fraction s;
  off ← get_zone s;
  if (1 <=? mo) && (mo <=? 12) && (1 <=? d) && (d <=? days_in_month mo y) &&
     (h <? 24) && (mi <? 60) && (sec <? 60)
  then Some ((days_from_civil (mkCivil y mo d) * 86400 + h * 3600 + mi * 60 + sec - off) * Second
             + nanos)
  else None.

Example parse_offset : Parse_RFC3339Nano "1970-01-01T02:00:00.5+02:00" = Some 500000000.
Proof. reflexivity. Qed.
Example parse_bad_day : Parse_RFC3339Nano "2023-02-29T00:00:00Z" = None.
Proof. reflexivity. Qed.

(** ** Round trip *)

Lemma digit_val_char d : 0 ≤ d < 10 → digit_val (digit_char d) = Some d.
Proof.
  intros Hd.
  assert (d = 0 ∨ d = 1 ∨ d = 2 ∨ d = 3 ∨ d = 4 ∨ d = 5 ∨ d = 6 ∨ d = 7 ∨ d = 8 ∨ d = 9)
    as Hc by lia.
  clear Hd. repeat (destruct Hc as [->|Hc]; [vm_compute; reflexivity|]).
  rewrite Hc. vm_compute. reflexivity.
Qed.

Lemma pad_digits_acc w : ∀ z a b, pad_digits w z (a +:+ b) = pad_digits w z a +:+ b.
Proof.
  induction w as [|w IH]; intros z a b; [done|]. cbn [pad_digits].
  by rewrite <- string_app_cons, IH.
Qed.

Lemma pad_succ w z :
  pad (S w) z = pad w (z / 10) +:+ String (digit_char (z mod 10)) "".
Proof. unfold pad. simpl. by rewrite <- (pad_digits_acc w _ "" (String _ "")). Qed.

Lemma get_digits_app w1 w2 acc s :
  get_digits (w1 + w2) acc s =
    match get_digits w1 acc s with Some (a, s') => get_digits w2 a s' | None => None end.
Proof.
  revert acc s. induction w1 as [|w1 IH]; intros acc s; simpl; [done|].
  destruct s as [|c s]; [done|]. by destruct (digit_val c).
Qed.

Lemma get_digits_pad w : ∀ acc z rest,
  0 ≤ z → get_digits w acc (pad w z +:+ rest) = Some (acc * 10 ^ Z.of_nat w + z mod 10 ^ Z.of_nat w, rest).
Proof.
  induction w as [|w IH]; intros acc z rest Hz.
  { change (pad 0 z +:+ rest) with rest. simpl. rewrite Z.mod_1_r. do 2 f_equal. lia. }
  rewrite pad_succ, string_app_assoc, string_app_cons, string_app_nil. replace (S w) with (w + 1)%nat by lia.
  rewrite get_digits_app, IH by (apply Z.div_pos; lia). simpl.
  rewrite digit_val_char by (apply Z.mod_pos_bound; lia).
  f_equal. f_equal. replace (Z.of_nat (w + 1)) with (1 + Z.of_nat w) by lia.
  rewrite Z.pow_add_r, Z.pow_1_r by lia.
  rewrite Z.rem_mul_r by lia. ring.
Qed.

Lemma span_digits_pad w : ∀ acc n z c rest,
  0 ≤ z → digit_val c = None →
  span_digits acc n (pad w z +:+ String c rest) =
    (acc * 10 ^ Z.of_nat w + z mod 10 ^ Z.of_nat w, (n + w)%nat, String c rest).
Proof.
  assert (Happ : ∀ w acc n z s, 0 ≤ z →
    span_digits acc n (pad w z +:+ s) =
    span_digits (acc * 10 ^ Z.of_nat w + z mod 10 ^ Z.of_nat w) (n + w)%nat s).
  { clear w. induction w as [|w IH]; intros acc n z s Hz.
    { change (pad 0 z +:+ s) with s. rewrite Z.mod_1_r. f_equal; simpl; lia. }
    rewrite pad_succ, string_app_assoc, string_app_cons, string_app_nil, IH by (apply Z.div_pos; lia). simpl.
    rewrite digit_val_char by (apply Z.mod_pos_bound; lia). f_equal; [|lia].
    replace (Z.of_nat (S w)) with (1 + Z.of_nat w) by lia.
    rewrite Z.pow_add_r, Z.pow_1_r by lia. rewrite Z.rem_mul_r by lia. ring. }
  intros acc n z c rest Hz Hc. rewrite Happ by done. simpl. by rewrite Hc.
Qed.

Lemma frac_digits_acc p : ∀ v acc,
  acc ≠ "" → frac_digits v p acc = String "." (pad_digits p v acc).
Proof.
  induction p as [|p IH]; intros v acc Hacc; simpl.
  - by destruct acc.
  - assert (String.eqb acc "" = false) as -> by (apply String.eqb_neq; done).
    rewrite andb_false_r. by apply IH.
Qed.

(** The printed fraction: nothing for zero, otherwise the leading [q] digits. *)
Lemma frac_digits_spec p : ∀ v,
  0 ≤ v →
  (v mod 10 ^ Z.of_nat p = 0 ∧ frac_digits v p "" = "") ∨
  ∃ q, (1 ≤ q ≤ p)%nat ∧ v mod 10 ^ Z.of_nat (p - q) = 0 ∧
       frac_digits v p "" = String "." (pad q (v / 10 ^ Z.of_nat (p - q))).
Proof.
  induction p as [|p IH]; intros v Hv; [left; by rewrite Z.mod_1_r|].
  simpl frac_digits. rewrite andb_true_r.
  pose proof (Z.mod_pos_bound v 10 ltac:(lia)).
  pose proof (Z.div_mod v 10 ltac:(lia)) as Hdm.
  destruct (v mod 10 =? 0) eqn:E; zbool.
  - destruct (IH (v / 10) ltac:(apply Z.div_pos; lia)) as [[Hm Hf]|(q & Hq & Hm & Hf)].
    + left. split; [|done]. replace (Z.of_nat (S p)) with (1 + Z.of_nat p) by lia.
      rewrite Z.pow_add_r, Z.pow_1_r, Z.rem_mul_r by lia. lia.
    + right. exists q. split; [lia|]. replace (S p - q)%nat with (S (p - q)) by lia.
      replace (Z.of_nat (S (p - q))) with (1 + Z.of_nat (p - q)) by lia.
      rewrite Z.pow_add_r, Z.pow_1_r, Z.rem_mul_r by lia.
      split; [lia|]. by rewrite <- Z.div_div by lia.
  - right. exists (S p). split; [lia|]. rewrite Nat.sub_diag. simpl Z.of_nat.
    rewrite Z.mod_1_r, Z.div_1_r. split; [done|]. by rewrite frac_digits_acc.
Qed.

Lemma get_fraction_frac n : 0 ≤ n < Second →
  get_fraction (frac_digits n 9 "" +:+ "Z") = Some (n, "Z").
Proof.
  intros Hn. destruct (frac_digits_spec 9 n ltac:(lia)) as [[Hm ->]|(q & Hq & Hm & ->)].
  - rewrite string_app_nil. simpl in *. rewrite Z.mod_small in Hm by (unfold Second, Millisecond, Microsecond in *; lia).
    by subst.
  - rewrite string_app_cons. assert (0 < 10 ^ Z.of_nat (9 - q)) by lia.
    unfold get_fraction. simpl Ascii.eqb. cbn [orb].
    rewrite span_digits_pad by (try apply Z.div_pos; done || lia).
    destruct q as [|q]; [lia|]. cbn [Nat.add].
    assert ((S q <=? 9)%nat = true) as -> by (apply Nat.leb_le; lia).
    do 2 f_equal. rewrite Z.mod_small.
    + replace (9 - Z.of_nat (S q)) with (Z.of_nat (9 - S q)) by lia.
      pose proof (Z.div_mod n (10 ^ Z.of_nat (9 - S q)) ltac:(lia)). lia.
    + split; [apply Z.div_pos; lia|]. apply Z.div_lt_upper_bound; [done|].
      rewrite <- Z.pow_add_r by lia.
      replace (Z.of_nat (9 - S q) + Z.of_nat (S q)) with 9 by lia.
      unfold Second, Millisecond, Microsecond in *. lia.
Qed.

(** The facts [civil_round_trip] needs of a day of one era. *)
Definition doe_ok (doe : Z) : bool :=
  let c := civil_of_doe 0 doe in
  (days_from_civil c + 719468 =? doe) && (1 <=? c_month c) && (c_month c <=? 12) &&
  (1 <=? c_day c) && (c_day c <=? days_in_month (c_month c) (c_year c)) &&
  (0 <=? (if c_month c <=? 2 then c_year c - 1 else c_year c)) &&
  ((if c_month c <=? 2 then c_year c - 1 else c_year c) <? 400).

(** [check_below n P]: [P] on [0 .. n-1]. *)
Definition check_below (n : positive) (P : Z → bool) : bool :=
  (Pos.iter (λ '(i, ok), (i + 1, ok && P i)) (0, true) n).2.

Lemma check_below_spec n P : check_below n P = true → ∀ i, 0 ≤ i < Z.pos n → P i = true.
Proof.
  unfold check_below.
  assert (Hinv : ∀ n, (Pos.iter (λ '(i, ok), (i + 1, ok && P i)) (0, true) n).1 = Z.pos n ∧
    ((Pos.iter (λ '(i, ok), (i + 1, ok && P i)) (0, true) n).2 = true →
     ∀ i, 0 ≤ i < Z.pos n → P i = true)).
  { clear n. induction n as [|n [IH1 IH2]] using Pos.peano_ind; simpl.
    - split; [done|]. intros HP i Hi. by assert (i = 0) as -> by lia.
    - rewrite Pos.iter_succ.
      destruct (Pos.iter _ _ n) as [j ok]; simpl in *. subst j. split; [lia|].
      intros [Hok HP]%andb_true_iff i Hi.
      destruct (decide (i = Z.pos n)) as [->|]; [done|]. apply IH2; [done|lia]. }
  apply Hinv.
Qed.

(** A day of an era is a year of the era, found from the first and the last
    day of that year, and a day of that year. *)
Definition yoe_of (doe : Z) : Z := (doe - doe / 1460 + doe / 36524 - doe / 146096) / 365.
Definition yoe_start (y : Z) : Z := 365 * y + y / 4 - y / 100 + y / 400.

Lemma yoe_of_mono a b : a ≤ b → yoe_of a ≤ yoe_of b.
Proof.
  intros Hab. unfold yoe_of. apply Z.div_le_mono; [lia|].
  assert (Hstep : ∀ x, x - x / 1460 + x / 36524 - x / 146096 ≤
                       (x + 1) - (x + 1) / 1460 + (x + 1) / 36524 - (x + 1) / 146096).
  { intros x. assert (∀ z, z / 146096 = z / 36524 / 4) as Hq
      by (intros z; rewrite Z.div_div; [done|lia|lia]).
    rewrite !Hq. assert (x / 36524 ≤ (x + 1) / 36524) by (apply Z.div_le_mono; lia).
    assert ((x + 1) / 1460 ≤ x / 1460 + 1)
      by (replace (x / 1460 + 1) with ((x + 1 * 1460) / 1460) by (rewrite Z.div_add; lia);
          apply Z.div_le_mono; lia).
    assert ((x + 1) / 36524 / 4 ≤ x / 36524 / 4 + ((x + 1) / 36524 - x / 36524)).
    { assert ((x + 1) / 36524 ≤ x / 36524 + 1)
        by (replace (x / 36524 + 1) with ((x + 1 * 36524) / 36524) by (rewrite Z.div_add; lia);
            apply Z.div_le_mono; lia).
      generalize dependent (x / 36524). generalize ((x + 1) / 36524). intros q p ??.
      destruct (decide (q = p)) as [->|]; [lia|].
      assert (q = p + 1) as -> by lia. clear. Z.to_euclidean_division_equations. lia. }
    lia. }
  replace b with (a + Z.of_nat (Z.to_nat (b - a))) by lia.
  induction (Z.to_nat (b - a)) as [|k IH]; [by rewrite Z.add_0_r|].
  etrans; [exact IH|]. replace (a + Z.of_nat (S k)) with (a + Z.of_nat k + 1) by lia. apply Hstep.
Qed.

(** The years of an era: the formula for the year holds on the first and on the
    last day, and only the years before a leap February have a 366th day. *)
Lemma era_years y : 0 ≤ y < 400 →
  (yoe_of (yoe_start y) =? y) && (yoe_of (yoe_start (y + 1) - 1) =? y) &&
  (yoe_start (y + 1) - yoe_start y =? 365 + (if is_leap (y + 1) then 1 else 0)) = true.
Proof. revert y. apply (check_below_spec 400). vm_compute. reflexivity. Qed.

(** The days of a year counted from March: the month and day formulas. *)
Definition doy_ok (doy : Z) : bool :=
  let mp := (5 * doy + 2) / 153 in
  let d := doy - (153 * mp + 2) / 5 + 1 in
  (0 <=? mp) && (mp <=? 11) && (1 <=? d) &&
  (d <=? (if mp =? 11 then (if doy =? 365 then 29 else 28)
          else if (mp =? 1) || (mp =? 3) || (mp =? 6) || (mp =? 8) then 30 else 31)).

Lemma year_days doy : 0 ≤ doy < 366 → doy_ok doy = true.
Proof. revert doy. apply (check_below_spec 366). vm_compute. reflexivity. Qed.

(** The year that holds a day of the era. *)
Lemma era_year_exists doe : 0 ≤ doe < 146097 →
  ∃ y, 0 ≤ y < 400 ∧ yoe_start y ≤ doe < yoe_start (y + 1).
Proof.
  intros Hd. assert (H : ∀ n : nat, doe < yoe_start (Z.of_nat n) →
    ∃ y, 0 ≤ y < Z.of_nat n ∧ yoe_start y ≤ doe < yoe_start (y + 1)).
  { induction n as [|n IH]; [intros Hlt; change (yoe_start (Z.of_nat 0)) with 0 in Hlt; lia|].
    intros Hlt. destruct (Z_lt_le_dec doe (yoe_start (Z.of_nat n))) as [Hl|Hl].
    - destruct (IH Hl) as (y & ? & ?). exists y. lia.
    - exists (Z.of_nat n). replace (Z.of_nat n + 1) with (Z.of_nat (S n)) by lia. lia. }
  apply (H 400%nat). change (yoe_start (Z.of_nat 400)) with 146097. lia.
Qed.

(** Months count from March in the formulas. *)
Definition from_march (mp : Z) : Z := if mp <? 10 then mp + 3 else mp - 9.

Lemma from_march_back mp : 0 ≤ mp ≤ 11 →
  1 ≤ from_march mp ≤ 12 ∧ (from_march mp <=? 2) = (10 <=? mp) ∧
  (if 2 <? from_march mp then from_march mp - 3 else from_march mp + 9) = mp.
Proof. unfold from_march. intros Hmp. case_bool; (split; [lia|]); (split; [lia|]); case_bool; lia. Qed.

(** The month's length, in the calendar's year [y']. *)
Lemma from_march_days mp doy y y' :
  0 ≤ mp ≤ 11 → y' = y + (if from_march mp <=? 2 then 1 else 0) → (doy = 365 → is_leap (y + 1) = true) →
  (if mp =? 11 then (if doy =? 365 then 29 else 28)
   else if (mp =? 1) || (mp =? 3) || (mp =? 6) || (mp =? 8) then 30 else 31) ≤ days_in_month (from_march mp) y'.
Proof.
  intros Hmp -> Hleap. destruct (Z.eq_dec mp 11) as [->|Hne].
  - change (from_march 11) with 2. change (11 =? 11) with true. change (2 <=? 2) with true. cbv iota.
    unfold days_in_month. change (2 =? 2) with true. cbv iota.
    destruct (doy =? 365) eqn:E; [rewrite Hleap by lia; done|by destruct (is_leap _)].
  - unfold days_in_month. replace (mp =? 11) with false by lia.
    replace (from_march mp =? 2) with false by (unfold from_march; case_bool; lia).
    replace ((from_march mp =? 4) || (from_march mp =? 6) || (from_march mp =? 9) || (from_march mp =? 11))
      with ((mp =? 1) || (mp =? 3) || (mp =? 6) || (mp =? 8)) by (unfold from_march; case_bool; zbool; lia).
    done.
Qed.

Lemma doe_all_ok doe : 0 ≤ doe < 146097 → doe_ok doe = true.
Proof.
  intros Hd. destruct (era_year_exists doe Hd) as (y & Hy & Hlo & Hhi).
  pose proof (era_years y Hy) as Hera. zbool.
  assert (Hyoe : yoe_of doe = y).
  { pose proof (yoe_of_mono (yoe_start y) doe ltac:(lia)).
    pose proof (yoe_of_mono doe (yoe_start (y + 1) - 1) ltac:(lia)). lia. }
  set (doy := doe - yoe_start y).
  assert (Hdoy : 0 ≤ doy < 366) by (unfold doy; destruct (is_leap (y + 1)); lia).
  pose proof (year_days doy Hdoy) as Hok. unfold doy_ok in Hok. cbn zeta in Hok.
  assert (H400 : y / 400 = 0) by (apply Z.div_small; lia).
  assert (Hstart : 365 * y + y / 4 - y / 100 = yoe_start y) by (unfold yoe_start; lia).
  unfold doe_ok, civil_of_doe. fold (yoe_of doe). rewrite Hyoe, Hstart. fold doy.
  cbn [c_year c_month c_day].
  set (mp := (5 * doy + 2) / 153) in *. set (d := doy - (153 * mp + 2) / 5 + 1) in *. zbool.
  assert (Hmp : 0 ≤ mp ≤ 11) by lia. fold (from_march mp). destruct (from_march_back mp Hmp) as (Hm & Hle & Hback).
  assert (Hleap : doy = 365 → is_leap (y + 1) = true) by (intros; destruct (is_leap (y + 1)); [done|lia]).
  pose proof (from_march_days mp doy y (y + 0 * 400 + (if from_march mp <=? 2 then 1 else 0)) Hmp ltac:(lia) Hleap).
  unfold days_from_civil. cbn [c_year c_month c_day]. rewrite Hback.
  replace (if from_march mp <=? 2 then y + 0 * 400 + (if from_march mp <=? 2 then 1 else 0) - 1
           else y + 0 * 400 + (if from_march mp <=? 2 then 1 else 0)) with y by (case_bool; lia).
  rewrite H400, (Z.mod_small y 400) by lia.
  rewrite !andb_true_iff, !Z.leb_le, !Z.ltb_lt, Z.eqb_eq. repeat split; lia.
Qed.

Lemma is_leap_era y era : is_leap (y + era * 400) = is_leap y.
Proof.
  unfold is_leap.
  replace (y + era * 400) with (y + (era * 100) * 4) by lia. rewrite Z.mod_add by lia.
  replace (y + era * 100 * 4) with (y + (era * 4) * 100) by lia. rewrite Z.mod_add by lia.
  replace (y + era * 4 * 100) with (y + era * 400) by lia. by rewrite Z.mod_add by lia.
Qed.

Lemma civil_round_trip days :
  let c := civil_from_days days in
  days_from_civil c = days ∧ 1 ≤ c_month c ≤ 12 ∧
  1 ≤ c_day c ≤ days_in_month (c_month c) (c_year c).
Proof.
  intros c. unfold c, civil_from_days. clear c.
  set (era := (days + 719468) / 146097). set (doe := (days + 719468) mod 146097).
  assert (Hdays : days = era * 146097 + doe - 719468).
  { pose proof (Z.div_mod (days + 719468) 146097 ltac:(lia)). unfold era, doe. lia. }
  assert (Hdoe : 0 ≤ doe < 146097) by (apply Z.mod_pos_bound; lia).
  pose proof (doe_all_ok doe Hdoe) as Hok. unfold doe_ok in Hok. zbool.
  set (c0 := civil_of_doe 0 doe) in *.
  assert (Hc : civil_of_doe era doe = mkCivil (c_year c0 + era * 400) (c_month c0) (c_day c0)).
  { unfold c0, civil_of_doe. simpl. f_equal. lia. }
  match goal with Hd : days_from_civil c0 + 719468 = doe |- _ => rename Hd into Hd0 end.
  rewrite Hc. cbn [c_year c_month c_day]. split; [|split; [lia|]].
  - rewrite Hdays, <- Hd0. unfold days_from_civil. cbn [c_year c_month c_day].
    destruct (c_month c0 <=? 2) eqn:Em;
      [replace (c_year c0 + era * 400 - 1) with (c_year c0 - 1 + era * 400) by lia|];
      rewrite Z.div_add, Z.mod_add by lia;
      [rewrite (Z.div_small (c_year c0 - 1)) by lia|rewrite (Z.div_small (c_year c0)) by lia]; lia.
  - unfold days_in_month in *. by rewrite is_leap_era.
Qed.

(** The years RFC 3339 can print: 0 to 9999. *)
Definition printable_time (t : Z) : Prop :=
  0 ≤ c_year (civil_from_days (t / nanos_per_day)) ≤ 9999.

Lemma expect_cons c s : expect c (String c s) = Some s.
Proof. simpl. by rewrite Ascii.eqb_refl. Qed.

Lemma get_digits_pad4 z rest : 0 ≤ z < 10000 → get_digits 4 0 (pad 4 z +:+ rest) = Some (z, rest).
Proof. intros Hz. rewrite get_digits_pad by lia. by rewrite Z.mod_small by done. Qed.

Lemma get_digits_pad2 z rest : 0 ≤ z < 100 → get_digits 2 0 (pad 2 z +:+ rest) = Some (z, rest).
Proof. intros Hz. rewrite get_digits_pad by lia. by rewrite Z.mod_small by done. Qed.

Lemma get_hour_pad z rest : 0 ≤ z < 100 → get_hour (pad 2 z +:+ rest) = Some (z, rest).
Proof. intros Hz. unfold get_hour. by rewrite get_digits_pad2. Qed.

(** One field of a printed timestamp read back. *)
Ltac parse_field :=
  first [rewrite get_digits_pad4 by lia | rewrite get_digits_pad2 by lia
        |rewrite get_hour_pad by lia | rewrite expect_cons | rewrite get_fraction_frac by done];
  cbn [mbind option_bind get_zone].

(** Parsing the date and time part leaves the fraction and the zone. *)
Lemma parse_format t frac :
  printable_time t → 0 ≤ frac < Second →
  Parse_RFC3339Nano (format_date_time t +:+ frac_digits frac 9 "" +:+ "Z") =
    Some (t / Second * Second + frac).
Proof.
  unfold printable_time, format_date_time, Parse_RFC3339Nano. intros Hy Hf.
  pose proof (civil_round_trip (t / nanos_per_day)) as (Hdays & Hm & Hd).
  set (c := civil_from_days _) in *. set (s := t mod nanos_per_day / Second).
  assert (Hdim : days_in_month (c_month c) (c_year c) ≤ 31)
    by (unfold days_in_month; repeat case_bool; lia).
  assert (Hnd : nanos_per_day = 86400 * Second) by done.
  assert (HS : Second = 1000000000) by done.
  assert (Hs : 0 ≤ s < 86400).
  { unfold s. pose proof (Z.mod_pos_bound t nanos_per_day ltac:(lia)).
    split; [apply Z.div_pos; lia|apply Z.div_lt_upper_bound; lia]. }
  assert (Hts : t / Second = t / nanos_per_day * 86400 + s).
  { unfold s. pose proof (Z.div_mod t nanos_per_day ltac:(lia)) as Ht.
    rewrite Ht at 1. rewrite Hnd at 1.
    replace (86400 * Second * (t / nanos_per_day)) with (t / nanos_per_day * 86400 * Second) by lia.
    rewrite Z.div_add_l by lia. done. }
  pose proof (Z.div_mod s 3600 ltac:(lia)). pose proof (Z.mod_pos_bound s 3600 ltac:(lia)).
  pose proof (Z.div_mod s 60 ltac:(lia)). pose proof (Z.mod_pos_bound s 60 ltac:(lia)).
  pose proof (Z.div_mod (s / 60) 60 ltac:(lia)). pose proof (Z.mod_pos_bound (s / 60) 60 ltac:(lia)).
  assert (s / 60 / 60 = s / 3600) by (rewrite Z.div_div by lia; done).
  autorewrite with insider.
  repeat parse_field.
  destruct (_ && _) eqn:E.
  - do 2 f_equal. destruct c as [y m d]; simpl in *. rewrite Hdays. lia.
  - exfalso. repeat (apply andb_false_iff in E as [E|E]); zbool; lia.
Qed.

(** Formatting with nanoseconds and parsing back is the identity. *)
Lemma parse_format_nano t :
  printable_time t → Parse_RFC3339Nano (Format_RFC3339Nano t) = Some t.
Proof.
  intros Hp. unfold Format_RFC3339Nano.
  assert (HS : Second = 1000000000) by done.
  rewrite parse_format; [|done|apply Z.mod_pos_bound; lia].
  pose proof (Z.div_mod t Second ltac:(lia)). f_equal. lia.
Qed.
