(* ===== verification/CircuitBreaker.v ===== *)
(** * Circuit breaker state (internal/provider/circuitbreaker.go)

    The struct and its critical sections.  Each section runs under [cb.mu], so
    it is one atomic operation of [cb_op]; [Send], which interleaves them with
    the provider call, is in [Provider].  [failures] is a 64-bit [int]. *)
From S2P Require Import Prelude GoLib.
From Stdlib Require Import ZArith Lia.
From stdpp Require Import base numbers.

Open Scope Z_scope.

Inductive CBState := StateClosed | StateOpen | StateHalfOpen.

#[export] Instance CBState_eq_dec : EqDecision CBState.
Proof. solve_decision. Defined.

Record CircuitBreaker := mkCB {
  cb_state : CBState;
  cb_failures : Z;
  cb_maxFailures : Z;
  cb_timeout : Z;
  cb_lastFailure : Z;
}.

(** The zero [time.Time]: 1 January of year 1. *)
Definition zero_time : Z := -62135596800 * Second.

Definition NewCircuitBreaker (maxFailures timeout : Z) : CircuitBreaker :=
  mkCB StateClosed 0 maxFailures timeout zero_time.

(** [time.Since(t)]: saturates at the range of [Duration]. *)
Definition time_Since (now t : Z) : Z := Z.max int64_min (Z.min int64_max (now - t)).

Inductive cb_op : Type → Type :=
| CbRead : cb_op (CBState * Z)        (* the RLock section of Send *)
| CbTryHalfOpen : cb_op unit          (* the Lock section of Send *)
| CbRecordFailure : cb_op unit
| CbRecordSuccess : cb_op unit
| CbGetState : cb_op CBState.

Definition try_half_open (cb : CircuitBreaker) : CircuitBreaker :=
  if decide (cb_state cb = StateOpen)
  then mkCB StateHalfOpen (cb_failures cb) (cb_maxFailures cb) (cb_timeout cb) (cb_lastFailure cb)
  else cb.

Definition recordFailure (now : Z) (cb : CircuitBreaker) : CircuitBreaker :=
  let failures := wrap64 (cb_failures cb + 1) in
  mkCB (if cb_maxFailures cb <=? failures then StateOpen else cb_state cb)
    failures (cb_maxFailures cb) (cb_timeout cb) now.

Definition recordSuccess (cb : CircuitBreaker) : CircuitBreaker :=
  mkCB StateClosed 0 (cb_maxFailures cb) (cb_timeout cb) (cb_lastFailure cb).

Definition CircuitBreaker_State (cb : CircuitBreaker) : CBState := cb_state cb.

Definition exec_cb {A} (op : cb_op A) (now : Z) (cb : CircuitBreaker) : A * CircuitBreaker :=
  match op in cb_op A return A * CircuitBreaker with
  | CbRead => ((cb_state cb, cb_lastFailure cb), cb)
  | CbTryHalfOpen => (tt, try_half_open cb)
  | CbRecordFailure => (tt, recordFailure now cb)
  | CbRecordSuccess => (tt, recordSuccess cb)
  | CbGetState => (CircuitBreaker_State cb, cb)
  end.

(** ** Interleavings of the critical sections

    Any number of goroutines call [Send] concurrently; whatever their order,
    the breaker only goes through its critical sections. [cb_run n cb cb'] is a
    sequence of [n] of them. *)
Inductive cb_run : Z → CircuitBreaker → CircuitBreaker → Prop :=
| cb_run_nil cb : cb_run 0 cb cb
| cb_run_snoc n cb cb' A (op : cb_op A) now :
    cb_run n cb cb' → cb_run (n + 1) cb (exec_cb op now cb').2.

(** Open and half-open mean the threshold was reached; closed means it was not. *)
Record cb_inv (cb : CircuitBreaker) : Prop := {
  cbi_closed : cb_state cb = StateClosed → cb_failures cb < cb_maxFailures cb;
  cbi_tripped : cb_state cb ≠ StateClosed → cb_maxFailures cb ≤ cb_failures cb;
  cbi_nonneg : 0 ≤ cb_failures cb;
}.

Lemma cb_run_config n cb cb' :
  cb_run n cb cb' → cb_maxFailures cb' = cb_maxFailures cb ∧ cb_timeout cb' = cb_timeout cb.
Proof.
  induction 1 as [|n cb cb' A op now _ [Hm Ht]]; [done|].
  destruct op; simpl; try done. unfold try_half_open. by case_decide.
Qed.

Lemma cb_inv_step {A} (op : cb_op A) now cb :
  0 < cb_maxFailures cb → cb_failures cb < int64_max →
  cb_inv cb → cb_inv (exec_cb op now cb).2.
Proof.
  intros Hm Hf [Hc Ht Hn].
  destruct op; simpl; try by split.
  - unfold try_half_open. case_decide as Hs; [|by split]. split; simpl; try done.
    intros _. apply Ht. congruence.
  - unfold recordFailure. rewrite wrap64_id by (unfold in_int64, int64_min; lia).
    split; simpl; [| |lia].
    + destruct (_ <=? _) eqn:E; [done|]. zbool. lia.
    + destruct (_ <=? _) eqn:E; zbool; [lia|]. intros Hs. specialize (Ht Hs). lia.
Qed.

Lemma cb_run_inv n max timeout cb' :
  0 < max → cb_run n (NewCircuitBreaker max timeout) cb' → 0 ≤ n < int64_max →
  cb_inv cb' ∧ cb_failures cb' ≤ n.
Proof.
  intros Hmax Hrun. remember (NewCircuitBreaker max timeout) as cb0 eqn:E.
  induction Hrun as [|n cb cb' A op now Hrun IH]; subst; intros Hn.
  - split; [|simpl; lia]. split; simpl; try done; lia.
  - assert (0 ≤ n) by (clear -Hrun; induction Hrun; lia).
    destruct (IH eq_refl ltac:(lia)) as [Hinv Hf].
    pose proof (cb_run_config _ _ _ Hrun) as [Hm _]. simpl in Hm.
    pose proof (cb_inv_step op now cb' ltac:(lia) ltac:(lia) Hinv).
    split; [done|]. destruct op; simpl; try lia.
    + unfold try_half_open. case_decide; simpl; lia.
    + unfold wrap64. pose proof (cbi_nonneg _ Hinv).
      rewrite Z.mod_small; unfold int64_max in *; lia.
Qed.


