(* ===== verification/Hub.v ===== *)
(** * WebSocket hub (internal/websocket/hub.go, client.go)

    The hub is a set of clients; a client has a bounded send channel and a set
    of subscribed channels.  A message is the JSON value [json.Marshal] encodes.
    Every method that takes [h.mu] is one operation of [hub_op]; a broadcast
    visits every client once without blocking, so the order of the visit does
    not matter.  [HubTake] is the receive of [WritePump], [HubRead] the update of
    the subscription in [ReadPump]; the pumps themselves are in Pumps.v. *)
From S2P Require Import Prelude GoLib Domain.
From Stdlib Require Import ZArith Lia.
From stdpp Require Import base numbers list strings gmap fin_maps.

Open Scope Z_scope.

Record Event := mkEvent {
  ev_Type : string;
  ev_NotificationID : string;
  ev_Channel : string;
  ev_Status : string;
  ev_Error : string;
}.

(** [json:"error,omitempty"] *)
Definition Event_json (e : Event) : json :=
  JObj ([("type", JStr (ev_Type e)); ("notification_id", JStr (ev_NotificationID e));
         ("channel", JStr (ev_Channel e)); ("status", JStr (ev_Status e))] ++
        if String.eqb (ev_Error e) "" then [] else [("error", JStr (ev_Error e))]).

(** [batchPayload] *)
Definition batch_json (events : list Event) : json :=
  JObj [("type", JStr "notification.batch"); ("events", JArr (Event_json <$> events))].

Definition sendBuffer : nat := 256.

(** [send] is a buffered Go channel; [channels] the subscription, empty for all. *)
Record Client := mkClient {
  cl_send : list json;
  cl_channels : gset string;
}.

Definition NewClient : Client := mkClient [] ∅.

Definition WantsEvent (c : Client) (channel : string) : bool :=
  if decide (cl_channels c = ∅) then true else bool_decide (channel ∈ cl_channels c).

(** A client is known by its pointer. *)
Abbreviation client_id := nat (only parsing).

Record Hub := mkHub { h_clients : gmap client_id Client }.

Definition NewHub : Hub := mkHub ∅.

(** [select { case client.send <- data: default: }] *)
Definition try_send (data : json) (c : Client) : Client :=
  if (length (cl_send c) <? sendBuffer)%nat
  then mkClient (cl_send c ++ [data]) (cl_channels c)
  else c.

Definition Register (id : client_id) (h : Hub) : Hub := mkHub (<[id := NewClient]> (h_clients h)).
Definition Unregister (id : client_id) (h : Hub) : Hub := mkHub (delete id (h_clients h)).

(** What a broadcast does to each client of the hub. *)
Definition offer_event (event : Event) (c : Client) : Client :=
  if WantsEvent c (ev_Channel event) then try_send (Event_json event) c else c.

Definition Broadcast (event : Event) (h : Hub) : Hub := mkHub (offer_event event <$> h_clients h).

(** [wants] *)
Definition WantsBatch (c : Client) (events : list Event) : bool :=
  existsb (λ e, WantsEvent c (ev_Channel e)) events.

Definition offer_batch (events : list Event) (c : Client) : Client :=
  if WantsBatch c events then try_send (batch_json events) c else c.

Definition BroadcastBatch (events : list Event) (h : Hub) : Hub :=
  match events with
  | [] => h
  | _ => mkHub (offer_batch events <$> h_clients h)
  end.

Definition Hub_Len (h : Hub) : Z := Z.of_nat (size (h_clients h)).

(** [SubscribeMessage]; [None] is a message that is not such a JSON object. *)
Record SubscribeMessage := mkSubscribe { sub_Type : string; sub_Channels : list string }.

(** A message [ReadPump] has read: anything but a "subscribe" is ignored. *)
Definition subscribe (msg : option SubscribeMessage) (c : Client) : Client :=
  match msg with
  | None => c
  | Some m =>
      if String.eqb (sub_Type m) "subscribe"
      then mkClient (cl_send c) (list_to_set (sub_Channels m)) else c
  end.

Definition ReadPump_message (id : client_id) (msg : option SubscribeMessage) (h : Hub) : Hub :=
  mkHub (alter (subscribe msg) id (h_clients h)).

(** One receive of [WritePump] from [c.send]. *)
Definition WritePump_take (id : client_id) (h : Hub) : option json * Hub :=
  match h_clients h !! id with
  | Some (mkClient (m :: rest) chs) => (Some m, mkHub (<[id := mkClient rest chs]> (h_clients h)))
  | _ => (None, h)
  end.

Inductive hub_op : Type → Type :=
| HubRegister (id : client_id) : hub_op unit
| HubUnregister (id : client_id) : hub_op unit
| HubBroadcast (e : Event) : hub_op unit
| HubBroadcastBatch (es : list Event) : hub_op unit
| HubLen : hub_op Z
| HubRead (id : client_id) (msg : option SubscribeMessage) : hub_op unit
| HubTake (id : client_id) : hub_op (option json).

Definition exec_hub {A} (op : hub_op A) (h : Hub) : A * Hub :=
  match op in hub_op A return A * Hub with
  | HubRegister id => (tt, Register id h)
  | HubUnregister id => (tt, Unregister id h)
  | HubBroadcast e => (tt, Broadcast e h)
  | HubBroadcastBatch es => (tt, BroadcastBatch es h)
  | HubLen => (Hub_Len h, h)
  | HubRead id msg => (tt, ReadPump_message id msg h)
  | HubTake id => WritePump_take id h
  end.

(** ** Lemmas *)

Lemma try_send_room data c :
  (length (cl_send c) < sendBuffer)%nat → cl_send (try_send data c) = cl_send c ++ [data].
Proof. intros Hl. unfold try_send. apply Nat.ltb_lt in Hl. by rewrite Hl. Qed.

Lemma try_send_full data c : (sendBuffer ≤ length (cl_send c))%nat → try_send data c = c.
Proof. intros Hl. unfold try_send. apply Nat.ltb_ge in Hl. by rewrite Hl. Qed.

Lemma try_send_bounded data c :
  (length (cl_send c) ≤ sendBuffer)%nat → (length (cl_send (try_send data c)) ≤ sendBuffer)%nat.
Proof.
  unfold try_send. destruct (_ <? _)%nat eqn:E; [|done]. apply Nat.ltb_lt in E.
  intros _. simpl. rewrite length_app. simpl. lia.
Qed.

Lemma offer_event_bounded e c :
  (length (cl_send c) ≤ sendBuffer)%nat → (length (cl_send (offer_event e c)) ≤ sendBuffer)%nat.
Proof. unfold offer_event. destruct (WantsEvent _ _); [apply try_send_bounded|done]. Qed.

Lemma offer_batch_bounded es c :
  (length (cl_send c) ≤ sendBuffer)%nat → (length (cl_send (offer_batch es c)) ≤ sendBuffer)%nat.
Proof. unfold offer_batch. destruct (WantsBatch _ _); [apply try_send_bounded|done]. Qed.

Lemma subscribe_send msg c : cl_send (subscribe msg c) = cl_send c.
Proof. unfold subscribe. destruct msg as [m|]; [|done]. by destruct (String.eqb _ _). Qed.

(** An empty batch is nobody's. *)
Lemma BroadcastBatch_fmap es h : BroadcastBatch es h = mkHub (offer_batch es <$> h_clients h).
Proof.
  destruct es; [|done]. destruct h as [cs]. cbn. f_equal. symmetry.
  trans (id <$> cs); [by apply map_fmap_ext|apply map_fmap_id].
Qed.

Lemma WantsEvent_spec c ch :
  WantsEvent c ch = true ↔ cl_channels c = ∅ ∨ ch ∈ cl_channels c.
Proof. unfold WantsEvent. case_decide; [tauto|]. rewrite bool_decide_eq_true. tauto. Qed.

Definition hub_bounded (h : Hub) : Prop :=
  ∀ id c, h_clients h !! id = Some c → (length (cl_send c) ≤ sendBuffer)%nat.

Lemma exec_hub_bounded {A} (op : hub_op A) h : hub_bounded h → hub_bounded (exec_hub op h).2.
Proof.
  intros Hb. destruct op; cbn [exec_hub snd]; try done; rewrite ?BroadcastBatch_fmap; intros id' c Hc; simpl in Hc.
  - rewrite lookup_insert in Hc. case_decide; simplify_eq; simpl; [lia|by eapply Hb].
  - rewrite lookup_delete in Hc. case_decide; simplify_eq. by eapply Hb.
  - apply lookup_fmap_Some in Hc as (c0 & <- & Hc). by apply offer_event_bounded, (Hb id').
  - apply lookup_fmap_Some in Hc as (c0 & <- & Hc). by apply offer_batch_bounded, (Hb id').
  - rewrite lookup_alter in Hc. case_decide; [|by eapply Hb].
    apply fmap_Some in Hc as (c0 & Hc & ->). rewrite subscribe_send. by apply (Hb id).
  - unfold WritePump_take in Hc.
    destruct (h_clients h !! id) as [[[|m rest] chs]|] eqn:E; simpl in Hc; try by eapply Hb.
    rewrite lookup_insert in Hc. case_decide; simplify_eq/=; [|by eapply Hb].
    pose proof (Hb _ _ E). simpl in *. lia.
Qed.
