(* ===== verification/Metrics.v ===== *)
(** * Metrics (internal/observability/metrics.go)

    A counter triple per channel, incremented with atomic adds on 64-bit
    integers.  Incrementing a channel the collector does not know dereferences a
    nil pointer: [None] is that panic. *)
From S2P Require Import Prelude GoLib Domain.
From Stdlib Require Import ZArith Lia.
From stdpp Require Import base numbers list strings gmap fin_maps.

Open Scope Z_scope.

Record ChannelMetrics := mkChannelMetrics { Sent : Z; Failed : Z; Processing : Z }.

Definition zero_metrics : ChannelMetrics := mkChannelMetrics 0 0 0.

Record MetricsCollector := mkMetrics { mc_channels : gmap Channel ChannelMetrics }.

Definition NewMetricsCollector : MetricsCollector :=
  mkMetrics (<[ChannelSMS := zero_metrics]>
            (<[ChannelEmail := zero_metrics]>
            (<[ChannelPush := zero_metrics]> ∅))).

Inductive counter := CSent | CFailed | CProcessing.

Definition bump (k : counter) (m : ChannelMetrics) : ChannelMetrics :=
  match k with
  | CSent => mkChannelMetrics (wrap64 (Sent m + 1)) (Failed m) (Processing m)
  | CFailed => mkChannelMetrics (Sent m) (wrap64 (Failed m + 1)) (Processing m)
  | CProcessing => mkChannelMetrics (Sent m) (Failed m) (wrap64 (Processing m + 1))
  end.

(** [atomic.AddInt64(&m.channels[ch].X, 1)] *)
Definition incr (k : counter) (ch : Channel) (mc : MetricsCollector) : option MetricsCollector :=
  match mc_channels mc !! ch with
  | Some m => Some (mkMetrics (<[ch := bump k m]> (mc_channels mc)))
  | None => None
  end.

Definition IncrSent := incr CSent.
Definition IncrFailed := incr CFailed.
Definition IncrProcessing := incr CProcessing.

(** [Snapshot]: a copy of the counters and the current connection count. *)
Definition Snapshot (connections : Z) (mc : MetricsCollector) : gmap string ChannelMetrics * Z :=
  (mc_channels mc, connections).

(** The collector knows the three channels. *)
Definition metrics_wf (mc : MetricsCollector) : Prop :=
  ∀ ch, Channel_Valid ch = true → is_Some (mc_channels mc !! ch).

Lemma metrics_wf_new : metrics_wf NewMetricsCollector.
Proof.
  intros ch [-> | [-> | ->]]%Channel_Valid_cases; eexists; vm_compute; reflexivity.
Qed.

Lemma incr_ok k ch mc :
  metrics_wf mc → Channel_Valid ch = true → ∃ mc', incr k ch mc = Some mc' ∧ metrics_wf mc'.
Proof.
  intros Hwf Hch. destruct (Hwf ch Hch) as [m Hm]. unfold incr. rewrite Hm.
  eexists. split; [done|]. intros ch' Hch'. simpl. rewrite lookup_insert. case_decide; [done|].
  by apply Hwf.
Qed.

Lemma incr_metrics_wf k ch mc mc' : metrics_wf mc → incr k ch mc = Some mc' → metrics_wf mc'.
Proof.
  unfold incr. intros Hwf Hi. destruct (mc_channels mc !! ch) as [m|] eqn:E; [|done]. injection Hi as <-.
  intros ch' Hch'. simpl. rewrite lookup_insert. case_decide; [done|]. by apply Hwf.
Qed.

#[export] Hint Resolve metrics_wf_new : insider.
