(* ===== verification/TemplateEngine.v ===== *)
(** * Template engine and its cache (internal/template/engine.go)

    Parsing and executing a template is [text/template]: the class
    [TextTemplate].  The engine caches parsed templates by name; each section
    under [e.mu] is one operation of [cache_op], so the double-checked locking of
    [getOrParse] is two operations another goroutine can come between. *)
From S2P Require Import Prelude GoLib Domain.
From Stdlib Require Import ZArith Lia Ascii.
From stdpp Require Import base numbers list strings gmap fin_maps.

Open Scope Z_scope.

(** [template.New(name).Parse(content)] and [tmpl.Execute(&buf, vars)]. *)
Class TextTemplate := {
  tmpl : Type;
  tmpl_Parse : string → string → result error tmpl;
  tmpl_Execute : tmpl → json → result error string;
}.

(** Go's [%q] on the bytes of a printable string. *)
Fixpoint quote_bytes (s : string) : string :=
  match s with
  | EmptyString => ""
  | String c s' =>
      let n := Z.of_nat (nat_of_ascii c) in
      (if (n =? 34) || (n =? 92) then String "\" (String c EmptyString)
       else if n =? 10 then "\n"
       else if n =? 9 then "\t"
       else if n =? 13 then "\r"
       else String c EmptyString) +:+ quote_bytes s'
  end.

Definition dquote : string := String (ascii_of_nat 34) EmptyString.
Definition fmt_q (s : string) : string := dquote +:+ quote_bytes s +:+ dquote.

Section engine.
Context `{TextTemplate}.

Record Engine := mkEngine { e_cache : gmap string tmpl }.

Definition NewEngine : Engine := mkEngine ∅.

Inductive cache_op : Type → Type :=
| CacheLookup (name : string) : cache_op (option tmpl)
| CacheParse (name content : string) : cache_op (result error tmpl)
| CacheInvalidate (name : string) : cache_op unit.

(** The RLock section of [getOrParse]. *)
Definition cache_lookup (name : string) (e : Engine) : option tmpl := e_cache e !! name.

(** Its Lock section: check again, parse, store. *)
Definition cache_parse (name content : string) (e : Engine) : result error tmpl * Engine :=
  match e_cache e !! name with
  | Some t => (Ok t, e)
  | None =>
      match tmpl_Parse name content with
      | Ok t => (Ok t, mkEngine (<[name := t]> (e_cache e)))
      | Err err => (Err err, e)
      end
  end.

Definition Invalidate (name : string) (e : Engine) : Engine := mkEngine (delete name (e_cache e)).

Definition exec_cache {A} (op : cache_op A) (e : Engine) : A * Engine :=
  match op in cache_op A return A * Engine with
  | CacheLookup name => (cache_lookup name e, e)
  | CacheParse name content => cache_parse name content e
  | CacheInvalidate name => (tt, Invalidate name e)
  end.
End engine.
Arguments Engine : clear implicits.
Arguments Engine {_}.
