(* ===== verification/Effects.v ===== *)
(** * Programs and their effects

    The operations of the system that touch the database, Redis, the clock, the
    network or shared memory are programs: trees of atomic effects ([eff]) whose
    continuations receive the result.  One definition of each operation thus has
    two meanings: [run] executes it alone, and [sched_step] executes any number
    of them, in several processes, interleaved effect by effect.

    What the environment decides comes from an [Env], indexed by the position of
    the effect in the execution: the clock, failures of the database and of Redis,
    fresh UUIDs, random draws, the webhook's answers and the cancellation of the
    context.  A call can fail before it takes effect ([Lost]) or after it ([Late]:
    the answer got lost). *)
From S2P Require Import Prelude GoLib Domain Redis Postgres RateLimiter CircuitBreaker Hub Metrics TemplateEngine.
From Stdlib Require Import ZArith Lia.
From stdpp Require Import base numbers list strings gmap.

Open Scope Z_scope.

Inductive fault := NoFault | Lost (msg : string) | Late (msg : string).

(** internal/provider/webhook/client.go, [webhookPayload] *)
Record webhookPayload := mkPayload {
  wp_NotificationID : string;
  wp_Recipient : string;
  wp_Channel : string;
  wp_Content : string;
  wp_Timestamp : string;
}.

Record Env := mkEnv {
  e_now : nat → Z;
  e_fault : nat → fault;
  e_uuid : nat → uuid;
  e_rand : nat → Z;
  e_http : nat → webhookPayload → result error Z;
  e_lua : nat → nat → Z;
  e_done : nat → bool;
}.

(** ** Redis commands the program sends *)

Inductive rcmd : Type → Type :=
| RZAdd (key : string) (score : Z) (member : string) : rcmd unit
| RZAddPipe (entries : list (string * Z * string)) : rcmd unit
| RZPopMin (key : string) (count : nat) : rcmd (list (string * Z))
| RZRem (key : string) (members : list string) : rcmd unit
| RZRange (key : string) (hi : Z) : rcmd (list string)
| RSetNX (key : string) (ttl : Z) : rcmd bool
| RRateLimit (key : string) (limit window now : Z) : rcmd Z
| RRateLimitBatch (key : string) (limit window now count : Z) : rcmd Z.

Section commands.
Context {R : Type} `{RedisServer R} `{LuaNumber}.

(** The commands of a pipeline, in order. *)
Fixpoint zadd_all (entries : list (string * Z * string)) (r : R) : R :=
  match entries with
  | [] => r
  | (key, score, member) :: es => zadd_all es (ZADD key score member r)
  end.

Definition exec_redis {A} (c : rcmd A) (t : Z) (lua : nat → Z) (r : R) : A * R :=
  match c in rcmd A return A * R with
  | RZAdd key score member => (tt, ZADD key score member r)
  | RZAddPipe entries => (tt, zadd_all entries r)
  | RZPopMin key count => ZPOPMIN key count r
  | RZRem key members => (tt, ZREM key members r)
  | RZRange key hi => (ZRANGEBYSCORE key hi r, r)
  | RSetNX key ttl => SETNX key t ttl r
  | RRateLimit key limit window now =>
      rateLimitScript key limit window now t lua (expire_keys t r)
  | RRateLimitBatch key limit window now count =>
      rateLimitBatchScript key limit window now count t lua (expire_keys t r)
  end.
End commands.

(** ** Effects and programs *)

Section programs.
Context `{TextTemplate}.

Inductive eff : Type → Type :=
| ESql {A} (q : sql A) : eff (result error A)
| ERedis {A} (c : rcmd A) : eff (result error A)
| ENow : eff Z
| EUuid : eff uuid
| ERand : eff Z
| EHttp (p : webhookPayload) : eff (result error Z)
| ECb {A} (op : cb_op A) : eff A
| EHub {A} (op : hub_op A) : eff A
| EMetrics (k : counter) (ch : Channel) : eff (option unit)
| ECache {A} (op : cache_op A) : eff A
| ECtxDone : eff bool
| EPing : eff bool.                 (* Ping of the database or of Redis: did it answer? *)

Inductive prog (A : Type) : Type :=
| Ret (a : A)
| Vis {X : Type} (e : eff X) (k : X → prog A)
| Panic.
#[global] Arguments Ret {A} a.
#[global] Arguments Vis {A X} e k.
#[global] Arguments Panic {A}.

Fixpoint prog_bind {A B} (f : A → prog B) (p : prog A) : prog B :=
  match p with
  | Ret a => f a
  | Vis e k => Vis e (λ x, prog_bind f (k x))
  | Panic => Panic
  end.

#[global] Instance prog_ret : MRet prog := λ A a, Ret a.
#[global] Instance prog_mbind : MBind prog := λ A B f p, prog_bind f p.

Definition trigger {X} (e : eff X) : prog X := Vis e Ret.

(** An increment of an unknown channel dereferences nil. *)
Definition metrics_incr (k : counter) (ch : Channel) : prog unit :=
  r ← trigger (EMetrics k ch); match r with Some _ => mret tt | None => Panic end.

(** [for _, x := range l { ... }] *)
Fixpoint for_each {A} (l : list A) (body : A → prog unit) : prog unit :=
  match l with
  | [] => mret tt
  | x :: l' => body x ≫= λ _, for_each l' body
  end.

(** A program that does not panic, whatever its effects answer. *)
Fixpoint no_panic {A} (p : prog A) : Prop :=
  match p with
  | Ret _ => True
  | Vis e k => ∀ x, no_panic (k x)
  | Panic => False
  end.

Lemma no_panic_bind {A B} (p : prog A) (f : A → prog B) :
  no_panic p → (∀ a, no_panic (f a)) → no_panic (p ≫= f).
Proof.
  intros Hp Hf. induction p as [a|X e k IH|]; simpl in *; [apply Hf| |done].
  intros x. by apply IH.
Qed.

Lemma no_panic_trigger {X} (e : eff X) : no_panic (trigger e).
Proof. by intros x. Qed.

Lemma no_panic_ret {A} (a : A) : no_panic (mret a).
Proof. done. Qed.
End programs.

(** Splits a program into its binds and branches. *)
Ltac solve_no_panic :=
  repeat first
    [ apply no_panic_bind; [|intros ?]
    | apply no_panic_trigger
    | apply no_panic_ret
    | done
    | progress cbv beta iota zeta
    | match goal with
      | |- no_panic (match ?x with _ => _ end) => destruct x
      | |- no_panic (if ?x then _ else _) => destruct x
      end ].

(** ** Sequential execution *)

Section run.
Context {R : Type} `{RedisServer R} `{LuaNumber} `{PgEngine} `{TextTemplate}.
Variable env : Env.

(** Memory of one process. *)
Record Proc := mkProc {
  p_cb : CircuitBreaker;
  p_hub : Hub;
  p_metrics : MetricsCollector;
  p_engine : Engine;
}.

Record World := mkWorld {
  w_db : DB;
  w_redis : R;
  w_pos : nat;
  w_proc : Proc;
}.

Definition tick (w : World) : World := mkWorld (w_db w) (w_redis w) (S (w_pos w)) (w_proc w).
Definition set_db (db : DB) (w : World) : World := mkWorld db (w_redis w) (w_pos w) (w_proc w).
Definition set_redis (r : R) (w : World) : World := mkWorld (w_db w) r (w_pos w) (w_proc w).
Definition set_proc (p : Proc) (w : World) : World := mkWorld (w_db w) (w_redis w) (w_pos w) p.
Definition set_cb (cb : CircuitBreaker) (w : World) : World :=
  set_proc (mkProc cb (p_hub (w_proc w)) (p_metrics (w_proc w)) (p_engine (w_proc w))) w.
Definition set_hub (h : Hub) (w : World) : World :=
  set_proc (mkProc (p_cb (w_proc w)) h (p_metrics (w_proc w)) (p_engine (w_proc w))) w.
Definition set_metrics (m : MetricsCollector) (w : World) : World :=
  set_proc (mkProc (p_cb (w_proc w)) (p_hub (w_proc w)) m (p_engine (w_proc w))) w.
Definition set_engine (e : Engine) (w : World) : World :=
  set_proc (mkProc (p_cb (w_proc w)) (p_hub (w_proc w)) (p_metrics (w_proc w)) e) w.

(** A remote call under a fault. *)
Definition faulty {A S} (f : fault) (op : S → result error A * S) (s : S) : result error A * S :=
  match f with
  | NoFault => op s
  | Lost m => (Err (EOther m), s)
  | Late m => (Err (EOther m), (op s).2)
  end.

Definition handle {X} (e : eff X) (w : World) : X * World :=
  let i := w_pos w in
  match e in eff X return X * World with
  | ESql q =>
      let '(r, db) := faulty (e_fault env i) (exec_sql q (e_now env i)) (w_db w) in
      (r, tick (set_db db w))
  | ERedis c =>
      let '(r, rd) := faulty (e_fault env i)
        (λ s, let '(a, s') := exec_redis c (e_now env i) (e_lua env i) s in (Ok a, s'))
        (w_redis w) in
      (r, tick (set_redis rd w))
  | ENow => (e_now env i, tick w)
  | EUuid => (e_uuid env i, tick w)
  | ERand => (e_rand env i, tick w)
  | EHttp p => (e_http env i p, tick w)
  | ECb op =>
      let '(a, cb) := exec_cb op (e_now env i) (p_cb (w_proc w)) in (a, tick (set_cb cb w))
  | EHub op => let '(a, h) := exec_hub op (p_hub (w_proc w)) in (a, tick (set_hub h w))
  | EMetrics k ch =>
      match incr k ch (p_metrics (w_proc w)) with
      | Some m => (Some tt, tick (set_metrics m w))
      | None => (None, tick w)
      end
  | ECache op =>
      let '(a, en) := exec_cache op (p_engine (w_proc w)) in (a, tick (set_engine en w))
  | ECtxDone => (e_done env i, tick w)
  | EPing => (match e_fault env i with NoFault => true | _ => false end, tick w)
  end.

(** [None]: the program panicked. *)
Fixpoint run {A} (p : prog A) (w : World) : option A * World :=
  match p with
  | Ret a => (Some a, w)
  | Vis e k => let '(x, w') := handle e w in run (k x) w'
  | Panic => (None, w)
  end.

Lemma run_bind {A B} (f : A → prog B) (p : prog A) w :
  run (p ≫= f) w =
    match run p w with
    | (Some a, w') => run (f a) w'
    | (None, w') => (None, w')
    end.
Proof.
  revert w. induction p as [a|X e k IH|]; intros w; simpl; try done.
  destruct (handle e w) as [x w']. apply IH.
Qed.

(** Time only advances. *)
Lemma handle_pos {X} (e : eff X) w : w_pos (handle e w).2 = S (w_pos w).
Proof.
  destruct e; simpl; try done.
  - by destruct (faulty _ _ _).
  - by destruct (faulty _ _ _).
  - by destruct (exec_cb _ _ _).
  - by destruct (exec_hub _ _).
  - by destruct (incr _ _ _).
  - by destruct (exec_cache _ _).
Qed.

Lemma run_pos {A} (p : prog A) w : (w_pos w ≤ w_pos (run p w).2)%nat.
Proof.
  revert w. induction p as [a|X e k IH|]; intros w; simpl; try lia.
  pose proof (handle_pos e w). destruct (handle e w) as [x w']. simpl in *.
  specialize (IH x w'). lia.
Qed.

(** The result and the world after one effect. *)
Lemma run_trigger_bind {X A} (e : eff X) (f : X → prog A) w :
  run (trigger e ≫= f) w = run (f (handle e w).1) (handle e w).2.
Proof. simpl. by destruct (handle e w). Qed.

Lemma run_trigger {X} (e : eff X) w : run (trigger e) w = (Some (handle e w).1, (handle e w).2).
Proof. simpl. by destruct (handle e w). Qed.

Lemma no_panic_run {A} (p : prog A) w : no_panic p → ∃ a w', run p w = (Some a, w').
Proof.
  revert w. induction p as [a|X e k IH|]; intros w Hp; simpl in *; [by eexists _, _| |done].
  destruct (handle e w) as [x w']. by apply IH.
Qed.

Definition quiet : Prop := ∀ i, e_fault env i = NoFault.

Lemma handle_redis_quiet {X} (c : rcmd X) w :
  e_fault env (w_pos w) = NoFault →
  handle (ERedis c) w =
    let r := exec_redis c (e_now env (w_pos w)) (e_lua env (w_pos w)) (w_redis w) in
    (Ok r.1, tick (set_redis r.2 w)).
Proof. intros Hq. simpl. rewrite Hq. simpl. by destruct (exec_redis _ _ _ _). Qed.

Lemma handle_sql_quiet {X} (q : sql X) w :
  e_fault env (w_pos w) = NoFault →
  handle (ESql q) w =
    let r := exec_sql q (e_now env (w_pos w)) (w_db w) in (r.1, tick (set_db r.2 w)).
Proof. intros Hq. simpl. rewrite Hq. simpl. by destruct (exec_sql _ _ _). Qed.

Lemma faulty_state {A S} f (op : S → result error A * S) s :
  (faulty f op s).2 = s ∨ (faulty f op s).2 = (op s).2.
Proof. destruct f; simpl; auto. Qed.

(** ** Programs that only read

    They end without a panic and leave the shared stores as they were, whatever
    the faults. *)
Definition same_stores (w w' : World) : Prop := w_db w' = w_db w ∧ w_redis w' = w_redis w.

Fixpoint reads_only {A} (p : prog A) : Prop :=
  match p with
  | Ret _ => True
  | Vis e k => (∀ w, same_stores w (handle e w).2) ∧ ∀ x, reads_only (k x)
  | Panic => False
  end.

Lemma same_stores_refl w : same_stores w w.
Proof. done. Qed.

Lemma same_stores_trans w1 w2 w3 : same_stores w1 w2 → same_stores w2 w3 → same_stores w1 w3.
Proof. intros [Hd1 Hr1] [Hd2 Hr2]. split; congruence. Qed.

Lemma reads_only_run {A} (p : prog A) w :
  reads_only p → ∃ a w', run p w = (Some a, w') ∧ same_stores w w'.
Proof.
  revert w. induction p as [a|X e k IH|]; intros w Hp; simpl in Hp; [|destruct Hp as [He Hk]|done].
  - by exists a, w.
  - specialize (He w). simpl. destruct (handle e w) as [x w1]. simpl in He.
    destruct (IH x w1 (Hk x)) as (a & w' & Hrun & Hs). exists a, w'. split; [done|].
    by eapply same_stores_trans.
Qed.

Lemma reads_only_bind {A B} (p : prog A) (f : A → prog B) :
  reads_only p → (∀ a, reads_only (f a)) → reads_only (p ≫= f).
Proof.
  intros Hp Hf. induction p as [a|X e k IH|]; simpl in *; [apply Hf| |done].
  destruct Hp as [He Hk]. split; [done|]. intros x. by apply IH.
Qed.

Lemma reads_only_trigger {X} (e : eff X) :
  (∀ w, same_stores w (handle e w).2) → reads_only (trigger e).
Proof. intros He. split; [done|]. by intros x. Qed.

(** A statement that never changes the tables. *)
Lemma reads_only_sql {X} (q : sql X) :
  (∀ t db, (exec_sql q t db).2 = db) → reads_only (trigger (ESql q)).
Proof.
  intros Hsel. apply reads_only_trigger. intros w. simpl.
  pose proof (faulty_state (e_fault env (w_pos w)) (exec_sql q (e_now env (w_pos w))) (w_db w)) as Hf.
  destruct (faulty _ _ _) as [r db]. simpl in Hf. rewrite Hsel in Hf. split; simpl; [tauto|done].
Qed.

Lemma reads_only_cache {X} (op : cache_op X) : reads_only (trigger (ECache op)).
Proof. apply reads_only_trigger. intros w. simpl. by destruct (exec_cache op _). Qed.

(** ** Interleaved execution

    A configuration is the shared stores, the memories of the processes and the
    goroutines, each in a process. *)
Record Config := mkConfig {
  c_db : DB;
  c_redis : R;
  c_pos : nat;
  c_procs : list Proc;
  c_threads : list (nat * prog unit);
}.

(** Goroutine [i] performs its next effect. *)
Definition sched_step (i : nat) (c : Config) : option Config :=
  '(pid, p) ← c_threads c !! i;
  pr ← c_procs c !! pid;
  match p with
  | Vis e k =>
      let '(x, w) := handle e (mkWorld (c_db c) (c_redis c) (c_pos c) pr) in
      Some (mkConfig (w_db w) (w_redis w) (w_pos w) (<[pid := w_proc w]> (c_procs c))
              (<[i := (pid, k x)]> (c_threads c)))
  | _ => None
  end.

(** The goroutines take turns as the list says. *)
Fixpoint run_schedule (sched : list nat) (c : Config) : option Config :=
  match sched with
  | [] => Some c
  | i :: sched' => c' ← sched_step i c; run_schedule sched' c'
  end.

(** The memory of a process as its [main] sets it up. *)
Definition booted (pr : Proc) : Prop :=
  ∃ maxFailures timeout, pr = mkProc (NewCircuitBreaker maxFailures timeout) NewHub NewMetricsCollector NewEngine.

(** Steps of the system: a goroutine's next effect, a new goroutine, the death of a
    process with all of its goroutines, or the start of a process, be it one that is
    started again. *)
Inductive sys_step : Config → Config → Prop :=
| step_thread i c c' : sched_step i c = Some c' → sys_step c c'
| step_spawn pid p c :
    sys_step c (mkConfig (c_db c) (c_redis c) (c_pos c) (c_procs c) (c_threads c ++ [(pid, p)]))
| step_crash pid c :
    sys_step c (mkConfig (c_db c) (c_redis c) (c_pos c) (c_procs c)
                  (filter (λ t, t.1 ≠ pid) (c_threads c)))
| step_boot pr c : booted pr →
    sys_step c (mkConfig (c_db c) (c_redis c) (c_pos c) (c_procs c ++ [pr]) (c_threads c)).

(** ** Integrity under every interleaving *)

Lemma handle_db_wf {X} (e : eff X) w : db_wf (w_db w) → db_wf (w_db (handle e w).2).
Proof.
  intros Hwf. destruct e; simpl; try done.
  - pose proof (faulty_state (e_fault env (w_pos w)) (exec_sql q (e_now env (w_pos w))) (w_db w)) as Hf.
    destruct (faulty _ _ _) as [r db]. simpl in *.
    destruct Hf as [-> | ->]; [done|]. by apply exec_sql_wf.
  - by destruct (faulty _ _ _).
  - by destruct (exec_cb _ _ _).
  - by destruct (exec_hub _ _).
  - by destruct (incr _ _ _).
  - by destruct (exec_cache _ _).
Qed.

Lemma handle_metrics_wf {X} (e : eff X) w :
  metrics_wf (p_metrics (w_proc w)) → metrics_wf (p_metrics (w_proc (handle e w).2)).
Proof.
  intros Hw. destruct e; simpl; try done.
  - by destruct (faulty _ _ _).
  - by destruct (faulty _ _ _).
  - by destruct (exec_cb _ _ _).
  - by destruct (exec_hub _ _).
  - destruct (incr _ _ _) as [m|] eqn:E; [|done]. by apply (incr_metrics_wf k ch (p_metrics (w_proc w))).
  - by destruct (exec_cache _ _).
Qed.

Lemma run_db_wf {A} (p : prog A) w : db_wf (w_db w) → db_wf (w_db (run p w).2).
Proof.
  revert w. induction p as [a|X e k IH|]; intros w Hwf; simpl; try done.
  pose proof (handle_db_wf e w Hwf). destruct (handle e w) as [x w']. by apply IH.
Qed.

Lemma sched_step_db_wf i c c' : sched_step i c = Some c' → db_wf (c_db c) → db_wf (c_db c').
Proof.
  unfold sched_step. intros Hs Hwf.
  destruct (c_threads c !! i) as [[pid p]|]; simpl in Hs; [|done].
  destruct (c_procs c !! pid) as [pr|]; simpl in Hs; [|done].
  destruct p as [|X e k|]; try done.
  pose proof (handle_db_wf e (mkWorld (c_db c) (c_redis c) (c_pos c) pr) Hwf) as Hd.
  destruct (handle e _) as [x w]. by injection Hs as <-.
Qed.

End run.
Arguments Proc {_}.
Arguments World R {_}.
Arguments Config R {_}.
