(* ===== verification/Contract.v ===== *)
(** * Contracts between a program and its environment

    A contract says what a program may ask of the stores and services ([asks]), what
    these answer when asked so ([answers]), and whether the program may panic.  A
    program [meets] a contract when all it asks is allowed, whatever it is answered
    within the contract; [upholds] is the other side: an invariant of the stores and
    the process memories under which [handle] keeps the contract.  Together they give
    the invariant for a program run alone ([meets_run]) and for any interleaving of
    programs that meet it ([meets_sched_step]). *)
From S2P Require Import Prelude GoLib Domain Redis Postgres RateLimiter CircuitBreaker Hub Metrics TemplateEngine Effects.
From Stdlib Require Import ZArith Lia.
From stdpp Require Import base numbers list strings gmap.

Open Scope Z_scope.

Section contracts.
Context `{TextTemplate}.

Record Contract := mkContract {
  asks : ∀ X, eff X → Prop;
  answers : ∀ X, eff X → X → Prop;
  panics : Prop;
}.

Section programs.
Variable c : Contract.

(** [Q] holds of what the program returns. *)
Fixpoint meets {A} (p : prog A) (Q : A → Prop) : Prop :=
  match p with
  | Ret a => Q a
  | Vis e k => asks c _ e ∧ ∀ x, answers c _ e x → meets (k x) Q
  | Panic => panics c
  end.

Lemma meets_ret {A} (a : A) (Q : A → Prop) : Q a → meets (mret a) Q.
Proof. done. Qed.

Lemma meets_mono {A} (p : prog A) (Q Q' : A → Prop) : meets p Q → (∀ a, Q a → Q' a) → meets p Q'.
Proof.
  intros Hp HQ. induction p as [a|X e k IH|]; simpl in *; [by apply HQ| |done].
  destruct Hp as [He Hk]. split; [done|]. intros x Hx. by apply IH, Hk.
Qed.

Lemma meets_bind {A B} (p : prog A) (f : A → prog B) (Q : A → Prop) (Q' : B → Prop) :
  meets p Q → (∀ a, Q a → meets (f a) Q') → meets (p ≫= f) Q'.
Proof.
  intros Hp Hf. induction p as [a|X e k IH|]; simpl in *; [by apply Hf| |done].
  destruct Hp as [He Hk]. split; [done|]. intros x Hx. by apply IH, Hk.
Qed.

(** The rest does not depend on the result. *)
Lemma meets_seq {A B} (p : prog A) (f : A → prog B) (Q : B → Prop) :
  meets p (λ _, True) → (∀ a, meets (f a) Q) → meets (p ≫= f) Q.
Proof. intros Hp Hf. eapply meets_bind; [exact Hp|]. intros a _. apply Hf. Qed.

Lemma meets_trigger {X} (e : eff X) (Q : X → Prop) :
  asks c _ e → (∀ x, answers c _ e x → Q x) → meets (trigger e) Q.
Proof. by split. Qed.

Lemma meets_any {A} (p : prog A) (Q : A → Prop) : meets p Q → meets p (λ _, True).
Proof. intros Hp. by eapply meets_mono. Qed.

Lemma meets_for_each {A} (l : list A) (body : A → prog unit) :
  (∀ x, x ∈ l → meets (body x) (λ _, True)) → meets (for_each l body) (λ _, True).
Proof.
  induction l as [|x l IH]; intros Hb; cbn [for_each]; [done|].
  apply meets_seq; [apply Hb; left|]. intros _. apply IH. intros y Hy. apply Hb. by right.
Qed.

(** A program that asks for nothing and does not panic meets every contract that
    allows its effects; one that may not panic does not need the right to. *)
Lemma no_panic_meets {A} (p : prog A) : (∀ X (e : eff X), asks c _ e) → no_panic p → meets p (λ _, True).
Proof. intros Ha. induction p as [a|X e k IH|]; simpl; [done| |done]. intros Hk. split; [apply Ha|]. auto. Qed.
End programs.

(** Two contracts at once.  The second may rely on what the first is answered. *)
Definition joint (c1 c2 : Contract) : Contract := {|
  asks X e := asks c1 X e ∧ asks c2 X e;
  answers X e x := answers c1 X e x ∧ answers c2 X e x;
  panics := panics c1 ∧ panics c2;
|}.

(** [c2] with the answers of [c1]. *)
Definition under (c1 c2 : Contract) : Contract := {|
  asks X e := asks c2 X e;
  answers X e x := answers c1 X e x ∧ answers c2 X e x;
  panics := panics c2;
|}.

Lemma meets_joint c1 c2 {A} (p : prog A) (Q1 Q2 : A → Prop) :
  meets c1 p Q1 → meets (under c1 c2) p Q2 → meets (joint c1 c2) p (λ a, Q1 a ∧ Q2 a).
Proof.
  induction p as [a|X e k IH|]; simpl; [done| |done].
  intros [He1 Hk1] [He2 Hk2]. split; [done|]. intros x [Hx1 Hx2]. apply IH; auto.
Qed.

(** ** The other side *)

Section environment.
Context {R : Type} `{RedisServer R} `{LuaNumber} `{PgEngine}.
Variable env : Env.
Variable c : Contract.

(** An invariant of the shared stores and one of each process memory. *)
Record Invariant := mkInvariant { on_stores : DB → R → Prop; on_process : Proc → Prop }.

Definition holds (I : Invariant) (w : World R) : Prop :=
  on_stores I (w_db w) (w_redis w) ∧ on_process I (w_proc w).

(** Under the invariant the environment keeps the contract, and the invariant with it. *)
Class Upholds (I : Invariant) : Prop :=
  upholds X (e : eff X) (w : World R) :
    holds I w → asks c _ e → holds I (handle env e w).2 ∧ answers c _ e (handle env e w).1.

Context (I : Invariant) `{!Upholds I}.

Lemma meets_run {A} (p : prog A) (Q : A → Prop) (w : World R) :
  meets c p Q → holds I w →
  holds I (run env p w).2 ∧ match (run env p w).1 with Some a => Q a | None => panics c end.
Proof.
  revert w. induction p as [a|X e k IH|]; intros w Hp Hi; simpl in *; [done| |done].
  destruct Hp as [He Hk]. destruct (upholds X e w Hi He) as [Hi' Hx].
  destruct (handle env e w) as [x w']. by apply IH; [apply Hk|].
Qed.

(** The environment keeps two contracts when it keeps each. *)
Definition both_hold (I1 I2 : Invariant) : Invariant :=
  mkInvariant (λ db r, on_stores I1 db r ∧ on_stores I2 db r) (λ pr, on_process I1 pr ∧ on_process I2 pr).

(** All goroutines meet the contract, the invariants hold. *)
Record obliged (cf : Config R) : Prop := {
  ob_stores : on_stores I (c_db cf) (c_redis cf);
  ob_procs : Forall (on_process I) (c_procs cf);
  ob_threads : Forall (λ t, meets c t.2 (λ _, True)) (c_threads cf);
}.

Lemma meets_sched_step i cf cf' : obliged cf → sched_step env i cf = Some cf' → obliged cf'.
Proof.
  intros [Hst Hpr Hth] Hs. unfold sched_step in Hs.
  destruct (c_threads cf !! i) as [[pid q]|] eqn:Et; cbn in Hs; [|done].
  destruct (c_procs cf !! pid) as [pr|] eqn:Ep; cbn in Hs; [|done].
  destruct q as [|X e k|]; try done. set (w := mkWorld (c_db cf) (c_redis cf) (c_pos cf) pr) in *.
  destruct (proj1 (Forall_lookup _ _) Hth i _ Et) as [He Hk].
  destruct (upholds X e w (conj Hst (proj1 (Forall_lookup _ _) Hpr pid pr Ep)) He) as [[Hst' Hpr'] Hx].
  destruct (handle env e w) as [x w']. injection Hs as <-.
  split; cbn; [done|by apply Forall_insert|]. apply Forall_insert; [done|]. by apply Hk.
Qed.
End environment.

Lemma upholds_joint {R : Type} `{RedisServer R} `{LuaNumber} `{PgEngine} env c1 c2 (I1 I2 : Invariant (R := R)) :
  Upholds env c1 I1 → Upholds env c2 I2 → Upholds env (joint c1 c2) (both_hold I1 I2).
Proof.
  intros U1 U2 X e w [[Hs1 Hs2] [Hp1 Hp2]] [He1 He2].
  destruct (U1 X e w (conj Hs1 Hp1) He1) as [[Hs1' Hp1'] Hx1], (U2 X e w (conj Hs2 Hp2) He2) as [[Hs2' Hp2'] Hx2].
  by repeat split.
Qed.
End contracts.

Arguments asks {_} _ {_} _.
Arguments answers {_} _ {_} _ _.
Arguments panics {_} _.
Arguments mkInvariant {_ _} _ _.
Arguments on_stores {_ _} _ _ _.
Arguments on_process {_ _} _ _.

(** Symbolic execution against a contract: binds, effects without conditions, branches. *)
Ltac meets_step :=
  first
    [ done
    | apply meets_ret
    | apply meets_seq; [|intros ?]
    | apply meets_trigger; [exact I|intros ? ?]
    | progress cbv beta iota zeta
    | match goal with
      | |- meets _ (match ?x with _ => _ end) _ => destruct x
      | |- meets _ (if ?x then _ else _) _ => destruct x
      end ].
Ltac solve_meets := repeat meets_step.
