(* ===== verification/Reference.v ===== *)
(** * Concrete environments for the witnesses

    The classes that stand for code outside the repository are instantiated here
    with executable functions, so that the theorems can be applied to concrete
    runs: a template language without actions, a clock that advances one
    millisecond per effect, a provider that answers 200, fresh UUIDs counted up
    and an empty database and Redis. *)
From S2P Require Import Prelude GoLib Domain Uuid Redis Postgres RateLimiter CircuitBreaker Hub Metrics.
From S2P Require Import TemplateEngine Effects.
From Stdlib Require Import ZArith Lia Ascii.
From stdpp Require Import base numbers list strings gmap.

Open Scope Z_scope.

Fixpoint has_char (c : ascii) (s : string) : bool :=
  match s with String d s' => Ascii.eqb c d || has_char c s' | EmptyString => false end.

(** Text without actions renders as itself; an action is a parse error. *)
Definition RefTemplate : TextTemplate := {|
  tmpl := string;
  tmpl_Parse name content :=
    if has_char "{" content then Err (EOther "unexpected action") else Ok content;
  tmpl_Execute t vars := Ok t;
|}.

#[local] Existing Instances RefTemplate RefPg RefUUID RefLua.

Definition demo_start : Z := 1700000000 * Second.

Definition demo_env : Env := {|
  e_now i := demo_start + Z.of_nat i * Millisecond;
  e_fault _ := NoFault;
  e_uuid i := ((N.of_nat i + 1) mod 2 ^ 128)%N;
  e_rand _ := 2 ^ 52;
  e_http _ _ := Ok 200;
  e_lua _ i := Z.of_nat i;
  e_done _ := false;
|}.

(** The same environment with other faults. *)
Definition demo_env_faults (f : nat → fault) : Env := {|
  e_now := e_now demo_env; e_fault := f; e_uuid := e_uuid demo_env; e_rand := e_rand demo_env;
  e_http := e_http demo_env; e_lua := e_lua demo_env; e_done := e_done demo_env |}.

(** The same environment with another provider. *)
Definition demo_env_http (h : nat → webhookPayload → result error Z) : Env := {|
  e_now := e_now demo_env; e_fault := e_fault demo_env; e_uuid := e_uuid demo_env;
  e_rand := e_rand demo_env; e_http := h; e_lua := e_lua demo_env; e_done := e_done demo_env |}.

Definition demo_proc : Proc :=
  mkProc (NewCircuitBreaker 5 (30 * Second)) NewHub NewMetricsCollector NewEngine.

Definition demo_world : World RefRedis := mkWorld empty_DB empty_RefRedis 0 demo_proc.

Lemma demo_quiet : quiet demo_env.
Proof. done. Qed.

(** A pending SMS. *)
Definition demo_notification (id : uuid) (st : Status) : Notification := {|
  n_ID := id; n_BatchID := None; n_IdempotencyKey := None; n_Recipient := "+15550100";
  n_Channel := ChannelSMS; n_Content := "hello"; n_Priority := PriorityNormal; n_Status := st;
  n_TemplateID := None; n_TemplateVars := JNull; n_ScheduledAt := None; n_ProviderMsgID := None;
  n_Attempts := 0; n_MaxAttempts := 5; n_LastError := None; n_SentAt := None;
  n_CreatedAt := demo_start; n_UpdatedAt := demo_start |}.

