(* ===== verification/Queue.v ===== *)
(** * The queue (internal/queue/message.go, internal/queue/redis: helpers.go,
      producer.go, consumer.go, ratelimiter.go)

    A message is stored as the JSON text of the struct, the member of a sorted
    set: [queue:<channel>] by priority and time, [processing:<channel>] by the
    deadline of the consumer that popped it, [retry:delayed] by the time a retry
    is due.  Producer, consumer and rate limiter are programs over Redis. *)
From S2P Require Import Prelude Float64 GoLib GoJson GoTime Domain Uuid Redis Postgres RateLimiter.
From S2P Require Import TemplateEngine Effects Reference.
From Stdlib Require Import ZArith Lia Ascii Sorted.
From stdpp Require Import base numbers list strings gmap fin_maps.

Open Scope Z_scope.

(** ** The wire format of a message *)

(** [Time.UnixNano]: nanoseconds in an [int64]. *)
Definition UnixNano (t : Z) : Z := wrap64 t.

(** [Time.MarshalJSON]: an error when the year is outside [0,9999]. *)
Definition Time_json (t : Z) : result error json :=
  let y := c_year (civil_from_days (t / nanos_per_day)) in
  if (0 <=? y) && (y <=? 9999) then Ok (JStr (Format_RFC3339Nano t))
  else Err (EOther "json: error calling MarshalJSON for type *time.Time: year outside of range [0,9999]").

(** ASCII case folding of a key: [encoding/json] matches names case-insensitively. *)
Definition fold_char (c : ascii) : ascii :=
  let n := byte_of c in if (65 <=? n) && (n <=? 90) then chr (n + 32) else c.
Fixpoint fold_key (s : string) : string :=
  match s with String c s' => String (fold_char c) (fold_key s') | EmptyString => EmptyString end.

Definition type_error (what : string) : error :=
  EOther ("json: cannot unmarshal value into Go value of type " +:+ what).

(** A member of the object decoded into a [string] field; [null] leaves it. *)
Definition decode_string (v : json) (old : string) : result error string :=
  match v with JStr s => Ok s | JNull => Ok old | _ => Err (type_error "string") end.

(** Into a [*time.Time]: [null] is nil. *)
Definition decode_time_ptr (v : json) : result error (option Z) :=
  match v with
  | JNull => Ok None
  | JStr s => match Parse_RFC3339Nano s with
              | Some t => Ok (Some t)
              | None => Err (EOther "parsing time")
              end
  | _ => Err (EOther "Time.UnmarshalJSON: input is not a JSON string")
  end.

Section codec.
Context `{UUIDLib}.

(** Into a [uuid.UUID]: [null] leaves it. *)
Definition decode_uuid (v : json) (old : uuid) : result error uuid :=
  match v with JStr s => uuid_Parse s | JNull => Ok old | _ => Err (type_error "uuid.UUID") end.

(** [json.Marshal(msg)], as a tree. *)
Definition Message_json (m : Message) : result error json :=
  sched ← match m_ScheduledAt m with
          | None => Ok []
          | Some t => j ← Time_json t; Ok [("scheduled_at", j)]
          end;
  Ok (JObj ([("notification_id", JStr (uuid_String (m_NotificationID m)));
             ("channel", JStr (m_Channel m)); ("priority", JStr (m_Priority m))] ++ sched)).

Definition Marshal (m : Message) : result error string := json_Marshal <$> Message_json m.

Definition zero_message : Message := mkMessage 0 "" "" None.

Definition decode_message_field (m : Message) (f : string * json) : result error Message :=
  let k := fold_key f.1 in
  if String.eqb k "notification_id" then
    id ← decode_uuid f.2 (m_NotificationID m);
    Ok (mkMessage id (m_Channel m) (m_Priority m) (m_ScheduledAt m))
  else if String.eqb k "channel" then
    c ← decode_string f.2 (m_Channel m);
    Ok (mkMessage (m_NotificationID m) c (m_Priority m) (m_ScheduledAt m))
  else if String.eqb k "priority" then
    p ← decode_string f.2 (m_Priority m);
    Ok (mkMessage (m_NotificationID m) (m_Channel m) p (m_ScheduledAt m))
  else if String.eqb k "scheduled_at" then
    t ← decode_time_ptr f.2;
    Ok (mkMessage (m_NotificationID m) (m_Channel m) (m_Priority m) t)
  else Ok m.

Fixpoint decode_fields {A} (step : A → string * json → result error A) (a : A)
    (fs : list (string * json)) : result error A :=
  match fs with
  | [] => Ok a
  | f :: fs' => a' ← step a f; decode_fields step a' fs'
  end.

(** [json.Unmarshal([]byte(raw), &msg)] into a zero message. *)
Definition Unmarshal (raw : string) : result error Message :=
  match json_Unmarshal raw with
  | None => Err (EOther "invalid character in JSON input")
  | Some (JObj fs) => decode_fields decode_message_field zero_message fs
  | Some JNull => Ok zero_message
  | Some _ => Err (type_error "queue.Message")
  end.

(** Messages whose id is a UUID and whose time, if any, RFC 3339 can print. *)
Definition message_ok (m : Message) : Prop :=
  is_uuid (m_NotificationID m) ∧
  match m_ScheduledAt m with None => True | Some t => printable_time t end.

(** ** Keys and scores *)

Definition queuePrefix : string := "queue:".
Definition processingPrefix : string := "processing:".
Definition retryDelayedKey : string := "retry:delayed".

(** [calculateScore], [now] being the clock it reads. *)
Definition calculateScore (now : Z) (msg : Message) : Z :=
  let priorityLevel := Priority_Score (m_Priority msg) in
  let ts := match m_ScheduledAt msg with
            | Some t => f64 (UnixNano t)
            | None => f64 (UnixNano now)
            end in
  f64 (priorityLevel * 10 ^ 12 + ts).

Definition MessageFromNotification (n : Notification) : Message :=
  mkMessage (n_ID n) (n_Channel n) (n_Priority n) (n_ScheduledAt n).

(** ** Producer *)

Section programs.
Context `{TextTemplate}.

Definition Enqueue (msg : Message) : prog (result error unit) :=
  match Marshal msg with
  | Err err => mret (Err (EWrap "marshal message" err))
  | Ok data =>
      now ← trigger ENow;
      trigger (ERedis (RZAdd (queuePrefix +:+ m_Channel msg) (calculateScore now msg) data))
  end.

(** The ZADD commands the loop of [EnqueueBatch] puts into the pipeline. *)
Fixpoint pipe_messages (msgs : list Message) : prog (result error (list (string * Z * string))) :=
  match msgs with
  | [] => mret (Ok [])
  | msg :: msgs' =>
      match Marshal msg with
      | Err err => mret (Err (EWrap "marshal message" err))
      | Ok data =>
          now ← trigger ENow;
          rest ← pipe_messages msgs';
          mret match rest with
               | Ok cmds => Ok ((queuePrefix +:+ m_Channel msg, calculateScore now msg, data) :: cmds)
               | Err err => Err err
               end
      end
  end.

Definition EnqueueBatch (msgs : list Message) : prog (result error unit) :=
  match msgs with
  | [] => mret (Ok tt)
  | _ =>
      pipe ← pipe_messages msgs;
      match pipe with
      | Err err => mret (Err err)
      | Ok cmds =>
          r ← trigger (ERedis (RZAddPipe cmds));
          mret match r with Ok _ => Ok tt | Err err => Err (EWrap "pipeline enqueue" err) end
      end
  end.

Definition EnqueueDelayed (msg : Message) (delay : Z) : prog (result error unit) :=
  match Marshal msg with
  | Err err => mret (Err (EWrap "marshal message" err))
  | Ok data =>
      now ← trigger ENow;
      trigger (ERedis (RZAdd retryDelayedKey (f64 (UnixNano (now + delay))) data))
  end.

(** ** Consumer *)

Record Consumer := mkConsumer { visibilityTimeout : Z }.
Definition NewConsumer (visibilityTimeout : Z) : Consumer := mkConsumer visibilityTimeout.

(** The answer of the ZADD to the processing set is not looked at. *)
Definition Dequeue (c : Consumer) (channel : string) : prog (result error (option Message)) :=
  results ← trigger (ERedis (RZPopMin (queuePrefix +:+ channel) 1));
  match results with
  | Err err => mret (Err (EWrap "zpopmin" err))
  | Ok [] => mret (Ok None)
  | Ok ((raw, _) :: _) =>
      match Unmarshal raw with
      | Err err => mret (Err (EWrap "unmarshal message" err))
      | Ok msg =>
          now ← trigger ENow;
          _ ← trigger (ERedis (RZAdd (processingPrefix +:+ channel)
                                 (f64 (UnixNano (now + visibilityTimeout c))) raw));
          mret (Ok (Some msg))
      end
  end.

(** The loop over the popped members: the messages and the ZADDs of the pipeline. *)
Fixpoint decode_results (procKey : string) (deadline : Z) (results : list (string * Z))
    : result error (list Message * list (string * Z * string)) :=
  match results with
  | [] => Ok ([], [])
  | (raw, _) :: results' =>
      match Unmarshal raw with
      | Err err => Err (EWrap "unmarshal message" err)
      | Ok msg =>
          '(msgs, cmds) ← decode_results procKey deadline results';
          Ok (msg :: msgs, (procKey, deadline, raw) :: cmds)
      end
  end.

(** [count] is positive wherever the program calls it; ZPOPMIN takes a count. *)
Definition DequeueBatch (c : Consumer) (channel : string) (count : Z)
    : prog (result error (list Message)) :=
  results ← trigger (ERedis (RZPopMin (queuePrefix +:+ channel) (Z.to_nat count)));
  match results with
  | Err err => mret (Err (EWrap "zpopmin batch" err))
  | Ok [] => mret (Ok [])
  | Ok results =>
      now ← trigger ENow;
      match decode_results (processingPrefix +:+ channel)
              (f64 (UnixNano (now + visibilityTimeout c))) results with
      | Err err => mret (Err err)
      | Ok (msgs, pipe) =>
          r ← trigger (ERedis (RZAddPipe pipe));
          mret match r with
               | Err err => Err (EWrap "pipeline processing set" err)
               | Ok _ => Ok msgs
               end
      end
  end.

Fixpoint marshal_all (msgs : list Message) : result error (list string) :=
  match msgs with
  | [] => Ok []
  | msg :: msgs' =>
      match Marshal msg with
      | Err err => Err (EWrap "marshal message for ack" err)
      | Ok data => members ← marshal_all msgs'; Ok (data :: members)
      end
  end.

Definition Ack (channel : string) (msgs : list Message) : prog (result error unit) :=
  match msgs with
  | [] => mret (Ok tt)
  | _ =>
      match marshal_all msgs with
      | Err err => mret (Err err)
      | Ok members => trigger (ERedis (RZRem (processingPrefix +:+ channel) members))
      end
  end.

(** ** Rate limiter calls *)

Definition Allow (rl : RateLimiter) (channel : Channel) : prog (result error bool) :=
  now ← trigger ENow;
  r ← trigger (ERedis (RRateLimit (ratelimit_key channel) (rl_limit rl) (rl_windowNs rl) (UnixNano now)));
  mret match r with
       | Err err => Err (EWrap "rate limit check" err)
       | Ok result => Ok (result =? 1)
       end.

Definition AllowN (rl : RateLimiter) (channel : Channel) (count : Z) : prog (result error Z) :=
  if count <=? 0 then mret (Ok 0)
  else
    now ← trigger ENow;
    r ← trigger (ERedis (RRateLimitBatch (ratelimit_key channel) (rl_limit rl) (rl_windowNs rl)
                           (UnixNano now) count));
    mret match r with
         | Err err => Err (EWrap "rate limit batch check" err)
         | Ok result => Ok result
         end.
End programs.
End codec.

(** ** Lemmas *)

Section wire.
Context `{UUIDLaws}.

Lemma Time_json_printable t : printable_time t → Time_json t = Ok (JStr (Format_RFC3339Nano t)).
Proof.
  unfold printable_time, Time_json. intros Ht.
  destruct (_ && _) eqn:E; [done|]. rewrite andb_false_iff in E. zify; lia.
Qed.

(** The members [Marshal] writes, decoded one by one. *)
Lemma decode_id_field m s :
  decode_message_field m ("notification_id", JStr s) =
    id ← uuid_Parse s; Ok (mkMessage id (m_Channel m) (m_Priority m) (m_ScheduledAt m)).
Proof. reflexivity. Qed.
Lemma decode_channel_field m s :
  decode_message_field m ("channel", JStr s) =
    Ok (mkMessage (m_NotificationID m) s (m_Priority m) (m_ScheduledAt m)).
Proof. reflexivity. Qed.
Lemma decode_priority_field m s :
  decode_message_field m ("priority", JStr s) =
    Ok (mkMessage (m_NotificationID m) (m_Channel m) s (m_ScheduledAt m)).
Proof. reflexivity. Qed.
Lemma decode_scheduled_field m s t :
  Parse_RFC3339Nano s = Some t →
  decode_message_field m ("scheduled_at", JStr s) =
    Ok (mkMessage (m_NotificationID m) (m_Channel m) (m_Priority m) (Some t)).
Proof.
  intros Hs. change (decode_message_field m ("scheduled_at", JStr s)) with
    (t ← decode_time_ptr (JStr s);
     Ok (mkMessage (m_NotificationID m) (m_Channel m) (m_Priority m) t)).
  unfold decode_time_ptr. by rewrite Hs.
Qed.

Lemma Marshal_total m : message_ok m → is_ok (Marshal m) = true.
Proof.
  intros [_ Ht]. unfold Marshal, Message_json. destruct (m_ScheduledAt m) as [t|]; [|done].
  by rewrite Time_json_printable.
Qed.

Lemma Unmarshal_Marshal_message m raw :
  message_ok m → Marshal m = Ok raw → Unmarshal raw = Ok m.
Proof.
  intros [Hid Ht]. destruct m as [id ch pr sched]. cbn in Hid, Ht.
  unfold Marshal, Message_json, Unmarshal.
  cbn [m_ScheduledAt m_NotificationID m_Channel m_Priority].
  destruct sched as [t|]; [rewrite Time_json_printable by done|];
    cbn [mbind result_bind fmap result_fmap app];
    intros Heq; apply Ok_eq in Heq; rewrite <- Heq; rewrite Unmarshal_Marshal by reflexivity;
    cbn [decode_fields]; rewrite decode_id_field, uuid_Parse_String by done;
    cbn [mbind result_bind decode_fields];
    rewrite decode_channel_field; cbn [mbind result_bind decode_fields];
    rewrite decode_priority_field; cbn [mbind result_bind decode_fields]; [|reflexivity].
  by rewrite (decode_scheduled_field _ _ t) by by apply parse_format_nano.
Qed.

(** C22: a message written to the queue is read back as it was: every message with
    a 128-bit id and a printable time has a JSON text, and [Unmarshal] of that text
    is the message. *)
Theorem message_wire_round_trip m :
  message_ok m → ∃ raw, Marshal m = Ok raw ∧ Unmarshal raw = Ok m.
Proof.
  intros Hm. pose proof (Marshal_total m Hm) as Ht.
  destruct (Marshal m) as [raw|] eqn:E; [|done]. exists raw. split; [done|].
  by apply Unmarshal_Marshal_message.
Qed.
End wire.

(** A message with a schedule, in the reference UUID format. *)
Lemma message_wire_round_trip_witness :
  let m := mkMessage 258 "sms" "high" (Some (1700000000 * Second + 5)) in
  ∃ raw, @Marshal RefUUID m = Ok raw ∧ @Unmarshal RefUUID raw = Ok m.
Proof.
  intros m. apply (@message_wire_round_trip RefUUID RefUUID_laws m).
  split; [reflexivity|]. cbn [m_ScheduledAt m]. unfold printable_time.
  split; apply Z.leb_le; reflexivity.
Defined.

(** ** Scores *)

Definition ts_of (now : Z) (m : Message) : Z :=
  match m_ScheduledAt m with Some t => t | None => now end.

(** Times the score is computed from without wrapping: 1970 to 2116. *)
Definition score_time (t : Z) : Prop := 0 ≤ t < 2 ^ 62 - 2 * 10 ^ 12.

Lemma calculateScore_eq now m :
  score_time (ts_of now m) →
  calculateScore now m = f64 (Priority_Score (m_Priority m) * 10 ^ 12 + f64 (ts_of now m)).
Proof.
  unfold score_time, ts_of, calculateScore, UnixNano. intros Ht.
  destruct (m_ScheduledAt m); by rewrite wrap64_id by (unfold in_int64, int64_min, int64_max; lia).
Qed.

(** Two roundings of at most 256 ns each. *)
Lemma calculateScore_error now m :
  score_time (ts_of now m) →
  Z.abs (calculateScore now m - (Priority_Score (m_Priority m) * 10 ^ 12 + ts_of now m)) ≤ 512.
Proof.
  intros Ht. rewrite calculateScore_eq by done. unfold score_time in Ht.
  pose proof (Priority_Score_range (m_Priority m)) as Hp.
  pose proof (f64_error (ts_of now m) 62 ltac:(lia) ltac:(lia)) as H1.
  pose proof (f64_nonneg_le (ts_of now m) ltac:(lia)) as H0.
  change (2 ^ (62 - 54)) with 256 in H1.
  assert (Hup : f64 (ts_of now m) ≤ 2 ^ 62 - 2 * 10 ^ 12).
  { transitivity (f64 (2 ^ 62 - 2 * 10 ^ 12)); [apply f64_mono; lia|apply Z.eq_le_incl; reflexivity]. }
  destruct (Z.eq_dec (f64 (ts_of now m)) (2 ^ 62 - 2 * 10 ^ 12)) as [E|E].
  - destruct (Z.eq_dec (Priority_Score (m_Priority m)) 2) as [Ep|Ep].
    + rewrite Ep, E. change (f64 (2 * 10 ^ 12 + (2 ^ 62 - 2 * 10 ^ 12))) with (2 ^ 62). lia.
    + pose proof (f64_error (Priority_Score (m_Priority m) * 10 ^ 12 + f64 (ts_of now m)) 62
        ltac:(lia) ltac:(lia)) as H2. change (2 ^ (62 - 54)) with 256 in H2. lia.
  - pose proof (f64_error (Priority_Score (m_Priority m) * 10 ^ 12 + f64 (ts_of now m)) 62
      ltac:(lia) ltac:(lia)) as H2. change (2 ^ (62 - 54)) with 256 in H2. lia.
Qed.

(** C27: what the score orders by.  Within a priority, earlier messages have the
    smaller score.  A more urgent priority wins only while the other message is
    younger than about 1000 seconds per priority level: beyond that (give or take
    1024 ns of rounding) the older, less urgent message is served first. *)
Theorem score_order ta a tb b :
  score_time (ts_of ta a) → score_time (ts_of tb b) →
  let gap := (Priority_Score (m_Priority b) - Priority_Score (m_Priority a)) * 10 ^ 12 in
  (m_Priority a = m_Priority b → ts_of ta a ≤ ts_of tb b → calculateScore ta a ≤ calculateScore tb b) ∧
  (ts_of ta a - ts_of tb b < gap - 1024 → calculateScore ta a < calculateScore tb b) ∧
  (ts_of ta a - ts_of tb b > gap + 1024 → calculateScore tb b < calculateScore ta a).
Proof.
  intros Ha Hb gap. pose proof (calculateScore_error ta a Ha). pose proof (calculateScore_error tb b Hb).
  unfold gap. split_and!; [|lia|lia].
  intros Hp Hle. rewrite !calculateScore_eq by done. rewrite Hp. apply f64_mono.
  pose proof (f64_mono _ _ Hle). lia.
Qed.

(** A high-priority message of now against a normal one 999 s and one 1001 s old. *)
Lemma score_order_witness :
  let now := 1700000000 * Second in
  let high := mkMessage 1 "sms" "high" None in
  let normal := mkMessage 2 "sms" "normal" None in
  calculateScore now high < calculateScore (now - 999 * Second) normal ∧
  calculateScore (now - 1001 * Second) normal < calculateScore now high.
Proof.
  intros now high normal. split.
  - apply (score_order now high (now - 999 * Second) normal); unfold score_time; closed_arith.
  - apply (score_order now high (now - 1001 * Second) normal); unfold score_time; closed_arith.
Defined.

(** ** Producer and consumer on the store *)

Section store.
Context {R : Type} `{RedisLaws R} `{LuaNumber} `{PgEngine} `{TextTemplate} `{UUIDLaws}.
Variable env : Env.

Definition queue_key (ch : string) : string := queuePrefix +:+ ch.
Definition processing_key (ch : string) : string := processingPrefix +:+ ch.

Lemma queue_processing_ne a b : queue_key a ≠ processing_key b.
Proof. unfold queue_key, processing_key. discriminate. Qed.
Lemma processing_queue_ne a b : processing_key a ≠ queue_key b.
Proof. unfold queue_key, processing_key. discriminate. Qed.
Lemma retry_queue_ne b : retryDelayedKey ≠ queue_key b.
Proof. discriminate. Qed.


Lemma queue_key_inj a b : queue_key a = queue_key b → a = b.
Proof. apply append_inj. Qed.
Lemma processing_key_inj a b : processing_key a = processing_key b → a = b.
Proof. apply append_inj. Qed.

(** The pipeline of [DequeueBatch]: every member with the one deadline. *)
Lemma zadd_all_lookup key score (ms : list string) (r : R) k x :
  zset (zadd_all ((λ m, (key, score, m)) <$> ms) r) k !! x =
    if decide (k = key ∧ x ∈ ms) then Some score else zset r k !! x.
Proof.
  revert r. induction ms as [|m ms IH]; intros r.
  { rewrite decide_False; [done|]. intros [_ Hx]. by apply elem_of_nil in Hx. }
  cbn [fmap list_fmap zadd_all]. rewrite IH, zset_ZADD.
  destruct (decide (k = key ∧ x ∈ ms)) as [[-> Hx]|Hx].
  - rewrite decide_True; [done|]. split; [done|by right].
  - destruct (decide (key = k)) as [<-|Hk].
    + rewrite lookup_insert. destruct (decide (m = x)) as [->|].
      * rewrite decide_True; [done|]. split; [done|left].
      * rewrite decide_False; [done|]. rewrite elem_of_cons. intuition congruence.
    + rewrite decide_False; [done|]. intuition congruence.
Qed.

(** The loop of [DequeueBatch] on members that all decode. *)
Lemma decode_results_ok key dl (rs : list (string * Z)) msgs :
  Forall2 (λ e m, Unmarshal e.1 = Ok m) rs msgs →
  decode_results key dl rs = Ok (msgs, (λ m, (key, dl, m)) <$> rs.*1).
Proof.
  induction 1 as [|[raw s] m rs msgs Hm _ IH]; [done|].
  cbn [decode_results]. cbn [fst] in Hm. by rewrite Hm, IH.
Qed.

Lemma decode_results_err key dl (rs : list (string * Z)) raw s :
  (raw, s) ∈ rs → is_ok (Unmarshal raw) = false → is_ok (decode_results key dl rs) = false.
Proof.
  intros Hin Hbad. induction rs as [|[raw' s'] rs IH]; [by apply elem_of_nil in Hin|].
  cbn [decode_results]. apply elem_of_cons in Hin as [[= <- <-]|Hin].
  - by destruct (Unmarshal raw).
  - destruct (Unmarshal raw'); [|done]. specialize (IH Hin).
    by destruct (decode_results key dl rs).
Qed.

(** What [ZPOPMIN] takes is the head of the order: nothing that stays is smaller. *)
Lemma popped_smallest (m : gmap string Z) n x s y s' :
  (x, s) ∈ take n (sorted_entries m) → m !! y = Some s' → y ∉ (take n (sorted_entries m)).*1 →
  entry_le (x, s) (y, s').
Proof.
  intros Hx Hy Hout. pose proof (sorted_entries_sorted m) as Hs.
  rewrite <- (take_drop n (sorted_entries m)) in Hs.
  assert (Hyd : (y, s') ∈ drop n (sorted_entries m)).
  { apply sorted_entries_lookup in Hy. rewrite <- (take_drop n (sorted_entries m)) in Hy.
    apply elem_of_app in Hy as [Hy|]; [|done]. destruct Hout.
    apply list_elem_of_fmap. by exists (y, s'). }
  clear -Hs Hx Hyd. induction (take n (sorted_entries m)) as [|e l IH]; [by apply elem_of_nil in Hx|].
  cbn [app] in Hs. apply Sorted.StronglySorted_inv in Hs as [Hs Hall].
  apply elem_of_cons in Hx as [<-|Hx]; [|by apply IH].
  rewrite Forall_forall in Hall. apply Hall. apply elem_of_app. by right.
Qed.

(** One [DequeueBatch] without failures: what it returns and what it moves. *)
Lemma DequeueBatch_run c ch count (w : World R) msgs :
  quiet env →
  let popped := take (Z.to_nat count) (sorted_entries (zset (w_redis w) (queue_key ch))) in
  let deadline := f64 (UnixNano (e_now env (S (w_pos w)) + visibilityTimeout c)) in
  Forall2 (λ e m, Unmarshal e.1 = Ok m) popped msgs →
  ∃ w', run env (DequeueBatch c ch count) w = (Some (Ok msgs), w') ∧
    w_db w' = w_db w ∧ w_proc w' = w_proc w ∧
    ∀ k x, zset (w_redis w') k !! x =
      if decide (k = queue_key ch ∧ x ∈ popped.*1) then None
      else if decide (k = processing_key ch ∧ x ∈ popped.*1) then Some deadline
      else zset (w_redis w) k !! x.
Proof.
  intros Hq popped deadline Hdec. unfold DequeueBatch.
  rewrite run_trigger_bind, handle_redis_quiet by apply Hq.
  cbn [fst snd exec_redis]. rewrite ZPOPMIN_popped. fold (queue_key ch) popped.
  destruct popped as [|e popped'] eqn:Ep.
  - inversion Hdec; subst. eexists. split; [reflexivity|]. split_and!; [done|done|].
    intros k x. cbn [w_redis tick set_redis]. rewrite zset_ZPOPMIN, ZPOPMIN_popped.
    fold (queue_key ch) popped. rewrite Ep. cbn [fmap list_fmap].
    rewrite !decide_False by (intros [_ []%elem_of_nil]). done.
  - rewrite <- Ep in *. clear Ep.
    rewrite run_trigger_bind. cbn [handle fst snd tick set_redis w_pos w_db w_redis w_proc].
    fold (processing_key ch). rewrite (decode_results_ok _ _ _ _ Hdec).
    rewrite run_trigger_bind, handle_redis_quiet by apply Hq.
    eexists. split; [reflexivity|]. split_and!; [done|done|].
    intros k x. cbn [fst snd exec_redis tick set_redis w_pos w_redis].
    rewrite zadd_all_lookup, zset_ZPOPMIN, ZPOPMIN_popped. fold (queue_key ch) popped deadline.
    destruct (decide (k = processing_key ch ∧ x ∈ popped.*1)) as [[-> Hx]|Hx].
    + rewrite decide_False; [done|]. intros [Hk _]. by apply processing_queue_ne in Hk.
    + destruct (decide (queue_key ch = k ∧ x ∈ popped.*1)),
        (decide (k = queue_key ch ∧ x ∈ popped.*1)); try done;
        exfalso; match goal with Hy : _ ∧ _, Hn : ¬ _ |- _ => apply Hn; destruct Hy; split; done end.
Qed.

(** Members written by the producer. *)
Definition canonical (m : gmap string Z) : Prop :=
  ∀ raw s, m !! raw = Some s → ∃ msg, message_ok msg ∧ Marshal msg = Ok raw.

(** A decidable sufficient condition. *)
Lemma canonical_check msgs (m : gmap string Z) :
  Forall message_ok msgs →
  forallb (λ e, existsb (λ msg, match Marshal msg with Ok r => String.eqb r e.1 | Err _ => false end)
    msgs) (map_to_list m) = true →
  canonical m.
Proof.
  rewrite forallb_forall. intros Hok Hall raw s Hraw.
  apply elem_of_map_to_list, list_elem_of_In, Hall, existsb_exists in Hraw as (msg & Hin & Hm).
  exists msg. rewrite Forall_forall in Hok. split; [apply Hok; by apply list_elem_of_In|].
  destruct (Marshal msg) as [r|]; [|done]. apply String.eqb_eq in Hm. by subst.
Qed.

Lemma canonical_decodes (m : gmap string Z) n :
  canonical m → ∃ msgs, Forall2 (λ e msg, Unmarshal e.1 = Ok msg) (take n (sorted_entries m)) msgs ∧
    Forall2 (λ e msg, message_ok msg ∧ Marshal msg = Ok e.1) (take n (sorted_entries m)) msgs.
Proof.
  intros Hc. assert (Hall : ∀ e, e ∈ take n (sorted_entries m) →
    ∃ msg, message_ok msg ∧ Marshal msg = Ok e.1).
  { intros [raw s] Hin. apply (Hc raw s). apply sorted_entries_lookup.
    rewrite <- (take_drop n (sorted_entries m)). apply elem_of_app. by left. }
  induction (take n (sorted_entries m)) as [|e l IH]; [by exists []|].
  destruct (Hall e) as (msg & Hok & Hm); [left|].
  destruct IH as (msgs & Hd1 & Hd2); [intros e' He; apply Hall; by right|].
  exists (msg :: msgs). split; constructor; try done. by apply Unmarshal_Marshal_message.
Qed.

Lemma Forall2_message_raw (l : list (string * Z)) msgs m raw :
  Forall2 (λ e msg, message_ok msg ∧ Marshal msg = Ok e.1) l msgs →
  message_ok m → Marshal m = Ok raw → (m ∈ msgs ↔ raw ∈ l.*1).
Proof.
  intros Hall Hm Hraw. induction Hall as [|e msg l msgs [Hok Hmsg] _ IH].
  - split; by intros []%elem_of_nil.
  - cbn [fmap list_fmap]. rewrite !elem_of_cons, IH.
    assert (m = msg ↔ raw = e.1) as ->; [|done]. split; [intros ->; congruence|].
    intros ->. pose proof (Unmarshal_Marshal_message _ _ Hm Hraw).
    pose proof (Unmarshal_Marshal_message _ _ Hok Hmsg). congruence.
Qed.

(** The partition a dequeue makes of the queue [before]: returned messages are in
    flight under [deadline], the others, if any, where they were and no more urgent. *)
Definition handed_over (ch : string) (deadline : Z) (msgs : list Message) (r r' : R) : Prop :=
  ∀ m raw s, message_ok m → Marshal m = Ok raw → zset r (queue_key ch) !! raw = Some s →
    (m ∈ msgs ∧ zset r' (queue_key ch) !! raw = None ∧
     zset r' (processing_key ch) !! raw = Some deadline) ∨
    ((m ∉ msgs) ∧ zset r' (queue_key ch) !! raw = Some s ∧
     zset r' (processing_key ch) !! raw = zset r (processing_key ch) !! raw ∧
     (∀ m' raw' s', m' ∈ msgs → message_ok m' → Marshal m' = Ok raw' →
       zset r (queue_key ch) !! raw' = Some s' → s' ≤ s) ∧
     (length msgs < size (zset r (queue_key ch)))%nat).

(** A message of the queue. *)
Definition queued (ch : string) (r : R) (m : Message) : Prop :=
  message_ok m ∧ ∃ raw s, Marshal m = Ok raw ∧ zset r (queue_key ch) !! raw = Some s.

Lemma DequeueBatch_partition c ch count (w : World R) :
  quiet env → canonical (zset (w_redis w) (queue_key ch)) →
  let deadline := f64 (UnixNano (e_now env (S (w_pos w)) + visibilityTimeout c)) in
  ∃ msgs w', run env (DequeueBatch c ch count) w = (Some (Ok msgs), w') ∧
    w_db w' = w_db w ∧ w_proc w' = w_proc w ∧ Forall (queued ch (w_redis w)) msgs ∧
    length msgs = Nat.min (Z.to_nat count) (size (zset (w_redis w) (queue_key ch))) ∧
    handed_over ch deadline msgs (w_redis w) (w_redis w').
Proof.
  intros Hq Hc deadline. set (before := zset (w_redis w) (queue_key ch)) in *.
  destruct (canonical_decodes before (Z.to_nat count) Hc) as (msgs & Hdec & Hcan).
  destruct (DequeueBatch_run c ch count w msgs Hq Hdec) as (w' & Hrun & Hdb & Hpr & Hz).
  fold before deadline in Hz. set (popped := take (Z.to_nat count) (sorted_entries before)) in *.
  assert (Hlen : length msgs = Nat.min (Z.to_nat count) (size before)).
  { rewrite <- (Forall2_length _ _ _ Hdec). unfold popped. by rewrite length_take, sorted_entries_length. }
  exists msgs, w'. split_and!; [done|done|done| |done|].
  { assert (Hin : ∀ e, e ∈ popped → before !! e.1 = Some e.2).
    { intros [raw s] He. apply sorted_entries_lookup. rewrite <- (take_drop (Z.to_nat count)). apply elem_of_app. by left. }
    clear -Hcan Hin. induction Hcan as [|e m l ms [Hm Hraw] _ IH]; constructor.
    - split; [done|]. exists e.1, e.2. split; [done|]. apply Hin. by left.
    - apply IH. intros e' He'. apply Hin. by right. }
  intros m raw s Hm Hraw Hs. fold before in Hs |- *.
  pose proof (Forall2_message_raw popped msgs m raw Hcan Hm Hraw) as Hin.
  rewrite !Hz. pose proof (processing_queue_ne ch ch) as Hne.
  destruct (decide (raw ∈ popped.*1)) as [Hp|Hp]; [left|right].
  - split; [tauto|]. split; [by rewrite decide_True|].
    rewrite decide_False by tauto. by rewrite decide_True.
  - split; [tauto|]. rewrite !decide_False by tauto. split_and!; [done|done| |].
    2:{ rewrite Hlen. destruct (Nat.le_gt_cases (size before) (Z.to_nat count)) as [Hge|]; [|lia].
        exfalso. apply Hp. unfold popped. rewrite take_ge by (by rewrite sorted_entries_length).
        apply list_elem_of_fmap. exists (raw, s). split; [done|]. by apply sorted_entries_lookup. }
    intros m' raw' s' Hm' Hok' Hraw' Hs'.
    apply (Forall2_message_raw popped msgs m' raw' Hcan Hok' Hraw') in Hm'.
    apply list_elem_of_fmap in Hm' as ([r' s2] & -> & Hin'). cbn [fst] in *.
    assert (before !! r' = Some s2) as Hs2.
    { apply sorted_entries_lookup. rewrite <- (take_drop (Z.to_nat count)). apply elem_of_app. by left. }
    pose proof (popped_smallest before (Z.to_nat count) r' s2 raw s Hin' Hs Hp) as Hle.
    unfold entry_le in Hle. cbn [fst snd] in Hle. assert (s' = s2) as -> by congruence. lia.
Qed.


(** The message of a notification without a schedule, as the scheduler and the API
    build it; it always has a JSON text. *)
Definition scheduled_raw (n : Notification) : string :=
  match Marshal (mkMessage (n_ID n) (n_Channel n) (n_Priority n) None) with Ok raw => raw | Err _ => "" end.

Lemma scheduled_Marshal n :
  Marshal (mkMessage (n_ID n) (n_Channel n) (n_Priority n) None) = Ok (scheduled_raw n).
Proof. reflexivity. Qed.

(** The producer and [Ack] as state transformers. *)
Lemma Enqueue_run m raw (w : World R) :
  quiet env → Marshal m = Ok raw →
  run env (Enqueue m) w =
    (Some (Ok tt), mkWorld (w_db w)
       (ZADD (queue_key (m_Channel m)) (calculateScore (e_now env (w_pos w)) m) raw (w_redis w))
       (S (S (w_pos w))) (w_proc w)).
Proof.
  intros Hq Hm. unfold Enqueue. rewrite Hm, run_trigger_bind, run_trigger.
  rewrite handle_redis_quiet by apply Hq. reflexivity.
Qed.

Lemma EnqueueDelayed_run m raw delay (w : World R) :
  quiet env → Marshal m = Ok raw →
  run env (EnqueueDelayed m delay) w =
    (Some (Ok tt), mkWorld (w_db w)
       (ZADD retryDelayedKey (f64 (UnixNano (e_now env (w_pos w) + delay))) raw (w_redis w))
       (S (S (w_pos w))) (w_proc w)).
Proof.
  intros Hq Hm. unfold EnqueueDelayed. rewrite Hm, run_trigger_bind, run_trigger.
  rewrite handle_redis_quiet by apply Hq. reflexivity.
Qed.

Lemma marshal_all_ok msgs :
  Forall message_ok msgs →
  ∃ raws, marshal_all msgs = Ok raws ∧ Forall2 (λ m raw, Marshal m = Ok raw) msgs raws.
Proof.
  induction 1 as [|m msgs Hm _ (raws & Hraws & Hall)]; [by exists []|].
  pose proof (Marshal_total m Hm) as Ht. cbn [marshal_all].
  destruct (Marshal m) as [raw|] eqn:E; [|done]. rewrite Hraws.
  exists (raw :: raws). split; [done|]. by constructor.
Qed.

Lemma Ack_run ch msgs raws (w : World R) :
  quiet env → msgs ≠ [] → marshal_all msgs = Ok raws →
  run env (Ack ch msgs) w =
    (Some (Ok tt), mkWorld (w_db w) (ZREM (processing_key ch) raws (w_redis w))
       (S (w_pos w)) (w_proc w)).
Proof.
  intros Hq Hne Hm. destruct msgs as [|m msgs]; [done|]. unfold Ack. rewrite Hm, run_trigger.
  rewrite handle_redis_quiet by apply Hq. reflexivity.
Qed.

Lemma Forall2_raw_elem msgs raws m raw :
  Forall2 (λ m raw, Marshal m = Ok raw) msgs raws → Forall message_ok msgs →
  message_ok m → Marshal m = Ok raw → (raw ∈ raws ↔ m ∈ msgs).
Proof.
  intros Hall Hok Hm Hraw. induction Hall as [|m' raw' msgs raws Hm' _ IH].
  - split; by intros []%elem_of_nil.
  - apply Forall_cons in Hok as [Hok' Hok]. rewrite !elem_of_cons, IH by done.
    assert (raw = raw' ↔ m = m') as ->; [|done]. split; [intros ->|intros ->; congruence].
    pose proof (Unmarshal_Marshal_message _ _ Hm Hraw).
    pose proof (Unmarshal_Marshal_message _ _ Hok' Hm'). congruence.
Qed.

(** [Ack] removes exactly the acknowledged messages from the channel's
    processing set and touches no other sorted set. *)
Theorem Ack_removes ch msgs (w : World R) :
  quiet env → Forall message_ok msgs →
  ∃ w', run env (Ack ch msgs) w = (Some (Ok tt), w') ∧ w_db w' = w_db w ∧
    (∀ m raw, message_ok m → Marshal m = Ok raw →
      zset (w_redis w') (processing_key ch) !! raw =
        if decide (m ∈ msgs) then None else zset (w_redis w) (processing_key ch) !! raw) ∧
    (∀ k, k ≠ processing_key ch → zset (w_redis w') k = zset (w_redis w) k).
Proof.
  intros Hq Hok. destruct (decide (msgs = [])) as [->|Hne].
  { exists w. split_and!; [done|done| |done]. intros m raw _ _.
    rewrite decide_False; [done|by intros []%elem_of_nil]. }
  destruct (marshal_all_ok msgs Hok) as (raws & Hraws & Hall).
  eexists. split; [by apply Ack_run|]. split_and!; [done| |].
  - intros m raw Hm Hraw. cbn [w_redis]. rewrite zset_ZREM.
    pose proof (Forall2_raw_elem msgs raws m raw Hall Hok Hm Hraw).
    repeat case_decide; tauto.
  - intros k Hk. cbn [w_redis]. apply map_eq. intros x. rewrite zset_ZREM, decide_False; [done|].
    intros [Heq _]. by apply Hk.
Qed.

(** A dequeue can destroy messages.  When one of the popped members does not
    decode, [DequeueBatch] returns the error and every message it popped with it is
    in neither the queue nor the processing set any more. *)
Theorem DequeueBatch_drops_batch c ch count (w : World R) bad s :
  quiet env →
  let popped := take (Z.to_nat count) (sorted_entries (zset (w_redis w) (queue_key ch))) in
  (bad, s) ∈ popped → is_ok (Unmarshal bad) = false →
  ∃ err w', run env (DequeueBatch c ch count) w = (Some (Err err), w') ∧
    ∀ raw, raw ∈ popped.*1 →
      zset (w_redis w') (queue_key ch) !! raw = None ∧
      zset (w_redis w') (processing_key ch) !! raw = zset (w_redis w) (processing_key ch) !! raw.
Proof.
  intros Hq popped Hin Hbad. unfold DequeueBatch.
  rewrite run_trigger_bind, handle_redis_quiet by apply Hq.
  cbn [fst snd exec_redis]. rewrite ZPOPMIN_popped. fold (queue_key ch) popped.
  destruct popped as [|e l] eqn:Ep; [by apply elem_of_nil in Hin|]. rewrite <- Ep in *.
  rewrite run_trigger_bind. cbn [handle fst snd tick set_redis w_pos w_db w_redis w_proc].
  set (dl := f64 _). pose proof (decode_results_err (processing_key ch) dl popped bad s Hin Hbad) as Herr.
  fold (processing_key ch). destruct (decode_results _ _ _) as [[??]|err]; [done|].
  exists err. eexists. split; [reflexivity|].
  intros raw Hraw. cbn [w_redis tick set_redis snd fst]. rewrite !zset_ZPOPMIN, ZPOPMIN_popped. fold (queue_key ch) popped.
  split; [by rewrite decide_True|]. rewrite decide_False; [done|].
  intros [Hk _]. by apply queue_processing_ne in Hk.
Qed.
End store.

(** ** Witnesses: one channel of the reference Redis *)

#[local] Existing Instances RefTemplate RefPg RefUUID RefUUID_laws RefLua.

Definition demo_message (id : uuid) (pr : Priority) : Message := mkMessage id ChannelSMS pr None.

(** Three messages enqueued one after the other. *)
Definition demo_queue : World RefRedis :=
  (run demo_env (_ ← Enqueue (demo_message 1 PriorityNormal);
                 _ ← Enqueue (demo_message 2 PriorityLow);
                 _ ← Enqueue (demo_message 3 PriorityHigh); mret tt) demo_world).2.

Lemma demo_queue_canonical : canonical (zset (w_redis demo_queue) (queue_key ChannelSMS)).
Proof.
  apply (canonical_check [demo_message 1 PriorityNormal; demo_message 2 PriorityLow;
    demo_message 3 PriorityHigh]); [|vm_compute; reflexivity].
  repeat constructor.
Qed.


Lemma Ack_removes_witness :
  ∃ w', run demo_env (Ack ChannelSMS [demo_message 3 PriorityHigh]) demo_queue = (Some (Ok tt), w').
Proof.
  destruct (Ack_removes demo_env ChannelSMS [demo_message 3 PriorityHigh] demo_queue demo_quiet)
    as (w' & Hrun & _).
  - constructor; [|constructor]. split; done.
  - exists w'. exact Hrun.
Defined.

(** A foreign member among the messages. *)
Definition demo_poisoned : World RefRedis :=
  set_redis (ZADD (queue_key ChannelSMS) 0 "oops" (w_redis demo_queue)) demo_queue.

Lemma DequeueBatch_drops_batch_witness :
  ∃ err w', run demo_env (DequeueBatch (NewConsumer (30 * Second)) ChannelSMS 10) demo_poisoned
    = (Some (Err err), w').
Proof.
  destruct (DequeueBatch_drops_batch demo_env (NewConsumer (30 * Second)) ChannelSMS 10
    demo_poisoned "oops" 0 demo_quiet) as (err & w' & Hrun & _).
  - apply (bool_decide_unpack _). vm_compute. exact I.
  - reflexivity.
  - exists err, w'. exact Hrun.
Defined.
