(* ===== verification/Rows.v ===== *)
(** * Rows as the driver delivers them (scanNotifications of
      internal/repository/postgres/notification.go)

    A SELECT's row is scanned into the fields of a [Notification], but for the
    template variables: their jsonb column is delivered as text and decoded by
    [json.Unmarshal].  The repository methods of Repository.v return a table's rows as
    they are stored; here is why they may: what was stored is what is read back. *)
From S2P Require Import Prelude GoLib GoJson Domain Redis Postgres TemplateEngine Effects Queue.
From Stdlib Require Import ZArith Lia.
From stdpp Require Import base numbers list strings gmap fin_maps.

Open Scope Z_scope.

(** Into a [map[string]interface{}]: members are added to the map there is. *)
Definition decode_map (v : json) (old : json) : result error json :=
  match v, old with
  | JNull, _ => Ok JNull
  | JObj fs, JObj old => Ok (JObj (map_add old ((λ '(k, v), (k, go_value v)) <$> fs)))
  | JObj fs, _ => Ok (go_value (JObj fs))
  | _, _ => Err (type_error "map[string]interface {}")
  end.

Lemma decode_map_is_map v old m : decode_map v old = Ok m → is_map m = true.
Proof. destruct v; try done; [by intros [= <-]|]. by destruct old; intros [= <-]. Qed.

(** [varsJSON] into [n.TemplateVars]; NULL leaves it nil. *)
Definition scan_vars (varsJSON : option string) : result error json :=
  match varsJSON with
  | None => Ok JNull
  | Some text =>
      match json_Unmarshal text with
      | None => Err (EOther "invalid JSON")
      | Some v => decode_map v JNull
      end
  end.

(** A row: the columns that are scanned straight into their fields, and the other one. *)
Record Columns := mkColumns { col_fields : Notification; col_template_vars : option string }.

Definition set_TemplateVars (v : json) (n : Notification) : Notification :=
  {| n_ID := n_ID n; n_BatchID := n_BatchID n; n_IdempotencyKey := n_IdempotencyKey n;
     n_Recipient := n_Recipient n; n_Channel := n_Channel n; n_Content := n_Content n;
     n_Priority := n_Priority n; n_Status := n_Status n; n_TemplateID := n_TemplateID n;
     n_TemplateVars := v; n_ScheduledAt := n_ScheduledAt n;
     n_ProviderMsgID := n_ProviderMsgID n; n_Attempts := n_Attempts n;
     n_MaxAttempts := n_MaxAttempts n; n_LastError := n_LastError n; n_SentAt := n_SentAt n;
     n_CreatedAt := n_CreatedAt n; n_UpdatedAt := n_UpdatedAt n |}.

(** The loop over [rows.Next()]: each row is what [rows.Scan] gives for it, in the end
    comes [rows.Err()]. *)
Fixpoint scanNotifications (rows : list (result error Columns)) (rows_Err : option error)
    : result error (list Notification) :=
  match rows with
  | [] => match rows_Err with None => Ok [] | Some err => Err err end
  | Err err :: _ => Err (EWrap "scan notification" err)
  | Ok c :: rows' =>
      match scan_vars (col_template_vars c) with
      | Err err => Err (EWrap "unmarshal template vars" err)
      | Ok v =>
          ns ← scanNotifications rows' rows_Err;
          Ok (set_TemplateVars v (col_fields c) :: ns)
      end
  end.

Section rows.
Context `{PgLaws}.

(** What the driver delivers for a stored row. *)
Definition columns_of (n : Notification) : Columns :=
  mkColumns (set_TemplateVars JNull n) (Some (pg_jsonb_out (n_TemplateVars n))).

(** Variables that are read back as they are stored. *)
Definition readable (v : json) : Prop := scan_vars (Some (pg_jsonb_out v)) = Ok v.

Lemma stored_readable j v : pg_jsonb j = Some v → is_map j = true → readable v.
Proof.
  intros Hj Hm. pose proof (pg_jsonb_kind j v Hj Hm) as Hv.
  destruct (pg_jsonb_text j v Hj) as (v' & Hu & Hgo). unfold readable, scan_vars. rewrite Hu.
  destruct v'; cbn in Hgo; subst v; try done.
Qed.

Lemma scan_reads_back ns :
  Forall (λ n, readable (n_TemplateVars n)) ns →
  scanNotifications (Ok ∘ columns_of <$> ns) None = Ok ns.
Proof.
  induction 1 as [|n ns Hn _ IH]; [done|]. cbn [fmap list_fmap compose scanNotifications columns_of col_template_vars].
  rewrite Hn, IH. by destruct n.
Qed.
End rows.

(** A row whose variables are no object discards the whole result. *)
Example scan_error n :
  scanNotifications [Ok (mkColumns n (Some "null")); Ok (mkColumns n (Some "[]"))] None =
  Err (EWrap "unmarshal template vars" (type_error "map[string]interface {}")).
Proof. reflexivity. Qed.
