(* ===== verification/Provider.v ===== *)
(** * Sending through the provider (internal/provider/circuitbreaker.go: Send and
      doSend; internal/provider/webhook/client.go)

    [Client_Send] posts the payload to the webhook (the effect [EHttp], whose
    answer is a status code or a transport error); a base URL that does not parse
    would fail every call before it is made and is not modelled.
    [CircuitBreaker_Send] guards any provider with the breaker's critical sections;
    its [timeout] is the breaker's, set once by [NewCircuitBreaker].

    What a user of a provider may rely on is the class [ProviderSpec], of which the
    client is an instance and, over any instance, the breaker. *)
From S2P Require Import Prelude GoLib GoTime Domain Uuid Redis Postgres RateLimiter CircuitBreaker.
From S2P Require Import TemplateEngine Effects Reference.
From Stdlib Require Import ZArith Lia.
From stdpp Require Import base numbers list strings gmap.

Open Scope Z_scope.

(** The interface (internal/provider/provider.go). *)
Record Provider `{TextTemplate} := mkProvider { Send : Notification → prog (result error string) }.
Arguments mkProvider {_} _.
Arguments Send {_} _ _.

Section provider.
Context `{TextTemplate} `{UUIDLib}.

Definition webhook_payload (now : Z) (n : Notification) : webhookPayload :=
  mkPayload (uuid_String (n_ID n)) (n_Recipient n) (n_Channel n) (n_Content n) (Format_RFC3339 now).

(** Marshalling five strings cannot fail. *)
Definition Client_Send (n : Notification) : prog (result error string) :=
  now ← trigger ENow;
  resp ← trigger (EHttp (webhook_payload now n));
  match resp with
  | Err err => mret (Err (EWrap "send request" err))
  | Ok code =>
      if 400 <=? code then mret (Err (EOther ("provider returned status " +:+ fmt_d code)))
      else providerMsgID ← trigger EUuid; mret (Ok (uuid_String providerMsgID))
  end.

Definition webhook_Client : Provider := mkProvider Client_Send.

(** [provider] is the breaker's field: the provider it guards. *)
Definition doSend (provider : Provider) (n : Notification) : prog (result error string) :=
  r ← Send provider n;
  match r with
  | Err err => _ ← trigger (ECb CbRecordFailure); mret (Err err)
  | Ok msgID => _ ← trigger (ECb CbRecordSuccess); mret (Ok msgID)
  end.

Definition CircuitBreaker_Send (provider : Provider) (timeout : Z) (n : Notification)
    : prog (result error string) :=
  st ← trigger (ECb CbRead);
  match fst st with
  | StateOpen =>
      now ← trigger ENow;
      if time_Since now (snd st) <=? timeout then mret (Err ErrCircuitOpen)
      else _ ← trigger (ECb CbTryHalfOpen); doSend provider n
  | _ => doSend provider n
  end.

Definition breaker_Provider (provider : Provider) (timeout : Z) : Provider :=
  mkProvider (CircuitBreaker_Send provider timeout).
End provider.

(** What the users of a provider rely on, in a process whose breaker has [timeout]:
    [Send] returns, a success carries a UUID's text, and nothing but the breaker's
    state has changed. *)
Class ProviderSpec {R : Type} `{RedisServer R} `{LuaNumber} `{PgEngine} `{TextTemplate} `{UUIDLib}
    (env : Env) (timeout : Z) (provider : Provider) : Prop := {
  Send_frame n (w : World R) : cb_timeout (p_cb (w_proc w)) = timeout →
    ∃ r w', run env (Send provider n) w = (Some r, w') ∧
      w_db w' = w_db w ∧ w_redis w' = w_redis w ∧
      p_metrics (w_proc w') = p_metrics (w_proc w) ∧ p_hub (w_proc w') = p_hub (w_proc w) ∧
      cb_timeout (p_cb (w_proc w')) = timeout ∧
      (∀ pid, r = Ok pid → ∃ u, pid = uuid_String u);
}.

(** ** What a send does *)

Section spec.
Context {R : Type} `{RedisLaws R} `{LuaNumber} `{PgEngine} `{TextTemplate} `{UUIDLib}.
Variable env : Env.

(** The provider's verdict at position [i]. *)
Definition webhook_result (i : nat) (n : Notification) : result error string :=
  match e_http env (S i) (webhook_payload (e_now env i) n) with
  | Err err => Err (EWrap "send request" err)
  | Ok code =>
      if 400 <=? code then Err (EOther ("provider returned status " +:+ fmt_d code))
      else Ok (uuid_String (e_uuid env (S (S i))))
  end.

(** Only the position advances: by two effects, three on success. *)
Definition advance (k : nat) (w : World R) : World R :=
  mkWorld (w_db w) (w_redis w) (k + w_pos w) (w_proc w).

Lemma Client_Send_run n (w : World R) :
  run env (Client_Send n) w =
    (Some (webhook_result (w_pos w) n),
     advance (if is_ok (webhook_result (w_pos w) n) then 3 else 2) w).
Proof.
  unfold Client_Send, webhook_result. rewrite !run_trigger_bind.
  cbn [handle fst snd tick w_pos w_db w_redis w_proc].
  destruct (e_http env _ _) as [code|err]; [|reflexivity].
  destruct (400 <=? code); reflexivity.
Qed.

Lemma doSend_run n (w : World R) :
  let r := webhook_result (w_pos w) n in
  let i := ((if is_ok r then 3 else 2) + w_pos w)%nat in
  run env (doSend webhook_Client n) w =
    (Some r, set_cb (if is_ok r then recordSuccess (p_cb (w_proc w))
                     else recordFailure (e_now env i) (p_cb (w_proc w)))
               (advance (if is_ok r then 4 else 3) w)).
Proof.
  intros r i. unfold doSend. cbn [Send webhook_Client]. rewrite run_bind, Client_Send_run. fold r. unfold i.
  destruct r as [msgID|err]; reflexivity.
Qed.

(** Does [Send] refuse without calling the provider? *)
Definition cb_rejects (now : Z) (cb : CircuitBreaker) : bool :=
  bool_decide (cb_state cb = StateOpen) && (time_Since now (cb_lastFailure cb) <=? cb_timeout cb).

(** The breaker a call goes through with: an open one whose timeout elapsed is
    half-open. *)
Definition cb_probing (cb : CircuitBreaker) : CircuitBreaker := try_half_open cb.

(** The position of the provider call. *)
Definition send_pos (cb : CircuitBreaker) (i : nat) : nat :=
  if decide (cb_state cb = StateOpen) then 3 + i else 1 + i.

Lemma Send_run n (w : World R) :
  let cb := p_cb (w_proc w) in
  run env (CircuitBreaker_Send webhook_Client (cb_timeout cb) n) w =
    if cb_rejects (e_now env (S (w_pos w))) cb
    then (Some (Err ErrCircuitOpen), advance 2 w)
    else
      let j := send_pos cb (w_pos w) in
      let r := webhook_result j n in
      (Some r, set_cb (if is_ok r then recordSuccess (cb_probing cb)
                       else recordFailure (e_now env (2 + j)) (cb_probing cb))
                 (advance ((if is_ok r then 4 else 3) + (j - w_pos w)) w)).
Proof.
  intros cb. unfold CircuitBreaker_Send. rewrite run_trigger_bind.
  unfold send_pos, cb_rejects, cb_probing, try_half_open.
  destruct w as [db rd i [c hub met eng]]. cbn in cb. subst cb.
  cbn [handle exec_cb fst snd tick set_cb set_proc w_pos w_db w_redis w_proc p_cb p_hub p_metrics p_engine].
  destruct (cb_state c) eqn:Es.
  - rewrite bool_decide_false, !decide_False by done. cbn [andb].
    rewrite doSend_run. cbn [tick set_cb set_proc w_pos w_proc w_db w_redis p_cb p_hub p_metrics p_engine].
    replace (1 + i - i)%nat with 1%nat by lia. change (1 + i)%nat with (S i).
    destruct (webhook_result (S i) n); reflexivity.
  - rewrite bool_decide_true, !decide_True by done. cbn [andb].
    rewrite run_trigger_bind. cbn [handle fst snd tick w_pos w_db w_redis w_proc].
    destruct (time_Since _ _ <=? _); [reflexivity|].
    rewrite run_trigger_bind.
    cbn [handle exec_cb fst snd tick set_cb set_proc w_pos w_db w_redis w_proc p_cb p_hub p_metrics p_engine].
    rewrite doSend_run. cbn [tick set_cb set_proc w_pos w_proc w_db w_redis p_cb p_hub p_metrics p_engine].
    replace (3 + i - i)%nat with 3%nat by lia. change (3 + i)%nat with (S (S (S i))).
    unfold try_half_open. rewrite decide_True by done.
    destruct (webhook_result (S (S (S i))) n); reflexivity.
  - rewrite bool_decide_false, !decide_False by done. cbn [andb].
    rewrite doSend_run. cbn [tick set_cb set_proc w_pos w_proc w_db w_redis p_cb p_hub p_metrics p_engine].
    replace (1 + i - i)%nat with 1%nat by lia. change (1 + i)%nat with (S i).
    destruct (webhook_result (S i) n); reflexivity.
Qed.


(** ** The interface is met *)

#[export] Instance webhook_Client_spec timeout : ProviderSpec env timeout webhook_Client.
Proof.
  split. intros n w Ht. cbn [Send webhook_Client]. rewrite Client_Send_run.
  eexists _, _. split; [reflexivity|]. split_and!; try done.
  intros pid. unfold webhook_result. destruct (e_http env _ _); [|done].
  case_bool; [done|]. intros [= <-]. by eexists.
Qed.

(** A breaker meets it whenever the provider it guards does. *)
#[export] Instance breaker_Provider_spec timeout provider :
  ProviderSpec env timeout provider → ProviderSpec env timeout (breaker_Provider provider timeout).
Proof.
  intros Hspec.
  assert (Hdo : ∀ n w, cb_timeout (p_cb (w_proc w)) = timeout →
    ∃ r w', run env (doSend provider n) w = (Some r, w') ∧
      w_db w' = w_db w ∧ w_redis w' = w_redis w ∧
      p_metrics (w_proc w') = p_metrics (w_proc w) ∧ p_hub (w_proc w') = p_hub (w_proc w) ∧
      cb_timeout (p_cb (w_proc w')) = timeout ∧ (∀ pid, r = Ok pid → ∃ u, pid = uuid_String u)).
  { intros n w Ht. destruct (Send_frame n w Ht) as (r & w' & Hrun & ? & ? & ? & ? & ? & ?).
    unfold doSend. rewrite run_bind, Hrun.
    destruct r as [pid|err]; (eexists _, _; split; [reflexivity|]); by split_and!. }
  split. intros n [db rd i [c hub met eng]] Ht. cbn [Send breaker_Provider].
  unfold CircuitBreaker_Send. rewrite run_trigger_bind. cbn [handle exec_cb fst snd].
  destruct (cb_state _); [exact (Hdo n (mkWorld db rd (S i) (mkProc c hub met eng)) Ht)| |
    exact (Hdo n (mkWorld db rd (S i) (mkProc c hub met eng)) Ht)].
  rewrite run_trigger_bind. cbn [handle fst snd].
  destruct (time_Since _ _ <=? _); [eexists _, _; split; [reflexivity|]; by split_and!|].
  rewrite run_trigger_bind. cbn [handle exec_cb fst snd].
  apply (Hdo n (mkWorld db rd (S (S (S i))) (mkProc (try_half_open c) hub met eng))).
  cbn in *. unfold try_half_open. by case_decide.
Qed.
End spec.

#[local] Existing Instances RefTemplate RefPg RefUUID RefLua.

