(* ===== verification/Repository.v ===== *)
(** * Repositories (internal/repository/postgres/notification.go, template.go;
      internal/retry/deadletter.go)

    Each method runs one or two statements of [Postgres.sql] and maps the
    database's answer to the program's errors.  [NotificationRepo_List] builds its
    WHERE clause with numbered placeholders as the code does. *)
From S2P Require Import Prelude GoLib Domain Redis Postgres RateLimiter TemplateEngine Effects Reference.
From Stdlib Require Import ZArith Lia Sorted.
From stdpp Require Import base numbers list strings gmap sorting fin_maps.

Open Scope Z_scope.

(** [fmt.Errorf("<prefix>: %w", err)] around a failed call. *)
Definition wrap_err {A} (prefix : string) (r : result error A) : result error A :=
  match r with Ok a => Ok a | Err err => Err (EWrap prefix err) end.

Section repository.
Context `{TextTemplate}.

(** ** Notifications *)

Definition NotificationRepo_Create (n : Notification) : prog (result error unit) :=
  r ← trigger (ESql (insertNotification n));
  mret match r with
       | Ok _ => Ok tt
       | Err err => if Is_UniqueViolation err then Err ErrDuplicateKey
                    else Err (EWrap "insert notification" err)
       end.

Definition NotificationRepo_CreateBatch (ns : list Notification) : prog (result error unit) :=
  r ← trigger (ESql (insertNotificationBatch ns));
  mret match r with
       | Ok _ => Ok tt
       | Err err => if Is_UniqueViolation err then Err ErrDuplicateKey
                    else Err (EWrap "batch insert notification" err)
       end.

Definition row_or_not_found {A} (prefix : string) (r : result error (option A)) : result error A :=
  match r with
  | Ok (Some a) => Ok a
  | Ok None => Err ErrNotFound
  | Err err => Err (EWrap prefix err)
  end.

Definition NotificationRepo_GetByID (id : uuid) : prog (result error Notification) :=
  r ← trigger (ESql (selectNotificationByID id)); mret (row_or_not_found "get notification" r).

Definition NotificationRepo_GetByBatchID (batchID : uuid) : prog (result error (list Notification)) :=
  r ← trigger (ESql (selectNotificationsByBatchID batchID));
  mret (wrap_err "query batch notifications" r).

Definition NotificationRepo_UpdateStatus (id : uuid) (status : Status) : prog (result error unit) :=
  trigger (ESql (updateNotificationStatus id status)).

Definition NotificationRepo_UpdateStatusWithError (id : uuid) (status : Status) (lastError : string)
    (attempts : Z) : prog (result error unit) :=
  trigger (ESql (updateNotificationStatusWithError id status lastError attempts)).

Definition NotificationRepo_UpdateSent (id : uuid) (providerMsgID : string) : prog (result error unit) :=
  trigger (ESql (updateNotificationSent id providerMsgID)).

(** [if v != nil { conditions = append(..., "... = $<argIdx>"); args = append(...); argIdx++ }] *)
Definition push_cond {A} (v : option A) (cond : nat → Cond) (arg : A → sqlarg)
    (st : list Cond * list sqlarg * nat) : list Cond * list sqlarg * nat :=
  match v with
  | None => st
  | Some a => let '(conditions, args, argIdx) := st in
              (conditions ++ [cond argIdx], args ++ [arg a], S argIdx)
  end.

(** The conditions the count and the data query share. *)
Definition base_conditions (f : NotificationFilter) : list Cond * list sqlarg * nat :=
  push_cond (f_Priority f) CondPriority VText
    (push_cond (f_Status f) CondStatus VText
      (push_cond (f_Channel f) CondChannel VText ([], [], 1%nat))).

Definition list_conditions (f : NotificationFilter) : list Cond * list sqlarg * nat :=
  push_cond (f_Cursor f) CondCreatedBefore VTime (base_conditions f).

Definition NotificationRepo_List (f : NotificationFilter)
    : prog (result error (list Notification * Z)) :=
  let '(conditions, args, argIdx) := list_conditions f in
  total ←
    match conditions with
    | [] =>
        r ← trigger (ESql countEstimate);
        match r with
        | Ok t => if t =? 0 then r2 ← trigger (ESql (countWhere [] [])); mret (wrap_err "count notifications" r2)
                  else mret (Ok t)
        | Err _ => r2 ← trigger (ESql (countWhere [] [])); mret (wrap_err "count notifications" r2)
        end
    | _ =>
        let '(countConditions, countArgs, _) := base_conditions f in
        r ← trigger (ESql (countWhere countConditions countArgs));
        mret (wrap_err "count notifications" r)
    end;
  match total with
  | Err err => mret (Err err)
  | Ok total =>
      let limit := if f_Limit f <=? 0 then 20 else f_Limit f in
      rows ←
        match f_Cursor f with
        | Some _ => trigger (ESql (listWhere conditions argIdx None (args ++ [VInt limit])))
        | None => trigger (ESql (listWhere conditions argIdx (Some (S argIdx))
                                   (args ++ [VInt limit; VInt (f_Offset f)])))
        end;
      mret match rows with
           | Ok rows => Ok (rows, total)
           | Err err => Err (EWrap "list notifications" err)
           end
  end.

Definition NotificationRepo_GetPendingScheduled : prog (result error (list Notification)) :=
  r ← trigger (ESql (selectPendingScheduled 500)); mret (wrap_err "query pending scheduled" r).

Definition NotificationRepo_GetPendingForRecovery : prog (result error (list Notification)) :=
  r ← trigger (ESql (selectPendingForRecovery 500)); mret (wrap_err "query pending for recovery" r).

Definition NotificationRepo_GetAndMarkProcessing (id : uuid) : prog (result error Notification) :=
  r ← trigger (ESql (getAndMarkProcessing id)); mret (row_or_not_found "get and mark processing" r).

Definition NotificationRepo_GetAndMarkProcessingBatch (ids : list uuid)
    : prog (result error (list Notification)) :=
  r ← trigger (ESql (getAndMarkProcessingBatch ids));
  mret (wrap_err "get and mark processing batch" r).

Definition NotificationRepo_UpdateBatchStatus (ids : list uuid) (status : Status)
    : prog (result error unit) :=
  trigger (ESql (updateBatchStatus ids status)).

(** [providerMsgIDs[i]] panics when the second slice is shorter. *)
Definition NotificationRepo_UpdateBatchSent (ids : list uuid) (providerMsgIDs : list string)
    : prog (result error unit) :=
  if (length providerMsgIDs <? length ids)%nat then Panic
  else
    r ← trigger (ESql (updateNotificationSentBatch (zip ids providerMsgIDs)));
    mret (wrap_err "batch update sent" r).

(** ** Templates *)

Definition TemplateRepo_Create (t : Template) : prog (result error unit) :=
  r ← trigger (ESql (insertTemplate t)); mret (wrap_err "insert template" r).

Definition TemplateRepo_GetByID (id : uuid) : prog (result error Template) :=
  r ← trigger (ESql (selectTemplateByID id)); mret (row_or_not_found "get template" r).

Definition TemplateRepo_GetByName (name : string) : prog (result error Template) :=
  r ← trigger (ESql (selectTemplateByName name)); mret (row_or_not_found "get template by name" r).

Definition TemplateRepo_Update (t : Template) : prog (result error unit) :=
  r ← trigger (ESql (updateTemplate (t_ID t) (t_Name t) (t_Channel t) (t_Content t) (t_Variables t)));
  mret (wrap_err "update template" r).

Definition TemplateRepo_Delete (id : uuid) : prog (result error unit) :=
  trigger (ESql (deleteTemplate id)).

Definition TemplateRepo_List : prog (result error (list Template)) :=
  r ← trigger (ESql selectAllTemplates); mret (wrap_err "list templates" r).

(** ** Dead letters *)

Definition DeadLetterHandler_Handle (notificationID : uuid) (lastError : string) (attempts : Z)
    : prog (result error unit) :=
  id ← trigger EUuid;
  now ← trigger ENow;
  r ← trigger (ESql (insertDeadLetter (mkDeadLetter id notificationID lastError attempts now)));
  mret (wrap_err "insert dead letter" r).
End repository.

(** ** Lemmas *)

Section store.
Context {R : Type} `{RedisServer R} `{LuaNumber} `{PgLaws} `{TextTemplate}.
Variable env : Env.

(** A statement at a world. *)
Definition sql_at {A} (q : sql A) (w : World R) : result error A * DB :=
  exec_sql q (e_now env (w_pos w)) (w_db w).

Definition after_sql {A} (q : sql A) (w : World R) : World R :=
  mkWorld (sql_at q w).2 (w_redis w) (S (w_pos w)) (w_proc w).

Lemma run_sql {A B} (q : sql A) (f : result error A → B) (w : World R) :
  quiet env →
  run env (r ← trigger (ESql q); mret (f r)) w = (Some (f (sql_at q w).1), after_sql q w).
Proof. intros Hq. rewrite run_trigger_bind, handle_sql_quiet by apply Hq. reflexivity. Qed.

Lemma run_sql_1 {A} (q : sql A) (w : World R) :
  quiet env → run env (trigger (ESql q)) w = (Some (sql_at q w).1, after_sql q w).
Proof. intros Hq. rewrite run_trigger, handle_sql_quiet by apply Hq. reflexivity. Qed.

Lemma GetByID_run id (w : World R) :
  quiet env →
  run env (NotificationRepo_GetByID id) w =
    (Some match notifications (w_db w) !! id with Some n => Ok n | None => Err ErrNotFound end,
     mkWorld (w_db w) (w_redis w) (S (w_pos w)) (w_proc w)).
Proof.
  intros Hq. unfold NotificationRepo_GetByID. rewrite run_sql by done.
  unfold after_sql, sql_at. cbn. by destruct (notifications _ !! id).
Qed.

(** [UPDATE notifications SET ... WHERE id = $1] on the tables. *)
Definition update_row (id : uuid) (f : Notification → Notification) (db : DB) : DB :=
  set_notifications (update_ids [id] (λ _, true) f (notifications db)) db.

Lemma lookup_update_row id f db k :
  notifications (update_row id f db) !! k =
    (λ n, if decide (k = id) then f n else n) <$> notifications db !! k.
Proof.
  unfold update_row. cbn. rewrite lookup_update_ids. destruct (notifications db !! k); [|done]. cbn.
  destruct (decide (k = id)) as [->|Hk].
  - rewrite bool_decide_true; [done|]. by apply list_elem_of_singleton.
  - rewrite bool_decide_false; [done|]. by rewrite list_elem_of_singleton.
Qed.

Lemma UpdateStatus_run id st (w : World R) :
  quiet env → Status_Check st = true →
  run env (NotificationRepo_UpdateStatus id st) w =
    (Some (Ok tt), mkWorld (update_row id (touch_status (e_now env (w_pos w)) st) (w_db w))
       (w_redis w) (S (w_pos w)) (w_proc w)).
Proof.
  intros Hq Hst. unfold NotificationRepo_UpdateStatus. rewrite run_sql_1 by done.
  unfold after_sql, sql_at. cbn [exec_sql]. unfold update_status_where. by rewrite Hst.
Qed.

(** [coerce_notification] fails with errors of its own only. *)
Lemma coerce_not_unique n err : coerce_notification n = Err err → Is_UniqueViolation err = false.
Proof.
  unfold coerce_notification, admit_opt, admit_value.
  repeat first [case_match | progress simpl]; intros; simplify_eq; try done.
Qed.

(** The row keeps what the client sent, timestamps at the server's resolution. *)
Definition key_conflict (row : Notification) (db : DB) : Prop :=
  is_Some (notifications db !! n_ID row) ∨
  ∃ key k m, n_IdempotencyKey row = Some key ∧ notifications db !! k = Some m ∧
             n_IdempotencyKey m = Some key.

Lemma key_conflict_spec row db :
  bool_decide (is_Some (notifications db !! n_ID row)) ||
    key_taken (n_IdempotencyKey row) (notifications db) = true ↔ key_conflict row db.
Proof.
  unfold key_conflict. rewrite orb_true_iff, bool_decide_eq_true.
  apply or_iff_compat_l. unfold key_taken. destruct (n_IdempotencyKey row) as [key|].
  - rewrite bool_decide_eq_true, list_elem_of_fmap. split.
    + intros (m & Hm & Hin). apply list_elem_of_fmap in Hin as ([k m'] & -> & Hin).
      exists key, k, m'. split_and!; [done|by apply elem_of_map_to_list|done].
    + intros (key' & k & m & [= <-] & Hk & Hm). exists m. split; [done|].
      apply list_elem_of_fmap. exists (k, m). split; [done|]. by apply elem_of_map_to_list.
  - split; [done|]. intros (? & ? & ? & ? & _). done.
Qed.

(** Creating a notification.  Either it is stored: the row is what the client
    sent, coerced to the column types, under a fresh id and an idempotency key no
    other row has, nothing else changes, and reading it back gives that row; or
    nothing is stored, and the error is "duplicate idempotency key" exactly when
    the id or the key is taken. *)
Theorem create_stores_or_rejects n (w : World R) :
  quiet env →
  ∃ r w', run env (NotificationRepo_Create n) w = (Some r, w') ∧ w_redis w' = w_redis w ∧
    match r with
    | Ok _ => ∃ row, coerce_notification n = Ok row ∧ ¬ key_conflict row (w_db w) ∧
        w_db w' = set_notifications (<[n_ID n := row]> (notifications (w_db w))) (w_db w) ∧
        (run env (NotificationRepo_GetByID (n_ID n)) w').1 = Some (Ok row)
    | Err err => w_db w' = w_db w ∧
        (err = ErrDuplicateKey ↔
           ∃ row, coerce_notification n = Ok row ∧ key_conflict row (w_db w))
    end.
Proof.
  intros Hq. unfold NotificationRepo_Create. rewrite run_sql by done.
  eexists _, _. split; [reflexivity|]. split; [done|].
  unfold after_sql, sql_at. cbn [exec_sql w_db]. unfold insert_notification.
  destruct (coerce_notification n) as [row|err] eqn:Hc; cbn [mbind result_bind write_result fst snd].
  2: { rewrite (coerce_not_unique n err Hc). split; [done|]. split; [done|]. by intros (? & ? & _). }
  destruct (coerce_notification_ok n row Hc) as (_ & _ & Hid).
  destruct (_ || _) eqn:Hk; cbn [write_result fst snd].
  { split; [done|]. split; [|done]. intros _. exists row. split; [done|]. by apply key_conflict_spec. }
  assert (Hnk : ¬ key_conflict row (w_db w)) by (rewrite <- key_conflict_spec; by rewrite Hk).
  destruct (fk_ok _ _); cbn [write_result fst snd].
  - exists row. split_and!; [done|done|by rewrite Hid|].
    rewrite GetByID_run by done. cbn. by rewrite Hid, lookup_insert_eq.
  - split; [done|]. split; [done|]. intros (row' & Hc' & Hk'). simplify_eq. done.
Qed.

Lemma insert_notifications_rows ns db db' :
  insert_notifications ns db = Ok db' →
  ∃ rows, Forall2 (λ n row, coerce_notification n = Ok row ∧ n_ID row = n_ID n) ns rows ∧
    templates db' = templates db ∧ dead_letters db' = dead_letters db ∧
    (∀ row, row ∈ rows → notifications db' !! n_ID row = Some row) ∧
    (∀ k n, notifications db !! k = Some n → notifications db' !! k = Some n) ∧
    (∀ k, k ∉ n_ID <$> ns → notifications db' !! k = notifications db !! k).
Proof.
  revert db. induction ns as [|n ns IH]; intros db Hi; cbn [insert_notifications] in Hi.
  { injection Hi as <-. exists []. split_and!; try done. by intros row []%elem_of_nil. }
  bind_ok Hi. rename v into db1. destruct (IH db1 Hi) as (rows & Hall & Ht & Hd & Hin & Hold & Hout).
  unfold insert_notification in E. bind_ok E. rename v into row.
  destruct (coerce_notification_ok n row E0) as (_ & _ & Hid).
  destruct (_ || _) eqn:Hk; [done|]. destruct (fk_ok _ _); [|done]. injection E as <-.
  apply orb_false_iff in Hk as [Hfresh _]. apply bool_decide_eq_false, eq_None_not_Some in Hfresh.
  cbn [templates dead_letters notifications set_notifications] in *.
  exists (row :: rows). split_and!; try done.
  - by constructor.
  - intros row' [->|Hr]%elem_of_cons; [|by apply Hin].
    apply Hold. by rewrite lookup_insert_eq.
  - intros k m Hk. apply Hold. rewrite lookup_insert_ne; [done|]. intros Heq. congruence.
  - intros k. cbn [fmap list_fmap]. rewrite not_elem_of_cons. intros [Hne Hk].
    rewrite Hout by done. rewrite lookup_insert_ne; [done|]. congruence.
Qed.

(** A batch is all or nothing: either every notification of the batch is
    stored, coerced, with all other rows as they were, or the database is
    unchanged. *)
Theorem create_batch_all_or_nothing ns (w : World R) :
  quiet env →
  ∃ r w', run env (NotificationRepo_CreateBatch ns) w = (Some r, w') ∧
    match r with
    | Ok _ => ∃ rows, Forall2 (λ n row, coerce_notification n = Ok row ∧ n_ID row = n_ID n) ns rows ∧
        (∀ row, row ∈ rows → notifications (w_db w') !! n_ID row = Some row) ∧
        (∀ k n, notifications (w_db w) !! k = Some n → notifications (w_db w') !! k = Some n) ∧
        (∀ k, k ∉ n_ID <$> ns → notifications (w_db w') !! k = notifications (w_db w) !! k)
    | Err _ => w_db w' = w_db w
    end.
Proof.
  intros Hq. unfold NotificationRepo_CreateBatch. rewrite run_sql by done.
  eexists _, _. split; [reflexivity|].
  unfold after_sql, sql_at. cbn [exec_sql w_db].
  destruct (insert_notifications ns (w_db w)) as [db'|err] eqn:E; cbn [write_result fst snd].
  - destruct (insert_notifications_rows _ _ _ E) as (rows & ? & _ & _ & ? & ? & ?). by exists rows.
  - by destruct (Is_UniqueViolation err).
Qed.
(** ** Claiming *)

Lemma pg_scan_elem {A} (t : gmap uuid A) k a : (k, a) ∈ pg_scan t ↔ t !! k = Some a.
Proof. by rewrite pg_scan_perm, elem_of_map_to_list. Qed.

Lemma claim_rows ids (w : World R) n' :
  (∃ ns, (sql_at (getAndMarkProcessingBatch ids) w).1 = Ok ns ∧ n' ∈ ns) ↔
  ∃ k n, k ∈ ids ∧ notifications (w_db w) !! k = Some n ∧ claimable n = true ∧
         n' = touch_status (e_now env (w_pos w)) StatusProcessing n.
Proof.
  unfold sql_at. cbn [exec_sql fst]. split.
  - intros (ns & [= <-] & (n & -> & Hin)%list_elem_of_fmap).
    apply list_elem_of_fmap in Hin as ([k m] & -> & [[Hk Hc] Hin]%list_elem_of_filter).
    exists k, m. split_and!; [done|by apply pg_scan_elem|done|done].
  - intros (k & n & Hk & Hn & Hc & ->). eexists. split; [done|].
    apply list_elem_of_fmap. exists n. split; [done|]. apply list_elem_of_fmap. exists (k, n).
    split; [done|]. apply list_elem_of_filter. split; [done|]. by apply pg_scan_elem.
Qed.

Lemma claim_nodup ids (w : World R) ns :
  db_wf (w_db w) → (sql_at (getAndMarkProcessingBatch ids) w).1 = Ok ns → NoDup (n_ID <$> ns).
Proof.
  intros Hwf [= <-]. rewrite <- list_fmap_compose.
  assert (Hnd : NoDup (filter (λ e : uuid * Notification, e.1 ∈ ids ∧ claimable e.2 = true)
    (pg_scan (notifications (w_db w)))).*1).
  { apply NoDup_fst_filter. rewrite pg_scan_perm. apply NoDup_fst_map_to_list. }
  assert (Heq : ∀ l : list (uuid * Notification),
    (∀ k n, (k, n) ∈ l → n_ID n = k) →
    (n_ID ∘ touch_status (e_now env (w_pos w)) StatusProcessing) <$> l.*2 = l.*1).
  { induction l as [|[k n] l IH]; intros Hl; [done|]. cbn. f_equal; [apply Hl; left|].
    apply IH. intros k' n' Hin. apply Hl. by right. }
  rewrite Heq; [done|]. intros k n [_ Hin]%list_elem_of_filter. apply pg_scan_elem in Hin.
  by apply (wf_rows _ Hwf).
Qed.

Lemma claimed_not_claimable ids (w : World R) k m :
  k ∈ ids → notifications (w_db (after_sql (getAndMarkProcessingBatch ids) w)) !! k = Some m →
  claimable m = false.
Proof.
  intros Hk. unfold after_sql, sql_at. cbn [exec_sql w_db snd notifications set_notifications].
  rewrite lookup_update_ids. destruct (notifications (w_db w) !! k) as [n|]; cbn; [|done].
  rewrite bool_decide_true by done. cbn [andb].
  destruct (claimable n) eqn:E; intros [= <-]; done.
Qed.

(** C13: a notification is claimed once.  [GetAndMarkProcessingBatch] returns the
    requested rows that are pending or queued, each once, now "processing", and
    leaves every other row alone; a claim that follows, for whatever ids, returns
    none of them, and claiming one of them alone reports "not found". *)
Theorem claim_exclusive ids (w : World R) :
  quiet env → db_wf (w_db w) →
  ∃ ns w', run env (NotificationRepo_GetAndMarkProcessingBatch ids) w = (Some (Ok ns), w') ∧
    NoDup (n_ID <$> ns) ∧
    (∀ n', n' ∈ ns ↔ ∃ n, n_ID n ∈ ids ∧ notifications (w_db w) !! n_ID n = Some n ∧
       claimable n = true ∧ n' = touch_status (e_now env (w_pos w)) StatusProcessing n) ∧
    (∀ k, notifications (w_db w') !! k =
       (λ n, if bool_decide (k ∈ ids) && claimable n
             then touch_status (e_now env (w_pos w)) StatusProcessing n else n)
         <$> notifications (w_db w) !! k) ∧
    (∀ n ids', n ∈ ns → ∃ ns2 w2,
       run env (NotificationRepo_GetAndMarkProcessingBatch ids') w' = (Some (Ok ns2), w2) ∧
       n_ID n ∉ n_ID <$> ns2) ∧
    (∀ n, n ∈ ns → (run env (NotificationRepo_GetAndMarkProcessing (n_ID n)) w').1 =
                     Some (Err ErrNotFound)).
Proof.
  intros Hq Hwf. unfold NotificationRepo_GetAndMarkProcessingBatch.
  rewrite run_sql by done. set (q := getAndMarkProcessingBatch ids).
  destruct ((sql_at q w).1) as [ns|] eqn:Ens; [|done]. cbn [wrap_err].
  assert (Hrow : ∀ n', n' ∈ ns ↔ ∃ n, n_ID n ∈ ids ∧ notifications (w_db w) !! n_ID n = Some n ∧
       claimable n = true ∧ n' = touch_status (e_now env (w_pos w)) StatusProcessing n).
  { intros n'. pose proof (claim_rows ids w n') as Hc. fold q in Hc. split.
    - intros Hin. destruct (proj1 Hc) as (k & n & Hk & Hn & Hcl & ->); [by exists ns|].
      pose proof (ok_key _ _ (wf_rows _ Hwf _ _ Hn)) as <-. by exists n.
    - intros (n & Hk & Hn & Hcl & ->). destruct (proj2 Hc) as (ns' & Hns' & Hin); [|congruence].
      by exists (n_ID n), n. }
  exists ns, (after_sql q w). split_and!; [done|by eapply claim_nodup|done| | |].
  - intros k. unfold after_sql, sql_at, q. cbn [exec_sql w_db snd notifications set_notifications].
    apply lookup_update_ids.
  - intros n ids' Hin. rewrite run_sql by done.
    destruct ((sql_at (getAndMarkProcessingBatch ids') (after_sql q w)).1) as [ns2|] eqn:E2; [|done].
    eexists ns2, _. split; [reflexivity|]. intros (n2 & Heq & Hin2)%list_elem_of_fmap.
    pose proof (claim_rows ids' (after_sql q w) n2) as Hc.
    destruct (proj1 Hc) as (k & m & Hk & Hm & Hcl & ->); [by exists ns2|].
    apply Hrow in Hin as (n0 & Hid & _ & _ & ->). cbn in Heq.
    assert (Hwf' : db_wf (w_db (after_sql q w))) by (by apply exec_sql_wf).
    pose proof (ok_key _ _ (wf_rows _ Hwf' _ _ Hm)) as Hkey.
    rewrite (claimed_not_claimable ids w k m) in Hcl; [done| |done]. congruence.
  - intros n Hin. unfold NotificationRepo_GetAndMarkProcessing. rewrite run_sql by done.
    apply Hrow in Hin as (n0 & Hid & _ & _ & ->). cbn [n_ID touch_status].
    unfold sql_at. cbn [exec_sql fst].
    destruct (notifications (w_db (after_sql q w)) !! n_ID n0) as [m|] eqn:Em; [|done].
    by rewrite (claimed_not_claimable ids w (n_ID n0) m).
Qed.
(** ** Listing *)

(** The filter a client asks for, without the cursor. *)
Definition filter_matches (f : NotificationFilter) (n : Notification) : bool :=
  match f_Channel f with Some c => String.eqb (n_Channel n) c | None => true end &&
  match f_Status f with Some s => String.eqb (n_Status n) s | None => true end &&
  match f_Priority f with Some p => String.eqb (n_Priority n) p | None => true end.

Definition before_cursor (f : NotificationFilter) (n : Notification) : bool :=
  match f_Cursor f with Some t => n_CreatedAt n <? pg_timestamp t | None => true end.

Definition unfiltered (f : NotificationFilter) : bool :=
  match f_Channel f, f_Status f, f_Priority f, f_Cursor f with
  | None, None, None, None => true
  | _, _, _, _ => false
  end.

(** Text values the server takes as they are. *)
Definition admissible (f : NotificationFilter) : Prop :=
  (∀ c, f_Channel f = Some c → pg_text c = Some c) ∧
  (∀ s, f_Status f = Some s → pg_text s = Some s) ∧
  (∀ p, f_Priority f = Some p → pg_text p = Some p).

Definition page_limit (f : NotificationFilter) : nat :=
  Z.to_nat (if f_Limit f <=? 0 then 20 else f_Limit f).

Definition page_offset (f : NotificationFilter) : nat :=
  match f_Cursor f with Some _ => 0 | None => Z.to_nat (f_Offset f) end.

(** The rows a page shows. *)
Definition page_rows (f : NotificationFilter) (db : DB) : list Notification :=
  take (page_limit f) (drop (page_offset f)
    (order_desc n_CreatedAt (rows_where (λ n, filter_matches f n && before_cursor f n) db))).

Definition list_total (f : NotificationFilter) (db : DB) : Z :=
  if unfiltered f && negb (Z.max (pg_reltuples (notifications db)) 0 =? 0)
  then Z.max (pg_reltuples (notifications db)) 0
  else Z.of_nat (length (rows_where (filter_matches f) db)).

Lemma rows_where_ext (p q : Notification → bool) db :
  (∀ n, p n = q n) → rows_where p db = rows_where q db.
Proof. intros Hpq. apply list_filter_iff. intros n. by rewrite Hpq. Qed.

(** The built clauses mean the filter, whatever arguments follow theirs. *)
Lemma base_conditions_spec f :
  admissible f →
  ∃ conds args k p, base_conditions f = (conds, args, k) ∧ k = S (length args) ∧
    (∀ more, eval_where (args ++ more) conds = Ok p) ∧ ∀ n, p n = filter_matches f n.
Proof.
  intros (Hc & Hs & Hp). unfold base_conditions, filter_matches.
  destruct (f_Channel f) as [c|], (f_Status f) as [s|], (f_Priority f) as [p|];
    cbn [push_cond app]; do 4 eexists; (split; [reflexivity|]); (split; [reflexivity|]);
    cbn [app eval_where eval_cond text_arg arg_at lookup list_lookup length];
    repeat match goal with
    | Hx : ∀ v, Some ?x = Some v → pg_text v = Some v |- context [pg_text ?x] =>
        rewrite (Hx x eq_refl)
    end;
    cbn [admit_value mbind result_bind]; (split; [reflexivity|]); intros n; cbn;
    rewrite ?andb_true_r; auto using andb_assoc.
Qed.

Lemma list_conditions_spec f :
  admissible f →
  ∃ conds args k p, list_conditions f = (conds, args, k) ∧ k = S (length args) ∧
    (∀ more, eval_where (args ++ more) conds = Ok p) ∧
    (∀ n, p n = filter_matches f n && before_cursor f n) ∧
    (conds = [] ↔ unfiltered f = true).
Proof.
  intros (Hc & Hs & Hp).
  unfold list_conditions, base_conditions, filter_matches, before_cursor, unfiltered.
  destruct (f_Channel f) as [c|], (f_Status f) as [s|], (f_Priority f) as [p|], (f_Cursor f) as [t|];
    cbn [push_cond app]; do 4 eexists; (split; [reflexivity|]); (split; [reflexivity|]);
    cbn [app eval_where eval_cond text_arg time_arg arg_at lookup list_lookup length];
    repeat match goal with
    | Hx : ∀ v, Some ?x = Some v → pg_text v = Some v |- context [pg_text ?x] =>
        rewrite (Hx x eq_refl)
    end;
    cbn [admit_value mbind result_bind];
    (split; [reflexivity|]); (split; [|done]); intros n; cbn;
    rewrite ?andb_true_r, ?andb_assoc; reflexivity.
Qed.
(** The count query: estimated for unfiltered requests, exact otherwise. *)
Lemma count_where_run conds args p (w : World R) :
  eval_where args conds = Ok p →
  sql_at (countWhere conds args) w = (Ok (Z.of_nat (length (rows_where p (w_db w)))), w_db w).
Proof. intros He. unfold sql_at. cbn [exec_sql]. by rewrite He. Qed.

Lemma list_where_run conds args la oa p limit off (w : World R) :
  eval_where args conds = Ok p → count_arg args la = Ok limit →
  match oa with None => off = 0%nat | Some a => count_arg args a = Ok off end →
  sql_at (listWhere conds la oa args) w =
    (Ok (take limit (drop off (order_desc n_CreatedAt (rows_where p (w_db w))))), w_db w).
Proof.
  intros He Hl Ho. unfold sql_at. cbn [exec_sql]. rewrite He. cbn [mbind result_bind].
  rewrite Hl. cbn [mbind result_bind]. destruct oa; [rewrite Ho|subst off]; reflexivity.
Qed.

Lemma count_arg_at args more z k :
  0 ≤ z → arg_at (args ++ more) k = Some (VInt z) → count_arg (args ++ more) k = Ok (Z.to_nat z).
Proof. intros Hz Ha. unfold count_arg. rewrite Ha. destruct (z <? 0) eqn:E; zbool; [lia|done]. Qed.

(** The data query of [List]. *)
Lemma data_query_run f conds args k p (w : World R) :
  quiet env → 0 ≤ f_Offset f →
  list_conditions f = (conds, args, k) → k = S (length args) →
  (∀ more, eval_where (args ++ more) conds = Ok p) →
  (∀ n, p n = filter_matches f n && before_cursor f n) →
  let limit := if f_Limit f <=? 0 then 20 else f_Limit f in
  ∃ w', run env (match f_Cursor f with
        | Some _ => trigger (ESql (listWhere conds k None (args ++ [VInt limit])))
        | None => trigger (ESql (listWhere conds k (Some (S k)) (args ++ [VInt limit; VInt (f_Offset f)])))
        end) w = (Some (Ok (page_rows f (w_db w))), w') ∧ w_db w' = w_db w ∧ w_redis w' = w_redis w.
Proof.
  intros Hq Ho Hconds -> Hwhere Hp limit.
  assert (Hlim : 0 ≤ limit) by (unfold limit; destruct (f_Limit f <=? 0) eqn:E; zbool; lia).
  assert (Hat : ∀ more, arg_at (args ++ VInt limit :: more) (S (length args)) = Some (VInt limit))
    by (intros; cbn [arg_at]; by rewrite list_lookup_middle).
  assert (Hrows : page_rows f (w_db w) = take (Z.to_nat limit) (drop (page_offset f)
    (order_desc n_CreatedAt (rows_where p (w_db w))))).
  { unfold page_rows, page_limit. fold limit. do 3 f_equal. symmetry. by apply rows_where_ext. }
  rewrite Hrows. unfold page_offset. destruct (f_Cursor f) as [t|]; rewrite run_sql_1 by done.
  - pose proof (list_where_run conds (args ++ [VInt limit]) (S (length args)) None p
      (Z.to_nat limit) 0 w (Hwhere _) (count_arg_at _ _ _ _ Hlim (Hat [])) eq_refl) as Hl.
    unfold after_sql. rewrite Hl. by eexists.
  - assert (Hoff : arg_at (args ++ [VInt limit; VInt (f_Offset f)]) (S (S (length args))) =
      Some (VInt (f_Offset f))).
    { cbn [arg_at]. rewrite lookup_app_r by lia. by replace (S (length args) - length args)%nat with 1%nat by lia. }
    pose proof (list_where_run conds (args ++ [VInt limit; VInt (f_Offset f)]) (S (length args))
      (Some (S (S (length args)))) p (Z.to_nat limit) (Z.to_nat (f_Offset f)) w (Hwhere _)
      (count_arg_at _ _ _ _ Hlim (Hat _)) (count_arg_at _ _ _ _ Ho Hoff)) as Hl.
    unfold after_sql. rewrite Hl. by eexists.
Qed.
(** [total] is computed before the data query and does not touch the tables. *)
Lemma count_query_run f (conds : list Cond) (w : World R) :
  quiet env → admissible f →
  (conds = [] ↔ unfiltered f = true) →
  ∃ w', run env (match conds with
      | [] =>
          r ← trigger (ESql countEstimate);
          match r with
          | Ok t => if t =? 0 then r2 ← trigger (ESql (countWhere [] [])); mret (wrap_err "count notifications" r2)
                    else mret (Ok t)
          | Err _ => r2 ← trigger (ESql (countWhere [] [])); mret (wrap_err "count notifications" r2)
          end
      | _ =>
          let '(countConditions, countArgs, _) := base_conditions f in
          r ← trigger (ESql (countWhere countConditions countArgs));
          mret (wrap_err "count notifications" r)
      end) w = (Some (Ok (list_total f (w_db w))), w') ∧ w_db w' = w_db w ∧ w_redis w' = w_redis w.
Proof.
  intros Hq Hadm Hun. unfold list_total. destruct conds as [|c conds].
  - rewrite (proj1 Hun eq_refl). cbn [andb].
    assert (Hall : ∀ n, true = filter_matches f n).
    { intros n. pose proof (proj1 Hun eq_refl) as Hu. unfold unfiltered, filter_matches in *.
      by destruct (f_Channel f), (f_Status f), (f_Priority f), (f_Cursor f). }
    rewrite run_trigger_bind, handle_sql_quiet by apply Hq. cbn [exec_sql fst snd].
    destruct (Z.max _ 0 =? 0) eqn:E; cbn [negb].
    + rewrite run_sql by done. unfold after_sql. rewrite (count_where_run _ _ (λ _, true)) by done.
      cbn [fst snd wrap_err tick set_db w_db]. rewrite (rows_where_ext _ (filter_matches f)) by done.
      by eexists.
    + by eexists.
  - destruct (unfiltered f) eqn:Hu; [by destruct Hun as [_ Hun]; specialize (Hun eq_refl)|]. cbn [andb].
    destruct (base_conditions_spec f Hadm) as (bc & ba & bk & bp & -> & _ & He & Hp).
    rewrite run_sql by done. unfold after_sql. specialize (He []). rewrite app_nil_r in He.
    rewrite (count_where_run _ _ _ _ He). cbn [fst snd wrap_err].
    rewrite (rows_where_ext _ (filter_matches f)) by done. by eexists.
Qed.

Lemma List_run f (w : World R) :
  quiet env → admissible f → 0 ≤ f_Offset f →
  ∃ w', run env (NotificationRepo_List f) w =
      (Some (Ok (page_rows f (w_db w), list_total f (w_db w))), w') ∧
    w_db w' = w_db w ∧ w_redis w' = w_redis w.
Proof.
  intros Hq Hadm Ho.
  destruct (list_conditions_spec f Hadm) as (conds & args & k & p & Hc & Hk & He & Hp & Hun).
  unfold NotificationRepo_List. rewrite Hc. rewrite run_bind.
  destruct (count_query_run f conds w Hq Hadm Hun) as (w1 & Hrun & Hdb1 & Hr1).
  rewrite Hrun. rewrite run_bind.
  destruct (data_query_run f conds args k p w1 Hq Ho Hc Hk He Hp) as (w2 & Hrun2 & Hdb2 & Hr2).
  cbv zeta in Hrun2. cbv zeta. rewrite Hrun2. exists w2.
  rewrite Hdb1. split; [done|]. split; congruence.
Qed.


(** ** Keyset pagination *)

Definition with_cursor (f : NotificationFilter) (t : Z) : NotificationFilter :=
  mkFilter (f_Channel f) (f_Status f) (f_Priority f) (f_Limit f) (f_Offset f) (Some t).

(** A client that asks for the next page with the creation time of the last row
    it got, until a page is empty. *)
Fixpoint walk_pages (fuel : nat) (f : NotificationFilter) : prog (list Notification) :=
  match fuel with
  | O => mret []
  | S fuel' =>
      r ← NotificationRepo_List f;
      match r with
      | Err _ => mret []
      | Ok (page, _) =>
          match last page with
          | None => mret []
          | Some n => rest ← walk_pages fuel' (with_cursor f (n_CreatedAt n)); mret (page ++ rest)
          end
      end
  end.

(** The rows a client walks through, newest first. *)
Definition matching (f : NotificationFilter) (db : DB) : list Notification :=
  order_desc n_CreatedAt (rows_where (filter_matches f) db).

Definition distinct_times (l : list Notification) : Prop :=
  NoDup (n_CreatedAt <$> l).

(** Sorting with distinct keys is canonical, so it commutes with filtering. *)
Lemma order_desc_filter (P : Notification → Prop) `{!∀ n, Decision (P n)} l :
  distinct_times l → order_desc n_CreatedAt (filter P l) = filter P (order_desc n_CreatedAt l).
Proof.
  intros Hd. apply (StronglySorted_unique_strong (key_le (λ n, - n_CreatedAt n))).
  - intros n1 n2 Hn1 Hn2 Hle Hge. unfold key_le in *.
    rewrite order_desc_perm in Hn1. apply list_elem_of_filter in Hn1 as [_ Hn1].
    apply list_elem_of_filter in Hn2 as [_ Hn2]. rewrite order_desc_perm in Hn2.
    assert (Heq : n_CreatedAt n1 = n_CreatedAt n2) by lia.
    apply list_elem_of_lookup in Hn1 as [i Hi]. apply list_elem_of_lookup in Hn2 as [j Hj].
    assert (i = j) as ->; [|congruence].
    eapply (NoDup_lookup _ _ _ (n_CreatedAt n1) Hd); rewrite list_lookup_fmap.
    + by rewrite Hi.
    + by rewrite Hj, Heq.
  - apply order_desc_sorted.
  - apply StronglySorted_filter, order_desc_sorted.
  - by rewrite !order_desc_perm.
Qed.
(** The page after the row [n]. *)
Lemma page_after f db l1 n l2 :
  f_Cursor f = None → distinct_times (rows_where (filter_matches f) db) →
  pg_timestamp (n_CreatedAt n) = n_CreatedAt n →
  matching f db = (l1 ++ [n]) ++ l2 →
  page_rows (with_cursor f (n_CreatedAt n)) db = take (page_limit f) l2.
Proof.
  intros Hc Hd Ht Hl. unfold page_rows. cbn [page_offset with_cursor f_Cursor drop].
  change (page_limit (with_cursor f (n_CreatedAt n))) with (page_limit f). f_equal.
  assert (Hrows : rows_where (λ m, filter_matches (with_cursor f (n_CreatedAt n)) m &&
                                  before_cursor (with_cursor f (n_CreatedAt n)) m) db =
    filter (λ m, n_CreatedAt m < n_CreatedAt n) (rows_where (filter_matches f) db)).
  { unfold rows_where. rewrite list_filter_filter. apply list_filter_iff. intros m.
    unfold before_cursor. cbn [with_cursor f_Cursor]. rewrite Ht, andb_true_iff, Z.ltb_lt.
    change (filter_matches (with_cursor f (n_CreatedAt n)) m) with (filter_matches f m). tauto. }
  rewrite Hrows, order_desc_filter by done. fold (matching f db).
  pose proof (order_desc_sorted n_CreatedAt (rows_where (filter_matches f) db)) as Hs.
  fold (matching f db) in Hs. rewrite Hl in *.
  assert (Hd' : NoDup (n_CreatedAt <$> (l1 ++ [n]) ++ l2)).
  { rewrite <- Hl. unfold matching. by rewrite order_desc_perm. }
  rewrite filter_app, filter_none.
  - apply filter_all. intros m Hm.
    assert (key_le (λ a, - n_CreatedAt a) n m).
    { eapply StronglySorted_app_le; [exact Hs| |done]. apply elem_of_app. right. by left. }
    unfold key_le in *. rewrite fmap_app in Hd'. apply NoDup_app in Hd' as (_ & Hdis & _).
    assert (n_CreatedAt m ≠ n_CreatedAt n); [|lia].
    intros Heq. apply (Hdis (n_CreatedAt n)).
    + apply list_elem_of_fmap. exists n. split; [done|]. apply elem_of_app. right. by left.
    + apply list_elem_of_fmap. by exists m.
  - intros m Hm. apply elem_of_app in Hm as [Hm|Hm%list_elem_of_singleton]; [|subst; lia].
    rewrite <- app_assoc in Hs.
    assert (key_le (λ a, - n_CreatedAt a) m n).
    { eapply StronglySorted_app_le; [exact Hs|done|]. by left. }
    unfold key_le in *. lia.
Qed.

Lemma page_limit_pos f : (0 < page_limit f)%nat.
Proof. unfold page_limit. destruct (f_Limit f <=? 0) eqn:E; zbool; lia. Qed.

Lemma walk_from f fuel : ∀ l1 n l2 (w : World R),
  quiet env → admissible f → 0 ≤ f_Offset f → f_Cursor f = None →
  distinct_times (rows_where (filter_matches f) (w_db w)) →
  (∀ k m, notifications (w_db w) !! k = Some m → pg_timestamp (n_CreatedAt m) = n_CreatedAt m) →
  matching f (w_db w) = (l1 ++ [n]) ++ l2 → (length l2 < fuel)%nat →
  (run env (walk_pages fuel (with_cursor f (n_CreatedAt n))) w).1 = Some l2.
Proof.
  induction fuel as [|fuel IH]; intros l1 n l2 w Hq Hadm Ho Hc Hd Ht Hl Hf; [lia|].
  cbn [walk_pages]. rewrite run_bind.
  destruct (List_run (with_cursor f (n_CreatedAt n)) w Hq) as (w1 & Hrun & Hdb & _); [done..|].
  rewrite Hrun.
  assert (Hstored : ∀ m, m ∈ matching f (w_db w) → pg_timestamp (n_CreatedAt m) = n_CreatedAt m).
  { intros m Hm. unfold matching in Hm. rewrite order_desc_perm in Hm.
    apply list_elem_of_filter in Hm as [_ Hm]. apply list_elem_of_fmap in Hm as ([k m'] & -> & Hin).
    apply pg_scan_elem in Hin. by eapply Ht. }
  rewrite (page_after f _ l1 n l2) by (try done; apply Hstored; rewrite Hl;
    apply elem_of_app; left; apply elem_of_app; right; by left).
  pose proof (page_limit_pos f) as Hlim.
  destruct (last (take (page_limit f) l2)) as [n'|] eqn:Hlast.
  - apply last_Some in Hlast as [p0 Hp0].
    assert (Hl2 : l2 = (p0 ++ [n']) ++ drop (page_limit f) l2)
      by (rewrite <- Hp0; by rewrite take_drop).
    change (with_cursor (with_cursor f (n_CreatedAt n)) (n_CreatedAt n'))
      with (with_cursor f (n_CreatedAt n')).
    rewrite run_bind.
    assert (Hrest : (run env (walk_pages fuel (with_cursor f (n_CreatedAt n'))) w1).1 =
      Some (drop (page_limit f) l2)).
    { apply (IH (l1 ++ [n] ++ p0) n'); rewrite ?Hdb; try done.
      - rewrite Hl, Hl2 at 1. by rewrite <- !app_assoc.
      - rewrite length_drop. assert (l2 ≠ []); [intros ->; by destruct p0|].
        destruct l2; [done|]. cbn [length] in *. lia. }
    destruct (run env (walk_pages fuel _) w1) as [o w2]. cbn in Hrest. subst o. cbn.
    by rewrite Hp0, <- Hl2.
  - apply last_None in Hlast. destruct l2 as [|m l2]; [done|].
    destruct (page_limit f); [lia|done].
Qed.

(** C19: following [next_cursor] visits every matching notification exactly once,
    newest first, whatever the page size, when no two of them share a creation
    time; and the walk ends. *)
Theorem keyset_pages_complete f fuel (w : World R) :
  quiet env → admissible f → f_Offset f = 0 → f_Cursor f = None →
  (∀ k m, notifications (w_db w) !! k = Some m → pg_timestamp (n_CreatedAt m) = n_CreatedAt m) →
  distinct_times (rows_where (filter_matches f) (w_db w)) →
  (length (rows_where (filter_matches f) (w_db w)) < fuel)%nat →
  (run env (walk_pages fuel f) w).1 = Some (matching f (w_db w)).
Proof.
  intros Hq Hadm Ho Hc Ht Hd Hf. destruct fuel as [|fuel]; [lia|]. cbn [walk_pages]. rewrite run_bind.
  destruct (List_run f w Hq Hadm) as (w1 & Hrun & Hdb & _); [lia|]. rewrite Hrun.
  assert (Hpage : page_rows f (w_db w) = take (page_limit f) (matching f (w_db w))).
  { unfold page_rows, matching, page_offset, before_cursor. rewrite Hc, Ho. change (Z.to_nat 0) with O. rewrite drop_0.
    do 2 f_equal. apply rows_where_ext. intros n. apply andb_true_r. }
  rewrite Hpage. pose proof (page_limit_pos f) as Hlim.
  assert (Hlen : length (matching f (w_db w)) = length (rows_where (filter_matches f) (w_db w)))
    by (unfold matching; by rewrite order_desc_perm).
  destruct (last (take (page_limit f) (matching f (w_db w)))) as [n|] eqn:Hlast.
  - apply last_Some in Hlast as [p0 Hp0].
    assert (Hl : matching f (w_db w) = (p0 ++ [n]) ++ drop (page_limit f) (matching f (w_db w)))
      by (rewrite <- Hp0; by rewrite take_drop).
    rewrite run_bind.
    assert (Hrest : (run env (walk_pages fuel (with_cursor f (n_CreatedAt n))) w1).1 =
      Some (drop (page_limit f) (matching f (w_db w)))).
    { apply (walk_from f fuel p0 n); rewrite ?Hdb; try done; [lia|].
      rewrite length_drop. assert (matching f (w_db w) ≠ []); [intros E; rewrite E, take_nil in Hp0; by destruct p0|].
      destruct (matching f (w_db w)); [done|]. cbn [length] in *. lia. }
    destruct (run env (walk_pages fuel _) w1) as [o w2]. cbn in Hrest. subst o. cbn.
    by rewrite Hp0, <- Hl.
  - apply last_None in Hlast. destruct (matching f (w_db w)); [done|].
    destruct (page_limit f); [lia|done].
Qed.
End store.

(** ** Concrete runs *)

#[local] Existing Instances RefTemplate RefPg RefPg_laws RefLua.

(** A database with the given notifications. *)
Definition demo_db (ns : list Notification) : DB :=
  mkDB (list_to_map ((λ n, (n_ID n, n)) <$> ns)) ∅ ∅.

Definition demo_with (ns : list Notification) : World RefRedis := set_db (demo_db ns) demo_world.

Definition created (n : Notification) (t : Z) : Notification :=
  {| n_ID := n_ID n; n_BatchID := n_BatchID n; n_IdempotencyKey := n_IdempotencyKey n;
     n_Recipient := n_Recipient n; n_Channel := n_Channel n; n_Content := n_Content n;
     n_Priority := n_Priority n; n_Status := n_Status n; n_TemplateID := n_TemplateID n;
     n_TemplateVars := n_TemplateVars n; n_ScheduledAt := n_ScheduledAt n;
     n_ProviderMsgID := n_ProviderMsgID n; n_Attempts := n_Attempts n;
     n_MaxAttempts := n_MaxAttempts n; n_LastError := n_LastError n; n_SentAt := n_SentAt n;
     n_CreatedAt := t; n_UpdatedAt := t |}.

Definition no_filter (limit : Z) : NotificationFilter := mkFilter None None None limit 0 None.

(** A walk through the pages skips rows: two notifications created in the same
    microsecond (as a batch creates them), pages of one row, and the second is
    never shown. *)
Theorem keyset_pages_skip_ties :
  let a := demo_notification 2 StatusSent in
  let b := demo_notification 1 StatusSent in
  let w := demo_with [a; b] in
  matching (no_filter 1) (w_db w) = [a; b] ∧
  ∀ fuel, (2 ≤ fuel)%nat → (run demo_env (walk_pages fuel (no_filter 1)) w).1 = Some [a].
Proof.
  intros a b w. split; [vm_compute; reflexivity|]. intros fuel Hf.
  destruct fuel as [|[|fuel]]; [lia|lia|]. vm_compute. reflexivity.
Qed.

Lemma create_stores_or_rejects_witness :
  ∃ r w', run demo_env (NotificationRepo_Create (demo_notification 1 StatusPending)) demo_world
            = (Some r, w') ∧ w_redis w' = w_redis demo_world.
Proof.
  destruct (create_stores_or_rejects demo_env (demo_notification 1 StatusPending) demo_world demo_quiet)
    as (r & w' & Hrun & Hr & _). exists r, w'. by split.
Defined.

(** The second of the two has the id of the first. *)
Lemma create_batch_all_or_nothing_witness :
  let n := demo_notification 1 StatusPending in
  ∃ r w', run demo_env (NotificationRepo_CreateBatch [n; n]) demo_world = (Some r, w') ∧
    r = Err ErrDuplicateKey.
Proof.
  intros n. destruct (create_batch_all_or_nothing demo_env [n; n] demo_world demo_quiet)
    as (r & w' & Hrun & _). exists r, w'. split; [exact Hrun|].
  assert (Hr : Some r = Some (Err ErrDuplicateKey)); [|congruence].
  transitivity (run demo_env (NotificationRepo_CreateBatch [n; n]) demo_world).1.
  - by rewrite Hrun.
  - vm_compute. reflexivity.
Defined.

Lemma demo_db_wf (n : Notification) :
  Channel_Valid (n_Channel n) = true → Priority_Valid (n_Priority n) = true →
  Status_Check (n_Status n) = true → n_TemplateID n = None → db_wf (demo_db [n]).
Proof.
  intros Hc Hp Hs Ht. split; intros *; cbn [demo_db fmap list_fmap notifications templates dead_letters];
    cbn [list_to_map foldr fst snd]; rewrite ?lookup_insert, ?lookup_empty; repeat case_decide;
    intros; simplify_eq; try done; congruence.
Qed.

Lemma claim_exclusive_witness :
  let n := demo_notification 1 StatusQueued in
  ∃ ns w', run demo_env (NotificationRepo_GetAndMarkProcessingBatch [1%N; 2%N]) (demo_with [n])
    = (Some (Ok ns), w') ∧ NoDup (n_ID <$> ns).
Proof.
  intros n. destruct (claim_exclusive demo_env [1%N; 2%N] (demo_with [n]) demo_quiet)
    as (ns & w' & Hrun & Hnd & _).
  - by apply demo_db_wf.
  - exists ns, w'. by split.
Defined.

Definition sms_queued : NotificationFilter := mkFilter (Some ChannelSMS) (Some StatusQueued) None 10 0 (Some (demo_start + Second)).


(** Three notifications, one per page. *)
Lemma keyset_pages_complete_witness :
  let n i t := created (demo_notification i StatusSent) (demo_start + t * Second) in
  (run demo_env (walk_pages 4 (no_filter 1)) (demo_with [n 1%N 2; n 2%N 1; n 3%N 3])).1
    = Some [n 3%N 3; n 1%N 2; n 2%N 1].
Proof.
  intros n. rewrite (keyset_pages_complete demo_env (no_filter 1) 4).
  - vm_compute. reflexivity.
  - exact demo_quiet.
  - split_and!; intros; discriminate.
  - reflexivity.
  - reflexivity.
  - intros k m Hm. apply elem_of_map_to_list in Hm.
    assert (Hall : Forall (λ e : uuid * Notification, n_CreatedAt e.2 / 1000 * 1000 = n_CreatedAt e.2)
      (map_to_list (notifications (w_db (demo_with [n 1%N 2; n 2%N 1; n 3%N 3])))))
      by (apply (bool_decide_unpack _); vm_compute; exact I).
    rewrite Forall_forall in Hall. by apply (Hall (k, m)).
  - apply (bool_decide_unpack _). vm_compute. exact I.
  - apply Nat.ltb_lt. vm_compute. reflexivity.
Defined.
