(* ===== verification/Lifecycle.v ===== *)
(** * The life of a notification: abstract specification and protocol

    What the system promises about a notification, independently of queues, retries
    and processes: a machine whose state is the life of every notification and the
    facts established so far (this row was claimed, the provider accepted this
    payload).  [obeys] is the discipline a program must keep for its effects to be
    steps of that machine, whatever the other programs, faults and crashes do;
    Refinement.v shows that the API, the workers and the schedulers keep it. *)
From S2P Require Import Prelude GoLib Domain Uuid Redis Postgres RateLimiter CircuitBreaker Hub.
From S2P Require Import Metrics TemplateEngine Effects Provider.
From Stdlib Require Import ZArith Lia.
From stdpp Require Import base numbers list strings gmap fin_maps.

Open Scope Z_scope.

(** ** The abstract machine *)

(** What no step changes: the row without status, attempts, outcome and [updated_at]. *)
Definition fixed_part (n : Notification) : Notification :=
  {| n_ID := n_ID n; n_BatchID := n_BatchID n; n_IdempotencyKey := n_IdempotencyKey n;
     n_Recipient := n_Recipient n; n_Channel := n_Channel n; n_Content := n_Content n;
     n_Priority := n_Priority n; n_Status := ""; n_TemplateID := n_TemplateID n;
     n_TemplateVars := n_TemplateVars n; n_ScheduledAt := n_ScheduledAt n;
     n_ProviderMsgID := None; n_Attempts := 0; n_MaxAttempts := n_MaxAttempts n;
     n_LastError := None; n_SentAt := None; n_CreatedAt := n_CreatedAt n; n_UpdatedAt := 0 |}.

Record Life := mkLife {
  l_Fixed : Notification;
  l_Status : Status;
  l_Attempts : Z;
  l_Sent : bool;
}.

Definition life_of (n : Notification) : Life :=
  mkLife (fixed_part n) (n_Status n) (n_Attempts n) (bool_decide (is_Some (n_SentAt n))).

Definition rows_of (db : DB) : gmap uuid Life := life_of <$> notifications db.

(** What a program can know for certain: it claimed this row, it called the provider
    with this payload, the provider accepted it. *)
Inductive fact :=
| Claimed (n : Notification)
| Called (pl : webhookPayload)
| Accepted (pl : webhookPayload).

Definition open_status (st : Status) : Prop := st = StatusPending ∨ st = StatusQueued.
Definition initial_status (st : Status) : Prop := st = StatusPending ∨ st = StatusScheduled.

Section machine.
Context `{UUIDLib}.

(** The provider has accepted notification [k]. *)
Definition accepted_for (facts : list fact) (k : uuid) : Prop :=
  ∃ m t, Claimed m ∈ facts ∧ n_ID m = k ∧ Accepted (webhook_payload t m) ∈ facts.

(** A failed attempt of notification [k], counted on the row as it was claimed. *)
Definition attempt_of (facts : list fact) (k : uuid) (m : Notification) (a : Z) : Prop :=
  Claimed m ∈ facts ∧ n_ID m = k ∧ a = wrap64 (n_Attempts m + 1).

(** One step in the life of notification [k]. *)
Inductive life_step (facts : list fact) (k : uuid) : option Life → option Life → Prop :=
| life_same l : life_step facts k l l
| life_created n st : initial_status st → n_ID n = k → life_step facts k None (Some (mkLife n st 0 false))
| life_queued n st a s : life_step facts k (Some (mkLife n st a s)) (Some (mkLife n StatusQueued a s))
| life_cancelled n st a s :
    life_step facts k (Some (mkLife n st a s)) (Some (mkLife n StatusCancelled a s))
| life_claimed n st a s : open_status st →
    life_step facts k (Some (mkLife n st a s)) (Some (mkLife n StatusProcessing a s))
| life_retried n st a s m a' : attempt_of facts k m a' → a' < n_MaxAttempts m →
    life_step facts k (Some (mkLife n st a s)) (Some (mkLife n StatusQueued a' s))
| life_failed n st a s m a' : attempt_of facts k m a' → n_MaxAttempts m ≤ a' →
    life_step facts k (Some (mkLife n st a s)) (Some (mkLife n StatusFailed a' s))
| life_sent n st a s : accepted_for facts k →
    life_step facts k (Some (mkLife n st a s)) (Some (mkLife n StatusSent a true)).

(** When a new fact may be recorded: a claim turns an open row to "processing" and
    tells what the row holds; only a claimed notification is given to the provider. *)
Definition justified (facts : list fact) (rows rows' : gmap uuid Life) (f : fact) : Prop :=
  match f with
  | Claimed n => ∃ st a s, open_status st ∧
      rows !! n_ID n = Some (mkLife (fixed_part n) st a s) ∧
      rows' !! n_ID n = Some (mkLife (fixed_part n) StatusProcessing a s)
  | Called pl | Accepted pl => ∃ n t, Claimed n ∈ facts ∧ pl = webhook_payload t n
  end.

Definition Spec : Type := gmap uuid Life * list fact.

Inductive spec_step : Spec → Spec → Prop :=
| spec_steps rows rows' facts new :
    (∀ k, life_step facts k (rows !! k) (rows' !! k)) →
    (∀ f, f ∈ new → justified facts rows rows' f) →
    spec_step (rows, facts) (rows', facts ++ new).

(** ** What the machine guarantees *)

(** A later life of the same notification: never gone, never another text or
    recipient, and once sent always sent. *)
Definition continues (l l' : Life) : Prop :=
  l_Fixed l' = l_Fixed l ∧ (l_Sent l = true → l_Sent l' = true).

Record spec_inv (s : Spec) : Prop := {
  si_id k l : s.1 !! k = Some l → n_ID (l_Fixed l) = k;
  si_claimed n : Claimed n ∈ s.2 → ∃ l, s.1 !! n_ID n = Some l ∧ l_Fixed l = fixed_part n;
  si_accepted pl : Accepted pl ∈ s.2 → ∃ n t, Claimed n ∈ s.2 ∧ pl = webhook_payload t n;
  si_status k l : s.1 !! k = Some l → l_Status l = StatusSent → l_Sent l = true;
  si_sent k l : s.1 !! k = Some l → l_Sent l = true →
    ∃ t, Accepted (webhook_payload t (l_Fixed l)) ∈ s.2;
  si_failed k l : s.1 !! k = Some l → l_Status l = StatusFailed →
    n_MaxAttempts (l_Fixed l) ≤ l_Attempts l;
}.

Lemma life_step_continues facts k l o :
  life_step facts k (Some l) o → ∃ l', o = Some l' ∧ continues l l'.
Proof. inversion 1; subst; (eexists; split; [reflexivity|by split]). Qed.

Lemma spec_step_continues s s' k l :
  spec_step s s' → s.1 !! k = Some l → ∃ l', s'.1 !! k = Some l' ∧ continues l l'.
Proof. intros [rows rows' facts new Hl _] Hk. eapply life_step_continues. rewrite <- Hk. apply Hl. Qed.

Lemma continues_trans l1 l2 l3 : continues l1 l2 → continues l2 l3 → continues l1 l3.
Proof. intros [? ?] [? ?]. split; [congruence|auto]. Qed.

Lemma spec_star_continues s s' k l :
  star spec_step s s' → s.1 !! k = Some l → ∃ l', s'.1 !! k = Some l' ∧ continues l l'.
Proof.
  intros Hstar Hk. induction Hstar as [s|s1 s2 s3 _ IH Hstep]; [by exists l|].
  destruct (IH Hk) as (l2 & Hl2 & Hc). destruct (spec_step_continues _ _ _ _ Hstep Hl2) as (l3 & ? & ?).
  exists l3. split; [done|]. by eapply continues_trans.
Qed.

(** The payload mentions nothing but the fixed part. *)
Lemma webhook_payload_fixed t n : webhook_payload t n = webhook_payload t (fixed_part n).
Proof. reflexivity. Qed.

(** Where a life that is sent, or failed, comes from. *)
Lemma life_step_fixed facts k o l' :
  life_step facts k o (Some l') →
  (∃ l, o = Some l ∧ l_Fixed l = l_Fixed l') ∨
  (o = None ∧ n_ID (l_Fixed l') = k ∧ l_Sent l' = false ∧ initial_status (l_Status l')).
Proof. inversion 1; subst; try (by left; eexists); by right. Qed.

Lemma life_step_sent facts k l l' :
  life_step facts k (Some l) (Some l') → l_Sent l' = true → l_Sent l = true ∨ accepted_for facts k.
Proof. inversion 1; subst; cbn; auto. Qed.

Lemma life_step_status facts k l l' :
  life_step facts k (Some l) (Some l') → l_Status l' = StatusSent → l = l' ∨ l_Sent l' = true.
Proof. inversion 1; subst; cbn; auto; discriminate. Qed.

Lemma life_step_failed facts k l l' :
  life_step facts k (Some l) (Some l') → l_Status l' = StatusFailed →
  l = l' ∨ ∃ m, Claimed m ∈ facts ∧ n_ID m = k ∧ n_MaxAttempts m ≤ l_Attempts l'.
Proof.
  inversion 1 as [| | | | | |? ? ? ? m a' (? & ? & ?) Hle|]; subst; cbn; auto; try discriminate.
  intros _. right. by exists m.
Qed.

Lemma spec_inv_facts facts new rows rows' :
  spec_inv (rows, facts) → (∀ k, life_step facts k (rows !! k) (rows' !! k)) →
  (∀ f, f ∈ new → justified facts rows rows' f) →
  (∀ n, Claimed n ∈ facts ++ new → ∃ l, rows' !! n_ID n = Some l ∧ l_Fixed l = fixed_part n) ∧
  (∀ pl, Accepted pl ∈ facts ++ new → ∃ n t, Claimed n ∈ facts ++ new ∧ pl = webhook_payload t n).
Proof.
  intros Hinv Hl Hnew. split.
  - intros n [Hn|Hn]%elem_of_app.
    + destruct (si_claimed _ Hinv n Hn) as (l & Hk & Hf).
      destruct (life_step_continues facts (n_ID n) l (rows' !! n_ID n)) as (l' & Hl' & Hf' & _).
      { pose proof (Hl (n_ID n)) as Hs. cbn in Hk. by rewrite Hk in Hs. }
      exists l'. split; [done|congruence].
    + destruct (Hnew _ Hn) as (st & a & s & _ & _ & Hk). by eexists.
  - assert (Hone : ∀ pl n t, Claimed n ∈ facts ∧ pl = webhook_payload t n →
      ∃ n t, Claimed n ∈ facts ++ new ∧ pl = webhook_payload t n).
    { intros pl n t [Hc ->]. exists n, t. split; [|done]. apply elem_of_app. by left. }
    intros pl [Hp|Hp]%elem_of_app.
    + destruct (si_accepted _ Hinv pl Hp) as (n & t & ?). by apply (Hone pl n t).
    + destruct (Hnew _ Hp) as (n & t & ?). by apply (Hone pl n t).
Qed.

(** What an accepted payload says is what the row says. *)
Lemma accepted_row rows facts k l :
  spec_inv (rows, facts) → rows !! k = Some l → accepted_for facts k →
  ∃ t, Accepted (webhook_payload t (l_Fixed l)) ∈ facts.
Proof.
  intros Hinv Hk (m & t & Hm & <- & Ha). exists t. destruct (si_claimed _ Hinv m Hm) as (l0 & Hl0 & Hf0).
  cbn in Hl0. rewrite Hk in Hl0. injection Hl0 as <-. by rewrite Hf0, <- webhook_payload_fixed.
Qed.

Lemma spec_step_inv s s' : spec_inv s → spec_step s s' → spec_inv s'.
Proof.
  intros Hinv Hstep. destruct Hstep as [rows rows' facts new Hl Hnew].
  destruct (spec_inv_facts facts new rows rows' Hinv Hl Hnew) as [Hcl Hac].
  assert (Hfrom : ∀ k l', rows' !! k = Some l' →
    (∃ l, rows !! k = Some l ∧ l_Fixed l = l_Fixed l' ∧ life_step facts k (Some l) (Some l')) ∨
    (n_ID (l_Fixed l') = k ∧ l_Sent l' = false ∧ initial_status (l_Status l'))).
  { intros k l' Hk. pose proof (Hl k) as Hs. rewrite Hk in Hs.
    destruct (life_step_fixed _ _ _ _ Hs) as [(l & Ho & Hf)|(_ & ?)]; [left|by right].
    exists l. split_and!; [done|done|by rewrite <- Ho]. }
  split; cbn [fst snd]; [|exact Hcl|exact Hac| | |]; intros k l' Hk;
    destruct (Hfrom k l' Hk) as [(l & Hk0 & Hf & Hs)|(Hid & Hns & Hini)].
  - rewrite <- Hf. by apply (si_id _ Hinv).
  - done.
  - intros Hst. destruct (life_step_status _ _ _ _ Hs Hst) as [->|?]; [|done]. by apply (si_status _ Hinv k).
  - intros Hst. destruct Hini as [E|E]; rewrite E in Hst; discriminate.
  - intros Hst. rewrite <- Hf.
    assert (∃ t, Accepted (webhook_payload t (l_Fixed l)) ∈ facts) as [t Ht].
    { destruct (life_step_sent _ _ _ _ Hs Hst) as [Hs0|Ha];
        [by apply (si_sent _ Hinv k)|by apply (accepted_row rows facts k)]. }
    exists t. apply elem_of_app. by left.
  - congruence.
  - intros Hst. destruct (life_step_failed _ _ _ _ Hs Hst) as [->|(m & Hm & <- & Hle)];
      [by apply (si_failed _ Hinv k)|].
    destruct (si_claimed _ Hinv m Hm) as (l0 & Hl0 & Hf0). cbn in Hl0. rewrite Hk0 in Hl0.
    injection Hl0 as <-. by rewrite <- Hf, Hf0.
  - intros Hst. destruct Hini as [E|E]; rewrite E in Hst; discriminate.
Qed.

Lemma spec_star_inv s s' : spec_inv s → star spec_step s s' → spec_inv s'.
Proof. intros Hs. apply (star_invariant spec_step spec_inv); [intros; by eapply spec_step_inv|done]. Qed.
End machine.

(** ** The protocol a program keeps *)

(** How often a notification (by the text of its id) was claimed and sent. *)
Fixpoint tally (P : fact → bool) (h : list fact) : nat :=
  match h with [] => 0 | f :: h' => (if P f then 1 else 0) + tally P h' end.

Definition is_claim `{UUIDLib} (s : string) (f : fact) : bool :=
  match f with Claimed n => String.eqb (uuid_String (n_ID n)) s | _ => false end.
Definition is_call (s : string) (f : fact) : bool :=
  match f with Called pl => String.eqb (wp_NotificationID pl) s | _ => false end.

Definition claims `{UUIDLib} (s : string) : list fact → nat := tally (is_claim s).
Definition calls (s : string) : list fact → nat := tally (is_call s).

(** No more calls than claims. *)
Definition balanced `{UUIDLib} (h : list fact) : Prop := ∀ s, (calls s h ≤ claims s h)%nat.

Lemma tally_app P h1 h2 : tally P (h1 ++ h2) = (tally P h1 + tally P h2)%nat.
Proof. induction h1 as [|f h1 IH]; cbn; [done|]. rewrite IH. lia. Qed.

#[export] Instance tally_proper P : Proper ((≡ₚ) ==> eq) (tally P).
Proof. induction 1; cbn; lia. Qed.

Lemma balanced_nil `{UUIDLib} : balanced [].
Proof. intros s. cbn. lia. Qed.

Lemma balanced_app `{UUIDLib} h1 h2 : balanced h1 → balanced h2 → balanced (h1 ++ h2).
Proof.
  intros Hb1 Hb2 s. unfold calls, claims. rewrite !tally_app. specialize (Hb1 s). specialize (Hb2 s).
  unfold calls, claims in *. lia.
Qed.

#[export] Instance balanced_proper `{UUIDLib} : Proper ((≡ₚ) ==> iff) balanced.
Proof. intros h1 h2 Hp. unfold balanced, calls, claims. by setoid_rewrite Hp. Qed.

Lemma balanced_concat `{UUIDLib} hs : Forall balanced hs → balanced (concat hs).
Proof. induction 1; cbn; [apply balanced_nil|by apply balanced_app]. Qed.

(** From [h] to [h'] at most one call for [s0] was made, and nothing was claimed. *)
Definition spent `{UUIDLib} (s0 : string) (h h' : list fact) : Prop :=
  ∀ s, claims s h' = claims s h ∧ (calls s h' ≤ calls s h + (if String.eqb s0 s then 1 else 0))%nat.

Lemma spent_nothing `{UUIDLib} s0 h : spent s0 h h.
Proof. intros s. split; [done|lia]. Qed.

Lemma spent_call `{UUIDLib} pl h new :
  new = [Called pl] ∨ new = [Called pl; Accepted pl] → spent (wp_NotificationID pl) h (h ++ new).
Proof.
  intros Hnew s. unfold claims, calls. rewrite !tally_app.
  destruct Hnew as [-> | ->]; cbn; (split; [lia|]); destruct (String.eqb _ s); lia.
Qed.

Section protocol.
Context `{TextTemplate} `{UUIDLib}.

(** What the result of an effect establishes. *)
Definition observed_sql {X} (q : sql X) : result error X → list fact :=
  match q in sql A return result error A → list fact with
  | getAndMarkProcessing _ => λ r, match r with Ok (Some n) => [Claimed n] | _ => [] end
  | getAndMarkProcessingBatch _ => λ r, match r with Ok ns => Claimed <$> ns | _ => [] end
  | _ => λ _, []
  end.

Definition observed {X} (e : eff X) : X → list fact :=
  match e in eff A return A → list fact with
  | ESql q => observed_sql q
  | EHttp p => λ r, match r with
                    | Ok code => if 400 <=? code then [Called p] else [Called p; Accepted p]
                    | Err _ => [Called p]
                    end
  | _ => λ _, []
  end.

Definition fresh_note (n : Notification) : Prop := initial_status (n_Status n) ∧ n_Attempts n = 0.

(** What a program that knows [h] may ask for. *)
Definition permitted_sql (h : list fact) {X} (q : sql X) : Prop :=
  match q with
  | insertNotification n => fresh_note n
  | insertNotificationBatch ns => Forall fresh_note ns
  | updateNotificationStatus _ st => st = StatusQueued ∨ st = StatusCancelled
  | updateBatchStatus _ st => st = StatusQueued
  | updateNotificationStatusWithError id st _ a => ∃ m, attempt_of h id m a ∧
      ((st = StatusQueued ∧ a < n_MaxAttempts m) ∨ (st = StatusFailed ∧ n_MaxAttempts m ≤ a))
  | updateNotificationSent id _ => accepted_for h id
  | updateNotificationSentBatch rows => ∀ e, e ∈ rows → accepted_for h e.1
  | _ => True
  end.

(** Nobody connects to the hub. *)
Definition no_register {A} (op : hub_op A) : Prop :=
  match op with HubRegister _ => False | _ => True end.

Definition warranted (h : list fact) {X} (e : eff X) : Prop :=
  match e with
  | ESql q => permitted_sql h q
  | EHub op => no_register op
  | EHttp pl => ∃ n t, Claimed n ∈ h ∧ pl = webhook_payload t n
  | _ => True
  end.

(** Moreover a claim pays for one call of the provider. *)
Definition permitted (h : list fact) {X} (e : eff X) : Prop :=
  match e with
  | EHttp pl => warranted h e ∧ (calls (wp_NotificationID pl) h < claims (wp_NotificationID pl) h)%nat
  | _ => warranted h e
  end.

(** Every effect is permitted by what was learnt before it, whatever the results;
    [Q] holds of what is known and of the value at the end. *)
Fixpoint obeys {A} (h : list fact) (p : prog A) (Q : list fact → A → Prop) : Prop :=
  match p with
  | Ret a => Q h a
  | Vis e k => permitted h e ∧ ∀ x, obeys (h ++ observed e x) (k x) Q
  | Panic => True
  end.

Lemma obeys_bind {A B} (p : prog A) (f : A → prog B) Q : ∀ h,
  obeys h p (λ h' a, obeys h' (f a) Q) → obeys h (p ≫= f) Q.
Proof.
  induction p as [a|X e k IH|]; intros h; simpl; [done| |done].
  intros [He Hk]. split; [done|]. intros x. by apply IH.
Qed.

Lemma obeys_mono {A} (p : prog A) (Q Q' : list fact → A → Prop) : ∀ h,
  obeys h p Q → (∀ h' a, Q h' a → Q' h' a) → obeys h p Q'.
Proof.
  induction p as [a|X e k IH|]; intros h; simpl; [auto| |done].
  intros [He Hk] HQ. split; [done|]. intros x. by eapply IH.
Qed.

Lemma obeys_trigger {X} (e : eff X) h (Q : list fact → X → Prop) :
  permitted h e → (∀ x, Q (h ++ observed e x) x) → obeys h (trigger e) Q.
Proof. by split. Qed.

(** An effect that needs and tells nothing. *)
Lemma obeys_plain {X} (e : eff X) h (Q : list fact → X → Prop) :
  permitted h e → (∀ x, observed e x = []) → (∀ x, Q h x) → obeys h (trigger e) Q.
Proof. intros Hp Ho HQ. split; [done|]. intros x. simpl. by rewrite Ho, app_nil_r. Qed.

Lemma obeys_ret {A} (a : A) h (Q : list fact → A → Prop) : Q h a → obeys h (mret a) Q.
Proof. done. Qed.

(** A program that learns nothing. *)
Definition keeps {A} (h : list fact) (p : prog A) : Prop := obeys h p (λ h' _, h' = h).

Lemma keeps_bind {A B} (p : prog A) (f : A → prog B) h (Q : list fact → B → Prop) :
  keeps h p → (∀ a, obeys h (f a) Q) → obeys h (p ≫= f) Q.
Proof. intros Hp Hf. apply obeys_bind. eapply obeys_mono; [done|]. by intros h' a ->. Qed.

Lemma keeps_obeys {A} (p : prog A) h (Q : list fact → A → Prop) :
  keeps h p → (∀ a, Q h a) → obeys h p Q.
Proof. intros Hp HQ. eapply obeys_mono; [done|]. by intros h' a ->. Qed.

Lemma obeys_for_each {A} (l : list A) (body : A → prog unit) h (Q : list fact → unit → Prop) :
  (∀ x, x ∈ l → keeps h (body x)) → Q h tt → obeys h (for_each l body) Q.
Proof.
  intros Hb HQ. induction l as [|x l IH]; [done|]. cbn [for_each]. apply obeys_bind.
  apply keeps_obeys; [apply Hb; by left|]. intros []. apply IH. intros y Hy. apply Hb. by right.
Qed.
End protocol.

(** Symbolic execution of a program against the protocol. *)
Ltac obeys_step :=
  first
    [ apply obeys_bind
    | apply obeys_plain; [first [exact I|by left|by right|reflexivity]|reflexivity|intros ?]
    | apply obeys_ret
    | match goal with
      | |- obeys _ (match ?x with _ => _ end) _ => destruct x
      | |- obeys _ (if ?x then _ else _) _ => destruct x
      end ].
Ltac solve_obeys := try unfold keeps; repeat (cbv beta; obeys_step); try done.

(** ** Statements are steps of the machine *)

Section statements.
Context `{PgLaws} `{TextTemplate} `{UUIDLib}.

Lemma rows_of_lookup db k : rows_of db !! k = life_of <$> notifications db !! k.
Proof. apply lookup_fmap. Qed.

Lemma update_steps facts ids P f db :
  (∀ k n, k ∈ ids → P n = true → notifications db !! k = Some n →
     life_step facts k (Some (life_of n)) (Some (life_of (f n)))) →
  ∀ k, life_step facts k (rows_of db !! k)
         (rows_of (set_notifications (update_ids ids P f (notifications db)) db) !! k).
Proof.
  intros Hf k. rewrite !rows_of_lookup. cbn [notifications set_notifications].
  rewrite lookup_update_ids. destruct (notifications db !! k) as [n|] eqn:E; cbn; [|constructor].
  destruct (bool_decide (k ∈ ids)) eqn:Ek; cbn; [|constructor].
  destruct (P n) eqn:EP; [|constructor]. apply bool_decide_eq_true in Ek. by apply (Hf k).
Qed.

Lemma update_status_steps facts ids st f db db' :
  update_status_where ids st f db = Ok db' →
  (∀ k n, k ∈ ids → life_step facts k (Some (life_of n)) (Some (life_of (f n)))) →
  ∀ k, life_step facts k (rows_of db !! k) (rows_of db' !! k).
Proof.
  unfold update_status_where. intros Hu Hf. destruct (Status_Check st).
  - injection Hu as <-. apply update_steps. auto.
  - destruct (existsb _ _); [done|]. injection Hu as <-. constructor.
Qed.

(** A statement that fails changes nothing. *)
Lemma write_result_steps facts (r : result error DB) db :
  (∀ db', r = Ok db' → ∀ k, life_step facts k (rows_of db !! k) (rows_of db' !! k)) →
  ∀ k, life_step facts k (rows_of db !! k) (rows_of (write_result r db).2 !! k).
Proof. intros Hr. destruct r as [db'|]; cbn; [by apply Hr|constructor]. Qed.

(** *** Insertions *)

Definition inserted (o o' : option Life) (k : uuid) : Prop :=
  o' = o ∨ o = None ∧ ∃ n st, o' = Some (mkLife n st 0 false) ∧ initial_status st ∧ n_ID n = k.

Lemma coerced_fresh n row :
  fresh_note n → coerce_notification n = Ok row → fresh_note row ∧ n_SentAt row = None ∧ n_ID row = n_ID n.
Proof.
  intros [Hst Ha] Hc. unfold coerce_notification in Hc. do 9 bind_ok Hc.
  destruct (_ && _ && _); [|done]. injection Hc as <-. cbn. split_and!; try done.
  assert (Hplain : pg_varchar 20 (n_Status n) = Some (n_Status n))
    by (destruct Hst as [-> | ->]; (apply pg_varchar_plain; [apply (proj1 (Nat.leb_le _ _)); reflexivity|reflexivity])).
  apply admit_value_Ok in E4, E6. rewrite Hplain in E4. rewrite Ha in E6.
  injection E4 as <-. injection E6 as <-. by split.
Qed.

Lemma insert_steps n db db' k :
  fresh_note n → insert_notification n db = Ok db' → inserted (rows_of db !! k) (rows_of db' !! k) k.
Proof.
  intros Hn Hins. unfold insert_notification in Hins. bind_ok Hins.
  destruct (coerced_fresh n v Hn E) as ([Hst Ha] & Hsent & Hid).
  destruct (_ || _) eqn:Eu; [done|]. apply orb_false_elim in Eu as [Hnew _].
  destruct (fk_ok _ _); [|done]. injection Hins as <-. unfold inserted.
  rewrite !rows_of_lookup. cbn [notifications set_notifications]. rewrite lookup_insert.
  case_decide as Hk; [|by left]. right. apply bool_decide_eq_false in Hnew.
  apply eq_None_not_Some in Hnew. rewrite <- Hk, Hnew. split; [done|].
  exists (fixed_part v), (n_Status v). cbn. unfold life_of. by rewrite Ha, Hsent.
Qed.

Lemma inserts_steps ns : ∀ db db' k,
  Forall fresh_note ns → insert_notifications ns db = Ok db' → inserted (rows_of db !! k) (rows_of db' !! k) k.
Proof.
  induction ns as [|n ns IH]; intros db db' k Hf Hins; cbn in Hins; [injection Hins as <-; by left|].
  apply Forall_cons in Hf as [Hn Hf]. apply result_bind_Ok in Hins as (db1 & H1' & H2').
  specialize (IH _ _ k Hf H2'). destruct (insert_steps n db db1 k Hn H1') as [He|(Hnone & m & st & Hm & ? & ?)].
  - by rewrite <- He.
  - right. split; [done|]. destruct IH as [He|(Hx & _)]; [|congruence]. exists m, st. by rewrite He.
Qed.

Lemma inserted_step facts o o' k : inserted o o' k → life_step facts k o o'.
Proof. intros [->|(-> & n & st & -> & ? & ?)]; by constructor. Qed.

(** *** Marking as sent *)

Definition marked (facts : list fact) (k : uuid) (o o' : option Life) : Prop :=
  o' = o ∨ accepted_for facts k ∧ ∃ n st a s, o = Some (mkLife n st a s) ∧ o' = Some (mkLife n StatusSent a true).

Lemma mark_sent_steps facts now id m db db' k :
  accepted_for facts id → mark_sent now id m db = Ok db' → marked facts k (rows_of db !! k) (rows_of db' !! k).
Proof.
  intros Ha Hm. unfold mark_sent in Hm. bind_ok Hm. injection Hm as <-. unfold marked.
  rewrite !rows_of_lookup. cbn [notifications set_notifications]. rewrite lookup_update_ids.
  destruct (notifications db !! k) as [n|]; [|by left]. cbn.
  destruct (bool_decide (k ∈ [id])) eqn:Ek; [|by left]. apply bool_decide_eq_true in Ek.
  apply list_elem_of_singleton in Ek. subst. right. split; [done|]. by repeat eexists.
Qed.

Lemma mark_sent_batch_steps facts now rows : ∀ db db' k,
  (∀ e, e ∈ rows → accepted_for facts e.1) → mark_sent_batch now rows db = Ok db' →
  marked facts k (rows_of db !! k) (rows_of db' !! k).
Proof.
  induction rows as [|[id m] rows IH]; intros db db' k Ha Hm; cbn in Hm; [injection Hm as <-; by left|].
  apply result_bind_Ok in Hm as (db1 & Hm1 & Hm2).
  specialize (IH _ _ k (λ e He, Ha e (list_elem_of_further _ _ _ He)) Hm2).
  destruct (mark_sent_steps facts now id m db db1 k (Ha _ (list_elem_of_here _ _)) Hm1)
    as [He|(Hacc & n & st & a & s & Ho & Ho')].
  - by rewrite <- He.
  - right. split; [done|]. destruct IH as [He|(_ & n2 & st2 & a2 & s2 & Ho2 & Ho3)].
    + exists n, st, a, s. by rewrite He.
    + rewrite Ho' in Ho2. injection Ho2 as <- <- <- <-. by exists n, st, a, s.
Qed.

Lemma marked_step facts k o o' : marked facts k o o' → life_step facts k o o'.
Proof. intros [->|(? & n & st & a & s & -> & ->)]; by constructor. Qed.
(** *** Every statement *)

Lemma claimable_open n : claimable n = true → open_status (n_Status n).
Proof. unfold claimable, open_status. intros [Hc|Hc]%orb_true_iff; apply String.eqb_eq in Hc; auto. Qed.

Lemma claim_life facts k t n :
  claimable n = true → life_step facts k (Some (life_of n)) (Some (life_of (touch_status t StatusProcessing n))).
Proof. intros Hc. by apply life_claimed, claimable_open. Qed.

Lemma claim_steps facts ids t db k :
  life_step facts k (rows_of db !! k)
    (rows_of (set_notifications (update_ids ids claimable (touch_status t StatusProcessing)
                (notifications db)) db) !! k).
Proof.
  apply update_steps. intros k' n _ Hc _. by apply claim_life.
Qed.

Lemma sql_steps {X} (q : sql X) t db facts :
  permitted_sql facts q →
  ∀ k, life_step facts k (rows_of db !! k) (rows_of (exec_sql q t db).2 !! k).
Proof.
  intros Hp k. destruct q; cbn [exec_sql snd permitted_sql] in *; try constructor.
  - apply write_result_steps. intros db' Hr k'. eapply inserted_step, insert_steps; done.
  - apply write_result_steps. intros db' Hr k'. eapply inserted_step, inserts_steps; done.
  - apply write_result_steps. intros db' Hr. apply (update_status_steps _ _ _ _ _ _ Hr).
    intros k' n _. destruct Hp as [-> | ->]; constructor.
  - apply write_result_steps. intros db' Hr. bind_ok Hr. bind_ok Hr.
    apply (update_status_steps _ _ _ _ _ _ Hr). intros k' n Hk'. apply list_elem_of_singleton in Hk'. subst k'.
    apply admit_value_Ok in E0. unfold pg_int4 in E0. destruct (_ && _); [|done]. injection E0 as <-.
    destruct Hp as (m & Ha & [[-> Hlt]|[-> Hle]]); [by eapply life_retried|by eapply life_failed].
  - apply write_result_steps. intros db' Hr k'. by eapply marked_step, mark_sent_steps.
  - apply write_result_steps. intros db' Hr k'. by eapply marked_step, mark_sent_batch_steps.
  - destruct (notifications db !! id) as [n|] eqn:E; [|constructor].
    destruct (claimable n) eqn:Ec; [|constructor]. cbn [snd].
    rewrite (insert_update_ids id (touch_status t StatusProcessing) (notifications db) n E).
    apply update_steps. intros k' n' Hk' _ Hn'. apply list_elem_of_singleton in Hk'. subst k'.
    rewrite E in Hn'. injection Hn' as <-. by apply claim_life.
  - apply claim_steps.
  - apply write_result_steps. intros db' Hr. apply (update_status_steps _ _ _ _ _ _ Hr).
    intros k' n _. rewrite Hp. constructor.
  - apply write_result_steps. unfold insert_template. intros db' Hr. bind_ok Hr.
    destruct (_ || _); [done|]. injection Hr as <-. constructor.
  - apply write_result_steps. unfold update_template. intros db' Hr.
    destruct (templates db !! id); [bind_ok Hr; destruct (name_taken _ _ _); [done|]|];
      injection Hr as <-; constructor.
  - destruct (template_referenced id db); constructor.
  - apply write_result_steps. unfold insert_dead_letter. intros db' Hr.
    bind_ok Hr. bind_ok Hr. destruct (bool_decide _); [done|]. destruct (bool_decide _); [|done].
    injection Hr as <-. constructor.
Qed.

(** What a claim returns is what the row held, now "processing". *)
Lemma sql_justified {X} (q : sql X) t db facts f :
  db_wf db → f ∈ observed_sql q (exec_sql q t db).1 →
  justified facts (rows_of db) (rows_of (exec_sql q t db).2) f.
Proof.
  intros Hwf Hf.
  assert (Hclaim : ∀ n k db', notifications db !! k = Some n → claimable n = true →
    notifications db' !! k = Some (touch_status t StatusProcessing n) →
    justified facts (rows_of db) (rows_of db') (Claimed (touch_status t StatusProcessing n))).
  { intros n k db' Hn Hc Hn'. pose proof (ok_key _ _ (wf_rows _ Hwf _ _ Hn)) as Hid.
    exists (n_Status n), (n_Attempts n), (bool_decide (is_Some (n_SentAt n))).
    cbn [n_ID touch_status]. rewrite Hid, !rows_of_lookup, Hn, Hn'.
    split; [by apply claimable_open|]. by split. }
  destruct q; cbn [observed_sql] in Hf; try (by apply elem_of_nil in Hf); cbn [exec_sql] in Hf |- *.
  - destruct (notifications db !! id) as [n|] eqn:E; [|by apply elem_of_nil in Hf].
    destruct (claimable n) eqn:Ec; cbn [fst snd] in Hf |- *; [|by apply elem_of_nil in Hf].
    apply list_elem_of_singleton in Hf. subst f. apply (Hclaim n id); [done|done|].
    cbn. by rewrite lookup_insert_eq.
  - cbn [fst snd] in Hf |- *. apply list_elem_of_fmap in Hf as (n' & -> & Hn').
    apply list_elem_of_fmap in Hn' as (n & -> & Hn).
    apply list_elem_of_fmap in Hn as ([k n0] & -> & He). apply list_elem_of_filter in He as [[Hk Hc] He].
    cbn [fst snd] in *. rewrite pg_scan_perm in He. apply elem_of_map_to_list in He.
    apply (Hclaim n0 k); [done|done|]. cbn. rewrite lookup_update_ids, He. cbn.
    by rewrite bool_decide_true, Hc.
Qed.
End statements.

(** ** Effects and threads are steps of the machine *)

Section simulation.
Context {R : Type} `{RedisServer R} `{LuaNumber} `{PgLaws} `{TextTemplate} `{UUIDLib}.
Variable env : Env.

Lemma attempt_of_mono h facts k m a :
  (∀ f, f ∈ h → f ∈ facts) → attempt_of h k m a → attempt_of facts k m a.
Proof. intros Hsub (? & ? & ?). split_and!; auto. Qed.

Lemma accepted_for_mono h facts k :
  (∀ f, f ∈ h → f ∈ facts) → accepted_for h k → accepted_for facts k.
Proof. intros Hsub (m & t & ? & ? & ?). exists m, t. split_and!; auto. Qed.

Lemma permitted_warranted h facts {X} (e : eff X) :
  (∀ f, f ∈ h → f ∈ facts) → permitted h e → warranted facts e.
Proof.
  intros Hsub. destruct e as [? q| | | | |pl| | | | | |]; cbn; try done.
  - destruct q; cbn; try done.
    + intros (m & ? & ?). exists m. split; [by eapply attempt_of_mono|done].
    + by apply accepted_for_mono.
    + intros Ha e He. apply (accepted_for_mono h); auto.
  - intros [(n & t & ? & ->) _]. exists n, t. auto.
Qed.

(** An effect that leaves the rows alone and establishes nothing. *)
Lemma stutter rows facts : spec_step (rows, facts) (rows, facts ++ []).
Proof. constructor; [constructor|by intros f []%elem_of_nil]. Qed.

Lemma handle_steps {X} (e : eff X) (w : World R) facts :
  db_wf (w_db w) → warranted facts e →
  spec_step (rows_of (w_db w), facts)
    (rows_of (w_db (handle env e w).2), facts ++ observed e (handle env e w).1).
Proof.
  intros Hwf Hp. destruct e as [? q| | | | |pl| | | | | |].
  - cbn [handle warranted observed] in *.
    destruct (e_fault env (w_pos w)); cbn [faulty].
    + pose proof (sql_steps q (e_now env (w_pos w)) (w_db w) facts Hp) as Hs.
      pose proof (λ f, sql_justified q (e_now env (w_pos w)) (w_db w) facts f Hwf) as Hj.
      destruct (exec_sql q _ _) as [r db']. by constructor.
    + destruct q; apply stutter.
    + pose proof (sql_steps q (e_now env (w_pos w)) (w_db w) facts Hp) as Hs.
      destruct q; cbn [observed_sql fst]; (constructor; [exact Hs|by intros f []%elem_of_nil]).
  - cbn [handle]. destruct (faulty _ _ _) as [r rd]. apply stutter.
  - apply stutter.
  - apply stutter.
  - apply stutter.
  - cbn. constructor; [constructor|]. intros f Hf.
    assert (Hf' : f = Called pl ∨ f = Accepted pl).
    { destruct (e_http env _ pl) as [code|]; [destruct (400 <=? code)|]; cbn in Hf;
        rewrite ?elem_of_cons, ?elem_of_nil in Hf; tauto. }
    by destruct Hf' as [-> | ->].
  - cbn [handle]. destruct (exec_cb _ _ _). apply stutter.
  - cbn [handle]. destruct (exec_hub _ _). apply stutter.
  - cbn [handle]. destruct (incr _ _ _); apply stutter.
  - cbn [handle]. destruct (exec_cache _ _). apply stutter.
  - apply stutter.
  - apply stutter.
Qed.
End simulation.
