(* ===== verification/Processor.v ===== *)
(** * Processing messages (internal/worker/processor.go)

    The processor claims the notifications of a message or of a batch, sends them
    through the circuit breaker and settles each one: sent, scheduled for a retry
    or dead-lettered.  Log calls have no effect on the model's state. *)
From S2P Require Import Prelude Float64 GoLib GoJson GoTime Domain Retry Uuid Redis Postgres RateLimiter.
From S2P Require Import CircuitBreaker Hub Metrics TemplateEngine Effects Reference Queue Provider Repository.
From Stdlib Require Import ZArith Lia.
From stdpp Require Import base numbers list strings gmap fin_maps.

Open Scope Z_scope.

(** The fields the methods call through an interface or read: the provider and the
    retry strategy; repository, queue, hub and metrics are reached through effects. *)
Record Processor `{TextTemplate} := mkProcessor {
  p_provider : Provider;
  p_retrier : Strategy;
}.
Arguments mkProcessor {_} _ _.
Arguments p_provider {_} _.
Arguments p_retrier {_} _.

Section processor.
Context `{TextTemplate} `{UUIDLib}.

Definition NewProcessor (prov : Provider) (retrier : Strategy) : Processor := mkProcessor prov retrier.

Definition ack (msgs : list Message) : prog unit :=
  match msgs with
  | [] => mret tt
  | m :: _ => _ ← Ack (m_Channel m) msgs; mret tt
  end.

Definition event (type : string) (n : Notification) (status : Status) (err : string) : Event :=
  mkEvent type (uuid_String (n_ID n)) (n_Channel n) status err.

Definition sent_event (n : Notification) : Event := event "notification.sent" n StatusSent "".

Definition retry_message (attempts maxAttempts delay : Z) (errMsg : string) : string :=
  "retry " +:+ fmt_d attempts +:+ "/" +:+ fmt_d maxAttempts +:+ " in " +:+
  Duration_String delay +:+ ": " +:+ errMsg.

Definition handleFailure (p : Processor) (n : Notification) (msg : Message) (sendErr : error)
    : prog unit :=
  let attempts := wrap64 (n_Attempts n + 1) in
  let n := set_Attempts attempts n in
  let errMsg := Error sendErr in
  _ ← metrics_incr CFailed (n_Channel n);
  if n_MaxAttempts n <=? attempts then
    _ ← NotificationRepo_UpdateStatusWithError (n_ID n) StatusFailed errMsg attempts;
    _ ← DeadLetterHandler_Handle (n_ID n) errMsg attempts;
    _ ← ack [msg];
    trigger (EHub (HubBroadcast (event "notification.failed" n StatusFailed errMsg)))
  else
    r ← NotificationRepo_UpdateStatusWithError (n_ID n) StatusQueued errMsg attempts;
    match r with
    | Err _ => mret tt
    | Ok _ =>
        rnd ← trigger ERand;
        let delay := NextDelay (p_retrier p) attempts rnd in
        r2 ← EnqueueDelayed msg delay;
        match r2 with
        | Err _ => mret tt
        | Ok _ =>
            _ ← ack [msg];
            trigger (EHub (HubBroadcast (event "notification.retrying" n StatusQueued
              (retry_message attempts (n_MaxAttempts n) delay errMsg))))
        end
    end.

Definition Process (p : Processor) (msg : Message) : prog unit :=
  r ← NotificationRepo_GetAndMarkProcessing (m_NotificationID msg);
  match r with
  | Err err => if Is_NotFound err then ack [msg] else mret tt
  | Ok n =>
      s ← Send (p_provider p) n;
      match s with
      | Err err => handleFailure p n msg err
      | Ok providerMsgID =>
          u ← NotificationRepo_UpdateSent (n_ID n) providerMsgID;
          match u with
          | Err _ => mret tt
          | Ok _ =>
              _ ← ack [msg];
              _ ← metrics_incr CSent (n_Channel n);
              trigger (EHub (HubBroadcast (sent_event n)))
          end
      end
  end.

(** [msgMap]: a later message of the same notification replaces an earlier one; a
    missing key reads as the zero message. *)
Definition msg_map (msgs : list Message) : gmap uuid Message :=
  foldl (λ m msg, <[m_NotificationID msg := msg]> m) ∅ msgs.

(** The loop over the claimed notifications: those sent, with their provider ids. *)
Fixpoint send_each (p : Processor) (msgMap : gmap uuid Message) (ns : list Notification)
    : prog (list (Notification * string)) :=
  match ns with
  | [] => mret []
  | n :: ns' =>
      s ← Send (p_provider p) n;
      match s with
      | Err err =>
          _ ← handleFailure p n (default zero_message (msgMap !! n_ID n)) err;
          send_each p msgMap ns'
      | Ok providerMsgID =>
          _ ← metrics_incr CSent (n_Channel n);
          rest ← send_each p msgMap ns';
          mret ((n, providerMsgID) :: rest)
      end
  end.

Definition ProcessBatch (p : Processor) (msgs : list Message) : prog unit :=
  match msgs with
  | [] => mret tt
  | _ =>
      r ← NotificationRepo_GetAndMarkProcessingBatch (m_NotificationID <$> msgs);
      match r with
      | Err _ => mret tt
      | Ok [] => mret tt
      | Ok notifications =>
          sent ← send_each p (msg_map msgs) notifications;
          _ ← match sent with
              | [] => mret tt
              | _ => _ ← NotificationRepo_UpdateBatchSent ((λ e, n_ID e.1) <$> sent) (snd <$> sent); mret tt
              end;
          _ ← ack msgs;
          match sent with
          | [] => mret tt
          | _ => trigger (EHub (HubBroadcastBatch ((λ e, sent_event e.1) <$> sent)))
          end
      end
  end.
End processor.

(** ** Settling one notification *)

Section outcomes.
Context {R : Type} `{RedisLaws R} `{LuaNumber} `{PgLaws} `{TextTemplate} `{UUIDLaws}.
Variable env : Env.
Variable p : Processor.
(** The provider meets its specification when the breaker has this timeout. *)
Variable timeout : Z.
Context `{!ProviderSpec env timeout (p_provider p)}.

Lemma ack_one_run msg raw (w : World R) :
  quiet env → Marshal msg = Ok raw →
  run env (ack [msg]) w =
    (Some tt, mkWorld (w_db w) (ZREM (processing_key (m_Channel msg)) [raw] (w_redis w))
                (S (w_pos w)) (w_proc w)).
Proof.
  intros Hq Hm. unfold ack. rewrite run_bind, (Ack_run env _ [msg] [raw]); try done.
  cbn [marshal_all]. by rewrite Hm.
Qed.

Lemma metrics_incr_run k ch (w : World R) :
  metrics_wf (p_metrics (w_proc w)) → Channel_Valid ch = true →
  ∃ m, incr k ch (p_metrics (w_proc w)) = Some m ∧ metrics_wf m ∧
    run env (metrics_incr k ch) w = (Some tt, tick (set_metrics m w)).
Proof.
  intros Hwf Hch. destruct (incr_ok k ch _ Hwf Hch) as (m & Hm & Hwf').
  exists m. split_and!; [done|done|]. unfold metrics_incr. rewrite run_trigger_bind.
  cbn [handle]. rewrite Hm. done.
Qed.

Lemma UpdateStatusWithError_run id st err attempts (w : World R) :
  quiet env → Status_Check st = true → pg_text err = Some err → - 2 ^ 31 ≤ attempts < 2 ^ 31 →
  run env (NotificationRepo_UpdateStatusWithError id st err attempts) w =
    (Some (Ok tt),
     mkWorld (update_row id (touch_error (e_now env (w_pos w)) st err attempts) (w_db w))
       (w_redis w) (S (w_pos w)) (w_proc w)).
Proof.
  intros Hq Hst Htext Hatt. unfold NotificationRepo_UpdateStatusWithError. rewrite run_sql_1 by done.
  unfold after_sql, sql_at. cbn [exec_sql]. rewrite Htext. unfold pg_int4.
  replace (- 2 ^ 31 <=? attempts) with true by (symmetry; apply Z.leb_le; lia).
  replace (attempts <? 2 ^ 31) with true by (symmetry; apply Z.ltb_lt; lia).
  cbn [andb admit_value mbind result_bind]. unfold update_status_where. by rewrite Hst.
Qed.

Lemma broadcast_run e (w : World R) :
  run env (trigger (EHub (HubBroadcast e))) w =
    (Some tt, tick (set_hub (Broadcast e (p_hub (w_proc w))) w)).
Proof. reflexivity. Qed.

(** What a processed failure may assume about the claimed row. *)
Record retriable (n : Notification) (err : error) : Prop := {
  rt_channel : Channel_Valid (n_Channel n) = true;
  rt_attempts : 0 ≤ n_Attempts n < n_MaxAttempts n;
  rt_max : n_MaxAttempts n < 2 ^ 31;
  rt_text : pg_text (Error err) = Some (Error err);
}.

(** A failure with attempts left: the row goes back to the queue's state with one
    more attempt, the message to the delayed set. *)
Lemma handleFailure_retry n msg raw err (w : World R) :
  quiet env → metrics_wf (p_metrics (w_proc w)) → retriable n err → Marshal msg = Ok raw →
  n_Attempts n + 1 < n_MaxAttempts n →
  ∃ w' i, run env (handleFailure p n msg err) w = (Some tt, w') ∧
    w_db w' = update_row (n_ID n) (touch_error (e_now env i) StatusQueued (Error err) (n_Attempts n + 1)) (w_db w) ∧
    w_redis w' = ZREM (processing_key (m_Channel msg)) [raw]
      (ZADD retryDelayedKey
        (f64 (UnixNano (e_now env (2 + i) + NextDelay (p_retrier p) (n_Attempts n + 1) (e_rand env (1 + i)))))
        raw (w_redis w)) ∧
    p_cb (w_proc w') = p_cb (w_proc w) ∧ metrics_wf (p_metrics (w_proc w')).
Proof.
  intros Hq Hwf [Hch Hatt Hmax Htext] Hm Hlt. unfold handleFailure.
  rewrite wrap64_id by (unfold in_int64, int64_min, int64_max; lia).
  destruct (metrics_incr_run CFailed (n_Channel n) w Hwf Hch) as (m & _ & Hwf' & Hincr).
  rewrite run_bind. cbn [n_Channel set_Attempts n_MaxAttempts n_ID]. rewrite Hincr.
  replace (n_MaxAttempts n <=? n_Attempts n + 1) with false by (symmetry; apply Z.leb_gt; lia).
  rewrite run_bind, UpdateStatusWithError_run by (done || lia).
  rewrite run_trigger_bind. cbn [handle fst snd]. cbv zeta.
  rewrite run_bind, (EnqueueDelayed_run env _ raw) by done.
  rewrite run_bind, (ack_one_run _ raw) by done. rewrite broadcast_run.
  eexists _, (S (w_pos w)). split; [reflexivity|]. done.
Qed.

(** The last failure: the row is failed, a dead letter is attempted, the message
    acknowledged. *)
Lemma handleFailure_exhausted n msg raw err (w : World R) :
  quiet env → metrics_wf (p_metrics (w_proc w)) → retriable n err → Marshal msg = Ok raw →
  n_MaxAttempts n ≤ n_Attempts n + 1 →
  ∃ w' i, run env (handleFailure p n msg err) w = (Some tt, w') ∧
    (let db1 := update_row (n_ID n) (touch_error (e_now env i) StatusFailed (Error err) (n_Attempts n + 1)) (w_db w) in
     w_db w' = (write_result (insert_dead_letter
        (mkDeadLetter (e_uuid env (1 + i)) (n_ID n) (Error err) (n_Attempts n + 1) (e_now env (2 + i))) db1) db1).2) ∧
    w_redis w' = ZREM (processing_key (m_Channel msg)) [raw] (w_redis w) ∧
    p_cb (w_proc w') = p_cb (w_proc w) ∧ metrics_wf (p_metrics (w_proc w')).
Proof.
  intros Hq Hwf [Hch Hatt Hmax Htext] Hm Hge. unfold handleFailure.
  rewrite wrap64_id by (unfold in_int64, int64_min, int64_max; lia).
  destruct (metrics_incr_run CFailed (n_Channel n) w Hwf Hch) as (m & _ & Hwf' & Hincr).
  rewrite run_bind. cbn [n_Channel set_Attempts n_MaxAttempts n_ID]. rewrite Hincr.
  replace (n_MaxAttempts n <=? n_Attempts n + 1) with true by (symmetry; apply Z.leb_le; lia).
  rewrite run_bind, UpdateStatusWithError_run by (done || lia).
  rewrite run_bind. unfold DeadLetterHandler_Handle. rewrite !run_trigger_bind.
  cbn [handle fst snd]. rewrite Hq. cbn [faulty].
  destruct (exec_sql _ _ _) as [res db2] eqn:Edl. cbn [fst snd mret prog_ret run].
  rewrite run_bind, (ack_one_run _ raw) by done. rewrite broadcast_run.
  eexists _, (S (w_pos w)). split; [reflexivity|]. split_and!; try done.
  cbn [exec_sql] in Edl. cbn [tick set_hub set_proc set_db w_db w_pos w_redis w_proc].
  cbn [tick set_metrics set_proc w_db w_pos] in Edl.
  match goal with |- db2 = ?r.2 => assert (Hr : r = (res, db2)); [|by rewrite Hr] end.
  exact Edl.
Qed.
(** *** One failure, summarised *)

(** The row a failed attempt leaves. *)
Definition failed_row (t : Z) (err : error) (n : Notification) : Notification → Notification :=
  touch_error t (if n_MaxAttempts n <=? n_Attempts n + 1 then StatusFailed else StatusQueued)
    (Error err) (n_Attempts n + 1).

(** The sorted sets after settling: the queues are not touched, delayed retries
    stay, nothing new is in a processing set. *)
Record settles_redis (r r' : R) : Prop := {
  sr_queue ch : zset r' (queue_key ch) = zset r (queue_key ch);
  sr_delayed x : is_Some (zset r retryDelayedKey !! x) → is_Some (zset r' retryDelayedKey !! x);
  sr_processing ch x : zset r (processing_key ch) !! x = None → zset r' (processing_key ch) !! x = None;
}.

#[local] Instance settles_redis_preorder : PreOrder settles_redis.
Proof.
  split; [by split|]. intros r1 r2 r3 [q1 d1 p1] [q2 d2 p2]. split; [congruence|auto|auto].
Qed.

Lemma settles_ZREM ch raws (r : R) : settles_redis r (ZREM (processing_key ch) raws r).
Proof.
  split.
  - intros ch'. apply map_eq. intros x. rewrite zset_ZREM, decide_False; [done|].
    intros [Hk _]. by apply processing_queue_ne in Hk.
  - intros x Hx. rewrite zset_ZREM, decide_False; [done|]. by intros [Hk _].
  - intros ch' x Hx. rewrite zset_ZREM. by case_decide.
Qed.

Lemma zset_ZREM_one k raw (r : R) : zset (ZREM k [raw] r) k !! raw = None.
Proof. rewrite zset_ZREM, decide_True; [done|]. split; [done|]. by apply list_elem_of_singleton. Qed.

Lemma settles_ZADD score raw (r : R) : settles_redis r (ZADD retryDelayedKey score raw r).
Proof.
  split.
  - intros ch. rewrite zset_ZADD, decide_False; [done|]. apply retry_queue_ne.
  - intros x Hx. rewrite zset_ZADD. case_decide; [|done]. rewrite lookup_insert. by case_decide.
  - intros ch x Hx. by rewrite zset_ZADD, decide_False.
Qed.

Lemma dead_letter_notifications d db :
  notifications (write_result (insert_dead_letter d db) db).2 = notifications db.
Proof.
  unfold insert_dead_letter. destruct (admit_value (pg_text (d_LastError d))); [|done]. cbn.
  destruct (admit_value (pg_int4 (d_Attempts d))); [|done]. cbn. by repeat case_bool.
Qed.

Lemma handleFailure_settles n msg raw err (w : World R) :
  quiet env → metrics_wf (p_metrics (w_proc w)) → retriable n err → Marshal msg = Ok raw →
  ∃ w' t, run env (handleFailure p n msg err) w = (Some tt, w') ∧
    (∀ k, notifications (w_db w') !! k =
       (λ m, if decide (k = n_ID n) then failed_row t err n m else m) <$> notifications (w_db w) !! k) ∧
    settles_redis (w_redis w) (w_redis w') ∧
    (n_Attempts n + 1 < n_MaxAttempts n → is_Some (zset (w_redis w') retryDelayedKey !! raw)) ∧
    zset (w_redis w') (processing_key (m_Channel msg)) !! raw = None ∧
    p_cb (w_proc w') = p_cb (w_proc w) ∧ metrics_wf (p_metrics (w_proc w')).
Proof.
  intros Hq Hwf Hrt Hm. unfold failed_row.
  destruct (Z_lt_le_dec (n_Attempts n + 1) (n_MaxAttempts n)) as [Hlt|Hge].
  - destruct (handleFailure_retry n msg raw err w Hq Hwf Hrt Hm Hlt) as (w' & i & Hrun & Hdb & Hr & Hcb & Hmt).
    exists w', (e_now env i). split; [done|].
    replace (n_MaxAttempts n <=? n_Attempts n + 1) with false by (symmetry; apply Z.leb_gt; lia).
    split_and!; try done.
    + intros k. rewrite Hdb. apply lookup_update_row.
    + rewrite Hr. etransitivity; [apply settles_ZADD|apply settles_ZREM].
    + intros _. rewrite Hr, zset_ZREM, decide_False by (by intros [Hk _]).
      rewrite zset_ZADD, decide_True, lookup_insert_eq by done. done.
    + rewrite Hr. apply zset_ZREM_one.
  - destruct (handleFailure_exhausted n msg raw err w Hq Hwf Hrt Hm Hge) as (w' & i & Hrun & Hdb & Hr & Hcb & Hmt).
    exists w', (e_now env i). split; [done|].
    replace (n_MaxAttempts n <=? n_Attempts n + 1) with true by (symmetry; apply Z.leb_le; lia).
    split_and!; try done.
    + intros k. rewrite Hdb, dead_letter_notifications. apply lookup_update_row.
    + rewrite Hr. apply settles_ZREM.
    + lia.
    + rewrite Hr. apply zset_ZREM_one.
Qed.

(** *** Sending one notification *)

(** The database takes the texts the worker writes: error messages and UUIDs. *)
Definition texts_ok : Prop :=
  (∀ err, pg_text (Error err) = Some (Error err)) ∧
  (∀ u, pg_varchar 255 (uuid_String u) = Some (uuid_String u)).

(** Rows the worker may claim: attempts left, as every row is created and every
    failure leaves it. *)
Definition workable (n : Notification) : Prop :=
  Channel_Valid (n_Channel n) = true ∧ 0 ≤ n_Attempts n < n_MaxAttempts n ∧ n_MaxAttempts n < 2 ^ 31.

(** The row [n], claimed at [t0], after the provider's answer [r]. *)
Definition outcome (r : result error string) (n n' : Notification) : Prop :=
  match r with
  | Ok pid => ∃ t, n' = touch_sent t pid n
  | Err err => ∃ t, n' = failed_row t err n n
  end.

Lemma GetAndMarkProcessing_run id n (w : World R) :
  quiet env → notifications (w_db w) !! id = Some n → claimable n = true →
  run env (NotificationRepo_GetAndMarkProcessing id) w =
    (Some (Ok (touch_status (e_now env (w_pos w)) StatusProcessing n)),
     mkWorld (set_notifications (<[id := touch_status (e_now env (w_pos w)) StatusProcessing n]>
                (notifications (w_db w))) (w_db w)) (w_redis w) (S (w_pos w)) (w_proc w)).
Proof.
  intros Hq Hn Hc. unfold NotificationRepo_GetAndMarkProcessing. rewrite run_sql by done.
  unfold after_sql, sql_at. cbn [exec_sql]. rewrite Hn, Hc. reflexivity.
Qed.

Lemma UpdateSent_run id u (w : World R) :
  quiet env → texts_ok →
  run env (NotificationRepo_UpdateSent id (uuid_String u)) w =
    (Some (Ok tt), mkWorld (update_row id (touch_sent (e_now env (w_pos w)) (uuid_String u)) (w_db w))
       (w_redis w) (S (w_pos w)) (w_proc w)).
Proof.
  intros Hq [_ Ht]. unfold NotificationRepo_UpdateSent. rewrite run_sql_1 by done.
  unfold after_sql, sql_at. cbn [exec_sql]. unfold mark_sent. rewrite Ht. reflexivity.
Qed.

Lemma workable_retriable n err t st :
  texts_ok → workable n → retriable (touch_status t st n) err.
Proof. intros [Ht _] (Hc & Ha & Hm). by split. Qed.

(** One row claimed and then rewritten, the others as they were. *)
Lemma claimed_then_rewritten id n0 (g : Notification → Notification) (t t2 t3 : gmap uuid Notification) :
  (∀ k, t2 !! k = if decide (id = k) then Some n0 else t !! k) →
  (∀ k, t3 !! k = (λ m, if decide (k = id) then g m else m) <$> t2 !! k) →
  t3 !! id = Some (g n0) ∧ ∀ k, k ≠ id → t3 !! k = t !! k.
Proof.
  intros Ht2 Ht3. split.
  - rewrite Ht3, Ht2, decide_True by done. cbn. by rewrite decide_True.
  - intros k Hk. rewrite Ht3, Ht2, decide_False by done. destruct (t !! k); [|done]. cbn. by rewrite decide_False.
Qed.

(** [Process], the path of a single message, settles it in one pass.  The row is
    claimed and ends as the provider answered: sent with the provider's id; or, on
    a failure, queued with one more attempt and the message due for a retry; or
    failed when that was the last attempt.  The message leaves the processing set,
    no other notification changes, the queues are untouched. *)
Theorem Process_settles msg raw n (w : World R) :
  quiet env → texts_ok → cb_timeout (p_cb (w_proc w)) = timeout →
  metrics_wf (p_metrics (w_proc w)) → Marshal msg = Ok raw →
  notifications (w_db w) !! m_NotificationID msg = Some n → n_ID n = m_NotificationID msg →
  claimable n = true → workable n →
  ∃ w' t0 r n', run env (Process p msg) w = (Some tt, w') ∧
    notifications (w_db w') !! m_NotificationID msg = Some n' ∧
    (let claimed := (run env (NotificationRepo_GetAndMarkProcessing (m_NotificationID msg)) w).2 in
     (run env (Send (p_provider p) (touch_status t0 StatusProcessing n)) claimed).1 = Some r) ∧
    outcome r (touch_status t0 StatusProcessing n) n' ∧
    (n_Status n' = StatusQueued → n_Attempts n' = n_Attempts n + 1 ∧
       is_Some (zset (w_redis w') retryDelayedKey !! raw)) ∧
    n_Attempts n' ≤ n_MaxAttempts n' ∧
    zset (w_redis w') (processing_key (m_Channel msg)) !! raw = None ∧
    (∀ k, k ≠ m_NotificationID msg → notifications (w_db w') !! k = notifications (w_db w) !! k) ∧
    (∀ ch, zset (w_redis w') (queue_key ch) = zset (w_redis w) (queue_key ch)).
Proof.
  intros Hq Htx Hto Hmw Hm Hn Hid Hcl Hwk. unfold Process.
  set (t0 := e_now env (w_pos w)). set (n0 := touch_status t0 StatusProcessing n).
  rewrite run_bind, (GetAndMarkProcessing_run _ n) by done. fold t0 n0.
  set (w1 := mkWorld _ _ _ _). rewrite run_bind.
  destruct (Send_frame n0 w1 Hto) as (r & w2 & Hsend & Hdb2 & Hr2 & Hm2 & _ & _ & Hu). rewrite Hsend.
  assert (Hrow : ∀ k, notifications (w_db w2) !! k =
    if decide (m_NotificationID msg = k) then Some n0 else notifications (w_db w) !! k).
  { intros k. rewrite Hdb2. unfold w1. cbn. by rewrite lookup_insert. }
  pose proof Hwk as (_ & Hatt & _). destruct r as [pid|err].
  - destruct (Hu pid eq_refl) as [u ->].
    rewrite run_bind, UpdateSent_run by done. rewrite run_bind, (ack_one_run _ raw) by done.
    set (w3 := mkWorld _ _ _ _).
    destruct (metrics_incr_run CSent (n_Channel n0) w3) as (mt & _ & _ & Hincr); [cbn; by rewrite Hm2|by apply Hwk|].
    rewrite run_bind, Hincr, broadcast_run.
    destruct (claimed_then_rewritten (m_NotificationID msg) n0 (touch_sent (e_now env (w_pos w2)) (uuid_String u))
      (notifications (w_db w)) _ (notifications (w_db w3)) Hrow) as [Hown Hothers].
    { intros k. unfold w3. cbn [w_db]. rewrite lookup_update_row. cbn [n0 n_ID touch_status]. by rewrite Hid. }
    eexists _, t0, (Ok (uuid_String u)), _. split; [reflexivity|]. split_and!;
      [exact Hown|cbn [snd]; fold n0; by rewrite Hsend|by eexists|done|cbn; lia|apply zset_ZREM_one|exact Hothers|].
    intros ch. etransitivity; [apply (sr_queue _ _ (settles_ZREM _ _ _))|]. by rewrite Hr2.
  - destruct (handleFailure_settles n0 msg raw err w2 Hq) as (w3 & t & Hrun & Hrow3 & Hsr & Hdl & Hproc & _);
      [by rewrite Hm2|by apply workable_retriable|done|]. rewrite Hrun.
    destruct (claimed_then_rewritten (m_NotificationID msg) n0 (failed_row t err n0)
      (notifications (w_db w)) _ (notifications (w_db w3)) Hrow) as [Hown Hothers].
    { intros k. rewrite Hrow3. cbn [n0 n_ID touch_status]. by rewrite Hid. }
    exists w3, t0, (Err err), (failed_row t err n0 n0). split; [done|]. split_and!;
      [exact Hown|cbn [snd]; fold n0; by rewrite Hsend|by exists t| |cbn; lia|done|exact Hothers|].
    + intros Hst. unfold failed_row in *. cbn in Hst. destruct (_ <=? _) eqn:E in Hst; [done|].
      cbn. split; [done|]. apply Hdl. zbool. cbn. lia.
    + intros ch. rewrite (sr_queue _ _ Hsr). by rewrite Hr2.
Qed.
(** *** A batch *)

Lemma msg_map_lookup msgs : ∀ (acc : gmap uuid Message) k,
  (k ∈ m_NotificationID <$> msgs →
     ∃ m, foldl (λ m msg, <[m_NotificationID msg := msg]> m) acc msgs !! k = Some m ∧
          m ∈ msgs ∧ m_NotificationID m = k) ∧
  (k ∉ m_NotificationID <$> msgs →
     foldl (λ m msg, <[m_NotificationID msg := msg]> m) acc msgs !! k = acc !! k).
Proof.
  induction msgs as [|msg msgs IH]; intros acc k; [by split; [intros []%elem_of_nil|]|].
  cbn [fmap list_fmap foldl]. destruct (IH (<[m_NotificationID msg:=msg]> acc) k) as [IH1 IH2].
  destruct (decide (k ∈ m_NotificationID <$> msgs)) as [Hin|Hin].
  - split.
    + intros _. destruct (IH1 Hin) as (m & Hm & Hmem & Hid). exists m. split_and!; [done|by right|done].
    + rewrite not_elem_of_cons. tauto.
  - rewrite IH2 by done. split.
    + intros [->|]%elem_of_cons; [|done]. exists msg. rewrite lookup_insert_eq. split_and!; [done|left|done].
    + rewrite not_elem_of_cons. intros [Hne _]. by rewrite lookup_insert_ne.
Qed.

Lemma mark_sent_batch_run now rows : ∀ db,
  texts_ok → (∀ e, e ∈ rows → ∃ u, e.2 = uuid_String u) → NoDup rows.*1 →
  ∃ db', mark_sent_batch now rows db = Ok db' ∧
    (∀ k, k ∉ rows.*1 → notifications db' !! k = notifications db !! k) ∧
    (∀ k pid, (k, pid) ∈ rows →
       notifications db' !! k = touch_sent now pid <$> notifications db !! k).
Proof.
  induction rows as [|[id pid] rows IH]; intros db Htx Hu Hnd.
  { exists db. split_and!; [done|done|]. by intros k pid []%elem_of_nil. }
  apply NoDup_cons in Hnd as [Hid Hnd].
  destruct (Hu (id, pid)) as [u Hpid]; [left|]. cbn in Hpid. subst pid.
  destruct (IH (update_row id (touch_sent now (uuid_String u)) db) Htx) as (db' & Hrun & Hout & Hin);
    [intros e He; apply Hu; by right|done|].
  exists db'. cbn [mark_sent_batch]. unfold mark_sent. rewrite (proj2 Htx). cbn [admit_value mbind result_bind].
  split_and!; [exact Hrun| |].
  - cbn [fmap list_fmap]. intros k. rewrite not_elem_of_cons. intros [Hk Hk'].
    rewrite Hout, lookup_update_row by done. destruct (notifications db !! k); [|done]. cbn.
    by rewrite decide_False.
  - intros k pid [[= -> ->]|Hk]%elem_of_cons.
    + rewrite Hout, lookup_update_row by done. destruct (notifications db !! id); [|done]. cbn.
      by rewrite decide_True.
    + rewrite (Hin k pid) by done. rewrite lookup_update_row.
      destruct (notifications db !! k); [|done]. cbn. rewrite decide_False; [done|].
      intros ->. apply Hid. apply list_elem_of_fmap. by exists (id, pid).
Qed.

(** What the loop knows of each claimed notification. *)
Definition in_loop (mm : gmap uuid Message) (w : World R) (n : Notification) : Prop :=
  notifications (w_db w) !! n_ID n = Some n ∧ (∀ err, retriable n err) ∧
  ∃ msg raw, mm !! n_ID n = Some msg ∧ Marshal msg = Ok raw.

(** What it leaves: not sent, the failed row is written and a message with
    attempts left is due for a retry. *)
Definition loop_failed (mm : gmap uuid Message) (w' : World R) (n : Notification) : Prop :=
  ∃ t err, notifications (w_db w') !! n_ID n = Some (failed_row t err n n) ∧
    (n_Attempts n + 1 < n_MaxAttempts n → ∃ msg raw, mm !! n_ID n = Some msg ∧
       Marshal msg = Ok raw ∧ is_Some (zset (w_redis w') retryDelayedKey !! raw)).

(** What the loop over [ns] leaves: a row in [sent] is untouched, the others failed. *)
Record looped (mm : gmap uuid Message) (ns : list Notification) (w w' : World R)
    (sent : list (Notification * string)) : Prop := {
  lo_redis : settles_redis (w_redis w) (w_redis w');
  lo_metrics : metrics_wf (p_metrics (w_proc w'));
  lo_sent e : e ∈ sent → e.1 ∈ ns ∧ ∃ u, e.2 = uuid_String u;
  lo_nodup : NoDup ((λ e, n_ID e.1) <$> sent);
  lo_other k : k ∉ n_ID <$> ns → notifications (w_db w') !! k = notifications (w_db w) !! k;
  lo_rows n : n ∈ ns →
    (∃ pid, (n, pid) ∈ sent ∧ notifications (w_db w') !! n_ID n = Some n) ∨
    ((n_ID n ∉ (λ e, n_ID e.1) <$> sent) ∧ loop_failed mm w' n);
}.

Lemma looped_nil mm (w : World R) : metrics_wf (p_metrics (w_proc w)) → looped mm [] w w [].
Proof. intros Hm. split; try done; first [by intros ? []%elem_of_nil | constructor]. Qed.

(** One more notification in front: sent, *)
Lemma looped_sent mm n ns u (w w1 w' : World R) sent :
  (∀ n', n' ∈ ns → n_ID n' ≠ n_ID n) → notifications (w_db w) !! n_ID n = Some n →
  w_db w1 = w_db w → w_redis w1 = w_redis w → looped mm ns w1 w' sent →
  looped mm (n :: ns) w w' ((n, uuid_String u) :: sent).
Proof.
  intros Hne Hn Hdb Hr [Hsr Hm Hsent Hnd Hout Hin].
  assert (Hid : n_ID n ∉ n_ID <$> ns) by (intros (n' & Heq & Hn')%list_elem_of_fmap; by apply (Hne n')).
  split; try done.
  - by rewrite <- Hr.
  - intros e [->|He]%elem_of_cons; [split; [left|by eexists]|].
    destruct (Hsent e He). split; [by right|done].
  - cbn [fmap list_fmap]. apply NoDup_cons. split; [|done].
    intros (e & Heq & He)%list_elem_of_fmap. destruct (Hsent e He) as [He' _]. by apply (Hne e.1).
  - intros k. cbn [fmap list_fmap]. rewrite not_elem_of_cons. intros [_ Hk]. by rewrite Hout, Hdb.
  - intros n' [->|Hn']%elem_of_cons.
    + left. exists (uuid_String u). split; [left|]. by rewrite Hout, Hdb.
    + destruct (Hin n' Hn') as [(pid & Hpid & Hrow)|[Hns Hf]]; [left|right].
      * exists pid. split; [by right|done].
      * split; [|done]. cbn [fmap list_fmap]. rewrite not_elem_of_cons. split; [by apply Hne|done].
Qed.

(** or failed. *)
Lemma looped_failed mm n ns (w w2 w' : World R) sent t err :
  (∀ n', n' ∈ ns → n_ID n' ≠ n_ID n) → settles_redis (w_redis w) (w_redis w2) →
  (∀ k, k ≠ n_ID n → notifications (w_db w2) !! k = notifications (w_db w) !! k) →
  notifications (w_db w2) !! n_ID n = Some (failed_row t err n n) →
  (n_Attempts n + 1 < n_MaxAttempts n → ∃ msg raw, mm !! n_ID n = Some msg ∧
     Marshal msg = Ok raw ∧ is_Some (zset (w_redis w2) retryDelayedKey !! raw)) →
  looped mm ns w2 w' sent → looped mm (n :: ns) w w' sent.
Proof.
  intros Hne Hsr2 Hother Hrow Hdl [Hsr Hm Hsent Hnd Hout Hin].
  assert (Hid : n_ID n ∉ n_ID <$> ns) by (intros (n' & Heq & Hn')%list_elem_of_fmap; by apply (Hne n')).
  split; try done.
  - by etransitivity.
  - intros e He. destruct (Hsent e He). split; [by right|done].
  - intros k. cbn [fmap list_fmap]. rewrite not_elem_of_cons. intros [Hk Hk']. by rewrite Hout, Hother.
  - intros n' [->|Hn']%elem_of_cons.
    + right. split.
      { intros (e & Heq & He)%list_elem_of_fmap. destruct (Hsent e He) as [He' _]. by apply (Hne e.1). }
      exists t, err. split; [by rewrite Hout|].
      intros Hlt. destruct (Hdl Hlt) as (msg & raw & ? & ? & ?). exists msg, raw. split_and!; [done|done|].
      by apply (sr_delayed _ _ Hsr).
    + destruct (Hin n' Hn') as [(pid & Hpid & Hr)|[Hns Hf]]; [left; by exists pid|right; done].
Qed.

Lemma send_each_settles mm ns : ∀ w : World R,
  quiet env → cb_timeout (p_cb (w_proc w)) = timeout →
  metrics_wf (p_metrics (w_proc w)) → NoDup (n_ID <$> ns) → Forall (in_loop mm w) ns →
  ∃ w' sent, run env (send_each p mm ns) w = (Some sent, w') ∧ looped mm ns w w' sent.
Proof.
  induction ns as [|n ns IH]; intros w Hq Hto Hmw Hnd Hall.
  { exists w, []. split; [done|]. by apply looped_nil. }
  cbn [fmap list_fmap] in Hnd. apply NoDup_cons in Hnd as [Hid Hnd].
  apply Forall_cons in Hall as [(Hn & Hrt & msg & raw & Hmm & Hm) Hall].
  assert (Hne : ∀ n', n' ∈ ns → n_ID n' ≠ n_ID n).
  { intros n' Hn' Heq. apply Hid. rewrite <- Heq. apply list_elem_of_fmap. by exists n'. }
  cbn [send_each]. rewrite run_bind.
  destruct (Send_frame n w Hto) as (r & w1 & Hsend & Hdb1 & Hr1 & Hm1 & _ & Hto1 & Hu). rewrite Hsend.
  destruct r as [pid|err].
  - destruct (Hu pid eq_refl) as [u ->].
    destruct (metrics_incr_run CSent (n_Channel n) w1) as (mt & _ & Hmt & Hincr);
      [by rewrite Hm1|by apply (rt_channel n ErrNotFound)|].
    rewrite run_bind, Hincr, run_bind.
    destruct (IH (tick (set_metrics mt w1)) Hq) as (w' & sent & Hrun & Hlo); [done|done|done| |].
    { eapply Forall_impl; [exact Hall|]. intros n' (Hn' & ?). split; [|done]. cbn. by rewrite Hdb1. }
    rewrite Hrun. exists w', ((n, uuid_String u) :: sent). split; [done|].
    by apply (looped_sent mm n ns u w (tick (set_metrics mt w1))).
  - rewrite Hmm. cbn [default from_option id]. rewrite run_bind.
    destruct (handleFailure_settles n msg raw err w1 Hq) as (w2 & t & Hrun2 & Hrow2 & Hsr2 & Hdl & _ & Hcb2 & Hm2);
      [by rewrite Hm1|done|done|]. rewrite Hrun2.
    assert (Hother : ∀ k, k ≠ n_ID n → notifications (w_db w2) !! k = notifications (w_db w) !! k).
    { intros k Hk. rewrite Hrow2, Hdb1. destruct (notifications (w_db w) !! k); [|done]. cbn. by rewrite decide_False. }
    destruct (IH w2 Hq) as (w' & sent & Hrun & Hlo); [by rewrite Hcb2|done|done| |].
    { apply Forall_forall. intros n' Hn'. rewrite Forall_forall in Hall.
      destruct (Hall n' Hn') as (Hrow' & ?). split; [|done]. rewrite Hother by (by apply Hne). done. }
    exists w', sent. split; [done|]. apply (looped_failed mm n ns w w2 w' sent t err); try done.
    + by rewrite <- Hr1.
    + rewrite Hrow2, Hdb1, Hn. cbn. by rewrite decide_True.
    + intros Hlt. exists msg, raw. split_and!; [done|done|]. by apply Hdl.
Qed.

(** The one UPDATE for everything sent. *)
Lemma update_sent_run (sent : list (Notification * string)) (w : World R) :
  quiet env → texts_ok → (∀ e, e ∈ sent → ∃ u, e.2 = uuid_String u) →
  NoDup ((λ e, n_ID e.1) <$> sent) →
  ∃ w' t, run env (match sent with
      | [] => mret tt
      | _ => _ ← NotificationRepo_UpdateBatchSent ((λ e, n_ID e.1) <$> sent) (snd <$> sent); mret tt
      end) w = (Some tt, w') ∧ w_redis w' = w_redis w ∧ w_proc w' = w_proc w ∧
    (∀ k, k ∉ (λ e, n_ID e.1) <$> sent → notifications (w_db w') !! k = notifications (w_db w) !! k) ∧
    (∀ e, e ∈ sent → notifications (w_db w') !! n_ID e.1 = touch_sent t e.2 <$> notifications (w_db w) !! n_ID e.1).
Proof.
  intros Hq Htx Hu Hnd. destruct sent as [|e0 sent0].
  { exists w, 0. split_and!; try done. by intros e []%elem_of_nil. }
  set (sent := e0 :: sent0) in *.
  assert (Hzip : zip ((λ e, n_ID e.1) <$> sent) (snd <$> sent) = (λ e, (n_ID e.1, e.2)) <$> sent).
  { clear. induction sent as [|e l IH]; [done|]. cbn. by rewrite <- IH. }
  assert (Hfst : ((λ e, (n_ID e.1, e.2)) <$> sent).*1 = (λ e, n_ID e.1) <$> sent)
    by (by rewrite <- list_fmap_compose).
  destruct (mark_sent_batch_run (e_now env (w_pos w)) ((λ e, (n_ID e.1, e.2)) <$> sent) (w_db w) Htx)
    as (db' & Hrun & Hout & Hin).
  { intros e (e' & -> & He)%list_elem_of_fmap. by apply Hu. }
  { by rewrite Hfst. }
  rewrite run_bind. unfold NotificationRepo_UpdateBatchSent.
  rewrite !length_fmap, Nat.ltb_irrefl, Hzip, run_sql by done.
  unfold after_sql, sql_at. cbn [exec_sql]. rewrite Hrun. cbn [write_result fst snd wrap_err].
  eexists _, (e_now env (w_pos w)). split; [reflexivity|]. split_and!; try done.
  - intros k Hk. cbn [w_db]. apply Hout. by rewrite Hfst.
  - intros e He. cbn [w_db]. apply Hin. apply list_elem_of_fmap. by exists e.
Qed.

Lemma claim_in_loop msgs ns (w : World R) :
  texts_ok → db_wf (w_db w) → Forall message_ok msgs →
  (∀ k n, k ∈ m_NotificationID <$> msgs → notifications (w_db w) !! k = Some n →
     claimable n = true → workable n) →
  (sql_at env (getAndMarkProcessingBatch (m_NotificationID <$> msgs)) w).1 = Ok ns →
  Forall (in_loop (msg_map msgs) (after_sql env (getAndMarkProcessingBatch (m_NotificationID <$> msgs)) w)) ns.
Proof.
  intros Htx Hwf Hok Hwk Hns. apply Forall_forall. intros n' Hn'.
  destruct (proj1 (claim_rows env (m_NotificationID <$> msgs) w n')) as (k & n & Hk & Hn & Hc & ->);
    [by exists ns|].
  pose proof (ok_key _ _ (wf_rows _ Hwf _ _ Hn)) as Hid. split_and!.
  - unfold after_sql, sql_at. cbn [exec_sql w_db snd notifications set_notifications n_ID touch_status].
    rewrite lookup_update_ids, Hid, Hn. cbn. by rewrite bool_decide_true, Hc.
  - intros err. apply workable_retriable; [done|]. by eapply Hwk.
  - cbn [n_ID touch_status]. rewrite Hid.
    destruct (msg_map_lookup msgs ∅ k) as [Hl _]. destruct (Hl Hk) as (msg & Hmsg & Hin & _).
    exists msg. rewrite Forall_forall in Hok. pose proof (Marshal_total msg (Hok _ Hin)) as Ht.
    destruct (Marshal msg) as [raw|]; [|done]. exists raw. by split.
Qed.

Lemma claimed_iff msgs ns (w : World R) c :
  (sql_at env (getAndMarkProcessingBatch (m_NotificationID <$> msgs)) w).1 = Ok ns →
  c ∈ ns ↔ ∃ k n, k ∈ m_NotificationID <$> msgs ∧ notifications (w_db w) !! k = Some n ∧
    claimable n = true ∧ c = touch_status (e_now env (w_pos w)) StatusProcessing n.
Proof.
  intros Hns. rewrite <- (claim_rows env (m_NotificationID <$> msgs) w c). split.
  - intros Hc. by exists ns.
  - intros (ns' & Hns' & Hc). congruence.
Qed.

(** A row the batch does not claim. *)
Lemma unclaimed_row msgs ns (w : World R) k n :
  db_wf (w_db w) → notifications (w_db w) !! k = Some n →
  bool_decide (k ∈ m_NotificationID <$> msgs) && claimable n = false →
  (sql_at env (getAndMarkProcessingBatch (m_NotificationID <$> msgs)) w).1 = Ok ns →
  (k ∉ n_ID <$> ns) ∧
  notifications (w_db (after_sql env (getAndMarkProcessingBatch (m_NotificationID <$> msgs)) w)) !! k = Some n.
Proof.
  intros Hwf Hn Hb Hns. split.
  - intros (c & -> & Hc)%list_elem_of_fmap. apply (claimed_iff msgs ns w c Hns) in Hc.
    destruct Hc as (k' & n' & Hk' & Hn' & Hcl & ->).
    pose proof (ok_key _ _ (wf_rows _ Hwf _ _ Hn')) as Hid. cbn [n_ID touch_status] in Hn, Hb.
    rewrite Hid in Hn, Hb. assert (n' = n) as -> by congruence.
    by rewrite bool_decide_true, Hcl in Hb.
  - unfold after_sql, sql_at. cbn [exec_sql w_db snd notifications set_notifications].
    rewrite lookup_update_ids, Hn. cbn [fmap option_fmap option_map]. by rewrite Hb.
Qed.

(** A claimed row after the loop and the UPDATE of what was sent. *)
Lemma claimed_outcome msgs ns sent t3 c (w w2 w3 : World R) :
  looped (msg_map msgs) ns w w2 sent → c ∈ ns → n_ID c ∈ m_NotificationID <$> msgs →
  n_Attempts c < n_MaxAttempts c →
  (∀ k, k ∉ (λ e, n_ID e.1) <$> sent → notifications (w_db w3) !! k = notifications (w_db w2) !! k) →
  (∀ e, e ∈ sent → notifications (w_db w3) !! n_ID e.1 = touch_sent t3 e.2 <$> notifications (w_db w2) !! n_ID e.1) →
  ∃ r n', notifications (w_db w3) !! n_ID c = Some n' ∧ outcome r c n' ∧
    (n_Status n' = StatusQueued → ∃ msg raw, msg ∈ msgs ∧ m_NotificationID msg = n_ID c ∧
       Marshal msg = Ok raw ∧ is_Some (zset (w_redis w2) retryDelayedKey !! raw)).
Proof.
  intros Hlo Hc Hk Hatt Hout3 Hin3.
  destruct (lo_rows _ _ _ _ _ Hlo c Hc) as [(pid & Hpid & Hrow)|[Hns (t & err & Hrow & Hdl)]].
  - exists (Ok pid), (touch_sent t3 pid c). split_and!; [|by eexists|done].
    specialize (Hin3 (c, pid) Hpid). cbn [fst snd] in Hin3. by rewrite Hrow in Hin3.
  - exists (Err err), (failed_row t err c c). split_and!; [by rewrite Hout3|by exists t|].
    intros Hst. unfold failed_row in Hst. cbn in Hst. destruct (_ <=? _) eqn:E in Hst; [done|].
    destruct Hdl as (msg & raw & Hmm & Hraw & Hsome); [zbool; lia|].
    destruct (msg_map_lookup msgs ∅ (n_ID c)) as [Hl _]. destruct (Hl Hk) as (msg' & Hmm' & Hmem & Hmid).
    unfold msg_map in Hmm. assert (msg' = msg) as -> by congruence.
    by exists msg, raw.
Qed.

(** The acknowledgement of a batch of one channel. *)
Lemma ack_batch_run ch msgs raws (w : World R) :
  quiet env → msgs ≠ [] → Forall (λ m, m_Channel m = ch) msgs → marshal_all msgs = Ok raws →
  run env (ack msgs) w =
    (Some tt, mkWorld (w_db w) (ZREM (processing_key ch) raws (w_redis w)) (S (w_pos w)) (w_proc w)).
Proof.
  intros Hq Hne Hch Hraws. destruct msgs as [|m msgs]; [done|].
  apply Forall_cons in Hch as [<- _]. unfold ack.
  rewrite run_bind, (Ack_run env _ (m :: msgs) raws) by done. reflexivity.
Qed.

(** The stages of a batch from [w]: the rows [ns] claimed, the loop over them to [w2], the
    UPDATE of those [sent] to [w3], the acknowledgement, the broadcast to [w']. *)
Record batch_stages ch (msgs : list Message) (w w2 w3 w' : World R) ns sent t3 : Prop := {
  bs_run : run env (ProcessBatch p msgs) w = (Some tt, w');
  bs_claim : (sql_at env (getAndMarkProcessingBatch (m_NotificationID <$> msgs)) w).1 = Ok ns;
  bs_loop : looped (msg_map msgs) ns
    (after_sql env (getAndMarkProcessingBatch (m_NotificationID <$> msgs)) w) w2 sent;
  bs_out k : k ∉ (λ e, n_ID e.1) <$> sent → notifications (w_db w3) !! k = notifications (w_db w2) !! k;
  bs_in e : e ∈ sent → notifications (w_db w3) !! n_ID e.1 = touch_sent t3 e.2 <$> notifications (w_db w2) !! n_ID e.1;
  bs_db : w_db w' = w_db w3;
  bs_redis : ∃ raws, marshal_all msgs = Ok raws ∧ w_redis w' = ZREM (processing_key ch) raws (w_redis w2);
}.

Lemma ProcessBatch_stages ch msgs (w : World R) :
  quiet env → texts_ok → cb_timeout (p_cb (w_proc w)) = timeout →
  metrics_wf (p_metrics (w_proc w)) → db_wf (w_db w) →
  Forall message_ok msgs → Forall (λ m, m_Channel m = ch) msgs →
  (∀ k n, k ∈ m_NotificationID <$> msgs → notifications (w_db w) !! k = Some n →
     claimable n = true → workable n) →
  (∃ k n, k ∈ m_NotificationID <$> msgs ∧ notifications (w_db w) !! k = Some n ∧ claimable n = true) →
  ∃ w2 w3 w' ns sent t3, batch_stages ch msgs w w2 w3 w' ns sent t3.
Proof.
  intros Hq Htx Hto Hmw Hwf Hok Hch Hwk (k0 & n0 & Hk0 & Hn0 & Hc0).
  destruct msgs as [|m0 msgs0]; [by apply elem_of_nil in Hk0|]. set (msgs := m0 :: msgs0) in *.
  set (q := getAndMarkProcessingBatch (m_NotificationID <$> msgs)).
  destruct ((sql_at env q w).1) as [ns|] eqn:Ens; [|done].
  pose proof (claim_in_loop msgs ns w Htx Hwf Hok Hwk Ens) as Hloop. fold q in Hloop.
  pose proof (claim_nodup env _ w ns Hwf Ens) as Hnd.
  destruct (send_each_settles (msg_map msgs) ns (after_sql env q w) Hq Hto Hmw Hnd Hloop)
    as (w2 & sent & Hrun & Hlo).
  destruct (update_sent_run sent w2 Hq Htx) as (w3 & t3 & Hrun3 & Hr3 & _ & Hout3 & Hin3);
    [by intros e He; apply (lo_sent _ _ _ _ _ Hlo)|by apply (lo_nodup _ _ _ _ _ Hlo)|].
  destruct (marshal_all_ok msgs Hok) as (raws & Hraws & _).
  assert (Hnil : ns ≠ []).
  { intros ->. eapply elem_of_nil, (claimed_iff msgs [] w _ Ens). by exists k0, n0. }
  set (w4 := mkWorld (w_db w3) (ZREM (processing_key ch) raws (w_redis w3)) (S (w_pos w3)) (w_proc w3)).
  assert (Hlast : ∃ w5, run env (match sent with
      | [] => mret tt
      | _ => trigger (EHub (HubBroadcastBatch ((λ e, sent_event e.1) <$> sent)))
      end) w4 = (Some tt, w5) ∧ w_db w5 = w_db w3 ∧ w_redis w5 = w_redis w4)
    by (destruct sent; by eexists).
  destruct Hlast as (w5 & Hrun5 & Hdb5 & Hr5). exists w2, w3, w5, ns, sent, t3.
  split; [|done|done|done|done|done|exists raws; split; [done|by rewrite Hr5, <- Hr3]].
  unfold ProcessBatch. fold msgs. change (match msgs with [] => mret tt | _ :: _ => ?x end) with x.
  rewrite run_bind. unfold NotificationRepo_GetAndMarkProcessingBatch. rewrite run_sql by done. fold q.
  rewrite Ens. cbn [wrap_err]. destruct ns as [|n ns]; [done|].
  by rewrite run_bind, Hrun, run_bind, Hrun3, run_bind, (ack_batch_run ch msgs raws).
Qed.

(** A batch of which something can be claimed: every claimed row ends as the
    provider answered. *)
Lemma ProcessBatch_outcomes ch msgs (w : World R) :
  quiet env → texts_ok → cb_timeout (p_cb (w_proc w)) = timeout →
  metrics_wf (p_metrics (w_proc w)) → db_wf (w_db w) →
  Forall message_ok msgs → Forall (λ m, m_Channel m = ch) msgs →
  (∀ k n, k ∈ m_NotificationID <$> msgs → notifications (w_db w) !! k = Some n →
     claimable n = true → workable n) →
  (∃ k n, k ∈ m_NotificationID <$> msgs ∧ notifications (w_db w) !! k = Some n ∧ claimable n = true) →
  ∃ w' t0, run env (ProcessBatch p msgs) w = (Some tt, w') ∧
    (∀ msg raw, msg ∈ msgs → Marshal msg = Ok raw → zset (w_redis w') (processing_key ch) !! raw = None) ∧
    (∀ k n, notifications (w_db w) !! k = Some n →
       if bool_decide (k ∈ m_NotificationID <$> msgs) && claimable n then
         ∃ r n', notifications (w_db w') !! k = Some n' ∧
           outcome r (touch_status t0 StatusProcessing n) n' ∧
           (n_Status n' = StatusQueued → ∃ msg raw, msg ∈ msgs ∧ m_NotificationID msg = k ∧
              Marshal msg = Ok raw ∧ is_Some (zset (w_redis w') retryDelayedKey !! raw))
       else notifications (w_db w') !! k = Some n) ∧
    (∀ c, zset (w_redis w') (queue_key c) = zset (w_redis w) (queue_key c)).
Proof.
  intros Hq Htx Hto Hmw Hwf Hok Hch Hwk Hex.
  destruct (ProcessBatch_stages ch msgs w Hq Htx Hto Hmw Hwf Hok Hch Hwk Hex)
    as (w2 & w3 & w' & ns & sent & t3 & [Hrun Ens Hlo Hout3 Hin3 Hdb (raws & Hraws & Hr)]).
  exists w', (e_now env (w_pos w)). split; [exact Hrun|]. rewrite Hdb, Hr. split_and!.
  - intros msg raw Hmsg Hraw. rewrite zset_ZREM, decide_True; [done|]. split; [done|].
    destruct (marshal_all_ok msgs Hok) as (raws' & Hraws' & Hall). assert (raws' = raws) as -> by congruence.
    rewrite Forall_forall in Hok. eapply Forall2_raw_elem; [exact Hall|by apply Forall_forall|by apply Hok|done|done].
  - intros k n Hn. pose proof (ok_key _ _ (wf_rows _ Hwf _ _ Hn)) as Hid.
    destruct (bool_decide (k ∈ m_NotificationID <$> msgs) && claimable n) eqn:Hb.
    + apply andb_true_iff in Hb as [Hk%bool_decide_eq_true Hc].
      destruct (claimed_outcome msgs ns sent t3 (touch_status (e_now env (w_pos w)) StatusProcessing n) _ w2 w3 Hlo)
        as (r & n' & Hn' & Ho & Hdl); try done.
      * apply (claimed_iff msgs ns w _ Ens). by exists k, n.
      * cbn. by rewrite Hid.
      * by apply (Hwk k n).
      * cbn [n_ID touch_status] in Hn', Hdl. rewrite Hid in Hn', Hdl. exists r, n'. split_and!; [done|done|].
        intros Hst. destruct (Hdl Hst) as (msg & raw & ? & ? & ? & ?). exists msg, raw. split_and!; try done.
        by apply (sr_delayed _ _ (settles_ZREM ch raws (w_redis w2))).
    + destruct (unclaimed_row msgs ns w k n Hwf Hn Hb Ens) as [Hnin Hrow].
      rewrite Hout3, (lo_other _ _ _ _ _ Hlo) by (done || (intros (e & -> & He)%list_elem_of_fmap;
        apply Hnin, list_elem_of_fmap; exists e.1; split; [done|by apply (lo_sent _ _ _ _ _ Hlo)])).
      exact Hrow.
  - intros c. rewrite (sr_queue _ _ (settles_ZREM ch raws (w_redis w2))).
    apply (sr_queue _ _ (lo_redis _ _ _ _ _ Hlo)).
Qed.

(** What one pass makes of a claimed row [n]: sent; or queued with one more attempt,
    some being left; or failed on its last attempt.  The rest of the row is kept. *)
Definition settled (n n' : Notification) : Prop :=
  (n_ID n' = n_ID n ∧ n_Recipient n' = n_Recipient n ∧ n_Channel n' = n_Channel n ∧
   n_Content n' = n_Content n ∧ n_MaxAttempts n' = n_MaxAttempts n) ∧
  ((n_Status n' = StatusSent ∧ is_Some (n_ProviderMsgID n') ∧ is_Some (n_SentAt n') ∧
      n_Attempts n' = n_Attempts n) ∨
   (n_Status n' = StatusQueued ∧ is_Some (n_LastError n') ∧ n_Attempts n' = n_Attempts n + 1 ∧
      n_Attempts n' < n_MaxAttempts n) ∨
   (n_Status n' = StatusFailed ∧ is_Some (n_LastError n') ∧ n_Attempts n' = n_MaxAttempts n)).

Lemma outcome_settled r t n n' :
  workable n → outcome r (touch_status t StatusProcessing n) n' → settled n n'.
Proof.
  intros (_ & Ha & _) Ho. destruct r as [pid|err].
  - destruct Ho as [t' ->]. split; [done|]. left. by repeat split.
  - destruct Ho as [t' ->]. split; [done|]. right. unfold failed_row. cbn.
    destruct (n_MaxAttempts n <=? n_Attempts n + 1) eqn:E; zbool; [right|left];
      (split; [done|]; split; [done|]); lia.
Qed.


(** A batch nobody can claim is not acknowledged.  When none of its notifications is
    pending or queued (all cancelled, say, or already sent), [ProcessBatch] changes
    neither the tables nor Redis. *)
Lemma ProcessBatch_keeps_unclaimable msgs (w : World R) :
  quiet env →
  (∀ k n, k ∈ m_NotificationID <$> msgs → notifications (w_db w) !! k = Some n → claimable n = false) →
  ∃ w', run env (ProcessBatch p msgs) w = (Some tt, w') ∧ w_redis w' = w_redis w ∧
    ∀ k, notifications (w_db w') !! k = notifications (w_db w) !! k.
Proof.
  intros Hq Hno. destruct msgs as [|m0 msgs0]; [by exists w|]. set (msgs := m0 :: msgs0) in *.
  set (q := getAndMarkProcessingBatch (m_NotificationID <$> msgs)).
  unfold ProcessBatch. fold msgs. cbv iota beta.
  change (match msgs with [] => mret tt | _ :: _ => ?x end) with x.
  rewrite run_bind. unfold NotificationRepo_GetAndMarkProcessingBatch. rewrite run_sql by done. fold q.
  destruct ((sql_at env q w).1) as [ns|] eqn:Ens; [|done]. cbn [wrap_err].
  destruct ns as [|n ns].
  - eexists. split; [reflexivity|]. split; [done|]. intros k.
    unfold after_sql, sql_at, q. cbn [exec_sql w_db snd notifications set_notifications].
    rewrite lookup_update_ids. destruct (notifications (w_db w) !! k) as [n|] eqn:Hn; [|done].
    cbn [fmap option_fmap option_map]. destruct (bool_decide _) eqn:Hk; [|done].
    apply bool_decide_eq_true in Hk. by rewrite (Hno k n Hk Hn).
  - exfalso. destruct (proj1 (claim_rows env (m_NotificationID <$> msgs) w n)) as (k & n' & Hk & Hn & Hc & _).
    + exists (n :: ns). split; [done|left].
    + by rewrite (Hno k n' Hk Hn) in Hc.
Qed.

(** [Process] acknowledges the same message: "not found" means there is nothing left
    to do.  The row stays as it was and the message leaves the processing set. *)
Lemma Process_acks_unclaimable msg raw (w : World R) :
  quiet env → Marshal msg = Ok raw →
  (∀ n, notifications (w_db w) !! m_NotificationID msg = Some n → claimable n = false) →
  ∃ w', run env (Process p msg) w = (Some tt, w') ∧ w_db w' = w_db w ∧
    w_redis w' = ZREM (processing_key (m_Channel msg)) [raw] (w_redis w).
Proof.
  intros Hq Hm Hno. unfold Process, NotificationRepo_GetAndMarkProcessing.
  rewrite run_bind, run_sql by done.
  assert (Hs : sql_at env (getAndMarkProcessing (m_NotificationID msg)) w = (Ok None, w_db w)).
  { unfold sql_at. cbn [exec_sql].
    destruct (notifications (w_db w) !! m_NotificationID msg) as [n|] eqn:Hn; [|done].
    by rewrite (Hno n eq_refl). }
  unfold after_sql. rewrite Hs. cbn [fst snd row_or_not_found]. cbv iota beta.
  change (Is_NotFound _) with true. cbv iota beta. rewrite (ack_one_run _ raw) by done.
  by eexists.
Qed.
End outcomes.

(** ** Concrete runs *)

#[local] Existing Instances RefTemplate RefPg RefPg_laws RefUUID RefUUID_laws RefLua.

Definition demo_processor : Processor :=
  NewProcessor (breaker_Provider webhook_Client (30 * Second)) (NewStrategy Second (5 * Minute)).

(** Message 1 is being processed: claimed from the queue, its row in the database. *)
Definition demo_in_flight (st : Status) : World RefRedis :=
  set_redis (ZADD (processing_key ChannelSMS) (demo_start + 30 * Second)
      (match Marshal (demo_message 1 PriorityNormal) with Ok raw => raw | Err _ => "" end) empty_RefRedis)
    (demo_with [demo_notification 1 st]).

Lemma demo_texts_ok : texts_ok.
Proof.
  split; [done|]. intros u. cbn. unfold ref_uuid_String.
  assert (Hlen : ∀ w z, String.length (hex_digits w z) = w).
  { induction w as [|w IH]; intros z; [done|]. cbn [hex_digits]. rewrite length_app_string, IH. simpl. lia. }
  rewrite !length_app_string, !Hlen. reflexivity.
Qed.

Lemma Process_settles_witness :
  ∃ w' n', run demo_env (Process demo_processor (demo_message 1 PriorityNormal)) (demo_in_flight StatusQueued)
      = (Some tt, w') ∧ notifications (w_db w') !! 1%N = Some n' ∧ n_Attempts n' ≤ n_MaxAttempts n'.
Proof.
  destruct (Marshal (demo_message 1 PriorityNormal)) as [raw|] eqn:Hm; [|discriminate Hm].
  destruct (Process_settles demo_env demo_processor (30 * Second) (demo_message 1 PriorityNormal) raw
    (demo_notification 1 StatusQueued) (demo_in_flight StatusQueued))
    as (w' & t0 & r & n' & Hrun & Hn' & _ & _ & _ & Hatt & _).
  - exact demo_quiet.
  - exact demo_texts_ok.
  - reflexivity.
  - exact metrics_wf_new.
  - exact Hm.
  - reflexivity.
  - reflexivity.
  - reflexivity.
  - split; [reflexivity|]. split; [split|]; closed_arith.
  - exists w', n'. by split.
Defined.


(** The provider answers 503 and the sixth database or Redis effect is lost. *)
Definition demo_env_lost : Env := {|
  e_now := e_now demo_env;
  e_fault i := if (i =? 6)%nat then Lost "connection reset" else NoFault;
  e_uuid := e_uuid demo_env; e_rand := e_rand demo_env; e_http _ _ := Ok 503;
  e_lua := e_lua demo_env; e_done := e_done demo_env |}.

(** A notification can get lost.  The send fails and so does the UPDATE that
    would have queued the retry: [ProcessBatch] acknowledges the message all the
    same.  The row stays "processing", which nothing claims, and the message is in
    no queue any more. *)
Theorem ProcessBatch_loses_on_db_error :
  let w' := (run demo_env_lost (ProcessBatch demo_processor [demo_message 1 PriorityNormal])
               (demo_in_flight StatusQueued)).2 in
  (n_Status <$> notifications (w_db w') !! 1%N) = Some StatusProcessing ∧
  zset (w_redis w') (processing_key ChannelSMS) = ∅ ∧
  zset (w_redis w') (queue_key ChannelSMS) = ∅ ∧ zset (w_redis w') retryDelayedKey = ∅.
Proof. vm_compute. split_and!; reflexivity. Qed.
