(* ===== verification/OneMessage.v ===== *)
(** * One message or a batch of one (internal/worker/processor.go)

    The processor has two paths: [Process] takes a message alone, [ProcessBatch] those
    the dispatcher hands over.  [Process] is the reference: on a batch of one message
    [ProcessBatch] does what [Process] does, but for the moment at which a delivery is
    recorded and for the envelope of the event.  Where nothing can be claimed the two part: [Process]
    acknowledges the message, [ProcessBatch] leaves it. *)
From S2P Require Import Prelude Float64 GoLib GoJson GoTime Domain Retry Uuid Redis Postgres RateLimiter.
From S2P Require Import CircuitBreaker Hub Metrics TemplateEngine Effects Reference Queue Provider Repository Processor.
From Stdlib Require Import ZArith Lia.
From stdpp Require Import base numbers list strings gmap fin_maps.

Open Scope Z_scope.

(** What two paths leave alike: the sorted sets, the tables but for the rows, the
    counters and the circuit breaker. *)
Record agree {R : Type} `{RedisServer R} `{TextTemplate} (w1 w2 : World R) : Prop := {
  ag_zset k x : zset (w_redis w1) k !! x = zset (w_redis w2) k !! x;
  ag_templates : templates (w_db w1) = templates (w_db w2);
  ag_letters : dead_letters (w_db w1) = dead_letters (w_db w2);
  ag_metrics : p_metrics (w_proc w1) = p_metrics (w_proc w2);
  ag_breaker : p_cb (w_proc w1) = p_cb (w_proc w2);
}.

(** Two rows that differ at most in when the delivery was recorded. *)
Definition same_delivery `{PgEngine} (n1 n2 : Notification) : Prop :=
  n1 = n2 ∨ ∃ pid t, n_Status n1 = StatusSent ∧ n_ProviderMsgID n1 = Some pid ∧ n2 = touch_sent t pid n1.

#[export] Instance same_delivery_refl `{PgEngine} : Reflexive same_delivery.
Proof. intros n. by left. Qed.

Section one.
Context {R : Type} `{RedisLaws R} `{LuaNumber} `{PgLaws} `{TextTemplate} `{UUIDLaws}.
Variable env : Env.
Variable p : Processor.
Variable timeout : Z.
Context `{!ProviderSpec env timeout (p_provider p)}.

(** Both statements claim the row and leave the same database. *)
Lemma claim_of_one id n (w : World R) :
  quiet env → db_wf (w_db w) → notifications (w_db w) !! id = Some n → claimable n = true →
  let c := touch_status (e_now env (w_pos w)) StatusProcessing n in
  ∃ w1, run env (NotificationRepo_GetAndMarkProcessing id) w = (Some (Ok c), w1) ∧
    run env (NotificationRepo_GetAndMarkProcessingBatch [id]) w = (Some (Ok [c]), w1) ∧
    w_proc w1 = w_proc w.
Proof.
  intros Hq Hwf Hn Hc c. eexists. rewrite (GetAndMarkProcessing_run env id n) by done.
  split_and!; [reflexivity| |done].
  unfold NotificationRepo_GetAndMarkProcessingBatch. rewrite run_sql by done.
  destruct ((sql_at env (getAndMarkProcessingBatch [id]) w).1) as [ns|] eqn:Ens; [|done].
  assert (ns = [c]) as ->.
  { apply NoDup_singleton_of; [by eapply NoDup_fmap_1, claim_nodup|]. intros c'. split.
    - intros Hc'. destruct (proj1 (claim_rows env [id] w c')) as (k & n' & Hk & Hn' & _ & ->); [by exists ns|].
      apply list_elem_of_singleton in Hk as ->. by assert (n' = n) as -> by congruence.
    - intros ->. destruct (proj2 (claim_rows env [id] w c)) as (ns' & Hns' & Hc'); [|congruence].
      exists id, n. split_and!; [left|done..]. }
  cbn [wrap_err]. do 2 f_equal. unfold after_sql, sql_at. cbn [exec_sql snd].
  f_equal. f_equal. apply map_eq. intros k. rewrite lookup_update_ids, lookup_insert.
  case_decide as Hk.
  - subst k. rewrite Hn. cbn. by rewrite bool_decide_true, Hc by left.
  - rewrite bool_decide_false by (by intros ->%list_elem_of_singleton). cbn. by destruct (_ !! k).
Qed.

(** The one UPDATE of [UpdateBatchSent] for one row. *)
Lemma UpdateBatchSent_one id u (w : World R) :
  quiet env → texts_ok →
  run env (NotificationRepo_UpdateBatchSent [id] [uuid_String u]) w =
    (Some (Ok tt), mkWorld (update_row id (touch_sent (e_now env (w_pos w)) (uuid_String u)) (w_db w))
       (w_redis w) (S (w_pos w)) (w_proc w)).
Proof.
  intros Hq [_ Ht]. unfold NotificationRepo_UpdateBatchSent.
  cbn [length Nat.ltb Nat.leb zip zip_with]. rewrite run_sql by done.
  unfold after_sql, sql_at. cbn [exec_sql mark_sent_batch]. unfold mark_sent. by rewrite Ht.
Qed.

(** A second acknowledgement changes nothing. *)
Lemma ZREM_absent key raw (r : R) k x :
  zset r key !! raw = None → zset (ZREM key [raw] r) k !! x = zset r k !! x.
Proof.
  intros Hr. rewrite zset_ZREM. case_decide as Hd; [|done].
  destruct Hd as [-> ->%list_elem_of_singleton]. by rewrite Hr.
Qed.

Lemma counted k ch m (w : World R) :
  incr k ch (p_metrics (w_proc w)) = Some m →
  run env (metrics_incr k ch) w = (Some tt, tick (set_metrics m w)).
Proof. intros Hm. unfold metrics_incr. rewrite run_trigger_bind. cbn [handle]. by rewrite Hm. Qed.

(** The claimed row is delivered: [ProcessBatch] counts before it records, so it reads
    the clock one effect later. *)
Lemma delivered_alike msg raw c u (w2 : World R) :
  quiet env → texts_ok → metrics_wf (p_metrics (w_proc w2)) → Channel_Valid (n_Channel c) = true →
  Marshal msg = Ok raw →
  ∃ w3 w3', run env (
      v ← NotificationRepo_UpdateSent (n_ID c) (uuid_String u);
      match v with
      | Err _ => mret tt
      | Ok _ => _ ← ack [msg]; _ ← metrics_incr CSent (n_Channel c); trigger (EHub (HubBroadcast (sent_event c)))
      end) w2 = (Some tt, w3) ∧
    run env (
      _ ← metrics_incr CSent (n_Channel c);
      _ ← (_ ← NotificationRepo_UpdateBatchSent [n_ID c] [uuid_String u]; mret tt);
      _ ← ack [msg]; trigger (EHub (HubBroadcastBatch [sent_event c]))) w2 = (Some tt, w3') ∧
    agree w3 w3' ∧
    ∀ k, option_Forall2 same_delivery (notifications (w_db w3) !! k) (notifications (w_db w3') !! k).
Proof.
  intros Hq Htx Hmw Hch Hm.
  destruct (incr_ok CSent (n_Channel c) _ Hmw Hch) as (mt & Hmt & _).
  do 2 eexists. rewrite run_bind, UpdateSent_run by done. rewrite run_bind, (ack_one_run env msg raw) by done.
  rewrite run_bind, (counted _ _ mt), broadcast_run by done. split; [reflexivity|].
  rewrite run_bind, (counted _ _ mt) by done. rewrite run_bind, run_bind, UpdateBatchSent_one by done. cbn [mret prog_ret run].
  rewrite run_bind, (ack_one_run env msg raw) by done.
  split; [reflexivity|]. split; [by split|]. intros k. cbn [w_db tick set_hub set_metrics set_proc].
  rewrite !lookup_update_row. destruct (notifications (w_db w2) !! k) as [m|]; [|constructor].
  cbn. constructor. case_decide; [|done]. right. by eexists _, _.
Qed.
(** The claimed row is refused: both paths store the failure, and the second
    acknowledgement of [ProcessBatch] finds the message gone. *)
Lemma refused_alike msg raw c err (w2 : World R) :
  quiet env → metrics_wf (p_metrics (w_proc w2)) → retriable c err → Marshal msg = Ok raw →
  ∃ w3 w3', run env (handleFailure p c msg err) w2 = (Some tt, w3) ∧
    run env (_ ← handleFailure p c msg err; ack [msg]) w2 = (Some tt, w3') ∧
    agree w3 w3' ∧ w_db w3 = w_db w3'.
Proof.
  intros Hq Hmw Hrt Hm.
  destruct (handleFailure_settles env p c msg raw err w2 Hq Hmw Hrt Hm) as (w3 & t & Hrun & _ & _ & _ & Hgone & _).
  eexists w3, _. rewrite run_bind, Hrun, (ack_one_run env msg raw) by done.
  split_and!; [done|reflexivity| |done]. split; try done.
  intros k x. cbn [w_redis]. by rewrite ZREM_absent.
Qed.

(** What can be claimed is processed alike. *)
Lemma claimed_alike msg raw n (w : World R) :
  quiet env → texts_ok → cb_timeout (p_cb (w_proc w)) = timeout →
  metrics_wf (p_metrics (w_proc w)) → db_wf (w_db w) → Marshal msg = Ok raw →
  notifications (w_db w) !! m_NotificationID msg = Some n → workable n → claimable n = true →
  ∃ w1 w2, run env (Process p msg) w = (Some tt, w1) ∧ run env (ProcessBatch p [msg]) w = (Some tt, w2) ∧
    agree w1 w2 ∧
    ∀ k, option_Forall2 same_delivery (notifications (w_db w1) !! k) (notifications (w_db w2) !! k).
Proof.
  intros Hq Htx Hto Hmw Hwf Hm Hn Hwk Hc.
  destruct (claim_of_one (m_NotificationID msg) n w Hq Hwf Hn Hc) as (w1 & Hone & Hbatch & Hproc).
  pose proof (ok_key _ _ (wf_rows _ Hwf _ _ Hn)) as Hid.
  set (c := touch_status (e_now env (w_pos w)) StatusProcessing n) in *.
  assert (Hcid : msg_map [msg] !! n_ID c = Some msg)
    by (cbn [c n_ID touch_status]; rewrite Hid; apply lookup_insert_eq).
  unfold Process, ProcessBatch. cbn [fmap list_fmap]. rewrite !run_bind, Hone, Hbatch. cbn [send_each].
  rewrite !run_bind.
  destruct (Send_frame c w1) as (r & w2 & Hsend & _ & _ & Hm2 & _ & _ & Hu); [by rewrite Hproc|].
  rewrite !Hsend. rewrite <- Hproc, <- Hm2 in Hmw. destruct r as [pid|err].
  - destruct (Hu pid eq_refl) as [u ->].
    destruct (delivered_alike msg raw c u w2) as (w3 & w3' & Hrun & Hrun' & Hag & Hrows); [done..|by apply Hwk|done|].
    exists w3, w3'. split; [exact Hrun|]. split; [|done]. rewrite <- Hrun'.
    rewrite !run_bind. destruct (run env (metrics_incr _ _) w2) as [[[]|] w4]; [|done].
    cbn [mret prog_ret run]. rewrite run_bind. reflexivity.
  - destruct (refused_alike msg raw c err w2) as (w3 & w3' & Hrun & Hrun' & Hag & Hdb); [done..|by apply workable_retriable|done|].
    exists w3, w3'. split; [exact Hrun|]. split; [|split; [done|intros k; by rewrite Hdb]].
    rewrite Hcid. cbn [default from_option id]. rewrite <- Hrun', !run_bind, Hrun.
    cbn [mret prog_ret run]. rewrite run_bind. cbn [mret prog_ret run]. rewrite run_bind.
    by destruct (run env (ack [msg]) w3) as [[[]|] w4].
Qed.

End one.

(** ** A concrete run *)

#[local] Existing Instances RefTemplate RefPg RefPg_laws RefUUID RefUUID_laws RefLua.

