(* ===== verification/Scheduler.v ===== *)
(** * The scheduler (internal/queue/redis/scheduler.go)

    Every worker process runs one.  A poll takes the lock [scheduler:lock] for five
    seconds (it is never released), enqueues the notifications that are due,
    promotes delayed retries and returns expired in-flight messages to their
    queues.  The loop over the due notifications has no bound in the code: here it
    takes a fuel, and [None] is a poll still running when the fuel is gone. *)
From S2P Require Import Prelude Float64 GoLib GoJson GoTime Domain Uuid Redis Postgres RateLimiter.
From S2P Require Import TemplateEngine Effects Reference Queue Repository.
From Stdlib Require Import ZArith Lia.
From stdpp Require Import base numbers list strings gmap fin_maps.

Open Scope Z_scope.

Definition schedulerLockKey : string := "scheduler:lock".
Definition schedulerLockTTL : Z := 5 * Second.
(** [NewScheduler]: the ticker's period. *)
Definition scheduler_interval : Z := Second.

Section scheduler.
Context `{TextTemplate} `{UUIDLib}.

(** The body of the loop over due notifications; the message carries no schedule. *)
Definition schedule_one (n : Notification) : prog unit :=
  r ← Enqueue (mkMessage (n_ID n) (n_Channel n) (n_Priority n) None);
  match r with
  | Err _ => mret tt
  | Ok _ => _ ← NotificationRepo_UpdateStatus (n_ID n) StatusQueued; mret tt
  end.

Fixpoint poll_loop (fuel : nat) : prog (option unit) :=
  match fuel with
  | O => mret None
  | S fuel' =>
      r ← NotificationRepo_GetPendingScheduled;
      match r with
      | Err _ => mret (Some tt)
      | Ok [] => mret (Some tt)
      | Ok notifications => _ ← for_each notifications schedule_one; poll_loop fuel'
      end
  end.

(** One member of the delayed set or of a processing set back to its queue. *)
Definition requeue_member (key : string) (member : string) : prog unit :=
  match Unmarshal member with
  | Err _ => mret tt
  | Ok msg =>
      r ← Enqueue msg;
      match r with
      | Err _ => mret tt
      | Ok _ => _ ← trigger (ERedis (RZRem key [member])); mret tt
      end
  end.

(** [ZRANGEBYSCORE key -inf now]: Redis reads the decimal [now] as a double. *)
Definition promoteDelayedRetries : prog unit :=
  now ← trigger ENow;
  results ← trigger (ERedis (RZRange retryDelayedKey (f64 (UnixNano now))));
  match results with
  | Err _ => mret tt
  | Ok members => for_each members (requeue_member retryDelayedKey)
  end.

Definition reclaim_channel (now : Z) (ch : Channel) : prog unit :=
  results ← trigger (ERedis (RZRange (processingPrefix +:+ ch) (f64 (UnixNano now))));
  match results with
  | Err _ => mret tt
  | Ok members => for_each members (requeue_member (processingPrefix +:+ ch))
  end.

Definition all_channels : list Channel := [ChannelSMS; ChannelEmail; ChannelPush].

Definition reclaimExpiredProcessing : prog unit :=
  now ← trigger ENow;
  for_each all_channels (reclaim_channel now).

Definition poll (fuel : nat) : prog (option unit) :=
  acquired ← trigger (ERedis (RSetNX schedulerLockKey schedulerLockTTL));
  match acquired with
  | Err _ => mret (Some tt)
  | Ok false => mret (Some tt)
  | Ok true =>
      r ← poll_loop fuel;
      match r with
      | None => mret None
      | Some _ => _ ← promoteDelayedRetries; _ ← reclaimExpiredProcessing; mret (Some tt)
      end
  end.

(** [Start]: [ticks] rounds of its select, each of which sees the context done or
    a tick; the loop does not come back from a poll that is still running. *)
Fixpoint Scheduler_Start (ticks fuel : nat) : prog unit :=
  match ticks with
  | O => mret tt
  | S ticks' =>
      stop ← trigger ECtxDone;
      match stop with
      | true => mret tt
      | false =>
          r ← poll fuel;
          match r with
          | None => mret tt
          | Some _ => Scheduler_Start ticks' fuel
          end
      end
  end.
End scheduler.

(** ** Lemmas *)

Section store.
Context {R : Type} `{RedisLaws R} `{LuaNumber} `{PgLaws} `{TextTemplate} `{UUIDLaws}.
Variable env : Env.

(** *** Returning members to their queues *)

(** After requeueing [ms] from [key]: each is in the queue of its message and not
    under [key]; nothing else moved. *)
Record requeued (key : string) (ms : list string) (r r' : R) : Prop := {
  rq_in raw msg : raw ∈ ms → Unmarshal raw = Ok msg →
    zset r' key !! raw = None ∧ is_Some (zset r' (queue_key (m_Channel msg)) !! raw);
  rq_out k raw : raw ∉ ms → zset r' k !! raw = zset r k !! raw;
  rq_other k raw msg : Unmarshal raw = Ok msg → k ≠ key → k ≠ queue_key (m_Channel msg) →
    zset r' k !! raw = zset r k !! raw;
  rq_lock k : lock_until r' k = lock_until r k;
}.

(** A member as the producer writes it. *)
Definition produced (raw : string) : Prop := ∃ msg, message_ok msg ∧ Marshal msg = Ok raw.

Lemma produced_Unmarshal raw : produced raw → ∃ msg, message_ok msg ∧ Marshal msg = Ok raw ∧ Unmarshal raw = Ok msg.
Proof. intros (msg & Hok & Hm). exists msg. split_and!; try done. by apply Unmarshal_Marshal_message. Qed.

Lemma requeue_member_run key raw (w : World R) :
  quiet env → produced raw →
  ∃ msg s, message_ok msg ∧ Unmarshal raw = Ok msg ∧
    run env (requeue_member key raw) w =
      (Some tt, mkWorld (w_db w)
         (ZREM key [raw] (ZADD (queue_key (m_Channel msg)) s raw (w_redis w)))
         (S (S (S (w_pos w)))) (w_proc w)).
Proof.
  intros Hq Hp. destruct (produced_Unmarshal raw Hp) as (msg & Hok & Hm & Hu).
  exists msg, (calculateScore (e_now env (w_pos w)) msg). split_and!; [done|done|].
  unfold requeue_member. rewrite Hu, run_bind, (Enqueue_run env _ raw) by done.
  rewrite run_trigger_bind, handle_redis_quiet by apply Hq. reflexivity.
Qed.

Lemma requeue_all key ms : ∀ w : World R,
  quiet env → Forall produced ms → (∀ ch, key ≠ queue_key ch) → NoDup ms →
  ∃ w', run env (for_each ms (requeue_member key)) w = (Some tt, w') ∧
    w_db w' = w_db w ∧ w_proc w' = w_proc w ∧ requeued key ms (w_redis w) (w_redis w').
Proof.
  induction ms as [|raw ms IH]; intros w Hq Hall Hkey Hnd.
  { exists w. split_and!; try done. split; try done. by intros raw msg []%elem_of_nil. }
  apply Forall_cons in Hall as [Hraw Hall]. apply NoDup_cons in Hnd as [Hnin Hnd].
  cbn [for_each]. rewrite run_bind.
  destruct (requeue_member_run key raw w Hq Hraw) as (msg & s & Hok & Hu & Hrun). rewrite Hrun.
  set (w1 := mkWorld _ _ _ _).
  destruct (IH w1 Hq Hall Hkey Hnd) as (w' & Hrun' & Hdb & Hpr & [Hin Hout Hoth Hlk]).
  exists w'. split_and!; [done|by rewrite Hdb|by rewrite Hpr|].
  assert (Hz : ∀ k x, zset (w_redis w1) k !! x =
    if decide (key = k ∧ x = raw) then None
    else if decide (queue_key (m_Channel msg) = k ∧ x = raw) then Some s
    else zset (w_redis w) k !! x).
  { intros k x. unfold w1. cbn [w_redis]. rewrite zset_ZREM, zset_ZADD.
    assert (x ∈ [raw] ↔ x = raw) as Hx by apply list_elem_of_singleton.
    destruct (decide (key = k ∧ x ∈ [raw])), (decide (key = k ∧ x = raw)); try tauto.
    destruct (decide (queue_key (m_Channel msg) = k)).
    - rewrite lookup_insert. destruct (decide (raw = x)), (decide (_ ∧ x = raw)); try done;
        exfalso; intuition congruence.
    - by rewrite decide_False by tauto. }
  split.
  - intros raw' msg' [->|Hin']%elem_of_cons Hu'; [|by apply Hin].
    assert (msg' = msg) as -> by congruence. rewrite !Hout by done. rewrite !Hz. split.
    + by rewrite decide_True.
    + rewrite decide_False by (intros [Hk _]; by apply (Hkey (m_Channel msg))). by rewrite decide_True.
  - intros k raw'. rewrite not_elem_of_cons. intros [Hne Hnin']. rewrite Hout by done. rewrite Hz.
    by rewrite !decide_False by tauto.
  - intros k raw' msg' Hu' Hk Hkq. rewrite (Hoth k raw' msg') by done. rewrite Hz.
    rewrite !decide_False; [done| |]; intros [? ->]; [|done]. apply Hkq. congruence.
  - intros k. rewrite Hlk. unfold w1. cbn [w_redis]. by rewrite lock_until_ZREM, lock_until_ZADD.
Qed.

(** The members a range query returns. *)
Lemma range_members key hi (r : R) raw :
  raw ∈ ZRANGEBYSCORE key hi r ↔ ∃ s, zset r key !! raw = Some s ∧ s ≤ hi.
Proof.
  rewrite ZRANGEBYSCORE_members, list_elem_of_fmap. split.
  - intros ([x s] & -> & [Hs Hin]%list_elem_of_filter). exists s.
    apply sorted_entries_lookup in Hin. by split.
  - intros (s & Hs & Hle). exists (raw, s). split; [done|]. apply list_elem_of_filter.
    split; [done|]. by apply sorted_entries_lookup.
Qed.

Lemma range_nodup key hi (r : R) : NoDup (ZRANGEBYSCORE key hi r).
Proof. rewrite ZRANGEBYSCORE_members. apply NoDup_fst_filter, sorted_entries_nodup. Qed.

(** Members of a set are the producer's. *)
Definition set_produced (r : R) (key : string) : Prop :=
  ∀ raw s, zset r key !! raw = Some s → produced raw.

Lemma range_produced key hi (r : R) : set_produced r key → Forall produced (ZRANGEBYSCORE key hi r).
Proof. intros Hp. apply Forall_forall. intros raw (s & Hs & _)%range_members. by eapply Hp. Qed.
Lemma requeued_other_set key ms (r r' : R) k :
  requeued key ms r r' → Forall produced ms → k ≠ key → (∀ ch, k ≠ queue_key ch) →
  zset r' k = zset r k.
Proof.
  intros Hrq Hall Hk Hkq. apply map_eq. intros raw. destruct (decide (raw ∈ ms)) as [Hin|Hin].
  - rewrite Forall_forall in Hall. destruct (produced_Unmarshal raw (Hall raw Hin)) as (msg & _ & _ & Hu).
    by apply (rq_other _ _ _ _ Hrq k raw msg).
  - by apply (rq_out _ _ _ _ Hrq).
Qed.

Lemma requeued_queue_mono key ms (r r' : R) ch raw :
  requeued key ms r r' → Forall produced ms → (∀ c, key ≠ queue_key c) →
  is_Some (zset r (queue_key ch) !! raw) → is_Some (zset r' (queue_key ch) !! raw).
Proof.
  intros Hrq Hall Hkey Hs. destruct (decide (raw ∈ ms)) as [Hin|Hin].
  - rewrite Forall_forall in Hall. destruct (produced_Unmarshal raw (Hall raw Hin)) as (msg & _ & _ & Hu).
    destruct (decide (queue_key ch = queue_key (m_Channel msg))) as [->|Hne].
    + by apply (rq_in _ _ _ _ Hrq).
    + by rewrite (rq_other _ _ _ _ Hrq _ raw msg).
  - by rewrite (rq_out _ _ _ _ Hrq).
Qed.

(** What is due at [hi] under [key] goes to the queues, the rest stays. *)
Definition returned (key : string) (hi : Z) (r r' : R) : Prop :=
  ∀ raw msg s, zset r key !! raw = Some s → Unmarshal raw = Ok msg →
    if s <=? hi then zset r' key !! raw = None ∧ is_Some (zset r' (queue_key (m_Channel msg)) !! raw)
    else zset r' key !! raw = Some s.

Lemma requeued_returned key hi (r r' : R) :
  requeued key (ZRANGEBYSCORE key hi r) r r' → returned key hi r r'.
Proof.
  intros Hrq raw msg s Hs Hu. destruct (s <=? hi) eqn:E; zbool.
  - apply (rq_in _ _ _ _ Hrq); [|done]. apply range_members. by exists s.
  - rewrite (rq_out _ _ _ _ Hrq); [done|]. intros (s' & Hs' & Hle)%range_members.
    rewrite Hs in Hs'. injection Hs' as <-. lia.
Qed.

Lemma range_run key hi (body : list string → prog unit) (w : World R) :
  quiet env →
  run env (results ← trigger (ERedis (RZRange key hi));
           match results with Err _ => mret tt | Ok members => body members end) w =
  run env (body (ZRANGEBYSCORE key hi (w_redis w)))
    (mkWorld (w_db w) (w_redis w) (S (w_pos w)) (w_proc w)).
Proof. intros Hq. rewrite run_trigger_bind, handle_redis_quiet by apply Hq. reflexivity. Qed.

Lemma promote_run (w : World R) :
  quiet env → set_produced (w_redis w) retryDelayedKey →
  ∃ w', run env promoteDelayedRetries w = (Some tt, w') ∧ w_db w' = w_db w ∧ w_proc w' = w_proc w ∧
    requeued retryDelayedKey
      (ZRANGEBYSCORE retryDelayedKey (f64 (UnixNano (e_now env (w_pos w)))) (w_redis w))
      (w_redis w) (w_redis w').
Proof.
  intros Hq Hp. unfold promoteDelayedRetries. rewrite run_trigger_bind, range_run by done.
  cbn [handle fst snd tick w_redis w_db w_pos w_proc].
  apply (requeue_all retryDelayedKey _ (mkWorld _ _ _ _) Hq).
  - by apply range_produced.
  - intros ch. apply retry_queue_ne.
  - apply range_nodup.
Qed.

Lemma reclaim_channel_run now ch (w : World R) :
  quiet env → set_produced (w_redis w) (processing_key ch) →
  ∃ w', run env (reclaim_channel now ch) w = (Some tt, w') ∧ w_db w' = w_db w ∧ w_proc w' = w_proc w ∧
    requeued (processing_key ch) (ZRANGEBYSCORE (processing_key ch) (f64 (UnixNano now)) (w_redis w))
      (w_redis w) (w_redis w').
Proof.
  intros Hq Hp. unfold reclaim_channel. rewrite range_run by done.
  apply (requeue_all (processing_key ch) _ (mkWorld _ _ _ _) Hq).
  - by apply range_produced.
  - intros c. apply processing_queue_ne.
  - apply range_nodup.
Qed.

Lemma channels_ne (a b : string) : a ≠ b → processing_key a ≠ processing_key b.
Proof. intros Hne Heq. by apply processing_key_inj in Heq. Qed.

(** All three processing sets. *)
Lemma reclaim_run (w : World R) :
  quiet env → (∀ ch, ch ∈ all_channels → set_produced (w_redis w) (processing_key ch)) →
  ∃ w', run env reclaimExpiredProcessing w = (Some tt, w') ∧ w_db w' = w_db w ∧
    (∀ k, lock_until (w_redis w') k = lock_until (w_redis w) k) ∧
    (∀ k, (∀ ch, ch ∈ all_channels → k ≠ processing_key ch) → (∀ ch, k ≠ queue_key ch) →
       zset (w_redis w') k = zset (w_redis w) k) ∧
    (∀ c raw, is_Some (zset (w_redis w) (queue_key c) !! raw) → is_Some (zset (w_redis w') (queue_key c) !! raw)) ∧
    ∀ ch, ch ∈ all_channels →
      returned (processing_key ch) (f64 (UnixNano (e_now env (w_pos w)))) (w_redis w) (w_redis w').
Proof.
  intros Hq Hp. unfold reclaimExpiredProcessing. rewrite run_trigger_bind. cbn [handle fst snd].
  set (now := e_now env (w_pos w)). set (w0 := tick w).
  assert (Hgen : ∀ (chs : list Channel) (w1 : World R), NoDup chs →
    (∀ ch, ch ∈ chs → set_produced (w_redis w1) (processing_key ch)) →
    ∃ w', run env (for_each chs (reclaim_channel now)) w1 = (Some tt, w') ∧ w_db w' = w_db w1 ∧
      (∀ k, lock_until (w_redis w') k = lock_until (w_redis w1) k) ∧
      (∀ k, (∀ ch, ch ∈ chs → k ≠ processing_key ch) → (∀ ch, k ≠ queue_key ch) →
         zset (w_redis w') k = zset (w_redis w1) k) ∧
      (∀ c raw, is_Some (zset (w_redis w1) (queue_key c) !! raw) → is_Some (zset (w_redis w') (queue_key c) !! raw)) ∧
      ∀ ch, ch ∈ chs → returned (processing_key ch) (f64 (UnixNano now)) (w_redis w1) (w_redis w')).
  { induction chs as [|ch chs IH]; intros w1 Hnd Hp1.
    { exists w1. split_and!; try done. by intros ch []%elem_of_nil. }
    apply NoDup_cons in Hnd as [Hnin Hnd]. cbn [for_each]. rewrite run_bind.
    destruct (reclaim_channel_run now ch w1 Hq) as (w2 & Hrun & Hdb & _ & Hrq); [apply Hp1; left|].
    rewrite Hrun.
    assert (Hall : Forall produced (ZRANGEBYSCORE (processing_key ch) (f64 (UnixNano now)) (w_redis w1)))
      by (apply range_produced, Hp1; left).
    assert (Hne : ∀ c, c ∈ chs → processing_key c ≠ processing_key ch)
      by (intros c Hc; apply channels_ne; congruence).
    assert (Hsame : ∀ c, c ∈ chs → zset (w_redis w2) (processing_key c) = zset (w_redis w1) (processing_key c)).
    { intros c Hc. eapply requeued_other_set; [done|done|by apply Hne|intros; apply processing_queue_ne]. }
    destruct (IH w2 Hnd) as (w' & Hrun' & Hdb' & Hlk & Hoth & Hqm & Hret).
    { intros c Hc raw s. rewrite Hsame by done. apply (Hp1 c). by right. }
    exists w'. split_and!.
    - done.
    - by rewrite Hdb'.
    - intros k. rewrite Hlk. apply (rq_lock _ _ _ _ Hrq).
    - intros k Hk Hkq. rewrite Hoth; [|intros c Hc; apply Hk; by right|done].
      eapply requeued_other_set; [done|done|apply Hk; left|done].
    - intros c raw Hs. apply Hqm. by eapply requeued_queue_mono.
    - intros c [->|Hc]%elem_of_cons raw msg s Hs Hu.
      + pose proof (requeued_returned _ _ _ _ Hrq raw msg s Hs Hu) as Hr.
        rewrite Hoth by (try apply processing_queue_ne; intros c' Hc'; by apply not_eq_sym, Hne).
        destruct (s <=? _); [|done]. destruct Hr as [H1' H2']. split; [done|]. by apply Hqm.
      + apply (Hret c Hc raw msg s); [|done]. by rewrite Hsame. }
  destruct (Hgen all_channels w0) as (w' & Hrun & Hdb & Hlk & Hoth & Hqm & Hret).
  - apply (bool_decide_unpack _). vm_compute. exact I.
  - exact Hp.
  - by exists w'.
Qed.
(** *** Enqueueing what is due *)

(** Rows and sets after enqueueing the notifications [ns]. *)
Record enqueued (ns : list Notification) (w w' : World R) : Prop := {
  eq_row k n : notifications (w_db w) !! k = Some n →
    ∃ n', notifications (w_db w') !! k = Some n' ∧
      if decide (k ∈ n_ID <$> ns) then ∃ t, n' = touch_status t StatusQueued n else n' = n;
  eq_none k : notifications (w_db w) !! k = None → notifications (w_db w') !! k = None;
  eq_in n : n ∈ ns → is_Some (zset (w_redis w') (queue_key (n_Channel n)) !! scheduled_raw n);
  eq_mono c raw : is_Some (zset (w_redis w) (queue_key c) !! raw) → is_Some (zset (w_redis w') (queue_key c) !! raw);
  eq_other k : (∀ c, k ≠ queue_key c) → zset (w_redis w') k = zset (w_redis w) k;
  eq_lock k : lock_until (w_redis w') k = lock_until (w_redis w) k;
  eq_pos : (w_pos w ≤ w_pos w')%nat;
}.

Lemma schedule_one_run n (w : World R) :
  quiet env →
  ∃ s, run env (schedule_one n) w =
    (Some tt, mkWorld (update_row (n_ID n) (touch_status (e_now env (2 + w_pos w)) StatusQueued) (w_db w))
       (ZADD (queue_key (n_Channel n)) s (scheduled_raw n) (w_redis w)) (3 + w_pos w) (w_proc w)).
Proof.
  intros Hq. eexists. unfold schedule_one.
  rewrite run_bind, (Enqueue_run env _ _ _ Hq (scheduled_Marshal n)).
  rewrite run_bind, UpdateStatus_run by done. reflexivity.
Qed.

Lemma schedule_all ns : ∀ w : World R,
  quiet env → ∃ w', run env (for_each ns schedule_one) w = (Some tt, w') ∧ enqueued ns w w'.
Proof.
  induction ns as [|n ns IH]; intros w Hq.
  { exists w. split; [done|]. split; try done; try lia; [|by intros n []%elem_of_nil].
    intros k n Hn. exists n. split; [done|]. rewrite decide_False; [done|]. by intros []%elem_of_nil. }
  cbn [for_each]. rewrite run_bind. destruct (schedule_one_run n w Hq) as [s Hrun]. rewrite Hrun.
  set (w1 := mkWorld _ _ _ _). destruct (IH w1 Hq) as (w' & Hrun' & [Hrow Hnone Hin Hmono Hoth Hlk Hpos]).
  exists w'. split; [done|]. split.
  - intros k m Hm.
    assert (Hm1 : notifications (w_db w1) !! k = Some
      (if decide (k = n_ID n) then touch_status (e_now env (2 + w_pos w)) StatusQueued m else m)).
    { unfold w1. cbn [w_db]. rewrite lookup_update_row, Hm. reflexivity. }
    destruct (Hrow k _ Hm1) as (n' & Hn' & Hcase). exists n'. split; [done|].
    cbn [fmap list_fmap].
    destruct (decide (k = n_ID n)) as [->|Hne].
    + rewrite decide_True by left. destruct (decide (n_ID n ∈ n_ID <$> ns)).
      * destruct Hcase as [t ->]. by exists t.
      * subst n'. by eexists.
    + destruct (decide (k ∈ n_ID <$> ns)) as [Hk|Hk].
      * rewrite decide_True by by right. done.
      * rewrite decide_False; [done|]. rewrite elem_of_cons. tauto.
  - intros k Hk. apply Hnone. unfold w1. cbn [w_db]. by rewrite lookup_update_row, Hk.
  - intros m [->|Hm]%elem_of_cons; [|by apply Hin]. apply Hmono. unfold w1. cbn [w_redis].
    rewrite zset_ZADD, decide_True, lookup_insert_eq by done. done.
  - intros c raw Hs. apply Hmono. unfold w1. cbn [w_redis]. rewrite zset_ZADD.
    case_decide; [|done]. rewrite lookup_insert. by case_decide.
  - intros k Hk. rewrite Hoth by done. unfold w1. cbn [w_redis].
    by rewrite zset_ZADD, decide_False by (by apply not_eq_sym).
  - intros k. rewrite Hlk. unfold w1. cbn [w_redis]. apply lock_until_ZADD.
  - unfold w1 in Hpos. cbn [w_pos] in Hpos. lia.
Qed.

(** The rows still waiting for their time. *)
Definition waiting (db : DB) : gset uuid :=
  dom (filter (λ e, n_Status e.2 = StatusScheduled) (notifications db)).

Lemma elem_of_waiting k db :
  k ∈ waiting db ↔ ∃ n, notifications db !! k = Some n ∧ n_Status n = StatusScheduled.
Proof.
  unfold waiting. rewrite elem_of_dom. split.
  - intros [n [Hn Hs]%map_lookup_filter_Some]. by exists n.
  - intros (n & Hn & Hs). exists n. by apply map_lookup_filter_Some.
Qed.

(** Clocks that do not run backwards. *)
Definition monotone_clock : Prop :=
  (∀ i j, (i ≤ j)%nat → e_now env i ≤ e_now env j) ∧ ∀ i, in_int64 (e_now env i).

Lemma pending_rows (w : World R) :
  db_wf (w_db w) →
  ∃ ns, (sql_at env (selectPendingScheduled 500) w).1 = Ok ns ∧
    (∀ n, n ∈ ns → notifications (w_db w) !! n_ID n = Some n ∧ due (e_now env (w_pos w)) n = true) ∧
    (ns = [] → ∀ k n, notifications (w_db w) !! k = Some n → due (e_now env (w_pos w)) n = false).
Proof.
  intros Hwf. eexists. split; [reflexivity|]. split.
  - intros n Hn. apply elem_of_take in Hn as (i & Hi & _).
    apply list_elem_of_lookup_2 in Hi. rewrite order_asc_perm in Hi.
    apply list_elem_of_filter in Hi as [Hd Hi]. apply list_elem_of_fmap in Hi as ([k m] & -> & Hin).
    apply pg_scan_elem in Hin. cbn. by rewrite (ok_key _ _ (wf_rows _ Hwf _ _ Hin)).
  - intros Hnil k n Hn. destruct (due (e_now env (w_pos w)) n) eqn:Hd; [|done]. exfalso.
    assert (Hin : n ∈ order_asc (λ n, default 0 (n_ScheduledAt n)) (rows_where (due (e_now env (w_pos w))) (w_db w))).
    { rewrite order_asc_perm. apply list_elem_of_filter. split; [done|].
      apply list_elem_of_fmap. exists (k, n). split; [done|]. by apply pg_scan_elem. }
    destruct (order_asc _ _) as [|m l]; [by apply elem_of_nil in Hin|]. discriminate Hnil.
Qed.
Lemma due_scheduled t n : due t n = true → n_Status n = StatusScheduled.
Proof. unfold due. intros [Hs _]%andb_true_iff. by apply String.eqb_eq. Qed.

Lemma due_later t1 t2 n : t1 ≤ t2 → due t2 n = false → due t1 n = false.
Proof.
  unfold due. intros Ht. destruct (String.eqb _ _); [|done]. cbn [andb].
  destruct (n_ScheduledAt n) as [t|]; [|done]. pose proof (pg_timestamp_mono t1 t2 Ht).
  intros E. zbool. apply Z.leb_gt. lia.
Qed.

(** Nothing new waits, and what was enqueued no longer does. *)
Lemma waiting_shrinks ns (w w' : World R) :
  enqueued ns w w' → ns ≠ [] →
  (∀ n, n ∈ ns → notifications (w_db w) !! n_ID n = Some n ∧ n_Status n = StatusScheduled) →
  (size (waiting (w_db w')) < size (waiting (w_db w)))%nat.
Proof.
  intros Heq Hne Hns. apply subset_size.
  assert (Hsub : ∀ k, k ∈ waiting (w_db w') → k ∈ waiting (w_db w) ∧ k ∉ n_ID <$> ns).
  { intros k (n' & Hn' & Hs')%elem_of_waiting.
    destruct (notifications (w_db w) !! k) as [n|] eqn:Hn;
      [|by rewrite (eq_none _ _ _ Heq) in Hn'].
    destruct (eq_row _ _ _ Heq k n Hn) as (n'' & Hn'' & Hcase). assert (n'' = n') as -> by congruence.
    destruct (decide (k ∈ n_ID <$> ns)); [by destruct Hcase as [t ->]|]. subst.
    split; [|done]. apply elem_of_waiting. by exists n. }
  split.
  - intros k Hk. by apply Hsub.
  - destruct ns as [|n ns]; [done|]. intros Hle. destruct (Hns n) as [Hn Hs]; [left|].
    destruct (Hsub (n_ID n)) as [_ Hnin].
    + apply Hle, elem_of_waiting. by exists n.
    + apply Hnin. apply list_elem_of_fmap. exists n. split; [done|left].
Qed.

Record drained (w w' : World R) : Prop := {
  dr_row k n : notifications (w_db w) !! k = Some n →
    ∃ n', notifications (w_db w') !! k = Some n' ∧
      ((n' = n ∧ due (e_now env (w_pos w)) n = false) ∨
       (n_Status n = StatusScheduled ∧ ∃ t, n' = touch_status t StatusQueued n) ∧
        is_Some (zset (w_redis w') (queue_key (n_Channel n)) !! scheduled_raw n));
  dr_mono c raw : is_Some (zset (w_redis w) (queue_key c) !! raw) → is_Some (zset (w_redis w') (queue_key c) !! raw);
  dr_other k : (∀ c, k ≠ queue_key c) → zset (w_redis w') k = zset (w_redis w) k;
  dr_lock k : lock_until (w_redis w') k = lock_until (w_redis w) k;
  dr_pos : (w_pos w ≤ w_pos w')%nat;
}.

Lemma poll_loop_run fuel : ∀ w : World R,
  quiet env → monotone_clock → db_wf (w_db w) → (size (waiting (w_db w)) < fuel)%nat →
  ∃ w', run env (poll_loop fuel) w = (Some (Some tt), w') ∧ drained w w'.
Proof.
  induction fuel as [|fuel IH]; intros w Hq Hmono Hwf Hf; [lia|].
  cbn [poll_loop]. rewrite run_bind. unfold NotificationRepo_GetPendingScheduled.
  rewrite run_sql by done. destruct (pending_rows w Hwf) as (ns & Hns & Hin & Hnil).
  rewrite Hns. cbn [wrap_err]. set (w1 := after_sql env (selectPendingScheduled 500) w).
  destruct ns as [|n0 ns0].
  { eexists. split; [reflexivity|]. split; try done; [|cbn; lia].
    intros k n Hn. exists n. split; [done|]. left. split; [done|]. by eapply Hnil. }
  set (ns := n0 :: ns0) in *. rewrite run_bind.
  destruct (schedule_all ns w1 Hq) as (w2 & Hrun2 & Heq). rewrite Hrun2.
  assert (Hns1 : ∀ n, n ∈ ns → notifications (w_db w1) !! n_ID n = Some n ∧ n_Status n = StatusScheduled).
  { intros n Hn. destruct (Hin n Hn) as [Hrow Hd]. split; [done|]. by eapply due_scheduled. }
  pose proof (waiting_shrinks ns w1 w2 Heq ltac:(done) Hns1) as Hlt.
  assert (Hwf2 : db_wf (w_db w2)).
  { pose proof (run_db_wf env (for_each ns schedule_one) w1 Hwf) as Hw. by rewrite Hrun2 in Hw. }
  change (waiting (w_db w1)) with (waiting (w_db w)) in Hlt.
  destruct (IH w2 Hq Hmono Hwf2) as (w' & Hrun' & [Hrow Hmn Hoth Hlk Hpos]); [lia|].
  exists w'. split; [done|]. pose proof (eq_pos _ _ _ Heq) as Hp2. cbn in Hp2. split.
  - intros k n Hn. destruct (eq_row _ _ _ Heq k n Hn) as (n2 & Hn2 & Hcase).
    destruct (Hrow k n2 Hn2) as (n' & Hn' & Hcase'). exists n'. split; [done|].
    destruct (decide (k ∈ n_ID <$> ns)) as [Hk|Hk].
    + destruct Hcase as [t ->]. destruct Hcase' as [[-> _]|[[Hs _] _]]; [|done]. right.
      assert (Hnn : n ∈ ns).
      { apply list_elem_of_fmap in Hk as (m & -> & Hm). destruct (Hns1 m Hm) as [Hm' _].
        cbn in Hm'. rewrite Hn in Hm'. by injection Hm' as ->. }
      split; [split; [by apply Hns1|by exists t]|]. apply Hmn. by apply (eq_in _ _ _ Heq).
    + subst n2. destruct Hcase' as [[-> Hd]|Hcase']; [left|by right]. split; [done|].
      eapply due_later; [|exact Hd]. apply Hmono. lia.
  - intros c raw Hs. apply Hmn. by apply (eq_mono _ _ _ Heq).
  - intros k Hk. rewrite Hoth by done. by apply (eq_other _ _ _ Heq).
  - intros k. rewrite Hlk. apply (eq_lock _ _ _ Heq).
  - lia.
Qed.
(** ** Polls *)

Definition lock_free (now : Z) (r : R) : Prop :=
  match lock_until r schedulerLockKey with Some d => d ≤ now | None => True end.

(** The producer wrote everything in the sets a poll reads. *)
Definition sets_produced (r : R) : Prop :=
  set_produced r retryDelayedKey ∧ ∀ ch, ch ∈ all_channels → set_produced r (processing_key ch).

Lemma SETNX_free now (r : R) :
  lock_free now r → (SETNX schedulerLockKey now schedulerLockTTL r).1 = true.
Proof.
  unfold lock_free. intros Hf. rewrite SETNX_acquired.
  destruct (lock_until r schedulerLockKey); [|done]. by apply Z.leb_le.
Qed.

Lemma UnixNano_f64_mono t1 t2 :
  t1 ≤ t2 → in_int64 t1 → in_int64 t2 → f64 (UnixNano t1) ≤ f64 (UnixNano t2).
Proof. intros Hle H1' H2'. unfold UnixNano. rewrite !wrap64_id by done. by apply f64_mono. Qed.

(** A set that a poll returns to the queues. *)
Definition pollable (key : string) : Prop :=
  key = retryDelayedKey ∨ ∃ ch, ch ∈ all_channels ∧ key = processing_key ch.

(** What a poll that has the lock does. *)
Record polled (w w' : World R) : Prop := {
  po_row k n : notifications (w_db w) !! k = Some n →
    ∃ n', notifications (w_db w') !! k = Some n' ∧
      ((n' = n ∧ due (e_now env (w_pos w)) n = false) ∨
       (n_Status n = StatusScheduled ∧ ∃ t, n' = touch_status t StatusQueued n) ∧
        is_Some (zset (w_redis w') (queue_key (n_Channel n)) !! scheduled_raw n));
  po_returned key raw msg s : pollable key → zset (w_redis w) key !! raw = Some s → Unmarshal raw = Ok msg →
    s ≤ f64 (UnixNano (e_now env (w_pos w))) →
    zset (w_redis w') key !! raw = None ∧ is_Some (zset (w_redis w') (queue_key (m_Channel msg)) !! raw);
  po_queue c raw : is_Some (zset (w_redis w) (queue_key c) !! raw) → is_Some (zset (w_redis w') (queue_key c) !! raw);
  po_lock : lock_until (w_redis w') schedulerLockKey = Some (e_now env (w_pos w) + schedulerLockTTL);
  po_other k : ¬ pollable k → (∀ c, k ≠ queue_key c) → zset (w_redis w') k = zset (w_redis w) k;
}.

(** Its three passes one after the other. *)
Record passes (w w2 w3 w4 : World R) : Prop := {
  ps_drained : drained (tick (set_redis (SETNX schedulerLockKey (e_now env (w_pos w)) schedulerLockTTL (w_redis w)).2 w)) w2;
  ps_promoted : requeued retryDelayedKey
    (ZRANGEBYSCORE retryDelayedKey (f64 (UnixNano (e_now env (w_pos w2)))) (w_redis w2)) (w_redis w2) (w_redis w3);
  ps_delayed : Forall produced (ZRANGEBYSCORE retryDelayedKey (f64 (UnixNano (e_now env (w_pos w2)))) (w_redis w2));
  ps_db : w_db w3 = w_db w2 ∧ w_db w4 = w_db w3;
  ps_lock k : lock_until (w_redis w4) k = lock_until (w_redis w3) k;
  ps_other k : (∀ ch, ch ∈ all_channels → k ≠ processing_key ch) → (∀ ch, k ≠ queue_key ch) →
    zset (w_redis w4) k = zset (w_redis w3) k;
  ps_queue c raw : is_Some (zset (w_redis w3) (queue_key c) !! raw) → is_Some (zset (w_redis w4) (queue_key c) !! raw);
  ps_returned ch : ch ∈ all_channels →
    returned (processing_key ch) (f64 (UnixNano (e_now env (w_pos w3)))) (w_redis w3) (w_redis w4);
  ps_pos : (w_pos w ≤ w_pos w2 ≤ w_pos w3)%nat;
}.

Lemma poll_passes fuel (w : World R) :
  quiet env → monotone_clock → db_wf (w_db w) → lock_free (e_now env (w_pos w)) (w_redis w) →
  sets_produced (w_redis w) → (size (waiting (w_db w)) < fuel)%nat →
  ∃ w2 w3 w4, run env (poll fuel) w = (Some (Some tt), w4) ∧ passes w w2 w3 w4.
Proof.
  intros Hq Hmono Hwf Hfree [Hpr Hpp] Hf. unfold poll.
  rewrite run_trigger_bind, handle_redis_quiet by apply Hq. cbn [exec_redis fst snd].
  rewrite SETNX_free by done. set (w1 := tick (set_redis _ w)).
  destruct (poll_loop_run fuel w1 Hq Hmono Hwf Hf) as (w2 & Hrun2 & Hdr). rewrite run_bind, Hrun2, run_bind.
  assert (Hz2 : ∀ k, (∀ c, k ≠ queue_key c) → zset (w_redis w2) k = zset (w_redis w) k).
  { intros k Hk. rewrite (dr_other _ _ Hdr k Hk). apply zset_SETNX. }
  assert (Hpr2 : set_produced (w_redis w2) retryDelayedKey)
    by (intros raw s; rewrite Hz2 by apply retry_queue_ne; apply Hpr).
  destruct (promote_run w2 Hq Hpr2) as (w3 & Hrun3 & Hdb3 & _ & Hrq). rewrite Hrun3, run_bind.
  pose proof (range_produced _ (f64 (UnixNano (e_now env (w_pos w2)))) _ Hpr2) as Hall.
  destruct (reclaim_run w3 Hq) as (w4 & Hrun4 & Hdb4 & Hlk4 & Hoth4 & Hqm4 & Hret4).
  { intros ch Hch raw s. rewrite (requeued_other_set _ _ _ _ (processing_key ch) Hrq) by
      (try done; apply processing_queue_ne). rewrite Hz2 by apply processing_queue_ne. by apply Hpp. }
  rewrite Hrun4. exists w2, w3, w4. split; [reflexivity|]. pose proof (dr_pos _ _ Hdr) as Hpos. cbn in Hpos.
  pose proof (run_pos env promoteDelayedRetries w2) as Hpos3. rewrite Hrun3 in Hpos3. cbn in Hpos3.
  split; try done. split; [lia|done].
Qed.

Lemma passes_polled (w w2 w3 w4 : World R) : monotone_clock → lock_free (e_now env (w_pos w)) (w_redis w) → passes w w2 w3 w4 → polled w w4.
Proof.
  intros Hmono Hfree [[Hrow Hmn Hoth Hlk2 _] Hrq Hall [Hdb3 Hdb4] Hlk4 Hoth4 Hqm4 Hret4 Hpos].
  assert (Hz2 : ∀ k, (∀ c, k ≠ queue_key c) → zset (w_redis w2) k = zset (w_redis w) k).
  { intros k Hk. rewrite Hoth by done. apply zset_SETNX. }
  assert (Hle : ∀ i, (w_pos w ≤ i)%nat → f64 (UnixNano (e_now env (w_pos w))) ≤ f64 (UnixNano (e_now env i))).
  { intros i Hi. apply UnixNano_f64_mono; [by apply Hmono|apply Hmono..]. }
  assert (Hqm : ∀ c raw, is_Some (zset (w_redis w2) (queue_key c) !! raw) → is_Some (zset (w_redis w4) (queue_key c) !! raw)).
  { intros c raw Hs. apply Hqm4. by eapply requeued_queue_mono. }
  split.
  - intros k n Hn. rewrite Hdb4, Hdb3. destruct (Hrow k n Hn) as (n' & Hn' & Hc). exists n'. split; [done|].
    destruct Hc as [[-> Hd]|[Hs Hin]]; [left|right; split; [done|by apply Hqm]]. split; [done|].
    refine (due_later _ _ n _ Hd). apply Hmono. cbn. lia.
  - intros key raw msg s [->|(ch & Hch & ->)] Hs Hu Hdue.
    + rewrite <- Hz2 in Hs by apply retry_queue_ne.
      pose proof (requeued_returned _ _ _ _ Hrq raw msg s Hs Hu) as Hr.
      rewrite (proj2 (Z.leb_le _ _)) in Hr by (etransitivity; [exact Hdue|apply Hle; lia]).
      rewrite Hoth4 by (done || apply retry_queue_ne). destruct Hr as [? ?]. split; [done|]. by apply Hqm4.
    + rewrite <- Hz2, <- (requeued_other_set _ _ _ _ (processing_key ch) Hrq) in Hs
        by (try done; apply processing_queue_ne).
      pose proof (Hret4 ch Hch raw msg s Hs Hu) as Hr.
      by rewrite (proj2 (Z.leb_le _ _)) in Hr by (etransitivity; [exact Hdue|apply Hle; lia]).
  - intros c raw Hs. apply Hqm, Hmn. cbn. by rewrite zset_SETNX.
  - rewrite Hlk4, (rq_lock _ _ _ _ Hrq), Hlk2. cbn. rewrite lock_until_SETNX, decide_True; [done|].
    split; [done|]. by apply SETNX_free.
  - intros k Hk Hkq. rewrite Hoth4; [|intros ch Hch ->; apply Hk; right; by exists ch|done].
    rewrite (requeued_other_set _ _ _ _ k Hrq) by (try done; intros ->; apply Hk; by left). by apply Hz2.
Qed.

Lemma poll_run fuel (w : World R) :
  quiet env → monotone_clock → db_wf (w_db w) → lock_free (e_now env (w_pos w)) (w_redis w) →
  sets_produced (w_redis w) → (size (waiting (w_db w)) < fuel)%nat →
  ∃ w', run env (poll fuel) w = (Some (Some tt), w') ∧ polled w w'.
Proof.
  intros Hq Hmono Hwf Hfree Hsets Hf.
  destruct (poll_passes fuel w Hq Hmono Hwf Hfree Hsets Hf) as (w2 & w3 & w4 & Hrun & Hps).
  exists w4. split; [done|]. by eapply passes_polled.
Qed.

End store.

(** ** Concrete runs *)

#[local] Existing Instances RefTemplate RefPg RefPg_laws RefUUID RefUUID_laws RefLua.

(** Notification 1 is due, notification 2 was processed and its worker died. *)
Definition demo_due : Notification :=
  {| n_ID := 1; n_BatchID := None; n_IdempotencyKey := None; n_Recipient := "+15550100";
     n_Channel := ChannelSMS; n_Content := "hello"; n_Priority := PriorityNormal;
     n_Status := StatusScheduled; n_TemplateID := None; n_TemplateVars := JNull;
     n_ScheduledAt := Some demo_start; n_ProviderMsgID := None; n_Attempts := 0; n_MaxAttempts := 5;
     n_LastError := None; n_SentAt := None; n_CreatedAt := demo_start; n_UpdatedAt := demo_start |}.

Definition demo_poll_world : World RefRedis :=
  set_redis (ZADD (processing_key ChannelSMS) (demo_start - Second)
      (match Marshal (demo_message 2 PriorityNormal) with Ok raw => raw | Err _ => "" end) empty_RefRedis)
    (demo_with [demo_due]).

(** A clock that stays in the range of [int64]. *)
Definition demo_env_clock : Env := {|
  e_now i := demo_start + Z.min (Z.of_nat i) 1000000 * Millisecond;
  e_fault := e_fault demo_env; e_uuid := e_uuid demo_env; e_rand := e_rand demo_env;
  e_http := e_http demo_env; e_lua := e_lua demo_env; e_done := e_done demo_env |}.

Lemma demo_clock_monotone : monotone_clock demo_env_clock.
Proof.
  split.
  - intros i j Hij. cbn. assert (0 ≤ Millisecond) by (unfold Millisecond, Microsecond; lia). nia.
  - intros i. cbn. unfold in_int64, int64_min, int64_max, demo_start, Second, Millisecond, Microsecond. lia.
Qed.

Lemma demo_sets_produced : sets_produced (w_redis demo_poll_world).
Proof.
  assert (Hall : ∀ key, set_produced (w_redis demo_poll_world) key).
  { intros key raw s Hs. cbn [demo_poll_world set_redis w_redis] in Hs. rewrite zset_ZADD in Hs.
    destruct (decide (processing_key ChannelSMS = key)); [|done].
    apply lookup_insert_Some in Hs as [[<- _]|[_ Hs]]; [|done].
    exists (demo_message 2 PriorityNormal). split; [split; done|]. reflexivity. }
  split; intros; apply Hall.
Qed.



(** Redis answers the lock and then loses every third effect, the ZADD of each
    round of the loop. *)
Definition demo_env_redis_down : Env := {|
  e_now := e_now demo_env;
  e_fault i := if (negb (i =? 0) && (i mod 3 =? 0))%nat then Lost "connection refused" else NoFault;
  e_uuid := e_uuid demo_env; e_rand := e_rand demo_env; e_http := e_http demo_env;
  e_lua := e_lua demo_env; e_done := e_done demo_env |}.

Definition demo_stuck_world (pos : nat) : World RefRedis :=
  mkWorld (demo_db [demo_due]) (w_redis (run demo_env_redis_down (trigger (ERedis
    (RSetNX schedulerLockKey schedulerLockTTL))) demo_world).2) pos demo_proc.

Lemma demo_due_always i : due (e_now demo_env_redis_down i) demo_due = true.
Proof.
  unfold due. cbn [n_Status n_ScheduledAt demo_due].
  change (String.eqb StatusScheduled StatusScheduled) with true. cbn [andb].
  apply Z.leb_le. cbn [pg_timestamp RefPg e_now demo_env_redis_down demo_env].
  assert (demo_start / 1000 * 1000 = demo_start) as Hs by reflexivity.
  rewrite <- Hs at 1. apply Z.mul_le_mono_nonneg_r; [lia|]. apply Z.div_le_mono; [lia|].
  unfold Millisecond, Microsecond. lia.
Qed.

Lemma stuck_round fuel j :
  (run demo_env_redis_down (poll_loop fuel) (demo_stuck_world (1 + 3 * j))).1 = Some None.
Proof.
  revert j. induction fuel as [|fuel IH]; intros j; [done|].
  cbn [poll_loop]. rewrite run_bind. unfold NotificationRepo_GetPendingScheduled.
  rewrite run_trigger_bind, handle_sql_quiet.
  2: { cbn [demo_stuck_world w_pos demo_env_redis_down e_fault].
       replace ((1 + 3 * j) mod 3 =? 0)%nat with false; [by rewrite andb_false_r|].
       symmetry. apply Nat.eqb_neq. rewrite Nat.mul_comm, Nat.Div0.mod_add. done. }
  cbn [exec_sql fst snd wrap_err run mret prog_ret].
  assert (Hrows : rows_where (due (e_now demo_env_redis_down (1 + 3 * j))) (demo_db [demo_due]) = [demo_due]).
  { unfold rows_where. change (table_rows (notifications (demo_db [demo_due]))) with [demo_due].
    rewrite filter_cons, decide_True by apply demo_due_always. reflexivity. }
  cbn [demo_stuck_world w_pos w_db]. rewrite Hrows.
  change (take 500 (order_asc (λ n, default 0 (n_ScheduledAt n)) [demo_due])) with [demo_due].
  cbn [for_each]. rewrite !run_bind. unfold schedule_one. rewrite run_bind. unfold Enqueue.
  rewrite scheduled_Marshal, run_trigger_bind, run_trigger.
  cbn [handle fst snd tick set_db w_pos w_db w_redis w_proc].
  assert (Hf : e_fault demo_env_redis_down (S (S (1 + 3 * j))) = Lost "connection refused").
  { cbn [demo_env_redis_down e_fault]. replace (S (S (1 + 3 * j))) with ((j + 1) * 3)%nat by lia.
    rewrite Nat.Div0.mod_mul. replace ((j + 1) * 3 =? 0)%nat with false; [done|].
    symmetry. apply Nat.eqb_neq. lia. }
  change (w_pos (demo_stuck_world (1 + 3 * j))) with (1 + 3 * j)%nat. rewrite Hf. cbn [faulty fst snd run mret prog_ret].
  specialize (IH (S j)). replace (1 + 3 * S j)%nat with (S (S (S (1 + 3 * j)))) in IH by lia.
  exact IH.
Qed.

(** A poll can run forever.  One notification is due and Redis, which granted
    the lock, then refuses every ZADD: the loop skips the failed enqueue, finds the
    same notification still due and starts over, however long it is given. *)
Theorem poll_never_ends fuel :
  (run demo_env_redis_down (poll fuel) (mkWorld (demo_db [demo_due]) empty_RefRedis 0 demo_proc)).1
    = Some None.
Proof.
  unfold poll. rewrite run_trigger_bind, handle_redis_quiet by reflexivity.
  cbn [exec_redis fst snd].
  change (SETNX schedulerLockKey _ schedulerLockTTL _).1 with true.
  cbn iota. rewrite run_bind. pose proof (stuck_round fuel 0) as Hs.
  change (demo_stuck_world (1 + 3 * 0)) with (tick (set_redis (SETNX schedulerLockKey
    (e_now demo_env_redis_down 0) schedulerLockTTL empty_RefRedis).2
    (mkWorld (demo_db [demo_due]) empty_RefRedis 0 demo_proc))) in Hs.
  cbn [w_redis w_pos]. destruct (run _ (poll_loop fuel) _) as [o w']. cbn in Hs. by subst o.
Qed.
