(* ===== verification/Pool.v ===== *)
(** * The worker pool (internal/worker/pool.go)

    A bounded Go channel of tasks and [size] goroutines that receive from it.  A
    task is abstract here (the dispatcher's closures, see [Dispatcher]).  Every
    step a goroutine can take is an action of [pool_act], so a list of actions is
    one interleaving of submitters, workers, [Stop] and the context's
    cancellation. *)
From S2P Require Import Prelude.
From Stdlib Require Import ZArith Lia.
From stdpp Require Import base numbers list.

Section pool.
Context {T : Type}.

(** A worker goroutine: at its select, running a task, or returned. *)
Inductive worker := Waiting | Running (t : T) | Returned.

Record Pool := mkPool {
  p_size : nat;
  p_tasks : list T;
  p_closed : bool;
  p_workers : list worker;
  p_cancelled : bool;
}.

(** [make(chan func(), size*2)] *)
Definition NewPool (size : nat) : Pool := mkPool size [] false [] false.
Definition capacity (p : Pool) : nat := p_size p * 2.

(** [Start] adds [size] goroutines. *)
Definition Start (p : Pool) : Pool :=
  mkPool (p_size p) (p_tasks p) (p_closed p) (p_workers p ++ replicate (p_size p) Waiting) (p_cancelled p).

(** A send either happens, has to wait for room, or panics on a closed channel. *)
Inductive send_result := Sent (p : Pool) | Blocked | SendPanics.

Definition push (t : T) (p : Pool) : Pool :=
  mkPool (p_size p) (p_tasks p ++ [t]) (p_closed p) (p_workers p) (p_cancelled p).

Definition Submit (t : T) (p : Pool) : send_result :=
  if p_closed p then SendPanics
  else if (length (p_tasks p) <? capacity p)%nat then Sent (push t p) else Blocked.

(** [None] is the panic of a send on a closed channel. *)
Definition TrySubmit (t : T) (p : Pool) : option (bool * Pool) :=
  match Submit t p with
  | Sent p' => Some (true, p')
  | Blocked => Some (false, p)
  | SendPanics => None
  end.

Definition Pending (p : Pool) : nat := length (p_tasks p).

(** [close(p.tasks)]: closing twice panics. *)
Definition close_tasks (p : Pool) : option Pool :=
  if p_closed p then None
  else Some (mkPool (p_size p) (p_tasks p) true (p_workers p) (p_cancelled p)).

(** [p.wg.Wait()] returns when every worker has. *)
Definition wait_done (p : Pool) : bool :=
  forallb (λ w, match w with Returned => true | _ => false end) (p_workers p).

Definition set_worker (i : nat) (w : worker) (p : Pool) : Pool :=
  mkPool (p_size p) (p_tasks p) (p_closed p) (<[i := w]> (p_workers p)) (p_cancelled p).

Inductive action :=
| ASubmit (t : T)        (* a Submit or successful TrySubmit completes *)
| ATake (i : nat)        (* worker i receives a task *)
| AFinish (i : nat)      (* worker i's task returns *)
| AReturn (i : nat)      (* worker i returns: context done, or channel closed and empty *)
| AClose                 (* Stop closes the channel *)
| ACancel.               (* the context is cancelled *)

Definition pool_act (a : action) (p : Pool) : option Pool :=
  match a with
  | ASubmit t => match Submit t p with Sent p' => Some p' | _ => None end
  | ATake i =>
      match p_workers p !! i, p_tasks p with
      | Some Waiting, t :: rest =>
          Some (mkPool (p_size p) rest (p_closed p) (<[i := Running t]> (p_workers p)) (p_cancelled p))
      | _, _ => None
      end
  | AFinish i =>
      match p_workers p !! i with
      | Some (Running _) => Some (set_worker i Waiting p)
      | _ => None
      end
  | AReturn i =>
      match p_workers p !! i with
      | Some Waiting =>
          if p_cancelled p || (p_closed p && match p_tasks p with [] => true | _ => false end)
          then Some (set_worker i Returned p) else None
      | _ => None
      end
  | AClose => close_tasks p
  | ACancel => Some (mkPool (p_size p) (p_tasks p) (p_closed p) (p_workers p) true)
  end.

Fixpoint pool_run (tr : list action) (p : Pool) : option Pool :=
  match tr with
  | [] => Some p
  | a :: tr' => p' ← pool_act a p; pool_run tr' p'
  end.

(** ** What a trace did *)

Fixpoint submitted (tr : list action) : list T :=
  match tr with
  | [] => []
  | ASubmit t :: tr' => t :: submitted tr'
  | _ :: tr' => submitted tr'
  end.

Definition running (p : Pool) : list T :=
  omap (λ w, match w with Running t => Some t | _ => None end) (p_workers p).

(** The tasks received and the tasks finished, in order. *)
Fixpoint received (tr : list action) (p : Pool) : list T :=
  match tr with
  | [] => []
  | a :: tr' =>
      match pool_act a p with
      | Some p' => match a with ATake _ => take 1 (p_tasks p) | _ => [] end ++ received tr' p'
      | None => []
      end
  end.

Fixpoint finished (tr : list action) (p : Pool) : list T :=
  match tr with
  | [] => []
  | a :: tr' =>
      match pool_act a p with
      | Some p' =>
          match a with
          | AFinish i => match p_workers p !! i with Some (Running t) => [t] | _ => [] end
          | _ => []
          end ++ finished tr' p'
      | None => []
      end
  end.

(** ** Lemmas *)

Record pool_wf (p : Pool) : Prop := {
  pw_room : length (p_tasks p) ≤ capacity p;
  pw_returned : p_cancelled p = false → Returned ∈ p_workers p → p_closed p = true ∧ p_tasks p = [];
}.

Lemma Submit_Sent t p p' :
  Submit t p = Sent p' → p' = push t p ∧ p_closed p = false ∧ length (p_tasks p) < capacity p.
Proof.
  unfold Submit. destruct (p_closed p); [done|]. destruct (_ <? _)%nat eqn:E; [|done].
  intros [= <-]. apply Nat.ltb_lt in E. done.
Qed.

Lemma elem_of_insert_worker i w x (l : list worker) : x ∈ <[i:=w]> l → x = w ∨ x ∈ l.
Proof.
  intros (j & Hj)%list_elem_of_lookup.
  destruct (decide (i = j)) as [->|Hne].
  - destruct (decide (j < length l)) as [Hlt|Hge].
    + rewrite list_lookup_insert_eq in Hj by done. left. congruence.
    + rewrite list_insert_ge in Hj by lia. right. by eapply list_elem_of_lookup_2.
  - rewrite list_lookup_insert_ne in Hj by done. right. by eapply list_elem_of_lookup_2.
Qed.

Lemma pool_act_wf a p p' : pool_act a p = Some p' → pool_wf p → pool_wf p'.
Proof.
  intros Ha [Hroom Hret]. destruct a; cbn [pool_act] in Ha.
  - destruct (Submit t p) as [q| |] eqn:Es; [|done|done]. injection Ha as <-.
    destruct (Submit_Sent _ _ _ Es) as (-> & Hc & Hlt). split; cbn.
    + rewrite length_app. cbn. unfold capacity in *. cbn. lia.
    + intros Hcan Hin. destruct (Hret Hcan Hin). congruence.
  - destruct (p_workers p !! i) as [[]|] eqn:Ei; try done. destruct (p_tasks p) as [|t rest] eqn:Et; [done|].
    injection Ha as <-. split; cbn; [cbn in Hroom; unfold capacity in *; cbn; lia|].
    intros Hcan Hin. apply elem_of_insert_worker in Hin as [|Hin]; [done|]. by destruct (Hret Hcan Hin).
  - destruct (p_workers p !! i) as [[]|]; try done. injection Ha as <-. split; cbn; [done|].
    intros Hcan Hin. apply elem_of_insert_worker in Hin as [|Hin]; [done|]. auto.
  - destruct (p_workers p !! i) as [[]|]; try done.
    destruct (_ || _) eqn:Eb; [|done]. injection Ha as <-. split; cbn; [done|].
    intros Hcan _. rewrite Hcan in Eb. cbn in Eb. apply andb_true_iff in Eb as [Hc Ht].
    by destruct (p_tasks p).
  - unfold close_tasks in Ha. destruct (p_closed p) eqn:Ec; [done|]. injection Ha as <-. split; cbn; [done|].
    intros Hcan Hin. destruct (Hret Hcan Hin). done.
  - injection Ha as <-. by split.
Qed.

Lemma running_insert i w (p : Pool) old :
  p_workers p !! i = Some old →
  match old with Running t => [t] | _ => [] end ++
    omap (λ w, match w with Running t => Some t | _ => None end) (<[i := w]> (p_workers p))
  ≡ₚ match w with Running t => [t] | _ => [] end ++ running p.
Proof.
  unfold running. generalize (p_workers p). intros l Hi. revert i Hi.
  induction l as [|x l IH]; intros [|i] Hi; try done.
  - injection Hi as ->. cbn. destruct old, w; cbn; try done. apply Permutation_swap.
  - cbn in Hi. specialize (IH i Hi). cbn. destruct x as [|t|]; cbn; try exact IH.
    rewrite <- !Permutation_middle. by constructor.
Qed.

(** Conservation, from any pool. *)
Lemma pool_run_conserves tr : ∀ p p',
  pool_run tr p = Some p' →
  p_tasks p ++ submitted tr = received tr p ++ p_tasks p' ∧
  running p ++ received tr p ≡ₚ finished tr p ++ running p' ∧
  length (p_workers p') = length (p_workers p) ∧ p_size p' = p_size p.
Proof.
  induction tr as [|a tr IH]; intros p p' Hrun; cbn [pool_run] in Hrun.
  { injection Hrun as <-. cbn. by rewrite !app_nil_r. }
  destruct (pool_act a p) as [q|] eqn:Ha; [|done]. cbn in Hrun.
  destruct (IH q p' Hrun) as (Hq1 & Hq2 & Hq3 & Hq4).
  cbn [submitted received finished]. rewrite Ha. destruct a; cbn [pool_act] in Ha.
  - destruct (Submit t p) as [q'| |] eqn:Es; [|done|done]. injection Ha as ->.
    destruct (Submit_Sent _ _ _ Es) as (-> & _). cbn [app]. split_and!; try done.
    rewrite <- Hq1. cbn. by rewrite <- app_assoc.
  - destruct (p_workers p !! i) as [[]|] eqn:Ei; try done. destruct (p_tasks p) as [|t rest] eqn:Et; [done|].
    injection Ha as <-. cbn [p_tasks p_workers p_size] in *. cbn [take app]. split_and!.
    + f_equal. exact Hq1.
    + rewrite <- Hq2. pose proof (running_insert i (Running t) p Waiting Ei) as Hr. cbn [app] in Hr.
      unfold running at 2. cbn [p_workers]. rewrite Hr. cbn. symmetry. apply Permutation_middle.
    + by rewrite Hq3, length_insert.
    + done.
  - destruct (p_workers p !! i) as [[|t|]|] eqn:Ei; try done. injection Ha as <-.
    cbn [set_worker p_tasks p_workers p_size] in *. split_and!; try done.
    + pose proof (running_insert i Waiting p (Running t) Ei) as Hr. cbn [app] in Hr.
      rewrite <- Hr. cbn [app]. rewrite <- Hq2. done.
    + by rewrite Hq3, length_insert.
  - destruct (p_workers p !! i) as [[]|] eqn:Ei; try done. destruct (_ || _); [|done]. injection Ha as <-.
    cbn [set_worker p_tasks p_workers p_size app] in *. split_and!; try done.
    + rewrite <- Hq2. pose proof (running_insert i Returned p Waiting Ei) as Hr. cbn [app] in Hr.
      unfold running at 2. cbn [p_workers]. by rewrite Hr.
    + by rewrite Hq3, length_insert.
  - unfold close_tasks in Ha. destruct (p_closed p); [done|]. injection Ha as <-. done.
  - injection Ha as <-. done.
Qed.

Lemma pool_run_wf tr : ∀ p p', pool_run tr p = Some p' → pool_wf p → pool_wf p'.
Proof.
  induction tr as [|a tr IH]; intros p p' Hrun Hwf; cbn [pool_run] in Hrun; [by injection Hrun as <-|].
  destruct (pool_act a p) as [q|] eqn:Ha; [|done]. cbn in Hrun. eapply IH; [done|]. by eapply pool_act_wf.
Qed.

Lemma cancelled_only_by_ACancel tr : ∀ p p',
  pool_run tr p = Some p' → ACancel ∉ tr → p_cancelled p' = p_cancelled p.
Proof.
  induction tr as [|a tr IH]; intros p p' Hrun Hno; cbn [pool_run] in Hrun; [by injection Hrun as <-|].
  rewrite not_elem_of_cons in Hno. destruct Hno as [Hne Hno].
  destruct (pool_act a p) as [q|] eqn:Ha; [|done]. cbn in Hrun. rewrite (IH q p' Hrun Hno).
  destruct a; cbn [pool_act] in Ha; try (unfold close_tasks in Ha);
    repeat case_match; simplify_eq; try done.
  by destruct (Submit_Sent _ _ _ H) as (-> & _).
Qed.

Lemma started_wf size : pool_wf (Start (NewPool size)).
Proof.
  split; cbn; [lia|]. intros _ Hin. exfalso.
  apply list_elem_of_lookup in Hin as [i Hi]. apply lookup_replicate in Hi as [? _]. done.
Qed.

Lemma started_running size : running (Start (NewPool size)) = [].
Proof. unfold running. cbn. by induction size. Qed.

End pool.
Arguments Pool : clear implicits.
Arguments worker : clear implicits.
Arguments action : clear implicits.

(** One worker runs one of two tasks and stops after [Stop]. *)
Definition demo_trace : list (action nat) :=
  [ASubmit 1; ASubmit 2; ATake 0; AFinish 0; AClose; ATake 0; AFinish 0; AReturn 0].


(** Shutting down drops work.  The worker processes cancel the context and
    then call [Stop]: a worker that sees the cancellation returns although a task is
    buffered, [Stop]'s wait ends, and the task was submitted and never started. *)
Theorem pool_cancel_strands_task :
  let tr := [ASubmit 1; ACancel; AReturn 0; AClose]%nat in
  match pool_run tr (Start (NewPool 1)) with
  | Some p => wait_done p = true ∧ submitted tr = [1%nat] ∧ received tr (Start (NewPool 1)) = [] ∧
              p_tasks p = [1%nat] ∧ Submit 2%nat p = SendPanics
  | None => False
  end.
Proof. vm_compute. done. Qed.
