(* ===== verification/Dispatcher.v ===== *)
(** * The dispatcher (internal/worker/dispatcher.go)

    Each channel's loop asks the rate limiter for a batch, dequeues what it was
    granted and submits the batch to the channel's pool.  [dispatch] returns the
    submitted batch: the closure handed to [pool.Submit] runs [ProcessBatch] on it
    ([Pool] models the channel and the goroutines that run it).  The eager
    re-polling of [dispatchLoop] has no bound in the code and takes a fuel here. *)
From S2P Require Import Prelude Float64 GoLib GoJson GoTime Domain Retry Uuid Redis Postgres RateLimiter.
From S2P Require Import CircuitBreaker Hub Metrics TemplateEngine Effects Reference Queue Provider Repository Processor.
From Stdlib Require Import ZArith Lia.
From stdpp Require Import base numbers list strings gmap fin_maps.

Open Scope Z_scope.

Record Dispatcher `{TextTemplate} := mkDispatcher {
  di_consumer : Consumer;
  di_rateLimiter : RateLimiter;
  di_processor : Processor;
  di_pools : list Channel;      (* the channels with a pool *)
  di_pollInterval : Z;
  di_batchSize : Z;
}.

Arguments mkDispatcher {_} _ _ _ _ _ _.
Arguments di_consumer {_} _.
Arguments di_rateLimiter {_} _.
Arguments di_processor {_} _.
Arguments di_pools {_} _.
Arguments di_pollInterval {_} _.
Arguments di_batchSize {_} _.

Section dispatcher.
Context `{TextTemplate} `{UUIDLib}.

Definition NewDispatcher (c : Consumer) (rl : RateLimiter) (p : Processor) (pollInterval batchSize : Z) : Dispatcher :=
  mkDispatcher c rl p [ChannelSMS; ChannelEmail; ChannelPush] pollInterval
    (if batchSize <=? 0 then 10 else batchSize).

Definition NewSingleChannelDispatcher (c : Consumer) (rl : RateLimiter) (p : Processor)
    (channel : Channel) (pollInterval batchSize : Z) : Dispatcher :=
  mkDispatcher c rl p [channel] pollInterval (if batchSize <=? 0 then 10 else batchSize).

(** In the order Go's map iteration happens to take. *)
Definition Channels (d : Dispatcher) : list Channel := di_pools d.

(** The batch submitted to the pool, if any; the code's result is its length. *)
Definition dispatch (d : Dispatcher) (channel : Channel) : prog (list Message) :=
  allowed ← AllowN (di_rateLimiter d) channel (di_batchSize d);
  match allowed with
  | Err _ => mret []
  | Ok allowed =>
      if allowed =? 0 then mret []
      else
        r ← DequeueBatch (di_consumer d) channel allowed;
        match r with
        | Err _ => mret []
        | Ok [] => mret []
        | Ok msgs =>
            _ ← for_each msgs (λ _, metrics_incr CProcessing channel);
            mret msgs
        end
  end.

(** One tick: poll again while the batches are full and the context lives. The
    flag tells whether the loop goes on; [None] is a tick still running. *)
Fixpoint eager_poll (fuel : nat) (d : Dispatcher) (channel : Channel)
    : prog (option (list (list Message) * bool)) :=
  match fuel with
  | O => mret None
  | S fuel' =>
      msgs ← dispatch d channel;
      let submitted := match msgs with [] => [] | _ => [msgs] end in
      if Z.of_nat (length msgs) <? di_batchSize d then mret (Some (submitted, true))
      else
        cancelled ← trigger ECtxDone;
        match cancelled with
        | true => mret (Some (submitted, false))
        | false =>
            r ← eager_poll fuel' d channel;
            mret match r with
                 | Some (more, go_on) => Some (submitted ++ more, go_on)
                 | None => None
                 end
        end
  end.

(** [ticks] rounds of the select of [dispatchLoop]. *)
Fixpoint dispatch_ticks (ticks fuel : nat) (d : Dispatcher) (channel : Channel) : prog (list (list Message)) :=
  match ticks with
  | O => mret []
  | S ticks' =>
      stop ← trigger ECtxDone;
      match stop with
      | true => mret []
      | false =>
          r ← eager_poll fuel d channel;
          match r with
          | None => mret []
          | Some (submitted, false) => mret submitted
          | Some (submitted, true) =>
              rest ← dispatch_ticks ticks' fuel d channel; mret (submitted ++ rest)
          end
      end
  end.

(** [time.NewTicker] panics unless its period is positive. *)
Definition NewTicker (period : Z) : prog unit := if period <=? 0 then Panic else mret tt.

Definition dispatchLoop (ticks fuel : nat) (d : Dispatcher) (channel : Channel) : prog (list (list Message)) :=
  _ ← NewTicker (di_pollInterval d); dispatch_ticks ticks fuel d channel.

(** One dispatch whose batch a pool worker runs at once. *)
Definition dispatch_and_process (d : Dispatcher) (channel : Channel) : prog unit :=
  msgs ← dispatch d channel; ProcessBatch (di_processor d) msgs.
End dispatcher.

(** ** What a dispatch does *)

Section store.
Context {R : Type} `{RedisLaws R} `{LuaNumber} `{PgLaws} `{TextTemplate} `{UUIDLaws}.
Variable env : Env.

Lemma ratelimit_queue_ne ch c : ratelimit_key ch ≠ queue_key c.
Proof. discriminate. Qed.
Lemma ratelimit_processing_ne ch c : ratelimit_key ch ≠ processing_key c.
Proof. discriminate. Qed.

(** Keys without a time to live: the rate limiter's are the only ones that get one. *)
Definition no_ttl (r : R) (k : string) : Prop := deadline r k = None.

Lemma batch_script_other key limit window now req t rnd (r : R) k :
  k ≠ key → no_ttl r k →
  zset (rateLimitBatchScript key limit window now req t rnd (expire_keys t r)).2 k = zset r k.
Proof.
  intros Hk Ht. unfold rateLimitBatchScript.
  assert (Hexp : zset (expire_keys t r) k = zset r k) by (by rewrite zset_expire_keys, Ht).
  destruct (_ <=? 0); cbn [snd].
  - rewrite zset_ZREMRANGEBYSCORE, decide_False by congruence. done.
  - rewrite zset_EXPIRE, add_entries_other, zset_ZREMRANGEBYSCORE, decide_False by congruence. done.
Qed.
Lemma AllowN_run rl ch count (w : World R) :
  quiet env → 0 < count →
  let now := UnixNano (e_now env (w_pos w)) in
  let t := e_now env (S (w_pos w)) in
  let out := rateLimitBatchScript (ratelimit_key ch) (rl_limit rl) (rl_windowNs rl) now count t
               (e_lua env (S (w_pos w))) (expire_keys t (w_redis w)) in
  run env (AllowN rl ch count) w =
    (Some (Ok out.1), mkWorld (w_db w) out.2 (S (S (w_pos w))) (w_proc w)).
Proof.
  intros Hq Hc now t out. unfold AllowN.
  replace (count <=? 0) with false by (symmetry; apply Z.leb_gt; lia).
  rewrite !run_trigger_bind, handle_redis_quiet by apply Hq. reflexivity.
Qed.

Lemma processing_loop msgs ch (w : World R) :
  metrics_wf (p_metrics (w_proc w)) → Channel_Valid ch = true →
  ∃ w', run env (for_each (A := Message) msgs (λ _, metrics_incr CProcessing ch)) w = (Some tt, w') ∧
    w_db w' = w_db w ∧ w_redis w' = w_redis w ∧ p_cb (w_proc w') = p_cb (w_proc w) ∧
    metrics_wf (p_metrics (w_proc w')).
Proof.
  revert w. induction msgs as [|m msgs IH]; intros w Hwf Hch; [by exists w|].
  cbn [for_each]. rewrite run_bind.
  destruct (metrics_incr_run env CProcessing ch w Hwf Hch) as (mt & _ & Hmt & Hrun). rewrite Hrun.
  destruct (IH (tick (set_metrics mt w)) Hmt Hch) as (w' & Hrun' & ? & ? & ? & ?).
  by exists w'.
Qed.

(** Live grants of the channel in the window that ends at [now]. *)
Definition live_grants (rl : RateLimiter) (ch : Channel) (now t : Z) (r : R) : Z :=
  Z.of_nat (size (zset (ZREMRANGEBYSCORE (ratelimit_key ch) 0
    (f64 (f64 (UnixNano now) - rl_windowNs rl)) (expire_keys t r)) (ratelimit_key ch))).

(** A dispatch takes no more than the rate limiter grants.  It asks for a full
    batch; the grant is what the window has left, at most the batch size; it
    dequeues that many messages or all there are, the most urgent first, and puts
    exactly those in flight for the pool. *)
Theorem dispatch_takes_granted d ch (w : World R) :
  quiet env → 0 < di_batchSize d → Channel_Valid ch = true → metrics_wf (p_metrics (w_proc w)) →
  canonical (zset (w_redis w) (queue_key ch)) →
  no_ttl (w_redis w) (queue_key ch) → no_ttl (w_redis w) (processing_key ch) →
  let granted := Z.max 0 (Z.min (di_batchSize d) (rl_limit (di_rateLimiter d) -
    live_grants (di_rateLimiter d) ch (e_now env (w_pos w)) (e_now env (S (w_pos w))) (w_redis w))) in
  ∃ msgs w' deadline, run env (dispatch d ch) w = (Some msgs, w') ∧
    Z.of_nat (length msgs) = Z.min granted (Z.of_nat (size (zset (w_redis w) (queue_key ch)))) ∧
    Forall (queued ch (w_redis w)) msgs ∧ w_db w' = w_db w ∧
    handed_over ch deadline msgs (w_redis w) (w_redis w').
Proof.
  intros Hq Hbs Hch Hmw Hcan Hqt Hpt granted. unfold dispatch. rewrite run_bind, AllowN_run by done.
  set (t := e_now env (S (w_pos w))). set (now := e_now env (w_pos w)).
  rewrite batch_script_allowed by done. fold (live_grants (di_rateLimiter d) ch now t (w_redis w)).
  fold now t in granted. fold granted.
  set (r1 := (rateLimitBatchScript _ _ _ _ _ _ _ _).2). set (w1 := mkWorld _ r1 _ _).
  assert (Hzq : zset r1 (queue_key ch) = zset (w_redis w) (queue_key ch)).
  { apply batch_script_other; [|done]. apply not_eq_sym, ratelimit_queue_ne. }
  assert (Hzp : zset r1 (processing_key ch) = zset (w_redis w) (processing_key ch)).
  { apply batch_script_other; [|done]. apply not_eq_sym, ratelimit_processing_ne. }
  assert (Hsame : ∀ dl, handed_over ch dl [] (w_redis w) r1).
  { intros dl m raw s _ _ Hs. right. split; [apply not_elem_of_nil|].
    rewrite Hzq, Hzp. split_and!; try done; [by intros m' raw' s' []%elem_of_nil|].
    cbn. apply Nat.neq_0_lt_0, map_size_non_empty_iff. intros He. by rewrite He, lookup_empty in Hs. }
  destruct (granted =? 0) eqn:Eg; zbool.
  { exists [], w1, 0. split_and!; try done. rewrite Eg. cbn. lia. }
  rewrite run_bind. destruct (DequeueBatch_partition env (di_consumer d) ch granted w1 Hq)
    as (msgs & w2 & Hrun & Hdb & Hpr & Hok & Hlen & Hpart); [by cbn; rewrite Hzq|].
  rewrite Hrun. cbn [w1 w_redis w_db w_proc w_pos] in *. rewrite Hzq in Hlen.
  assert (Hin : Forall (queued ch (w_redis w)) msgs) by (unfold queued in *; by rewrite <- Hzq).
  assert (Hlen' : Z.of_nat (length msgs) = Z.min granted (Z.of_nat (size (zset (w_redis w) (queue_key ch))))) by lia.
  assert (Hpart' : handed_over ch (f64 (UnixNano (e_now env (S (S (S (w_pos w)))) + visibilityTimeout (di_consumer d))))
    msgs (w_redis w) (w_redis w2)).
  { intros m raw s Hm Hraw Hs. rewrite <- Hzq in Hs. destruct (Hpart m raw s Hm Hraw Hs) as [?|(? & ? & ? & ? & ?)];
      [by left|right]. rewrite <- Hzp, <- Hzq. by split_and!. }
  destruct msgs as [|m0 msgs0].
  { exists [], w2. eexists. split_and!; [reflexivity|done|done|done|exact Hpart']. }
  rewrite run_bind. destruct (processing_loop (m0 :: msgs0) ch w2) as (w3 & Hrun3 & Hdb3 & Hr3 & _);
    [by rewrite Hpr|done|]. rewrite Hrun3.
  exists (m0 :: msgs0), w3. eexists. split_and!; [reflexivity|done|done|by rewrite Hdb3|].
  rewrite Hr3. exact Hpart'.
Qed.
End store.

(** ** Concrete runs *)

#[local] Existing Instances RefTemplate RefPg RefPg_laws RefUUID RefUUID_laws RefLua.

Definition demo_dispatcher : Dispatcher :=
  NewSingleChannelDispatcher (NewConsumer (30 * Second)) (NewRateLimiter 100) demo_processor ChannelSMS
    (100 * Millisecond) 10.

Lemma dispatch_takes_granted_witness :
  ∃ msgs w', run demo_env (dispatch demo_dispatcher ChannelSMS) demo_queue = (Some msgs, w') ∧
    Forall (queued ChannelSMS (w_redis demo_queue)) msgs.
Proof.
  destruct (dispatch_takes_granted demo_env demo_dispatcher ChannelSMS demo_queue)
    as (msgs & w' & dl & Hrun & _ & Hok & _).
  - exact demo_quiet.
  - reflexivity.
  - reflexivity.
  - exact metrics_wf_new.
  - exact demo_queue_canonical.
  - reflexivity.
  - reflexivity.
  - exists msgs, w'. by split.
Defined.

(** Ticks of a channel without messages, then a message. *)
Fixpoint idle_ticks (n : nat) : prog unit :=
  match n with O => mret tt | S n' => _ ← dispatch demo_dispatcher ChannelSMS; idle_ticks n' end.

(** An idle channel spends its rate limit.  The limiter is charged for the full
    batch before the queue is looked at: with the default settings ten polls of an
    empty queue within a second use up the limit of 100, and a message enqueued then
    is not dispatched although nothing was sent. *)
Theorem idle_polls_exhaust_limit :
  let w := (run demo_env (_ ← idle_ticks 10; _ ← Enqueue (demo_message 1 PriorityHigh); mret tt) demo_world).2 in
  size (zset (w_redis w) (queue_key ChannelSMS)) = 1%nat ∧
  e_now demo_env (w_pos w) - e_now demo_env 0 < Second ∧
  (run demo_env (dispatch demo_dispatcher ChannelSMS) w).1 = Some [].
Proof. vm_compute. split_and!; reflexivity. Qed.
