(* ===== verification/Handlers.v ===== *)
(** * Notification endpoints (internal/api/handler/notification.go and the
      response helpers of health.go; internal/template/engine.go: Render)

    A handler is a program from a request to a response.  The request's body is
    the text the decoder reads (or the error of reading it), path values and query
    parameters are functions of their name.  Times are shown in UTC.  A response
    body is the JSON value that is encoded; [None] when it cannot be (a year
    outside 0..9999), in which case nothing is written after the status. *)
From S2P Require Import Prelude GoLib GoJson GoTime Domain Uuid Redis Postgres RateLimiter.
From S2P Require Import TemplateEngine Effects Reference Queue Rows Repository.
From Stdlib Require Import ZArith Lia.
From stdpp Require Import base numbers list strings gmap fin_maps sorting.

Open Scope Z_scope.

(** ** Requests and responses *)

Record Request := mkRequest {
  rq_body : result error string;
  rq_path : string → string;
  rq_query : string → string;
}.

Record Response := mkResponse { rs_code : Z; rs_body : option json }.

Definition StatusOK : Z := 200.
Definition StatusCreated : Z := 201.
Definition StatusNoContent : Z := 204.
Definition StatusBadRequest : Z := 400.
Definition StatusNotFound : Z := 404.
Definition StatusConflict : Z := 409.
Definition StatusInternalServerError : Z := 500.
Definition StatusServiceUnavailable : Z := 503.

Definition writeJSON (code : Z) (v : result error json) : Response :=
  mkResponse code (match v with Ok j => Some j | Err _ => None end).

Definition writeError (code : Z) (msg : string) : Response :=
  writeJSON code (Ok (JObj [("error", JStr msg)])).

(** [json.NewDecoder(r.Body).Decode(&v)] into a struct: its members in order. *)
Definition decode_body {A} (step : A → string * json → result error A) (zero : A) (r : Request)
    : result error A :=
  body ← rq_body r;
  match json_Decode body with
  | None => Err (EOther "invalid JSON")
  | Some (JObj fs) => decode_fields step zero fs
  | Some JNull => Ok zero
  | Some _ => Err (type_error "struct")
  end.

Record CreateNotificationRequest := mkCreateReq {
  cr_Recipient : string;
  cr_Channel : Channel;
  cr_Content : string;
  cr_Priority : Priority;
  cr_TemplateID : option uuid;
  cr_TemplateVars : json;
  cr_ScheduledAt : option Z;
  cr_IdempotencyKey : option string;
}.

Definition zero_create : CreateNotificationRequest := mkCreateReq "" "" "" "" None JNull None None.

Definition decode_string_ptr (v : json) : result error (option string) :=
  match v with JNull => Ok None | JStr s => Ok (Some s) | _ => Err (type_error "string") end.

(** [json:"x,omitempty"] of pointer and map fields. *)
Definition opt_field {A} (name : string) (v : option A) (f : A → result error json)
    : result error (list (string * json)) :=
  match v with None => Ok [] | Some a => j ← f a; Ok [(name, j)] end.

Definition vars_field (v : json) : list (string * json) :=
  match v with JNull | JObj [] => [] | _ => [("template_vars", v)] end.

Section handlers.
Context `{TextTemplate} `{UUIDLib}.

Definition decode_uuid_ptr (v : json) : result error (option uuid) :=
  match v with
  | JNull => Ok None
  | JStr s => u ← uuid_Parse s; Ok (Some u)
  | _ => Err (type_error "uuid.UUID")
  end.

Definition decode_create_field (r : CreateNotificationRequest) (f : string * json)
    : result error CreateNotificationRequest :=
  let k := fold_key f.1 in
  if String.eqb k "recipient" then
    s ← decode_string f.2 (cr_Recipient r);
    Ok (mkCreateReq s (cr_Channel r) (cr_Content r) (cr_Priority r) (cr_TemplateID r) (cr_TemplateVars r)
          (cr_ScheduledAt r) (cr_IdempotencyKey r))
  else if String.eqb k "channel" then
    s ← decode_string f.2 (cr_Channel r);
    Ok (mkCreateReq (cr_Recipient r) s (cr_Content r) (cr_Priority r) (cr_TemplateID r) (cr_TemplateVars r)
          (cr_ScheduledAt r) (cr_IdempotencyKey r))
  else if String.eqb k "content" then
    s ← decode_string f.2 (cr_Content r);
    Ok (mkCreateReq (cr_Recipient r) (cr_Channel r) s (cr_Priority r) (cr_TemplateID r) (cr_TemplateVars r)
          (cr_ScheduledAt r) (cr_IdempotencyKey r))
  else if String.eqb k "priority" then
    s ← decode_string f.2 (cr_Priority r);
    Ok (mkCreateReq (cr_Recipient r) (cr_Channel r) (cr_Content r) s (cr_TemplateID r) (cr_TemplateVars r)
          (cr_ScheduledAt r) (cr_IdempotencyKey r))
  else if String.eqb k "template_id" then
    u ← decode_uuid_ptr f.2;
    Ok (mkCreateReq (cr_Recipient r) (cr_Channel r) (cr_Content r) (cr_Priority r) u (cr_TemplateVars r)
          (cr_ScheduledAt r) (cr_IdempotencyKey r))
  else if String.eqb k "template_vars" then
    m ← decode_map f.2 (cr_TemplateVars r);
    Ok (mkCreateReq (cr_Recipient r) (cr_Channel r) (cr_Content r) (cr_Priority r) (cr_TemplateID r) m
          (cr_ScheduledAt r) (cr_IdempotencyKey r))
  else if String.eqb k "scheduled_at" then
    t ← decode_time_ptr f.2;
    Ok (mkCreateReq (cr_Recipient r) (cr_Channel r) (cr_Content r) (cr_Priority r) (cr_TemplateID r)
          (cr_TemplateVars r) t (cr_IdempotencyKey r))
  else if String.eqb k "idempotency_key" then
    s ← decode_string_ptr f.2;
    Ok (mkCreateReq (cr_Recipient r) (cr_Channel r) (cr_Content r) (cr_Priority r) (cr_TemplateID r)
          (cr_TemplateVars r) (cr_ScheduledAt r) s)
  else Ok r.

(** [BatchCreateRequest]: a slice of the above.  An element is decoded into the
    element the slice has at that index (a repeated member meets the old ones). *)
Definition decode_create (old : CreateNotificationRequest) (v : json)
    : result error CreateNotificationRequest :=
  match v with
  | JObj fs => decode_fields decode_create_field old fs
  | JNull => Ok old
  | _ => Err (type_error "handler.CreateNotificationRequest")
  end.

Fixpoint decode_creates (olds : list CreateNotificationRequest) (l : list json)
    : result error (list CreateNotificationRequest) :=
  match l with
  | [] => Ok []
  | v :: l' =>
      r ← decode_create (default zero_create (head olds)) v;
      rs ← decode_creates (tail olds) l';
      Ok (r :: rs)
  end.

Definition decode_batch_field (rs : list CreateNotificationRequest) (f : string * json)
    : result error (list CreateNotificationRequest) :=
  if String.eqb (fold_key f.1) "notifications" then
    match f.2 with
    | JNull => Ok []
    | JArr l => decode_creates rs l
    | _ => Err (type_error "[]handler.CreateNotificationRequest")
    end
  else Ok rs.

(** [json.Marshal] of a notification. *)
Definition Notification_json (n : Notification) : result error json :=
  batch ← opt_field "batch_id" (n_BatchID n) (λ u, Ok (JStr (uuid_String u)));
  idem ← opt_field "idempotency_key" (n_IdempotencyKey n) (λ s, Ok (JStr s));
  tmpl ← opt_field "template_id" (n_TemplateID n) (λ u, Ok (JStr (uuid_String u)));
  sched ← opt_field "scheduled_at" (n_ScheduledAt n) Time_json;
  msgid ← opt_field "provider_msg_id" (n_ProviderMsgID n) (λ s, Ok (JStr s));
  lasterr ← opt_field "last_error" (n_LastError n) (λ s, Ok (JStr s));
  sent ← opt_field "sent_at" (n_SentAt n) Time_json;
  created ← Time_json (n_CreatedAt n);
  updated ← Time_json (n_UpdatedAt n);
  Ok (JObj ([("id", JStr (uuid_String (n_ID n)))] ++ batch ++ idem ++
    [("recipient", JStr (n_Recipient n)); ("channel", JStr (n_Channel n));
     ("content", JStr (n_Content n)); ("priority", JStr (n_Priority n));
     ("status", JStr (n_Status n))] ++ tmpl ++ vars_field (n_TemplateVars n) ++ sched ++ msgid ++
    [("attempts", JInt (n_Attempts n)); ("max_attempts", JInt (n_MaxAttempts n))] ++ lasterr ++ sent ++
    [("created_at", created); ("updated_at", updated)])).

Fixpoint json_list {A} (f : A → result error json) (l : list A) : result error (list json) :=
  match l with [] => Ok [] | a :: l' => j ← f a; js ← json_list f l'; Ok (j :: js) end.

(** A nil slice is [null]; the repositories return one when there are no rows. *)
Definition json_slice {A} (f : A → result error json) (l : list A) : result error json :=
  match l with [] => Ok JNull | _ => js ← json_list f l; Ok (JArr js) end.

(** ** The template engine *)

Definition getOrParse (name content : string) : prog (result error tmpl) :=
  cached ← trigger (ECache (CacheLookup name));
  match cached with
  | Some t => mret (Ok t)
  | None => trigger (ECache (CacheParse name content))
  end.

Definition Render (name content : string) (vars : json) : prog (result error string) :=
  r ← getOrParse name content;
  mret match r with
       | Err err => Err (EWrap ("parse template " +:+ fmt_q name) err)
       | Ok t =>
           match tmpl_Execute t vars with
           | Err err => Err (EWrap ("execute template " +:+ fmt_q name) err)
           | Ok s => Ok s
           end
       end.

(** ** Creating *)

(** The content: the request's own or the rendered template. *)
Definition request_content (req : CreateNotificationRequest) : prog (result error string) :=
  match cr_TemplateID req with
  | None => mret (Ok (cr_Content req))
  | Some id =>
      t ← TemplateRepo_GetByID id;
      match t with
      | Err _ => mret (Err ErrTemplateNotFound)
      | Ok t => Render (t_Name t) (t_Content t) (cr_TemplateVars req)
      end
  end.

Definition buildNotification (req : CreateNotificationRequest) : prog (result error Notification) :=
  if String.eqb (cr_Recipient req) "" then mret (Err ErrInvalidRecipient)
  else if negb (Channel_Valid (cr_Channel req)) then mret (Err ErrInvalidChannel)
  else
    let priority := if String.eqb (cr_Priority req) "" then PriorityNormal else cr_Priority req in
    if negb (Priority_Valid priority) then mret (Err ErrInvalidPriority)
    else
      c ← request_content req;
      match c with
      | Err err => mret (Err err)
      | Ok content =>
          if String.eqb content "" then mret (Err ErrInvalidContent)
          else
            now ← trigger ENow;
            id ← trigger EUuid;
            mret (Ok {| n_ID := id; n_BatchID := None; n_IdempotencyKey := cr_IdempotencyKey req;
                        n_Recipient := cr_Recipient req; n_Channel := cr_Channel req;
                        n_Content := content; n_Priority := priority;
                        n_Status := match cr_ScheduledAt req with
                                    | Some _ => StatusScheduled | None => StatusPending end;
                        n_TemplateID := cr_TemplateID req; n_TemplateVars := cr_TemplateVars req;
                        n_ScheduledAt := cr_ScheduledAt req; n_ProviderMsgID := None;
                        n_Attempts := 0; n_MaxAttempts := 5; n_LastError := None; n_SentAt := None;
                        n_CreatedAt := now; n_UpdatedAt := now |})
      end.

Definition enqueue (n : Notification) : prog (result error unit) :=
  if String.eqb (n_Status n) StatusScheduled then mret (Ok tt)
  else
    r ← Enqueue (MessageFromNotification n);
    match r with
    | Err err => mret (Err err)
    | Ok _ => NotificationRepo_UpdateStatus (n_ID n) StatusQueued
    end.

Definition unscheduled (ns : list Notification) : list Notification :=
  filter (λ n, n_Status n ≠ StatusScheduled) ns.

Definition batchEnqueue (ns : list Notification) : prog (result error unit) :=
  match unscheduled ns with
  | [] => mret (Ok tt)
  | todo =>
      r ← EnqueueBatch (MessageFromNotification <$> todo);
      match r with
      | Err err => mret (Err err)
      | Ok _ => _ ← NotificationRepo_UpdateBatchStatus (n_ID <$> todo) StatusQueued; mret (Ok tt)
      end
  end.

Definition NotificationHandler_Create (r : Request) : prog Response :=
  match decode_body decode_create_field zero_create r with
  | Err _ => mret (writeError StatusBadRequest "invalid request body")
  | Ok req =>
      b ← buildNotification req;
      match b with
      | Err err => mret (writeError StatusBadRequest (Error err))
      | Ok n =>
          c ← NotificationRepo_Create n;
          match c with
          | Err err =>
              if Is_DuplicateKey err then mret (writeError StatusConflict "duplicate idempotency key")
              else mret (writeError StatusInternalServerError "failed to create notification")
          | Ok _ => _ ← enqueue n; mret (writeJSON StatusCreated (Notification_json n))
          end
      end
  end.

(** The loop of [BatchCreate]: the first invalid request stops it. *)
Fixpoint buildNotifications (batchID : uuid) (reqs : list CreateNotificationRequest)
    : prog (result error (list Notification)) :=
  match reqs with
  | [] => mret (Ok [])
  | req :: reqs' =>
      b ← buildNotification req;
      match b with
      | Err err => mret (Err err)
      | Ok n =>
          rest ← buildNotifications batchID reqs';
          mret match rest with
               | Ok ns => Ok (set_BatchID (Some batchID) n :: ns)
               | Err err => Err err
               end
      end
  end.

Definition NotificationHandler_BatchCreate (r : Request) : prog Response :=
  match decode_body decode_batch_field [] r with
  | Err _ => mret (writeError StatusBadRequest "invalid request body")
  | Ok reqs =>
      if 1000 <? Z.of_nat (length reqs) then mret (writeError StatusBadRequest (Error ErrBatchTooLarge))
      else if Z.of_nat (length reqs) =? 0 then
        mret (writeError StatusBadRequest "at least one notification is required")
      else
        batchID ← trigger EUuid;
        b ← buildNotifications batchID reqs;
        match b with
        | Err err => mret (writeError StatusBadRequest (Error err))
        | Ok ns =>
            c ← NotificationRepo_CreateBatch ns;
            match c with
            | Err err =>
                if Is_DuplicateKey err then
                  mret (writeError StatusConflict "duplicate idempotency key in batch")
                else mret (writeError StatusInternalServerError "failed to create batch")
            | Ok _ =>
                _ ← batchEnqueue ns;
                mret (writeJSON StatusCreated (Ok (JObj
                  [("batch_id", JStr (uuid_String batchID)); ("count", JInt (Z.of_nat (length ns)))])))
            end
        end
  end.

(** ** Reading *)

Definition NotificationHandler_Get (r : Request) : prog Response :=
  match uuid_Parse (rq_path r "id") with
  | Err _ => mret (writeError StatusBadRequest "invalid notification ID")
  | Ok id =>
      n ← NotificationRepo_GetByID id;
      mret match n with
           | Err err =>
               if Is_NotFound err then writeError StatusNotFound "notification not found"
               else writeError StatusInternalServerError "failed to get notification"
           | Ok n => writeJSON StatusOK (Notification_json n)
           end
  end.

(** [statusCounts[n.Status]++] over the batch; a map is encoded with sorted keys. *)
Definition statusCounts (ns : list Notification) : gmap string Z :=
  foldl (λ m n, <[n_Status n := default 0 (m !! n_Status n) + 1]> m) ∅ ns.

Definition statusCounts_json (m : gmap string Z) : json :=
  JObj ((λ e, (e.1, JInt e.2)) <$> merge_sort (λ a b, Is_true (String.leb a.1 b.1)) (map_to_list m)).

Definition NotificationHandler_GetBatch (r : Request) : prog Response :=
  match uuid_Parse (rq_path r "batch_id") with
  | Err _ => mret (writeError StatusBadRequest "invalid batch ID")
  | Ok batchID =>
      ns ← NotificationRepo_GetByBatchID batchID;
      mret match ns with
           | Err _ => writeError StatusInternalServerError "failed to get batch"
           | Ok ns =>
               writeJSON StatusOK
                 (js ← json_slice Notification_json ns;
                  Ok (JObj [("batch_id", JStr (uuid_String batchID)); ("notifications", js);
                            ("status_counts", statusCounts_json (statusCounts ns));
                            ("total", JInt (Z.of_nat (length ns)))]))
           end
  end.

(** The statuses [Cancel] accepts. *)
Definition cancellable (st : Status) : bool :=
  String.eqb st StatusPending || String.eqb st StatusScheduled || String.eqb st StatusQueued.

Definition NotificationHandler_Cancel (r : Request) : prog Response :=
  match uuid_Parse (rq_path r "id") with
  | Err _ => mret (writeError StatusBadRequest "invalid notification ID")
  | Ok id =>
      n ← NotificationRepo_GetByID id;
      match n with
      | Err err =>
          mret (if Is_NotFound err then writeError StatusNotFound "notification not found"
                else writeError StatusInternalServerError "failed to get notification")
      | Ok n =>
          if cancellable (n_Status n) then
            u ← NotificationRepo_UpdateStatus id StatusCancelled;
            mret match u with
                 | Err _ => writeError StatusInternalServerError "failed to cancel notification"
                 | Ok _ => writeJSON StatusOK (Notification_json (set_Status StatusCancelled n))
                 end
          else mret (writeError StatusConflict (Error ErrNotCancellable))
      end
  end.

(** [if v := r.URL.Query().Get(name); v != "" { ... }] *)
Definition query_opt (r : Request) (name : string) : option string :=
  if String.eqb (rq_query r name) "" then None else Some (rq_query r name).

(** The filter of the query parameters; values that do not parse or are out of
    range are ignored. *)
Definition list_filter_of (r : Request) : NotificationFilter :=
  mkFilter (query_opt r "channel") (query_opt r "status") (query_opt r "priority")
    (match query_opt r "limit" ≫= strconv_Atoi with
     | Some l => if (0 <? l) && (l <=? 100) then l else 20
     | None => 20
     end)
    (match query_opt r "offset" ≫= strconv_Atoi with
     | Some o => if 0 <=? o then o else 0
     | None => 0
     end)
    (query_opt r "cursor" ≫= Parse_RFC3339Nano).

Definition NotificationHandler_List (r : Request) : prog Response :=
  let f := list_filter_of r in
  res ← NotificationRepo_List f;
  mret match res with
       | Err _ => writeError StatusInternalServerError "failed to list notifications"
       | Ok (ns, total) =>
           writeJSON StatusOK
             (js ← json_slice Notification_json ns;
              Ok (JObj ([("limit", JInt (f_Limit f))] ++
                match last ns with
                | Some n => [("next_cursor", JStr (Format_RFC3339Nano (n_CreatedAt n)))]
                | None => []
                end ++
                [("notifications", js); ("offset", JInt (f_Offset f)); ("total", JInt total)])))
       end.
End handlers.

(** ** Lemmas *)

Section endpoints.
Context {R : Type} `{RedisLaws R} `{LuaNumber} `{PgLaws} `{TextTemplate} `{UUIDLaws}.
Variable env : Env.

Lemma reads_only_template id : reads_only env (TemplateRepo_GetByID id).
Proof. apply reads_only_bind; [by apply reads_only_sql|]. by intros x. Qed.

Lemma reads_only_Render name content vars : reads_only env (Render name content vars).
Proof.
  apply reads_only_bind; [|by intros x].
  apply reads_only_bind; [apply reads_only_cache|]. intros [t|]; [done|]. apply reads_only_cache.
Qed.

Lemma reads_only_content req : reads_only env (request_content req).
Proof.
  unfold request_content. destruct (cr_TemplateID req) as [id|]; [|done].
  apply reads_only_bind; [apply reads_only_template|].
  intros [t|err]; [apply reads_only_Render|done].
Qed.

(** The priority a request stands for. *)
Definition effective_priority (req : CreateNotificationRequest) : Priority :=
  if String.eqb (cr_Priority req) "" then PriorityNormal else cr_Priority req.

(** What a request must satisfy, its content aside. *)
Definition request_ok (req : CreateNotificationRequest) : Prop :=
  cr_Recipient req ≠ "" ∧ Channel_Valid (cr_Channel req) = true ∧
  Priority_Valid (effective_priority req) = true.

(** Where the content comes from: the request, or the stored template as parsed by
    this process when it first used a template of that name. *)
Definition content_from (req : CreateNotificationRequest) (w : World R) (c : string) : Prop :=
  match cr_TemplateID req with
  | None => c = cr_Content req
  | Some id => ∃ t tm, templates (w_db w) !! id = Some t ∧
      (match cache_lookup (t_Name t) (p_engine (w_proc w)) with
       | Some cached => tm = cached
       | None => tmpl_Parse (t_Name t) (t_Content t) = Ok tm
       end) ∧
      tmpl_Execute tm (cr_TemplateVars req) = Ok c
  end.

(** The notification a request asks for. *)
Record built_from (req : CreateNotificationRequest) (c : string) (n : Notification) : Prop := {
  bf_ok : request_ok req;
  bf_content : n_Content n = c ∧ c ≠ "";
  bf_recipient : n_Recipient n = cr_Recipient req;
  bf_channel : n_Channel n = cr_Channel req;
  bf_priority : n_Priority n = effective_priority req;
  bf_schedule : n_ScheduledAt n = cr_ScheduledAt req;
  bf_status : n_Status n = match cr_ScheduledAt req with
                           | Some _ => StatusScheduled | None => StatusPending end;
  bf_idem : n_IdempotencyKey n = cr_IdempotencyKey req;
  bf_template : n_TemplateID n = cr_TemplateID req ∧ n_TemplateVars n = cr_TemplateVars req;
  bf_attempts : n_Attempts n = 0 ∧ n_MaxAttempts n = 5;
}.

Lemma TemplateGetByID_run id (w : World R) :
  quiet env →
  run env (TemplateRepo_GetByID id) w =
    (Some match templates (w_db w) !! id with Some t => Ok t | None => Err ErrNotFound end,
     mkWorld (w_db w) (w_redis w) (S (w_pos w)) (w_proc w)).
Proof.
  intros Hq. unfold TemplateRepo_GetByID. rewrite run_sql by done.
  unfold after_sql, sql_at. cbn. by destruct (templates _ !! id).
Qed.

Lemma Render_run name content vars (w : World R) :
  (run env (Render name content vars) w).1 = Some
    match (match cache_lookup name (p_engine (w_proc w)) with
           | Some t => Ok t | None => tmpl_Parse name content end) with
    | Err err => Err (EWrap ("parse template " +:+ fmt_q name) err)
    | Ok t => match tmpl_Execute t vars with
              | Err err => Err (EWrap ("execute template " +:+ fmt_q name) err)
              | Ok s => Ok s
              end
    end.
Proof.
  unfold Render, getOrParse. rewrite run_bind, run_trigger_bind. cbn [handle exec_cache fst snd].
  unfold cache_lookup. destruct (e_cache (p_engine (w_proc w)) !! name) as [t|] eqn:E; [done|].
  rewrite run_trigger. cbn. unfold cache_parse. rewrite E.
  by destruct (tmpl_Parse name content).
Qed.

Lemma request_content_spec req (w : World R) :
  quiet env →
  ∃ r w', run env (request_content req) w = (Some r, w') ∧ same_stores w w' ∧
    match r with
    | Ok c => content_from req w c
    | Err _ => ∀ c, ¬ content_from req w c
    end.
Proof.
  intros Hq. destruct (reads_only_run env _ w (reads_only_content req)) as (r & w' & Hrun & Hs).
  exists r, w'. split; [done|]. split; [done|]. revert Hrun.
  unfold request_content, content_from. destruct (cr_TemplateID req) as [id|]; [|by intros [= <- _]].
  rewrite run_bind, TemplateGetByID_run by done.
  destruct (templates (w_db w) !! id) as [t|].
  2: { intros [= <- _]. by intros c (t & ? & ? & _). }
  intros Hrun. pose proof (Render_run (t_Name t) (t_Content t) (cr_TemplateVars req)
    (mkWorld (w_db w) (w_redis w) (S (w_pos w)) (w_proc w))) as Hrd.
  rewrite Hrun in Hrd. cbn [fst w_proc] in Hrd. apply (inj Some) in Hrd. subst r. clear Hrun.
  destruct (cache_lookup (t_Name t) (p_engine (w_proc w))) as [tm|] eqn:Ec;
    [|destruct (tmpl_Parse (t_Name t) (t_Content t)) as [tm|] eqn:Ep];
    [destruct (tmpl_Execute tm (cr_TemplateVars req)) eqn:Ee ..|].
  1, 3: by exists t, tm; rewrite Ec.
  all: intros c (t' & tm' & Ht & Hp & He); apply (inj Some) in Ht as <-; rewrite Ec in Hp; congruence.
Qed.

(** Why a request is turned away. *)
Definition refusal (req : CreateNotificationRequest) (w : World R) (err : error) : Prop :=
  (cr_Recipient req = "" ∧ err = ErrInvalidRecipient) ∨
  (cr_Recipient req ≠ "" ∧ Channel_Valid (cr_Channel req) = false ∧ err = ErrInvalidChannel) ∨
  (cr_Recipient req ≠ "" ∧ Channel_Valid (cr_Channel req) = true ∧
     Priority_Valid (effective_priority req) = false ∧ err = ErrInvalidPriority) ∨
  (request_ok req ∧ content_from req w "" ∧ err = ErrInvalidContent) ∨
  (request_ok req ∧ ∀ c, ¬ content_from req w c).

Lemma build_spec req (w : World R) :
  quiet env →
  ∃ r w', run env (buildNotification req) w = (Some r, w') ∧ same_stores w w' ∧
    match r with
    | Ok n => ∃ c, content_from req w c ∧ built_from req c n ∧ n_BatchID n = None ∧
        ∃ i, n_ID n = e_uuid env i
    | Err err => refusal req w err
    end.
Proof.
  intros Hq. unfold buildNotification. fold (effective_priority req). cbv zeta. unfold refusal.
  destruct (String.eqb_spec (cr_Recipient req) "") as [Hr|Hr].
  { exists (Err ErrInvalidRecipient), w. split; [done|]. split; [done|]. by left. }
  destruct (Channel_Valid (cr_Channel req)) eqn:Hch; cbn [negb].
  2: { exists (Err ErrInvalidChannel), w. split; [done|]. split; [done|]. right; left. done. }
  destruct (Priority_Valid (effective_priority req)) eqn:Hp; cbn [negb].
  2: { exists (Err ErrInvalidPriority), w. split; [done|]. split; [done|]. do 2 right; left. done. }
  assert (Hok : request_ok req) by done.
  destruct (request_content_spec req w Hq) as (rc & w1 & Hrun & Hs & Hc).
  rewrite run_bind, Hrun. destruct rc as [c|err].
  2: { exists (Err err), w1. split; [done|]. split; [done|]. do 4 right. done. }
  destruct (String.eqb_spec c "") as [->|Hne].
  { exists (Err ErrInvalidContent), w1. split; [done|]. split; [done|]. do 3 right; left. done. }
  rewrite !run_trigger_bind. eexists _, _. split; [reflexivity|]. split.
  - eapply same_stores_trans; [exact Hs|]. done.
  - exists c. split; [done|]. split; [by split|]. split; [done|]. by eexists.
Qed.

(** A single insertion, as a state transformer. *)
Lemma insert_notification_cases n db :
  match insert_notification n db with
  | Ok db' => ∃ row, coerce_notification n = Ok row ∧ n_ID row = n_ID n ∧ ¬ key_conflict row db ∧
      db' = set_notifications (<[n_ID n := row]> (notifications db)) db
  | Err err =>
      if Is_UniqueViolation err then ∃ row, coerce_notification n = Ok row ∧ key_conflict row db
      else is_ok (coerce_notification n) = false ∨ fk_ok (n_TemplateID n) db = false
  end.
Proof.
  unfold insert_notification. destruct (coerce_notification n) as [row|err] eqn:Hc.
  2: { cbn. rewrite (coerce_not_unique n err Hc). by left. }
  destruct (coerce_notification_ok n row Hc) as (_ & Htid & Hid). cbn [mbind result_bind].
  destruct (_ || _) eqn:Hk; [exists row; split; [done|]; by apply key_conflict_spec|].
  assert (¬ key_conflict row db) by (rewrite <- key_conflict_spec; by rewrite Hk).
  rewrite Htid. destruct (fk_ok (n_TemplateID n) db) eqn:Hfk; [|by right].
  exists row. by rewrite Hid.
Qed.

Lemma Create_run n (w : World R) :
  quiet env →
  run env (NotificationRepo_Create n) w =
    let r := insert_notification n (w_db w) in
    (Some match r with
          | Ok _ => Ok tt
          | Err err => if Is_UniqueViolation err then Err ErrDuplicateKey
                       else Err (EWrap "insert notification" err)
          end,
     mkWorld (match r with Ok db' => db' | Err _ => w_db w end) (w_redis w) (S (w_pos w)) (w_proc w)).
Proof.
  intros Hq. unfold NotificationRepo_Create. rewrite run_sql by done.
  unfold after_sql, sql_at. cbn [exec_sql]. by destruct (insert_notification n (w_db w)).
Qed.

(** What an accepted notification leaves behind. *)
Definition accepted (n : Notification) (w w' : World R) : Prop :=
  ∃ row, coerce_notification n = Ok row ∧ ¬ key_conflict row (w_db w) ∧
    (∀ k, k ≠ n_ID n → notifications (w_db w') !! k = notifications (w_db w) !! k) ∧
    match n_ScheduledAt n with
    | Some _ => notifications (w_db w') !! n_ID n = Some row ∧ w_redis w' = w_redis w
    | None => ∃ t s,
        notifications (w_db w') !! n_ID n = Some (touch_status t StatusQueued row) ∧
        w_redis w' = ZADD (queue_key (n_Channel n)) s (scheduled_raw n) (w_redis w)
    end.

Lemma enqueue_run n (w : World R) :
  quiet env → n_ScheduledAt n = None → n_Status n ≠ StatusScheduled →
  ∃ s t, run env (enqueue n) w =
    (Some (Ok tt), mkWorld (update_row (n_ID n) (touch_status t StatusQueued) (w_db w))
       (ZADD (queue_key (n_Channel n)) s (scheduled_raw n) (w_redis w)) (3 + w_pos w) (w_proc w)).
Proof.
  intros Hq Hsch Hst. eexists _, _. unfold enqueue.
  destruct (String.eqb_spec (n_Status n) StatusScheduled) as [|_]; [done|].
  unfold MessageFromNotification. rewrite Hsch.
  rewrite run_bind, (Enqueue_run env _ _ _ Hq (scheduled_Marshal n)).
  rewrite UpdateStatus_run by done. reflexivity.
Qed.

Lemma bf_status_plain req c n :
  built_from req c n → n_ScheduledAt n = None → n_Status n ≠ StatusScheduled.
Proof. intros [? ? ? ? ? Hs Ht]. rewrite Ht, Hs. by destruct (cr_ScheduledAt req). Qed.

Lemma insert_not_sentinel n db err :
  insert_notification n db = Err err → Is_DuplicateKey err = false.
Proof.
  unfold insert_notification. destruct (coerce_notification n) as [row|e] eqn:Hc; cbn [mbind result_bind].
  - destruct (_ || _); [by intros [= <-]|]. by destruct (fk_ok _ _); intros [= <-].
  - intros [= <-]. revert Hc. unfold coerce_notification, admit_opt, admit_value.
    repeat first [case_match | progress simpl]; intros; simplify_eq; done.
Qed.

(** Storing a notification and enqueueing it. *)
Lemma store_accepts n (w : World R) db' :
  quiet env → insert_notification n (w_db w) = Ok db' →
  (n_ScheduledAt n = None → n_Status n ≠ StatusScheduled) →
  (is_Some (n_ScheduledAt n) → n_Status n = StatusScheduled) →
  ∃ w', run env (enqueue n) (mkWorld db' (w_redis w) (S (w_pos w)) (w_proc w)) = (Some (Ok tt), w') ∧
    accepted n w w'.
Proof.
  intros Hq Hi Hplain Hsch. pose proof (insert_notification_cases n (w_db w)) as Hcases.
  rewrite Hi in Hcases. destruct Hcases as (row & Hc & Hid & Hk & ->).
  unfold accepted. destruct (n_ScheduledAt n) as [t|] eqn:Es.
  - unfold enqueue. rewrite Hsch by done. eexists. split; [reflexivity|].
    exists row. cbn. split_and!; try done.
    + intros k Hne. by rewrite lookup_insert_ne by done.
    + by rewrite lookup_insert_eq.
  - match goal with |- context [run env _ ?w0] =>
      destruct (enqueue_run n w0 Hq Es (Hplain eq_refl)) as (s & t & Hrun) end.
    rewrite Hrun. eexists. split; [reflexivity|]. exists row. cbn [w_db w_redis].
    split_and!; try done.
    + intros k Hne. rewrite lookup_update_row. cbn. rewrite lookup_insert_ne by done.
      destruct (notifications (w_db w) !! k); [|done]. cbn. by rewrite decide_False.
    + exists t, s. split; [|done]. rewrite lookup_update_row. cbn.
      rewrite lookup_insert_eq. cbn. by rewrite decide_True.
Qed.


(** ** Batches *)

Lemma built_set_batch req c n b : built_from req c n → built_from req c (set_BatchID b n).
Proof. intros [? ? ? ? ? ? ? ? ? ?]. by split. Qed.

(** A request's notification, built in some world with the stores of [w] (templates
    parsed for one request stay cached for the next). *)
Definition built_in (w : World R) (batchID : uuid) (req : CreateNotificationRequest)
    (n : Notification) : Prop :=
  n_BatchID n = Some batchID ∧
  ∃ wi c, same_stores w wi ∧ content_from req wi c ∧ built_from req c n.

Lemma built_in_same w w1 b req n : same_stores w w1 → built_in w1 b req n → built_in w b req n.
Proof.
  intros Hs (Hb & wi & c & Hs' & ?). split; [done|]. exists wi, c. split; [|done].
  by eapply same_stores_trans.
Qed.

Lemma buildNotifications_spec b reqs : ∀ w : World R,
  quiet env →
  ∃ r w', run env (buildNotifications b reqs) w = (Some r, w') ∧ same_stores w w' ∧
    match r with
    | Ok ns => Forall2 (built_in w b) reqs ns
    | Err err => ∃ req wi, req ∈ reqs ∧ same_stores w wi ∧ refusal req wi err
    end.
Proof.
  induction reqs as [|req reqs IH]; intros w Hq; cbn [buildNotifications].
  { exists (Ok []), w. split; [done|]. split; [done|constructor]. }
  destruct (build_spec req w Hq) as (r & w1 & Hrun & Hs & Hb). rewrite run_bind, Hrun.
  destruct r as [n|err].
  2: { exists (Err err), w1. split; [done|]. split; [done|]. exists req, w. by split; [left|]. }
  destruct Hb as (c & Hc & Hb & _). destruct (IH w1 Hq) as (r & w2 & Hrun2 & Hs2 & Hr).
  rewrite run_bind, Hrun2. pose proof (same_stores_trans w w1 w2 Hs Hs2) as Hs12.
  destruct r as [ns|err].
  - exists (Ok (set_BatchID (Some b) n :: ns)), w2. split; [done|]. split; [done|]. constructor.
    + split; [done|]. exists w, c. split_and!; [done|done|by apply built_set_batch].
    + eapply Forall2_impl; [exact Hr|]. intros ??. by apply built_in_same.
  - exists (Err err), w2. split; [done|]. split; [done|]. destruct Hr as (rq & wi & Hin & Hsi & Hf).
    exists rq, wi. split; [by right|]. split; [exact (same_stores_trans _ _ _ Hs Hsi)|done].
Qed.

(** The ids of a batch that is stored are new and distinct. *)
Lemma insert_notifications_fresh ns db db' :
  insert_notifications ns db = Ok db' →
  (∀ n, n ∈ ns → notifications db !! n_ID n = None) ∧ NoDup (n_ID <$> ns).
Proof.
  revert db. induction ns as [|n ns IH]; intros db Hi; cbn [insert_notifications] in Hi.
  { split; [by intros n []%elem_of_nil|constructor]. }
  bind_ok Hi. rename v into db1. destruct (IH db1 Hi) as [Hfresh Hnd].
  pose proof (insert_notification_cases n db) as Hcases. rewrite E in Hcases.
  destruct Hcases as (row & Hc & Hid & Hk & ->). cbn [notifications set_notifications] in Hfresh.
  assert (Hn : notifications db !! n_ID n = None).
  { apply eq_None_not_Some. intros Hs. apply Hk. left. by rewrite Hid. }
  split.
  - intros m [->|Hm]%elem_of_cons; [done|]. specialize (Hfresh m Hm).
    rewrite lookup_insert in Hfresh. by case_decide.
  - cbn. constructor; [|done]. intros (m & Hid' & Hm)%list_elem_of_fmap.
    specialize (Hfresh m Hm). by rewrite <- Hid', lookup_insert_eq in Hfresh.
Qed.

Lemma pipe_run todo : ∀ w : World R,
  (∀ n, n ∈ todo → n_ScheduledAt n = None) →
  ∃ cmds w', run env (pipe_messages (MessageFromNotification <$> todo)) w = (Some (Ok cmds), w') ∧
    same_stores w w' ∧
    Forall2 (λ n e, ∃ s, e = (queue_key (n_Channel n), s, scheduled_raw n)) todo cmds.
Proof.
  induction todo as [|n todo IH]; intros w Hsch.
  { exists [], w. by split_and!. }
  cbn [fmap list_fmap pipe_messages].
  assert (Hm : Marshal (MessageFromNotification n) = Ok (scheduled_raw n)).
  { unfold MessageFromNotification. rewrite Hsch by left. apply scheduled_Marshal. }
  rewrite Hm, run_trigger_bind. cbn [handle fst snd].
  destruct (IH (tick w)) as (cmds & w' & Hrun & Hs & Hall).
  { intros m Hin. apply Hsch. by right. }
  rewrite run_bind. cbn [fmap list_fmap] in Hrun. rewrite Hrun.
  eexists _, w'. split; [reflexivity|]. split; [by eapply same_stores_trans; [|exact Hs]|].
  constructor; [|done]. by eexists.
Qed.

(** The sets after a pipeline of ZADDs. *)
Lemma zadd_all_mono es : ∀ (r : R) k x,
  is_Some (zset r k !! x) → is_Some (zset (zadd_all es r) k !! x).
Proof.
  induction es as [|[[key s] m] es IH]; intros r k x Hx; [done|]. cbn [zadd_all]. apply IH.
  rewrite zset_ZADD. case_decide; [|done]. rewrite lookup_insert. by case_decide.
Qed.

Lemma zadd_all_in es : ∀ (r : R) k s x,
  (k, s, x) ∈ es → is_Some (zset (zadd_all es r) k !! x).
Proof.
  induction es as [|[[key s0] m] es IH]; intros r k s x Hx; [by apply elem_of_nil in Hx|].
  cbn [zadd_all]. apply elem_of_cons in Hx as [[= -> -> ->]|Hx]; [|by eapply IH].
  apply zadd_all_mono. by rewrite zset_ZADD, decide_True, lookup_insert_eq by done.
Qed.

Lemma built_schedule w b req n :
  built_in w b req n → (n_Status n ≠ StatusScheduled ↔ n_ScheduledAt n = None).
Proof.
  intros (_ & wi & c & _ & _ & [_ _ _ _ _ Hs Ht _ _ _]). rewrite Ht, Hs.
  by destruct (cr_ScheduledAt req).
Qed.

Lemma batchEnqueue_run ns (w : World R) :
  quiet env → (∀ n, n ∈ ns → n_Status n ≠ StatusScheduled → n_ScheduledAt n = None) →
  ∃ cmds t w', run env (batchEnqueue ns) w = (Some (Ok tt), w') ∧
    w_redis w' = zadd_all cmds (w_redis w) ∧
    Forall2 (λ n e, ∃ s, e = (queue_key (n_Channel n), s, scheduled_raw n)) (unscheduled ns) cmds ∧
    ∀ k, notifications (w_db w') !! k =
      (λ n, if decide (k ∈ n_ID <$> unscheduled ns) then touch_status t StatusQueued n else n)
        <$> notifications (w_db w) !! k.
Proof.
  intros Hq Hplain.
  assert (Hsch : ∀ n, n ∈ unscheduled ns → n_ScheduledAt n = None).
  { intros n [Hst Hin]%list_elem_of_filter. by apply Hplain. }
  unfold batchEnqueue. destruct (unscheduled ns) as [|n todo] eqn:Eu.
  { exists [], 0, w. split_and!; [done|done|constructor|]. intros k.
    destruct (notifications (w_db w) !! k); [|done]. cbn. rewrite decide_False; [done|].
    by intros []%elem_of_nil. }
  destruct (pipe_run (n :: todo) w Hsch) as (cmds & w1 & Hrun & [Hdb Hrd] & Hall).
  unfold EnqueueBatch. cbn [fmap list_fmap] in Hrun |- *. rewrite run_bind, run_bind, Hrun.
  rewrite run_trigger_bind, handle_redis_quiet by apply Hq. cbn [exec_redis fst snd].
  cbn [run mret prog_ret]. rewrite run_bind. unfold NotificationRepo_UpdateBatchStatus.
  rewrite run_sql_1 by done. unfold after_sql, sql_at. cbn [exec_sql]. unfold update_status_where.
  change (Status_Check StatusQueued) with true. cbn [write_result fst snd].
  eexists cmds, _, _. split; [reflexivity|]. cbn [w_redis w_db tick set_redis notifications set_notifications].
  rewrite Hrd, Hdb. split; [done|]. split; [done|]. intros k.
  rewrite lookup_update_ids. destruct (notifications (w_db w) !! k); [|done]. cbn [fmap option_fmap option_map].
  rewrite andb_true_r. by rewrite bool_decide_decide; destruct (decide _).
Qed.

(** What an accepted batch leaves behind: a row for each notification, and for each
    that is not scheduled one message, in order, in the queue of its channel. *)
Definition batch_accepted (ns : list Notification) (w w' : World R) : Prop :=
  (∀ n, n ∈ ns → notifications (w_db w) !! n_ID n = None) ∧ NoDup (n_ID <$> ns) ∧
  (∀ k, k ∉ n_ID <$> ns → notifications (w_db w') !! k = notifications (w_db w) !! k) ∧
  (∀ n, n ∈ ns → ∃ row, coerce_notification n = Ok row ∧
     match n_ScheduledAt n with
     | Some _ => notifications (w_db w') !! n_ID n = Some row
     | None => ∃ t, notifications (w_db w') !! n_ID n = Some (touch_status t StatusQueued row)
     end) ∧
  ∃ cmds, w_redis w' = zadd_all cmds (w_redis w) ∧
    Forall2 (λ n e, ∃ s, e = (queue_key (n_Channel n), s, scheduled_raw n)) (unscheduled ns) cmds.

Lemma batch_store_accepts ns (w w1 : World R) db' :
  quiet env → same_stores w w1 → insert_notifications ns (w_db w) = Ok db' →
  (∀ n, n ∈ ns → n_Status n ≠ StatusScheduled ↔ n_ScheduledAt n = None) →
  ∃ w', run env (batchEnqueue ns) (mkWorld db' (w_redis w1) (S (w_pos w1)) (w_proc w1)) =
      (Some (Ok tt), w') ∧ batch_accepted ns w w'.
Proof.
  intros Hq [_ Hrd1] Hi Hplain.
  destruct (insert_notifications_fresh _ _ _ Hi) as [Hfresh Hnd].
  destruct (insert_notifications_rows _ _ _ Hi) as (rows & Hall & _ & _ & Hin & _ & Hout).
  match goal with |- context [run env _ ?w0] =>
    destruct (batchEnqueue_run ns w0 Hq) as (cmds & t & w' & Hrun & Hrd & Hcmds & Hrow) end.
  { intros n Hn. by apply Hplain. }
  exists w'. split; [done|]. cbn [w_redis w_db] in Hrd, Hrow. rewrite Hrd1 in Hrd.
  assert (Htodo : ∀ n, n ∈ ns → n_ID n ∈ n_ID <$> unscheduled ns ↔ n_ScheduledAt n = None).
  { intros n Hn. rewrite <- (Hplain n Hn), list_elem_of_fmap. split.
    - intros (m & Heq & [Hst Hm]%list_elem_of_filter).
      by rewrite (NoDup_fmap_eq n_ID ns n m).
    - intros Hst. exists n. split; [done|]. by apply list_elem_of_filter. }
  split_and!; try done.
  - intros k Hk. rewrite Hrow, Hout by done. destruct (notifications (w_db w) !! k); [|done]. cbn.
    rewrite decide_False; [done|]. intros (m & -> & [_ Hm]%list_elem_of_filter)%list_elem_of_fmap.
    apply Hk. apply list_elem_of_fmap. by exists m.
  - intros n Hn. destruct (proj1 (list_elem_of_lookup _ _) Hn) as [i Hni].
    destruct (Forall2_lookup_l _ _ _ _ _ Hall Hni) as (row & Hri & Hc & Hid).
    exists row. split; [done|].
    assert (Hl : notifications db' !! n_ID n = Some row).
    { rewrite <- Hid. apply Hin. by eapply list_elem_of_lookup_2. }
    rewrite Hrow, Hl. cbn. destruct (n_ScheduledAt n) as [t0|] eqn:Es.
    + rewrite decide_False; [done|]. rewrite Htodo by done. by rewrite Es.
    + rewrite decide_True by by apply Htodo. by exists t.
  - by exists cmds.
Qed.

(** The message of an accepted notification is in the queue of its channel. *)
Lemma batch_accepted_queued ns n (w w' : World R) :
  batch_accepted ns w w' → n ∈ ns → n_Status n ≠ StatusScheduled →
  is_Some (zset (w_redis w') (queue_key (n_Channel n)) !! scheduled_raw n).
Proof.
  intros (_ & _ & _ & _ & cmds & Hrd & Hcmds) Hn Hst.
  assert (Hun : n ∈ unscheduled ns) by by apply list_elem_of_filter.
  destruct (proj1 (list_elem_of_lookup _ _) Hun) as [j Hj].
  destruct (Forall2_lookup_l _ _ _ _ _ Hcmds Hj) as (e & He & s & ->).
  rewrite Hrd. eapply zadd_all_in. by eapply list_elem_of_lookup_2.
Qed.


(** ** Reading and cancelling *)


Lemma statusCounts_lookup ns st :
  default 0 (statusCounts ns !! st) = Z.of_nat (length (filter (λ n, n_Status n = st) ns)).
Proof.
  unfold statusCounts.
  enough (Hacc : ∀ m : gmap string Z, default 0 (foldl (λ m n, <[n_Status n := default 0 (m !! n_Status n) + 1]> m) m ns !! st) =
    default 0 (m !! st) + Z.of_nat (length (filter (λ n, n_Status n = st) ns))).
  { rewrite Hacc, lookup_empty. cbn. lia. }
  induction ns as [|n ns IH]; intros m; cbn [foldl]; [cbn; lia|].
  rewrite IH, filter_cons, lookup_insert. case_decide; subst; cbn; try done; lia.
Qed.

(** GET /api/v1/notifications/batch/{batch_id} shows the (at most 1000 oldest)
    notifications of the batch, and the status counts it reports are the number of
    them in each status. *)
Theorem batch_status_counts r (w : World R) batchID :
  quiet env → uuid_Parse (rq_path r "batch_id") = Ok batchID →
  let ns := take 1000 (order_asc n_CreatedAt
              (rows_where (λ n, bool_decide (n_BatchID n = Some batchID)) (w_db w))) in
  ∃ w', run env (NotificationHandler_GetBatch r) w =
      (Some (writeJSON StatusOK
         (js ← json_slice Notification_json ns;
          Ok (JObj [("batch_id", JStr (uuid_String batchID)); ("notifications", js);
                    ("status_counts", statusCounts_json (statusCounts ns));
                    ("total", JInt (Z.of_nat (length ns)))]))), w') ∧
    same_stores w w' ∧
    ∀ st, default 0 (statusCounts ns !! st) = Z.of_nat (length (filter (λ n, n_Status n = st) ns)).
Proof.
  intros Hq Hp ns. unfold NotificationHandler_GetBatch. rewrite Hp.
  unfold NotificationRepo_GetByBatchID. rewrite run_bind, run_sql by done.
  eexists. split; [reflexivity|]. split; [done|]. intros st. apply statusCounts_lookup.
Qed.

(** The same request with another value of one query parameter. *)
Definition with_query (name v : string) (r : Request) : Request :=
  mkRequest (rq_body r) (rq_path r) (λ k, if String.eqb k name then v else rq_query r k).

Lemma format_nonempty t : String.eqb (Format_RFC3339Nano t) "" = false.
Proof.
  apply String.eqb_neq. intros Heq. apply (f_equal String.length) in Heq.
  unfold Format_RFC3339Nano in Heq. rewrite !length_app_string in Heq. cbn [String.length] in Heq. lia.
Qed.

Lemma list_filter_bounds r :
  1 ≤ f_Limit (list_filter_of r) ≤ 100 ∧ 0 ≤ f_Offset (list_filter_of r).
Proof.
  unfold list_filter_of. cbn [f_Limit f_Offset]. split.
  - destruct (query_opt r "limit" ≫= strconv_Atoi) as [l|]; [|lia].
    destruct (_ && _) eqn:E; [zbool; lia|lia].
  - destruct (query_opt r "offset" ≫= strconv_Atoi) as [o|]; [|lia].
    destruct (0 <=? o) eqn:E; [zbool; lia|lia].
Qed.

End endpoints.

(** ** Witnesses *)

#[local] Existing Instances RefTemplate RefPg RefPg_laws RefUUID RefUUID_laws RefLua RefRedis_server RefRedis_laws.

Definition demo_request (body : string) : Request :=
  mkRequest (Ok body) (λ _, uuid_String 1) (λ _, "").

Definition demo_body : string := json_Marshal (JObj
  [("recipient", JStr "+15550100"); ("channel", JStr "sms"); ("content", JStr "hello")]).


(** Two notifications, the second for later. *)
Definition demo_batch : string := json_Marshal (JObj [("notifications", JArr
  [JObj [("recipient", JStr "+15550100"); ("channel", JStr "sms"); ("content", JStr "hello")];
   JObj [("recipient", JStr "a@example.org"); ("channel", JStr "email"); ("content", JStr "hi");
         ("scheduled_at", JStr "2030-01-01T00:00:00Z")]])]).



Lemma batch_status_counts_witness :
  let w := demo_with [set_BatchID (Some 1%N) (demo_notification 1 StatusQueued);
                      set_BatchID (Some 1%N) (demo_notification 2 StatusSent);
                      set_BatchID (Some 1%N) (demo_notification 3 StatusSent)] in
  ∃ resp w', run demo_env (NotificationHandler_GetBatch (demo_request "")) w = (Some resp, w') ∧
    same_stores w w'.
Proof.
  intros w. destruct (batch_status_counts demo_env (demo_request "") w 1%N demo_quiet)
    as (w' & Hrun & Hs & _); [vm_compute; reflexivity|]. eexists _, w'. by split.
Defined.

