(* ===== verification/Templates.v ===== *)
(** * Template endpoints (internal/api/handler/template.go)

    Templates are stored and read through [TemplateRepo]; the engine that renders
    them ([Handlers.Render]) caches them by name and is not told of updates. *)
From S2P Require Import Prelude GoLib GoJson GoTime Domain Uuid Redis Postgres RateLimiter.
From S2P Require Import TemplateEngine Effects Reference Queue Repository Handlers.
From Stdlib Require Import ZArith Lia.
From stdpp Require Import base numbers list strings gmap fin_maps.

Open Scope Z_scope.

Record CreateTemplateRequest := mkTemplateReq {
  tr_Name : string;
  tr_Channel : Channel;
  tr_Content : string;
  tr_Variables : option (list string);
}.

Definition zero_template_req : CreateTemplateRequest := mkTemplateReq "" "" "" None.

(** Into a [[]string], element by element into what the slice has. *)
Fixpoint decode_strings (olds : list string) (l : list json) : result error (list string) :=
  match l with
  | [] => Ok []
  | v :: l' =>
      s ← decode_string v (default ""%string (head olds));
      rest ← decode_strings (tail olds) l';
      Ok (s :: rest)
  end.

Definition decode_variables (v : json) (old : option (list string)) : result error (option (list string)) :=
  match v with
  | JNull => Ok None
  | JArr l => ss ← decode_strings (default [] old) l; Ok (Some ss)
  | _ => Err (type_error "[]string")
  end.

Definition decode_template_field (r : CreateTemplateRequest) (f : string * json)
    : result error CreateTemplateRequest :=
  let k := fold_key f.1 in
  if String.eqb k "name" then
    s ← decode_string f.2 (tr_Name r);
    Ok (mkTemplateReq s (tr_Channel r) (tr_Content r) (tr_Variables r))
  else if String.eqb k "channel" then
    s ← decode_string f.2 (tr_Channel r);
    Ok (mkTemplateReq (tr_Name r) s (tr_Content r) (tr_Variables r))
  else if String.eqb k "content" then
    s ← decode_string f.2 (tr_Content r);
    Ok (mkTemplateReq (tr_Name r) (tr_Channel r) s (tr_Variables r))
  else if String.eqb k "variables" then
    vs ← decode_variables f.2 (tr_Variables r);
    Ok (mkTemplateReq (tr_Name r) (tr_Channel r) (tr_Content r) vs)
  else Ok r.

Section templates.
Context `{TextTemplate} `{UUIDLib}.

Definition Template_json (t : Template) : result error json :=
  created ← Time_json (t_CreatedAt t);
  updated ← Time_json (t_UpdatedAt t);
  Ok (JObj [("id", JStr (uuid_String (t_ID t))); ("name", JStr (t_Name t));
            ("channel", JStr (t_Channel t)); ("content", JStr (t_Content t));
            ("variables", Variables_json (t_Variables t));
            ("created_at", created); ("updated_at", updated)]).

Definition TemplateHandler_Create (r : Request) : prog Response :=
  match decode_body decode_template_field zero_template_req r with
  | Err _ => mret (writeError StatusBadRequest "invalid request body")
  | Ok req =>
      if String.eqb (tr_Name req) "" || String.eqb (tr_Content req) "" ||
         negb (Channel_Valid (tr_Channel req))
      then mret (writeError StatusBadRequest "name, content, and valid channel are required")
      else
        now ← trigger ENow;
        id ← trigger EUuid;
        let t := mkTemplate id (tr_Name req) (tr_Channel req) (tr_Content req) (tr_Variables req) now now in
        c ← TemplateRepo_Create t;
        mret match c with
             | Err _ => writeError StatusInternalServerError "failed to create template"
             | Ok _ => writeJSON StatusCreated (Template_json t)
             end
  end.

Definition template_error (err : error) : Response :=
  if Is_NotFound err then writeError StatusNotFound "template not found"
  else writeError StatusInternalServerError "failed to get template".

Definition TemplateHandler_Get (r : Request) : prog Response :=
  match uuid_Parse (rq_path r "id") with
  | Err _ => mret (writeError StatusBadRequest "invalid template ID")
  | Ok id =>
      t ← TemplateRepo_GetByID id;
      mret match t with
           | Err err => template_error err
           | Ok t => writeJSON StatusOK (Template_json t)
           end
  end.

(** The fields a PUT replaces. *)
Definition apply_update (req : CreateTemplateRequest) (t : Template) : Template :=
  mkTemplate (t_ID t)
    (if String.eqb (tr_Name req) "" then t_Name t else tr_Name req)
    (if Channel_Valid (tr_Channel req) then tr_Channel req else t_Channel t)
    (if String.eqb (tr_Content req) "" then t_Content t else tr_Content req)
    (match tr_Variables req with None => t_Variables t | Some vs => Some vs end)
    (t_CreatedAt t) (t_UpdatedAt t).

Definition TemplateHandler_Update (r : Request) : prog Response :=
  match uuid_Parse (rq_path r "id") with
  | Err _ => mret (writeError StatusBadRequest "invalid template ID")
  | Ok id =>
      match decode_body decode_template_field zero_template_req r with
      | Err _ => mret (writeError StatusBadRequest "invalid request body")
      | Ok req =>
          t ← TemplateRepo_GetByID id;
          match t with
          | Err err => mret (template_error err)
          | Ok t =>
              let t' := apply_update req t in
              u ← TemplateRepo_Update t';
              mret match u with
                   | Err _ => writeError StatusInternalServerError "failed to update template"
                   | Ok _ => writeJSON StatusOK (Template_json t')
                   end
          end
      end
  end.

Definition TemplateHandler_Delete (r : Request) : prog Response :=
  match uuid_Parse (rq_path r "id") with
  | Err _ => mret (writeError StatusBadRequest "invalid template ID")
  | Ok id =>
      d ← TemplateRepo_Delete id;
      mret match d with
           | Err _ => writeError StatusInternalServerError "failed to delete template"
           | Ok _ => mkResponse StatusNoContent None
           end
  end.

Definition TemplateHandler_List (r : Request) : prog Response :=
  ts ← TemplateRepo_List;
  mret match ts with
       | Err _ => writeError StatusInternalServerError "failed to list templates"
       | Ok ts =>
           writeJSON StatusOK (js ← json_slice Template_json ts; Ok (JObj [("templates", js)]))
       end.
End templates.

Section endpoints.
Context {R : Type} `{RedisLaws R} `{LuaNumber} `{PgLaws} `{TextTemplate} `{UUIDLaws}.
Variable env : Env.

Lemma template_Create_run t (w : World R) :
  quiet env →
  run env (TemplateRepo_Create t) w =
    let r := insert_template t (w_db w) in
    (Some (match r with Ok _ => Ok tt | Err err => Err (EWrap "insert template" err) end),
     mkWorld (match r with Ok db' => db' | Err _ => w_db w end) (w_redis w) (S (w_pos w)) (w_proc w)).
Proof.
  intros Hq. unfold TemplateRepo_Create. rewrite run_sql by done.
  unfold after_sql, sql_at. cbn [exec_sql]. by destruct (insert_template t (w_db w)).
Qed.

Lemma insert_template_cases t db db' :
  insert_template t db = Ok db' →
  ∃ row, coerce_template t = Ok row ∧ t_ID row = t_ID t ∧ templates db !! t_ID t = None ∧
    db' = set_templates (<[t_ID t := row]> (templates db)) db.
Proof.
  unfold insert_template. intros Hi. bind_ok Hi. destruct (coerce_template_ok t v E) as [Hid _].
  destruct (_ || _) eqn:Ek; [done|]. injection Hi as <-. rewrite Hid in *.
  exists v. split_and!; try done. apply orb_false_iff in Ek as [Ek _].
  by apply bool_decide_eq_false, eq_None_not_Some in Ek.
Qed.

(** The request a client makes for one template. *)
Definition template_request (id : uuid) : Request :=
  mkRequest (Ok ""%string) (λ _, uuid_String id) (λ _, ""%string).

(** A template that was created can be read.  A POST that is answered 201 stored
    one new row, with everything else as it was, and a GET of its id returns that
    row; a POST that is answered otherwise changed nothing. *)
Theorem template_create_get r (w : World R) :
  quiet env → (∀ i, is_uuid (e_uuid env i)) →
  ∃ resp w', run env (TemplateHandler_Create r) w = (Some resp, w') ∧ w_redis w' = w_redis w ∧
    ((rs_code resp ∈ [StatusBadRequest; StatusInternalServerError] ∧ w_db w' = w_db w) ∨
     (rs_code resp = StatusCreated ∧ ∃ t row, coerce_template t = Ok row ∧
        resp = writeJSON StatusCreated (Template_json t) ∧ templates (w_db w) !! t_ID t = None ∧
        w_db w' = set_templates (<[t_ID t := row]> (templates (w_db w))) (w_db w) ∧
        (run env (TemplateHandler_Get (template_request (t_ID t))) w').1 =
          Some (writeJSON StatusOK (Template_json row)))).
Proof.
  intros Hq Hid. unfold TemplateHandler_Create.
  destruct (decode_body decode_template_field zero_template_req r) as [req|err].
  2: { eexists _, _. split; [reflexivity|]. split; [done|]. left. split; [left|done]. }
  destruct (_ || _ || _).
  { eexists _, _. split; [reflexivity|]. split; [done|]. left. split; [left|done]. }
  rewrite !run_trigger_bind. cbn [handle fst snd]. cbv zeta. set (t := mkTemplate _ _ _ _ _ _ _).
  rewrite run_bind, template_Create_run by done. cbv zeta. cbn [tick w_db w_redis w_proc w_pos].
  destruct (insert_template t (w_db w)) as [db'|err] eqn:Ei.
  2: { eexists _, _. split; [reflexivity|]. split; [done|]. left. split; [right; left|done]. }
  destruct (insert_template_cases _ _ _ Ei) as (row & Hc & Hrid & Hfresh & ->).
  eexists _, _. split; [reflexivity|]. split; [done|]. right. split; [done|].
  exists t, row. split_and!; try done. unfold TemplateHandler_Get, template_request. cbn [rq_path].
  rewrite uuid_Parse_String by apply Hid. rewrite run_bind, TemplateGetByID_run by done.
  cbn [w_db templates set_templates]. by rewrite lookup_insert_eq.
Qed.

(** The row an accepted PUT leaves. *)
Definition updated_row (now : Z) (req : CreateTemplateRequest) (old : Template) : result error Template :=
  let t := apply_update req old in
  coerce_template (mkTemplate (t_ID old) (t_Name t) (t_Channel t) (t_Content t) (t_Variables t)
                     (t_CreatedAt old) now).

(** C31: PUT /api/v1/templates/{id} replaces exactly the fields the request gives
    (non-empty name and content, valid channel, present variables): the row keeps
    its id, its creation time and the other fields, no other row changes, and a name
    that another template has, or a value its column cannot hold, is a 500 that
    changes nothing. *)
Theorem template_update_endpoint r id req (w : World R) :
  quiet env → db_wf (w_db w) →
  uuid_Parse (rq_path r "id") = Ok id →
  decode_body decode_template_field zero_template_req r = Ok req →
  ∃ resp w', run env (TemplateHandler_Update r) w = (Some resp, w') ∧ w_redis w' = w_redis w ∧
    match templates (w_db w) !! id with
    | None => rs_code resp = StatusNotFound ∧ w_db w' = w_db w
    | Some old =>
        ∃ now,
        match updated_row now req old with
        | Ok row =>
            if name_taken id (t_Name row) (templates (w_db w))
            then rs_code resp = StatusInternalServerError ∧ w_db w' = w_db w
            else resp = writeJSON StatusOK (Template_json (apply_update req old)) ∧
                 ∃ row', templates (w_db w') = <[id := row']> (templates (w_db w)) ∧
                   notifications (w_db w') = notifications (w_db w) ∧
                   t_ID row' = id ∧ t_CreatedAt row' = t_CreatedAt old ∧ t_Name row' = t_Name row ∧
                   t_Channel row' = t_Channel row ∧ t_Content row' = t_Content row ∧
                   t_Variables row' = t_Variables row
        | Err _ => rs_code resp = StatusInternalServerError ∧ w_db w' = w_db w
        end
    end.
Proof.
  intros Hq Hwf Hid Hreq. unfold TemplateHandler_Update. rewrite Hid, Hreq.
  rewrite run_bind, TemplateGetByID_run by done.
  destruct (templates (w_db w) !! id) as [old|] eqn:Eold; [|by eexists _, _].
  destruct (wf_templates _ Hwf _ _ Eold) as [Hoid _]. cbv zeta.
  unfold TemplateRepo_Update. rewrite run_bind, run_sql by done. unfold after_sql, sql_at.
  cbn [exec_sql w_db w_pos w_redis w_proc]. set (now := e_now env _). unfold update_template.
  change (t_ID (apply_update req old)) with (t_ID old). rewrite Hoid, Eold.
  eexists _, _. split; [reflexivity|]. split; [done|]. exists now. unfold updated_row. rewrite Hoid.
  destruct (coerce_template _) as [row|err]; cbn [mbind result_bind write_result fst snd]; [|done].
  destruct (name_taken id (t_Name row) (templates (w_db w))); [done|]. split; [done|].
  eexists. split; [reflexivity|]. by rewrite <- Hoid.
Qed.

(** DELETE /api/v1/templates/{id}.  A template some notification was made from
    cannot be deleted: the answer is a 500 and the database is unchanged; any other
    id, known or not, is answered 204 and is gone afterwards. *)
Theorem template_delete_endpoint r id (w : World R) :
  quiet env → uuid_Parse (rq_path r "id") = Ok id →
  ∃ resp w', run env (TemplateHandler_Delete r) w = (Some resp, w') ∧
    ((∃ k n, notifications (w_db w) !! k = Some n ∧ n_TemplateID n = Some id) →
       rs_code resp = StatusInternalServerError ∧ w_db w' = w_db w) ∧
    ((∀ k n, notifications (w_db w) !! k = Some n → n_TemplateID n ≠ Some id) →
       resp = mkResponse StatusNoContent None ∧
       w_db w' = set_templates (delete id (templates (w_db w))) (w_db w)).
Proof.
  intros Hq Hid. unfold TemplateHandler_Delete. rewrite Hid. unfold TemplateRepo_Delete.
  rewrite run_bind, run_sql_1 by done. unfold after_sql, sql_at. cbn [exec_sql].
  assert (Href : template_referenced id (w_db w) = true ↔
    ∃ k n, notifications (w_db w) !! k = Some n ∧ n_TemplateID n = Some id).
  { unfold template_referenced. rewrite bool_decide_eq_true, list_elem_of_fmap. split.
    - intros (n & Hn & ([k n'] & -> & Hin)%list_elem_of_fmap). exists k, n'.
      split; [by apply elem_of_map_to_list|done].
    - intros (k & n & Hk & Hn). exists n. split; [done|]. apply list_elem_of_fmap.
      exists (k, n). split; [done|]. by apply elem_of_map_to_list. }
  destruct (template_referenced id (w_db w)) eqn:Er; cbn [fst snd].
  - eexists _, _. split; [reflexivity|]. split; [done|]. intros Hno.
    destruct (proj1 Href eq_refl) as (k & n & Hk & Hn). by destruct (Hno k n Hk).
  - eexists _, _. split; [reflexivity|]. split; [|done]. intros Hex.
    apply Href in Hex. done.
Qed.
End endpoints.

(** ** Witnesses and a stale cache *)

#[local] Existing Instances RefTemplate RefPg RefPg_laws RefUUID RefUUID_laws RefLua.

Definition demo_template : Template :=
  mkTemplate 7 "greeting" ChannelSMS "v1" None demo_start demo_start.

Definition demo_templates : World RefRedis :=
  mkWorld (set_templates {[7%N := demo_template]} empty_DB) empty_RefRedis 0 demo_proc.

Lemma demo_templates_wf : db_wf (w_db demo_templates).
Proof.
  split; intros *; cbn [demo_templates w_db set_templates empty_DB notifications templates dead_letters];
    rewrite ?lookup_empty, ?lookup_singleton; repeat case_decide; intros; simplify_eq; done.
Qed.

Definition put_request (content : string) : Request :=
  mkRequest (Ok (json_Marshal (JObj [("content", JStr content)]))) (λ _, uuid_String 7) (λ _, ""%string).

(** The environment with a fixed UUID. *)
Definition demo_env_uuid : Env := {|
  e_now := e_now demo_env; e_fault := e_fault demo_env; e_uuid _ := 42%N; e_rand := e_rand demo_env;
  e_http := e_http demo_env; e_lua := e_lua demo_env; e_done := e_done demo_env |}.

Lemma template_create_get_witness :
  let r := mkRequest (Ok (json_Marshal (JObj [("name", JStr "otp"); ("channel", JStr "sms");
                                              ("content", JStr "code")]))) (λ _, ""%string) (λ _, ""%string) in
  ∃ resp w', run demo_env_uuid (TemplateHandler_Create r) demo_world = (Some resp, w') ∧
    w_redis w' = w_redis demo_world.
Proof.
  intros r. destruct (template_create_get demo_env_uuid r demo_world) as (resp & w' & Hrun & Hr & _).
  - done.
  - intros i. vm_compute. reflexivity.
  - by exists resp, w'.
Defined.

Lemma template_update_endpoint_witness :
  ∃ resp w', run demo_env (TemplateHandler_Update (put_request "v2")) demo_templates = (Some resp, w') ∧
    t_Content <$> templates (w_db w') !! 7%N = Some "v2".
Proof.
  destruct (template_update_endpoint demo_env (put_request "v2") 7 (mkTemplateReq "" "" "v2" None)
    demo_templates demo_quiet demo_templates_wf) as (resp & w' & Hrun & _ & _).
  - vm_compute. reflexivity.
  - vm_compute. reflexivity.
  - exists resp, w'. split; [done|].
    assert (Hr : t_Content <$> templates (w_db (run demo_env (TemplateHandler_Update (put_request "v2"))
      demo_templates).2) !! 7%N = Some "v2") by (vm_compute; reflexivity).
    by rewrite Hrun in Hr.
Defined.

Lemma template_delete_endpoint_witness :
  ∃ resp w', run demo_env (TemplateHandler_Delete (template_request 7)) demo_templates = (Some resp, w') ∧
    resp = mkResponse StatusNoContent None ∧ templates (w_db w') = ∅.
Proof.
  destruct (template_delete_endpoint demo_env (template_request 7) 7 demo_templates demo_quiet)
    as (resp & w' & Hrun & _ & Hgone); [vm_compute; reflexivity|].
  destruct Hgone as [Hr Hdb]; [by intros k n; cbn; rewrite lookup_empty|].
  exists resp, w'. split; [done|]. split; [done|]. rewrite Hdb. vm_compute. reflexivity.
Defined.

(** POST a notification from the template and read what it will say. *)
Definition from_template : Request :=
  mkRequest (Ok (json_Marshal (JObj [("recipient", JStr "+15550100"); ("channel", JStr "sms");
                                     ("template_id", JStr (uuid_String 7))])))
    (λ _, uuid_String 7) (λ _, ""%string).

Definition contents (db : DB) : list string := n_Content <$> (map_to_list (notifications db)).*2.

(** Editing a template has no effect on a process that has used it.  A
    notification is created from the template "v1", the template is changed to "v2"
    (the PUT answers 200 and a GET shows "v2"), and a second notification is created
    from it: both say "v1".  The engine caches by name and nothing calls
    [Invalidate]. *)
Theorem template_update_not_rendered :
  let w1 := (run demo_env (NotificationHandler_Create from_template) demo_templates).2 in
  let put := run demo_env (TemplateHandler_Update (put_request "v2")) w1 in
  let w3 := (run demo_env (NotificationHandler_Create from_template) put.2).2 in
  rs_code <$> put.1 = Some StatusOK ∧
  t_Content <$> templates (w_db w3) !! 7%N = Some "v2" ∧
  contents (w_db w3) = ["v1"; "v1"].
Proof. vm_compute. split_and!; reflexivity. Qed.
