(* ===== verification/Pumps.v ===== *)
(** * The pumps of a WebSocket client (internal/websocket/client.go)

    Behind each client of the hub are two goroutines, [ReadPump] and [WritePump], a
    connection and a context.  A session is one client with all of these; it outlives
    the client's membership in the hub.  The steps of the goroutines are [pump], what
    happens around them [act], so a list of actions is one interleaving of clients
    connecting, broadcasts, pumps, lost connections and cancelled contexts.  What the
    connection's [Read] and [Write] return is chosen by the action; they fail on a
    connection that is closed and when the context is done. *)
From S2P Require Import Prelude GoLib GoJson Domain Hub Queue Templates.
From Stdlib Require Import ZArith Lia.
From stdpp Require Import base numbers list strings gmap fin_maps.

(** ** What a client may send *)

Definition decode_subscribe_field (m : SubscribeMessage) (f : string * json) : result error SubscribeMessage :=
  let k := fold_key f.1 in
  if String.eqb k "type" then
    s ← decode_string f.2 (sub_Type m);
    Ok (mkSubscribe s (sub_Channels m))
  else if String.eqb k "channels" then
    chs ← decode_variables f.2 (Some (sub_Channels m));
    Ok (mkSubscribe (sub_Type m) (default [] chs))
  else Ok m.

(** [json.Unmarshal(data, &msg)]; [None] is an error. *)
Definition decode_subscribe (data : string) : option SubscribeMessage :=
  match json_Unmarshal data with
  | Some (JObj fs) =>
      match decode_fields decode_subscribe_field (mkSubscribe "" []) fs with
      | Ok m => Some m
      | Err _ => None
      end
  | Some JNull => Some (mkSubscribe "" [])
  | _ => None
  end.

(** ** Sessions *)

(** [ReadPump]: at its [Read], before its deferred [Unregister], before its deferred
    [CloseNow], returned. *)
Inductive reader := Reading | Unregistering | ReaderClosing | ReaderDone.

(** [WritePump]: at its select, at its [Write] of a message, before its deferred
    [CloseNow], returned; in the end with the message whose [Write] failed. *)
Inductive writer :=
| Selecting
| Writing (msg : json)
| WriterClosing (failed : option json)
| WriterDone (failed : option json).

Record Session := mkSession {
  se_client : Client;
  se_registered : bool;    (* the client is in [hub.clients] *)
  se_open : bool;          (* the connection is not closed *)
  se_done : bool;          (* the client's context is done *)
  se_reader : reader;
  se_writer : writer;
  se_written : list json;  (* what [conn.Write] has accepted *)
}.

(** [Hub.Register] creates the client and starts its pumps. *)
Definition connected : Session := mkSession NewClient true true false Reading Selecting [].

Definition usable (s : Session) : bool := se_open s && negb (se_done s).

Inductive pump_act :=
| ReadReturns (answer : option string)
| ReaderUnregisters
| ReaderCloses
| SelectDone
| SelectSend
| WriteReturns (ok : bool)
| WriterCloses.

(** The next step of a client's goroutines; [None] when it is not the next one. *)
Definition pump (a : pump_act) (s : Session) : option Session :=
  let '(mkSession c reg op dn rd wr out) := s in
  match a, rd, wr with
  | ReadReturns (Some data), Reading, _ =>
      if usable s then Some (mkSession (subscribe (decode_subscribe data) c) reg op dn Reading wr out) else None
  | ReadReturns None, Reading, _ => Some (mkSession c reg op dn Unregistering wr out)
  | ReaderUnregisters, Unregistering, _ => Some (mkSession c false op dn ReaderClosing wr out)
  | ReaderCloses, ReaderClosing, _ => Some (mkSession c reg false dn ReaderDone wr out)
  | SelectDone, _, Selecting => if dn then Some (mkSession c reg op dn rd (WriterClosing None) out) else None
  | SelectSend, _, Selecting =>
      match cl_send c with
      | msg :: rest => Some (mkSession (mkClient rest (cl_channels c)) reg op dn rd (Writing msg) out)
      | [] => None
      end
  | WriteReturns true, _, Writing msg =>
      if usable s then Some (mkSession c reg op dn rd Selecting (out ++ [msg])) else None
  | WriteReturns false, _, Writing msg => Some (mkSession c reg op dn rd (WriterClosing (Some msg)) out)
  | WriterCloses, _, WriterClosing failed => Some (mkSession c reg false dn rd (WriterDone failed) out)
  | _, _, _ => None
  end.

Fixpoint pump_run (pas : list pump_act) (s : Session) : option Session :=
  match pas with [] => Some s | a :: pas' => s' ← pump a s; pump_run pas' s' end.

(** ** The hub with its clients *)

Abbreviation Sessions := (gmap client_id Session) (only parsing).

Inductive act :=
| AConnect (id : client_id)
| AEvent (e : Event)
| ABatch (es : list Event)
| ACancel (id : client_id)   (* the context is done *)
| ALost (id : client_id)     (* the connection breaks *)
| APump (id : client_id) (a : pump_act).

(** A broadcast reaches the clients that are registered. *)
Definition hears (f : Client → Client) (s : Session) : Session :=
  if se_registered s
  then mkSession (f (se_client s)) true (se_open s) (se_done s) (se_reader s) (se_writer s) (se_written s)
  else s.

Definition cancel (s : Session) : Session :=
  mkSession (se_client s) (se_registered s) (se_open s) true (se_reader s) (se_writer s) (se_written s).
Definition lose (s : Session) : Session :=
  mkSession (se_client s) (se_registered s) false (se_done s) (se_reader s) (se_writer s) (se_written s).

(** What an action makes of the session of [id]. *)
Definition act_on (a : act) (id : client_id) (s : Session) : option Session :=
  match a with
  | AConnect id' => if decide (id' = id) then None else Some s
  | AEvent e => Some (hears (offer_event e) s)
  | ABatch es => Some (hears (offer_batch es) s)
  | ACancel id' => Some (if decide (id' = id) then cancel s else s)
  | ALost id' => Some (if decide (id' = id) then lose s else s)
  | APump id' a => if decide (id' = id) then pump a s else Some s
  end.

Definition act_step (a : act) (ss : Sessions) : option Sessions :=
  match a with
  | AConnect id => match ss !! id with None => Some (<[id := connected]> ss) | Some _ => None end
  | AEvent e => Some (hears (offer_event e) <$> ss)
  | ABatch es => Some (hears (offer_batch es) <$> ss)
  | ACancel id => Some (alter cancel id ss)
  | ALost id => Some (alter lose id ss)
  | APump id a => s ← ss !! id; s' ← pump a s; Some (<[id := s']> ss)
  end.

Fixpoint act_run (acts : list act) (ss : Sessions) : option Sessions :=
  match acts with [] => Some ss | a :: acts' => ss' ← act_step a ss; act_run acts' ss' end.

(** The hub that Hub.v models: the clients that are registered. *)
Definition hub_of (ss : Sessions) : Hub :=
  mkHub (omap (λ s, if se_registered s then Some (se_client s) else None) ss).

(** The operation on the hub that an action is. *)
Definition hub_act (a : act) (h : Hub) : Hub :=
  match a with
  | AConnect id => Register id h
  | AEvent e => Broadcast e h
  | ABatch es => BroadcastBatch es h
  | APump id (ReadReturns (Some data)) => ReadPump_message id (decode_subscribe data) h
  | APump id ReaderUnregisters => Unregister id h
  | APump id SelectSend => (WritePump_take id h).2
  | _ => h
  end.

(** *** What a client is offered *)

Definition has_room (c : Client) : bool := (length (cl_send c) <? sendBuffer)%nat.

(** A message a broadcast has for a client that wants it, and whether it is taken:
    it is not when the send channel is full. *)
Definition offer (a : act) (s : Session) : list (json * bool) :=
  let c := se_client s in
  if se_registered s then
    match a with
    | AEvent e => if WantsEvent c (ev_Channel e) then [(Event_json e, has_room c)] else []
    | ABatch es => if WantsBatch c es then [(batch_json es, has_room c)] else []
    | _ => []
    end
  else [].

Fixpoint offers (id : client_id) (acts : list act) (ss : Sessions) : list (json * bool) :=
  match acts with
  | [] => []
  | a :: acts' =>
      match act_step a ss with
      | Some ss' => match ss !! id with Some s => offer a s | None => [] end ++ offers id acts' ss'
      | None => []
      end
  end.

Definition taken (os : list (json * bool)) : list json := (filter (λ o, o.2 = true) os).*1.

(** The message [WritePump] holds, or failed to write. *)
Definition unsent (w : writer) : list json :=
  match w with
  | Selecting | WriterClosing None | WriterDone None => []
  | Writing msg | WriterClosing (Some msg) | WriterDone (Some msg) => [msg]
  end.

(** All that was ever put into a client's channel. *)
Definition stream (s : Session) : list json :=
  se_written s ++ unsent (se_writer s) ++ cl_send (se_client s).

(** ** Lemmas *)

Lemma act_step_on a ss ss' id s :
  act_step a ss = Some ss' → ss !! id = Some s → ∃ s', act_on a id s = Some s' ∧ ss' !! id = Some s'.
Proof.
  intros Ha Hs. destruct a as [id'|e|es|id'|id'|id' pa]; cbn [act_step act_on] in *.
  - destruct (ss !! id') eqn:E; [done|]. injection Ha as <-. rewrite decide_False by congruence.
    exists s. split; [done|]. rewrite lookup_insert_ne by congruence. done.
  - injection Ha as <-. rewrite lookup_fmap, Hs. by eexists.
  - injection Ha as <-. rewrite lookup_fmap, Hs. by eexists.
  - injection Ha as <-. rewrite lookup_alter. case_decide as Hid; [subst id'|]; rewrite Hs; by eexists.
  - injection Ha as <-. rewrite lookup_alter. case_decide as Hid; [subst id'|]; rewrite Hs; by eexists.
  - destruct (ss !! id') as [s0|] eqn:E; [|done]. cbn in Ha. destruct (pump pa s0) as [s'|] eqn:Ep; [|done].
    injection Ha as <-. rewrite lookup_insert. case_decide as Hid; [|by exists s].
    subst id'. replace s with s0 by congruence. by exists s'.
Qed.

(** A client is new only by connecting. *)
Lemma act_step_new a ss ss' id s' :
  act_step a ss = Some ss' → ss !! id = None → ss' !! id = Some s' → a = AConnect id ∧ s' = connected.
Proof.
  intros Ha Hs Hs'. destruct a as [id'|e|es|id'|id'|id' pa]; cbn [act_step] in Ha.
  - destruct (ss !! id'); [done|]. injection Ha as <-. rewrite lookup_insert in Hs'.
    case_decide; simplify_eq. done.
  - injection Ha as <-. by rewrite lookup_fmap, Hs in Hs'.
  - injection Ha as <-. by rewrite lookup_fmap, Hs in Hs'.
  - injection Ha as <-. rewrite lookup_alter in Hs'. case_decide as Hid; [subst id'|]; by rewrite Hs in Hs'.
  - injection Ha as <-. rewrite lookup_alter in Hs'. case_decide as Hid; [subst id'|]; by rewrite Hs in Hs'.
  - destruct (ss !! id') as [s0|] eqn:E; [|done]. cbn in Ha. destruct (pump pa s0); [|done].
    injection Ha as <-. rewrite lookup_insert in Hs'. case_decide; simplify_eq.
Qed.

(** What holds of a client that connects, and is kept by every action on it, holds of
    all clients. *)
Lemma session_invariant (I : Session → Prop) acts : ∀ ss ss' id s',
  I connected → (∀ a s s', act_on a id s = Some s' → I s → I s') →
  (∀ s, ss !! id = Some s → I s) → act_run acts ss = Some ss' → ss' !! id = Some s' → I s'.
Proof.
  induction acts as [|a acts IH]; intros ss ss' id s' Hc Hstep Hss Hrun Hs'; cbn in Hrun; [by simplify_eq; apply Hss|].
  destruct (act_step a ss) as [ss1|] eqn:Ha; [|done]. cbn in Hrun.
  refine (IH ss1 ss' id s' Hc Hstep _ Hrun Hs'). intros s1 Hs1.
  destruct (ss !! id) as [s|] eqn:E.
  - destruct (act_step_on a ss ss1 id s Ha E) as (s2 & Ho & Hs2). assert (s2 = s1) as -> by congruence.
    by eapply Hstep; [|apply Hss].
  - by destruct (act_step_new a ss ss1 id s1 Ha E Hs1) as [_ ->].
Qed.

(** Case analysis on a step of the pumps. *)
Ltac pump_cases H :=
  unfold pump in H;
  repeat match type of H with context [match ?x with _ => _ end] => destruct x eqn:?; try discriminate H end;
  injection H as <-; cbn in *.

Lemma hears_offer (data : json) (wants : bool) f s :
  f (se_client s) = (if wants then try_send data (se_client s) else se_client s) →
  stream (hears f s) =
    stream s ++ (if se_registered s then if wants && has_room (se_client s) then [data] else [] else []).
Proof.
  intros Hf. unfold hears. destruct (se_registered s); [|by rewrite app_nil_r].
  unfold stream. cbn [se_written se_writer se_client]. rewrite Hf. unfold try_send, has_room.
  destruct wants; cbn [andb]; [|by rewrite app_nil_r].
  destruct (_ <? _)%nat; cbn [cl_send]; [by rewrite <- !app_assoc|by rewrite app_nil_r].
Qed.

(** A step of the goroutines moves messages on. *)
Lemma pump_stream a s s' : pump a s = Some s' → stream s' = stream s.
Proof.
  intros Hp. destruct s as [c reg op dn rd wr out]. unfold stream. pump_cases Hp;
    rewrite ?subscribe_send, <- ?app_assoc; try done.
  by match goal with H : cl_send _ = _ |- _ => rewrite H end.
Qed.

Lemma act_on_stream a id s s' : act_on a id s = Some s' → stream s' = stream s ++ taken (offer a s).
Proof.
  intros Ha. destruct a as [id'|e|es|id'|id'|id' pa]; cbn [act_on] in Ha.
  - case_decide; simplify_eq. unfold offer. destruct (se_registered _); by rewrite app_nil_r.
  - injection Ha as <-. rewrite (hears_offer (Event_json e) (WantsEvent (se_client s) (ev_Channel e))) by done.
    f_equal. unfold offer. destruct (se_registered s); [|done].
    destruct (WantsEvent _ _); [|done]. by destruct (has_room _).
  - injection Ha as <-. rewrite (hears_offer (batch_json es) (WantsBatch (se_client s) es)) by done.
    f_equal. unfold offer. destruct (se_registered s); [|done].
    destruct (WantsBatch _ _); [|done]. by destruct (has_room _).
  - injection Ha as <-. unfold offer. destruct (se_registered s); case_decide; by rewrite app_nil_r.
  - injection Ha as <-. unfold offer. destruct (se_registered s); case_decide; by rewrite app_nil_r.
  - replace (taken (offer (APump id' pa) s)) with (@nil json) by (unfold offer; by destruct (se_registered s)).
    rewrite app_nil_r. case_decide; [by eapply pump_stream|by simplify_eq].
Qed.

Lemma taken_app os os' : taken (os ++ os') = taken os ++ taken os'.
Proof. unfold taken. by rewrite filter_app, fmap_app. Qed.

Lemma stream_run id acts : ∀ ss ss' s', act_run acts ss = Some ss' → ss' !! id = Some s' →
  stream s' = from_option stream [] (ss !! id) ++ taken (offers id acts ss).
Proof.
  induction acts as [|a acts IH]; intros ss ss' s' Hrun Hs'; cbn [act_run] in Hrun.
  { injection Hrun as <-. rewrite Hs'. symmetry. apply app_nil_r. }
  cbn [offers]. destruct (act_step a ss) as [ss1|] eqn:Ha; [|done]. cbn in Hrun.
  rewrite (IH ss1 ss' s' Hrun Hs'), taken_app, app_assoc. f_equal.
  destruct (ss !! id) as [s|] eqn:E; cbn [from_option].
  - destruct (act_step_on a ss ss1 id s Ha E) as (s1 & Ho & ->). by apply (act_on_stream a id).
  - destruct (ss1 !! id) as [s1|] eqn:E1; [|done].
    by destruct (act_step_new a ss ss1 id s1 Ha E E1) as [_ ->].
Qed.

Definition within (s : Session) : Prop := (length (cl_send (se_client s)) ≤ sendBuffer)%nat.

Lemma act_on_within a id s s' : act_on a id s = Some s' → within s → within s'.
Proof.
  unfold within. intros Ha Hw. destruct a as [id'|e|es|id'|id'|id' pa]; cbn [act_on] in Ha.
  - by case_decide; simplify_eq.
  - injection Ha as <-. unfold hears. destruct (se_registered s); [by apply offer_event_bounded|done].
  - injection Ha as <-. unfold hears. destruct (se_registered s); [by apply offer_batch_bounded|done].
  - injection Ha as <-. by case_decide.
  - injection Ha as <-. by case_decide.
  - case_decide; [|by simplify_eq]. destruct s as [c reg op dn rd wr out]. cbn in Hw.
    pump_cases Ha; rewrite ?subscribe_send; try done. lia.
Qed.

(** *** The hub of Hub.v *)

Lemma hub_of_lookup ss id :
  h_clients (hub_of ss) !! id = s ← ss !! id; if se_registered s then Some (se_client s) else None.
Proof. cbn [hub_of h_clients]. apply lookup_omap. Qed.

Lemma hub_ext h h' : (∀ id, h_clients h !! id = h_clients h' !! id) → h = h'.
Proof. destruct h, h'. intros He. f_equal. by apply map_eq. Qed.

Lemma hub_of_hears f ss : hub_of (hears f <$> ss) = mkHub (f <$> h_clients (hub_of ss)).
Proof.
  apply hub_ext. intros id. rewrite hub_of_lookup. cbn [h_clients]. rewrite !lookup_fmap, hub_of_lookup.
  destruct (ss !! id) as [s|]; [|done]. cbn. unfold hears. destruct (se_registered s) eqn:E; cbn; [done|by rewrite E].
Qed.

Lemma hub_of_insert id s ss :
  hub_of (<[id := s]> ss) =
    mkHub (if se_registered s then <[id := se_client s]> (h_clients (hub_of ss)) else delete id (h_clients (hub_of ss))).
Proof.
  apply hub_ext. intros id'. rewrite hub_of_lookup. cbn [h_clients]. rewrite lookup_insert.
  destruct (se_registered s) eqn:E; [rewrite lookup_insert|rewrite lookup_delete];
    case_decide; rewrite ?hub_of_lookup; cbn; rewrite ?E; done.
Qed.

Lemma hub_of_pump a id s s' (h : Hub) :
  pump a s = Some s' →
  h_clients h !! id = (if se_registered s then Some (se_client s) else None) →
  mkHub (if se_registered s' then <[id := se_client s']> (h_clients h) else delete id (h_clients h)) =
    hub_act (APump id a) h.
Proof.
  intros Hp Hid. destruct s as [c reg op dn rd wr out]. destruct h as [cs]. cbn in Hid.
  assert (Hsame : (if reg then <[id := c]> cs else delete id cs) = cs)
    by (destruct reg; [by apply insert_id|by apply delete_id]).
  pump_cases Hp; try (by rewrite Hsame); try done.
  - apply hub_ext. intros id'. cbn. rewrite lookup_alter.
    destruct reg; rewrite ?lookup_insert, ?lookup_delete; (case_decide as Hd; [subst id'|done]); by rewrite Hid.
  - unfold WritePump_take. cbn [h_clients]. rewrite Hid. destruct c as [q chs]. cbn in *. subst q.
    destruct reg; [done|]. cbn. by rewrite Hsame.
Qed.

(** An action on the sessions is its operation on the hub. *)
Lemma act_step_hub a ss ss' : act_step a ss = Some ss' → hub_of ss' = hub_act a (hub_of ss).
Proof.
  intros Ha. destruct a as [id|e|es|id|id|id pa]; cbn [act_step hub_act] in *.
  - destruct (ss !! id); [done|]. injection Ha as <-. apply hub_of_insert.
  - injection Ha as <-. apply hub_of_hears.
  - injection Ha as <-. rewrite BroadcastBatch_fmap. apply hub_of_hears.
  - injection Ha as <-. apply hub_ext. intros id'. rewrite !hub_of_lookup, lookup_alter.
    case_decide as Hid; [subst id'|done]. by destruct (ss !! id).
  - injection Ha as <-. apply hub_ext. intros id'. rewrite !hub_of_lookup, lookup_alter.
    case_decide as Hid; [subst id'|done]. by destruct (ss !! id).
  - destruct (ss !! id) as [s|] eqn:E; [|done]. cbn in Ha. destruct (pump pa s) as [s'|] eqn:Ep; [|done].
    injection Ha as <-. rewrite hub_of_insert.
    pose proof (hub_of_lookup ss id) as Hid. rewrite E in Hid. cbn in Hid. by apply (hub_of_pump pa id s).
Qed.

(** ** Delivery *)

(** C30: Clients are served in order.  In every interleaving of clients that connect,
    broadcasts, pumps, broken connections and cancelled contexts: what the client's
    connection has accepted, then the message its [WritePump] holds or failed to write,
    then its send channel of at most 256, are exactly the messages that broadcasts had
    for it while it was registered and its subscription wanted them, in their order and
    each once, but for those that found the channel full.  And every action is, on the
    clients that are registered, the hub's operation: no step of a client's goroutines
    touches another client, and a client that has left gets nothing more. *)
Theorem clients_served_in_order acts ss id s :
  act_run acts ∅ = Some ss → ss !! id = Some s →
  se_written s ++ unsent (se_writer s) ++ cl_send (se_client s) = taken (offers id acts ∅) ∧
  (length (cl_send (se_client s)) ≤ sendBuffer)%nat ∧
  (∀ a ss', act_step a ss = Some ss' → hub_of ss' = hub_act a (hub_of ss)) ∧
  (∀ a ss', act_step a ss = Some ss' → se_registered s = false →
     (∀ pa, a ≠ APump id pa) → ∃ s', ss' !! id = Some s' ∧ stream s' = stream s).
Proof.
  intros Hrun Hs. split_and!.
  - by apply (stream_run id acts ∅ ss s Hrun Hs).
  - apply (session_invariant within acts ∅ ss id s); [by apply Nat.leb_le|exact (λ a, act_on_within a id)|done..].
  - intros a ss'. apply act_step_hub.
  - intros a ss' Ha Hreg Hpa. destruct (act_step_on a ss ss' id s Ha Hs) as (s' & Ho & Hs'). exists s'. split; [done|].
    rewrite (act_on_stream a id s s' Ho). unfold offer. rewrite Hreg. apply app_nil_r.
Qed.

(** ** The end of a session *)

Definition reader_work (r : reader) : nat :=
  match r with Reading => 3 | Unregistering => 2 | ReaderClosing => 1 | ReaderDone => 0 end.
Definition writer_work (w : writer) : nat :=
  match w with Selecting => 2 | Writing _ => 3 | WriterClosing _ => 1 | WriterDone _ => 0 end.

(** The steps left to the pumps of a session that cannot be used any more. *)
Definition pump_work (s : Session) : nat :=
  reader_work (se_reader s) + writer_work (se_writer s) + 2 * length (cl_send (se_client s)).

Lemma pump_works a s s' :
  usable s = false → pump a s = Some s' →
  usable s' = false ∧ se_done s' = se_done s ∧ (pump_work s' < pump_work s)%nat.
Proof.
  intros Hu Hp. destruct s as [c reg op dn rd wr out].
  unfold pump_work. pump_cases Hp; try congruence; rewrite ?andb_false_r; (split_and!; [done|done|]);
    try match goal with H : cl_send _ = _ |- _ => rewrite H end; cbn; lia.
Qed.

(** A reader that is past its [Unregister] has left the hub. *)
Definition left_hub (s : Session) : Prop :=
  match se_reader s with ReaderClosing | ReaderDone => se_registered s = false | _ => True end.

Lemma act_on_left a id s s' : act_on a id s = Some s' → left_hub s → left_hub s'.
Proof.
  assert (Hhears : ∀ f, left_hub s → left_hub (hears f s)).
  { intros f. unfold left_hub, hears. destruct (se_registered s) eqn:E; [|by rewrite E]. cbn. by destruct (se_reader s). }
  intros Ha Hl. destruct a as [id'|e|es|id'|id'|id' pa]; cbn [act_on] in Ha.
  - by case_decide; simplify_eq.
  - injection Ha as <-. by apply Hhears.
  - injection Ha as <-. by apply Hhears.
  - injection Ha as <-. by case_decide.
  - injection Ha as <-. by case_decide.
  - case_decide; [|by simplify_eq]. destruct s as [c reg op dn rd wr out]. unfold left_hub in *. by pump_cases Ha.
Qed.

(** What is left when no goroutine of the session can take a step. *)
Lemma blocked_ended s :
  se_done s = true → (∀ a, pump a s = None) → se_reader s = ReaderDone ∧ ∃ failed, se_writer s = WriterDone failed.
Proof.
  intros Hd Hb. destruct s as [c reg op dn rd wr out]. cbn in Hd. subst dn. cbn. split.
  - destruct rd; [|specialize (Hb ReaderUnregisters)|specialize (Hb ReaderCloses)|done];
      [specialize (Hb (ReadReturns None))|..]; discriminate Hb.
  - destruct wr; [specialize (Hb SelectDone)|specialize (Hb (WriteReturns false))|specialize (Hb WriterCloses)|by eexists];
      try discriminate Hb; by destruct rd.
Qed.

(** Sessions end.  Once the context of a client is done its pumps return after at most
    518 steps of theirs, however they are interleaved, and when none of them can take
    a step both have returned, the connection is closed and the client has left the hub. *)
Theorem sessions_end acts ss id s pas s' :
  act_run acts ∅ = Some ss → ss !! id = Some s → se_done s = true → pump_run pas s = Some s' →
  (length pas ≤ 2 * sendBuffer + 6)%nat ∧
  ((∀ a, pump a s' = None) → se_reader s' = ReaderDone ∧ (∃ failed, se_writer s' = WriterDone failed) ∧
     se_registered s' = false).
Proof.
  intros Hrun Hs Hd Hpas.
  assert (Hw : within s) by (apply (session_invariant within acts ∅ ss id s); [by apply Nat.leb_le|exact (λ a, act_on_within a id)|done..]).
  assert (Hl : left_hub s) by (apply (session_invariant left_hub acts ∅ ss id s); [done|exact (λ a, act_on_left a id)|done..]).
  assert (Hmain : (length pas + pump_work s' ≤ pump_work s)%nat ∧ se_done s' = true ∧ left_hub s').
  { assert (Hu : usable s = false) by (unfold usable; rewrite Hd; apply andb_false_r).
    clear Hrun Hs Hw. revert s Hd Hpas Hl Hu. induction pas as [|a pas IH]; intros s Hd Hpas Hl Hu; cbn in Hpas.
    - injection Hpas as <-. split_and!; [cbn; lia|done|done].
    - destruct (pump a s) as [s1|] eqn:Ha; [|done]. cbn in Hpas. destruct (pump_works a s s1 Hu Ha) as (Hu1 & Hd1 & Hlt).
      destruct (IH s1) as (Hle & ? & ?); [congruence|done| |done|].
      + apply (act_on_left (APump id a) id s); [|done]. cbn. by rewrite decide_True.
      + split_and!; [cbn; lia|done|done]. }
  destruct Hmain as (Hle & Hd' & Hl'). split.
  - unfold within, pump_work, sendBuffer in *. assert (reader_work (se_reader s) ≤ 3)%nat by (by destruct (se_reader s); cbn; lia).
    assert (writer_work (se_writer s) ≤ 3)%nat by (by destruct (se_writer s); cbn; lia). lia.
  - intros Hb. destruct (blocked_ended s' Hd' Hb) as [Hr Hwr]. split_and!; [done|done|].
    unfold left_hub in Hl'. by rewrite Hr in Hl'.
Qed.

(** A reader that has returned leaves its writer behind: while the context lives on and
    nothing is in the channel the writer waits in its select, and nothing but the
    context's end wakes it. *)
Theorem idle_writer_stays acts : ∀ ss ss' id s,
  ss !! id = Some s → se_reader s = ReaderDone → left_hub s → se_done s = false →
  se_writer s = Selecting → cl_send (se_client s) = [] → ACancel id ∉ acts → act_run acts ss = Some ss' →
  ∃ s', ss' !! id = Some s' ∧ se_writer s' = Selecting ∧ se_reader s' = ReaderDone.
Proof.
  induction acts as [|a acts IH]; intros ss ss' id s Hs Hr Hl Hd Hw Hq Hno Hrun; cbn in Hrun; [injection Hrun as <-; by exists s|].
  destruct (act_step a ss) as [ss1|] eqn:Ha; [|done]. cbn in Hrun. apply not_elem_of_cons in Hno as [Hne Hno].
  destruct (act_step_on a ss ss1 id s Ha Hs) as (s1 & Ho & Hs1).
  assert (Hreg : se_registered s = false) by (unfold left_hub in Hl; by rewrite Hr in Hl).
  pose proof (act_on_left a id s s1 Ho Hl) as Hl1.
  assert (Hkeep : se_reader s1 = ReaderDone ∧ se_done s1 = false ∧ se_writer s1 = Selecting ∧ cl_send (se_client s1) = []).
  { destruct a as [id'|e|es|id'|id'|id' pa]; cbn [act_on] in Ho; unfold hears in *; rewrite ?Hreg in Ho;
      try case_decide; simplify_eq; try done.
    destruct s as [c reg op dn rd wr out]. cbn in *. subst. by pump_cases Ho; simplify_eq. }
  destruct Hkeep as (? & ? & ? & ?). by apply (IH ss1 ss' id s1).
Qed.

(** ** An interleaving *)

Definition demo_sms : Event := mkEvent "notification.sent" "id" "sms" "sent" "".
Definition demo_email : Event := mkEvent "notification.sent" "id" "email" "sent" "".

(** A client subscribes to SMS, two broadcasts follow, and the second of its writes fails. *)
Definition demo_acts : list act :=
  [AConnect 1; APump 1 (ReadReturns (Some (json_Marshal (JObj [("type", JStr "subscribe"); ("channels", JArr [JStr "sms"])]))));
   AEvent demo_sms; AEvent demo_email; APump 1 SelectSend; APump 1 (WriteReturns true);
   ABatch [demo_email; demo_sms]; APump 1 SelectSend; ALost 1; APump 1 (WriteReturns false); APump 1 WriterCloses].

Lemma clients_served_in_order_witness :
  ∃ ss s, act_run demo_acts ∅ = Some ss ∧ ss !! 1%nat = Some s ∧
    se_written s ++ unsent (se_writer s) ++ cl_send (se_client s) = taken (offers 1 demo_acts ∅) ∧
    taken (offers 1 demo_acts ∅) = [Event_json demo_sms; batch_json [demo_email; demo_sms]].
Proof.
  set (ss := default ∅ (act_run demo_acts ∅)). set (s := default connected (ss !! 1%nat)).
  assert (Hrun : act_run demo_acts ∅ = Some ss) by (vm_compute; reflexivity).
  assert (Hs : ss !! 1%nat = Some s) by (vm_compute; reflexivity).
  exists ss, s. split; [exact Hrun|]. split; [exact Hs|].
  split; [exact (proj1 (clients_served_in_order demo_acts ss 1%nat s Hrun Hs))|vm_compute; reflexivity].
Defined.
