(* ===== verification/Api.v ===== *)
(** * HTTP front end (internal/api: router.go, middleware/, handler/health.go,
      metrics.go, websocket.go)

    A handler is a program from a request to what it wrote on the connection.
    [hijack] says whether the response writer it is given implements
    [http.Hijacker]; the writers of [Logging] and [Gzip] embed the interface
    [http.ResponseWriter] and so do not.  Of the headers, [X-Request-ID] and
    [Content-Encoding] are kept.  The access log keeps the status. *)
From S2P Require Import Prelude GoLib GoJson GoTime Domain Uuid Redis Postgres RateLimiter.
From S2P Require Import CircuitBreaker Hub Metrics TemplateEngine Effects Reference Queue Repository Handlers Templates.
From Stdlib Require Import ZArith Lia Ascii.
From stdpp Require Import base numbers list strings gmap fin_maps.

Open Scope Z_scope.

(** ** Connections *)

Record HttpRequest := mkHttpRequest {
  hq_method : string;
  hq_path : string;                       (* r.URL.Path *)
  hq_header : string → string;
  hq_query : string → string;
  hq_body : result error string;
  hq_client : nat;                        (* the client an upgrade allocates *)
  hq_request_id : option string;          (* [RequestIDKey] in r.Context() *)
}.

Definition GetRequestID (r : HttpRequest) : string := default "" (hq_request_id r).

(** Bytes written, plain or through a gzip writer. *)
Inductive chunk := Chunk (gzipped : bool) (data : string).

(** [o_status] is the status sent, if any header was sent; [o_panic] whether the
    handler panicked; [o_log] what the middleware logged. *)
Inductive log_line :=
| LogRequest (method path : string) (status : Z) (request_id : string)
| LogPanic (request_id : string).

Record Out := mkOut {
  o_header : gmap string string;
  o_status : option Z;
  o_body : list chunk;
  o_panic : bool;
  o_log : list log_line;
}.

Definition no_output : Out := mkOut ∅ None [] false [].

(** [w.WriteHeader(code)]: the first one counts. *)
Definition WriteHeader (code : Z) (o : Out) : Out :=
  mkOut (o_header o) (Some (default code (o_status o))) (o_body o) (o_panic o) (o_log o).

(** [w.Write(data)]: an implicit 200 before the first; a 204 has no body. *)
Definition Write (gz : bool) (data : string) (o : Out) : Out :=
  let o := WriteHeader StatusOK o in
  mkOut (o_header o) (o_status o)
    (if bool_decide (o_status o = Some StatusNoContent) then o_body o else o_body o ++ [Chunk gz data])
    (o_panic o) (o_log o).

Definition set_header (k v : string) (o : Out) : Out :=
  mkOut (<[k := v]> (o_header o)) (o_status o) (o_body o) (o_panic o) (o_log o).

Definition panicked : Out := mkOut ∅ None [] true [].
Definition recovered (o : Out) : Out :=
  mkOut (o_header o) (o_status o) (o_body o) false (o_log o).
Definition logged (l : log_line) (o : Out) : Out :=
  mkOut (o_header o) (o_status o) (o_body o) (o_panic o) (o_log o ++ [l]).

Definition newline : string := String (ascii_of_nat 10) EmptyString.

(** [json.NewEncoder(w).Encode(v)] appends a newline. *)
Definition respond (resp : Response) : Out :=
  let o := WriteHeader (rs_code resp) no_output in
  match rs_body resp with Some j => Write false (json_Marshal j +:+ newline) o | None => o end.

(** [http.Error(w, msg, code)] *)
Definition http_Error (msg : string) (code : Z) (o : Out) : Out :=
  Write false (msg +:+ newline) (WriteHeader code o).

(** [websocket.Accept]: whether the writer can be hijacked, to the status of a
    refusal, or [None] when the connection was taken over. *)
Class WebsocketLib := { ws_Accept : bool → HttpRequest → option Z }.

(** An upgrade takes over the connection, which needs a [http.Hijacker]. *)
Class WebsocketLaws `{WebsocketLib} : Prop := {
  ws_needs_hijacker r : ∃ code, ws_Accept false r = Some code ∧ 400 ≤ code;
}.

(** ** Routes *)

Inductive seg := Lit (s : string) | Wild (name : string).

Inductive route :=
| RHealth | RReady | RMetrics | RUpgrade
| RCreate | RBatchCreate | RGet | RGetBatch | RCancel | RList
| RTCreate | RTGet | RTUpdate | RTDelete | RTList.

Definition routes : list (string * list seg * route) :=
  [("GET", [Lit "health"], RHealth);
   ("GET", [Lit "ready"], RReady);
   ("GET", [Lit "metrics"], RMetrics);
   ("GET", [Lit "ws"; Lit "notifications"], RUpgrade);
   ("POST", [Lit "api"; Lit "v1"; Lit "notifications"], RCreate);
   ("POST", [Lit "api"; Lit "v1"; Lit "notifications"; Lit "batch"], RBatchCreate);
   ("GET", [Lit "api"; Lit "v1"; Lit "notifications"; Wild "id"], RGet);
   ("GET", [Lit "api"; Lit "v1"; Lit "notifications"; Lit "batch"; Wild "batch_id"], RGetBatch);
   ("POST", [Lit "api"; Lit "v1"; Lit "notifications"; Wild "id"; Lit "cancel"], RCancel);
   ("GET", [Lit "api"; Lit "v1"; Lit "notifications"], RList);
   ("POST", [Lit "api"; Lit "v1"; Lit "templates"], RTCreate);
   ("GET", [Lit "api"; Lit "v1"; Lit "templates"; Wild "id"], RTGet);
   ("PUT", [Lit "api"; Lit "v1"; Lit "templates"; Wild "id"], RTUpdate);
   ("DELETE", [Lit "api"; Lit "v1"; Lit "templates"; Wild "id"], RTDelete);
   ("GET", [Lit "api"; Lit "v1"; Lit "templates"], RTList)].

(** The segments of a path; [None] without a leading slash. *)
Fixpoint split_slash (acc : string) (s : string) : list string :=
  match s with
  | EmptyString => [acc]
  | String c s' =>
      if Ascii.eqb c "/" then acc :: split_slash "" s'
      else split_slash (acc +:+ String c EmptyString) s'
  end.

Definition segments (path : string) : option (list string) :=
  match path with
  | String c s => if Ascii.eqb c "/" then Some (split_slash "" s) else None
  | EmptyString => None
  end.

(** [http.ServeMux]: a wildcard matches one non-empty segment. *)
Fixpoint match_segs (pat : list seg) (segs : list string) : option (list (string * string)) :=
  match pat, segs with
  | [], [] => Some []
  | Lit l :: pat', s :: segs' => if String.eqb l s then match_segs pat' segs' else None
  | Wild n :: pat', s :: segs' =>
      if String.eqb s "" then None else cons (n, s) <$> match_segs pat' segs'
  | _, _ => None
  end.

(** A GET pattern matches HEAD requests too. *)
Definition match_method (pat method : string) : bool :=
  String.eqb pat method || (String.eqb pat "GET" && String.eqb method "HEAD").

Definition match_route (method : string) (segs : list string) (r : string * list seg * route)
    : option (route * list (string * string)) :=
  if match_method r.1.1 method then (λ vs, (r.2, vs)) <$> match_segs r.1.2 segs else None.

Definition matches (method : string) (segs : list string) : list (route * list (string * string)) :=
  omap (match_route method segs) routes.

(** Some route has the path, whatever the method. *)
Definition path_known (segs : list string) : bool :=
  existsb (λ r, match match_segs r.1.2 segs with Some _ => true | None => false end) routes.

(** Paths [cleanPath] keeps: no empty (but a last one), "." or ".." segment. *)
Fixpoint clean (segs : list string) : bool :=
  match segs with
  | [] => true
  | s :: segs' =>
      negb (String.eqb s "." || String.eqb s "..") &&
      (negb (String.eqb s "") || match segs' with [] => true | _ => false end) && clean segs'
  end.

Definition path_value (vs : list (string * string)) (name : string) : string :=
  default ""%string (snd <$> head (filter (λ v, v.1 = name) vs)).

(** ** Handlers behind the routes *)

Section api.
Context `{TextTemplate} `{UUIDLib} `{WebsocketLib}.

(** A panic stops the handler; deferred functions see it. *)
Fixpoint catch {A} (p : prog A) : prog (option A) :=
  match p with
  | Ret a => Ret (Some a)
  | Vis e k => Vis e (λ x, catch (k x))
  | Panic => Ret None
  end.

(** What deferred functions find: the output so far, or a panic without any. *)
Definition outcome (p : prog Out) : prog Out := r ← catch p; mret (default panicked r).

Definition serve (p : prog Response) : prog Out := resp ← p; mret (respond resp).

Definition HealthHandler_Health : prog Response :=
  mret (writeJSON StatusOK (Ok (JObj [("status", JStr "ok")]))).

Definition up_down (up : bool) : json := JStr (if up then "up"%string else "down"%string).

(** The keys of a map are encoded in order. *)
Definition HealthHandler_Ready : prog Response :=
  postgres ← trigger EPing;
  redis ← trigger EPing;
  let degraded := negb postgres || negb redis in
  mret (writeJSON (if degraded then StatusServiceUnavailable else StatusOK)
          (Ok (JObj [("postgres", up_down postgres); ("redis", up_down redis);
                     ("status", JStr (if degraded then "degraded"%string else "ok"%string))]))).

(** The snapshot's JSON, of the channels a collector has. *)
Definition ChannelMetrics_json (m : ChannelMetrics) : json :=
  JObj [("sent", JInt (Sent m)); ("failed", JInt (Failed m)); ("processing", JInt (Processing m))].

Definition Snapshot_json (s : gmap string ChannelMetrics * Z) : json :=
  JObj [("channels", JObj (omap (λ ch, (λ m, (ch, ChannelMetrics_json m)) <$> s.1 !! ch)
                             [ChannelEmail; ChannelPush; ChannelSMS]));
        ("websocket_connections", JInt s.2)].

(** The collector is memory of the API process; [mc] is what it holds. *)
Definition MetricsHandler_Metrics (mc : MetricsCollector) : prog Response :=
  connections ← trigger (EHub HubLen);
  mret (writeJSON StatusOK (Ok (Snapshot_json (Snapshot connections mc)))).

Definition WebSocketHandler_Upgrade (hijack : bool) (r : HttpRequest) : prog Out :=
  match ws_Accept hijack r with
  | Some code => mret (http_Error "" code no_output)
  | None => _ ← trigger (EHub (HubRegister (hq_client r))); mret (WriteHeader 101 no_output)
  end.

Definition to_request (r : HttpRequest) (vs : list (string * string)) : Request :=
  mkRequest (hq_body r) (path_value vs) (hq_query r).

Definition handle_route (mc : MetricsCollector) (hijack : bool) (r : HttpRequest)
    (rt : route) (vs : list (string * string)) : prog Out :=
  let rq := to_request r vs in
  match rt with
  | RHealth => serve HealthHandler_Health
  | RReady => serve HealthHandler_Ready
  | RMetrics => serve (MetricsHandler_Metrics mc)
  | RUpgrade => WebSocketHandler_Upgrade hijack r
  | RCreate => serve (NotificationHandler_Create rq)
  | RBatchCreate => serve (NotificationHandler_BatchCreate rq)
  | RGet => serve (NotificationHandler_Get rq)
  | RGetBatch => serve (NotificationHandler_GetBatch rq)
  | RCancel => serve (NotificationHandler_Cancel rq)
  | RList => serve (NotificationHandler_List rq)
  | RTCreate => serve (TemplateHandler_Create rq)
  | RTGet => serve (TemplateHandler_Get rq)
  | RTUpdate => serve (TemplateHandler_Update rq)
  | RTDelete => serve (TemplateHandler_Delete rq)
  | RTList => serve (TemplateHandler_List rq)
  end.

(** [mux.ServeHTTP] *)
Definition mux (mc : MetricsCollector) (hijack : bool) (r : HttpRequest) : prog Out :=
  match segments (hq_path r) with
  | None => mret (WriteHeader 301 no_output)
  | Some segs =>
      if negb (clean segs) then mret (WriteHeader 301 no_output)
      else
        match matches (hq_method r) segs with
        | (rt, vs) :: _ => handle_route mc hijack r rt vs
        | [] => if path_known segs then mret (http_Error "Method Not Allowed" 405 no_output)
                else mret (http_Error "404 page not found" 404 no_output)
        end
  end.

(** ** Middleware *)

Abbreviation handler := (bool → HttpRequest → prog Out) (only parsing).

Fixpoint contains (sub s : string) : bool :=
  String.prefix sub s || match s with EmptyString => false | String _ s' => contains sub s' end.

Definition gzip_chunk (c : chunk) : chunk := let '(Chunk _ s) := c in Chunk true s.

(** What the inner handler wrote goes through the gzip writer; closing it, which a
    panic does too, writes at least its header and trailer. *)
Definition Gzip (next : handler) : handler := λ hijack r,
  if contains "gzip" (hq_header r "Accept-Encoding") then
    out ← outcome (next false r);
    let zipped := mkOut (<["Content-Encoding" := "gzip"]> (o_header out)) (o_status out)
                    (gzip_chunk <$> o_body out) (o_panic out) (o_log out) in
    mret (Write true "" zipped)
  else next hijack r.

Definition set_body (b : result error string) (r : HttpRequest) : HttpRequest :=
  mkHttpRequest (hq_method r) (hq_path r) (hq_header r) (hq_query r) b (hq_client r) (hq_request_id r).

(** [http.MaxBytesReader]: reading past the limit is an error.  The decoder stops
    reading at the end of the first JSON value, so a longer body is only an error
    when that value does not end within the limit. *)
Definition limit_body (maxBytes : Z) (b : result error string) : result error string :=
  s ← b;
  if Z.of_nat (String.length s) <=? maxBytes then Ok s
  else
    let head := String.substring 0 (Z.to_nat maxBytes) s in
    match json_Decode head with
    | Some _ => Ok head
    | None => Err (EOther "http: request body too large")
    end.

Definition MaxBodySize (maxBytes : Z) (next : handler) : handler := λ hijack r,
  next hijack (set_body (limit_body maxBytes (hq_body r)) r).

(** Nothing is logged when the handler panics. *)
Definition Logging (next : handler) : handler := λ _ r,
  _ ← trigger ENow;
  out ← next false r;
  if o_panic out then mret out
  else
    _ ← trigger ENow;
    mret (logged (LogRequest (hq_method r) (hq_path r) (default StatusOK (o_status out)) (GetRequestID r)) out).

Definition error_body : string := json_Marshal (JObj [("error", JStr "internal server error")]).

Definition Recovery (next : handler) : handler := λ hijack r,
  out ← outcome (next hijack r);
  mret (if o_panic out
        then recovered (http_Error error_body StatusInternalServerError (logged (LogPanic (GetRequestID r)) out))
        else out).

Definition request_id (r : HttpRequest) : prog string :=
  if String.eqb (hq_header r "X-Request-ID") "" then u ← trigger EUuid; mret (uuid_String u)
  else mret (hq_header r "X-Request-ID").

(** [r.WithContext(context.WithValue(r.Context(), RequestIDKey, id))] *)
Definition with_request_id (id : string) (r : HttpRequest) : HttpRequest :=
  mkHttpRequest (hq_method r) (hq_path r) (hq_header r) (hq_query r) (hq_body r) (hq_client r) (Some id).

Definition RequestID (next : handler) : handler := λ hijack r,
  id ← request_id r;
  out ← next hijack (with_request_id id r);
  mret (set_header "X-Request-ID" id out).

(** The middleware in the order [NewRouter] applies it. *)
Definition with_middleware (h : handler) : handler :=
  RequestID (Recovery (Logging (MaxBodySize (Z.shiftl 5 20) (Gzip h)))).

Definition NewRouter (mc : MetricsCollector) : handler := with_middleware (mux mc).

(** ** No handler panics *)

(** [run] of a caught program. *)
Lemma run_catch {R} `{RedisServer R} `{LuaNumber} `{PgEngine} env {A} (p : prog A) (w : World R) :
  run env (catch p) w = (Some (run env p w).1, (run env p w).2).
Proof.
  revert w. induction p as [a|X e k IH|]; intros w; [done| |done]. simpl.
  destruct (handle env e w) as [x w']. apply IH.
Qed.

Lemma run_outcome {R} `{RedisServer R} `{LuaNumber} `{PgEngine} env (p : prog Out) (w : World R) :
  run env (outcome p) w = (Some (default panicked (run env p w).1), (run env p w).2).
Proof. unfold outcome. by rewrite run_bind, run_catch. Qed.

Lemma no_panic_pipe msgs : no_panic (pipe_messages msgs).
Proof. induction msgs as [|m msgs IH]; cbn [pipe_messages]; solve_no_panic. Qed.

Lemma no_panic_EnqueueBatch msgs : no_panic (EnqueueBatch msgs).
Proof. unfold EnqueueBatch. destruct msgs; [done|]. apply no_panic_bind; [apply no_panic_pipe|]. intros ?. solve_no_panic. Qed.

Lemma no_panic_build req : no_panic (buildNotification req).
Proof.
  unfold buildNotification, request_content, TemplateRepo_GetByID, Render, getOrParse. solve_no_panic.
Qed.

Lemma no_panic_builds b reqs : no_panic (buildNotifications b reqs).
Proof.
  induction reqs as [|req reqs IH]; cbn [buildNotifications]; [done|].
  apply no_panic_bind; [apply no_panic_build|]. intros [n|]; solve_no_panic.
Qed.

Lemma no_panic_List f : no_panic (NotificationRepo_List f).
Proof.
  unfold NotificationRepo_List. destruct (list_conditions f) as [[conds args] k].
  destruct (base_conditions f) as [[? ?] ?]. solve_no_panic.
Qed.

Lemma no_panic_batchEnqueue ns : no_panic (batchEnqueue ns).
Proof.
  unfold batchEnqueue. destruct (unscheduled ns); [done|].
  apply no_panic_bind; [apply no_panic_EnqueueBatch|]. intros [?|?]; unfold NotificationRepo_UpdateBatchStatus; solve_no_panic.
Qed.

Lemma no_panic_Create r : no_panic (NotificationHandler_Create r).
Proof.
  unfold NotificationHandler_Create. destruct (decode_body _ _ r); [|done].
  apply no_panic_bind; [apply no_panic_build|]. intros [n|]; [|done].
  unfold NotificationRepo_Create, enqueue, Enqueue, NotificationRepo_UpdateStatus. solve_no_panic.
Qed.

Lemma no_panic_BatchCreate r : no_panic (NotificationHandler_BatchCreate r).
Proof.
  unfold NotificationHandler_BatchCreate. destruct (decode_body _ _ r); [|done].
  destruct (_ <? _); [done|]. destruct (_ =? _); [done|].
  apply no_panic_bind; [apply no_panic_trigger|]. intros b.
  apply no_panic_bind; [apply no_panic_builds|]. intros [ns|]; [|done].
  apply no_panic_bind; [unfold NotificationRepo_CreateBatch; solve_no_panic|].
  intros [u|err]; [|by destruct (Is_DuplicateKey err)].
  apply no_panic_bind; [apply no_panic_batchEnqueue|]. done.
Qed.

Lemma no_panic_notifications r :
  no_panic (NotificationHandler_Get r) ∧ no_panic (NotificationHandler_GetBatch r) ∧
  no_panic (NotificationHandler_Cancel r) ∧ no_panic (NotificationHandler_List r).
Proof.
  split_and!.
  - unfold NotificationHandler_Get, NotificationRepo_GetByID. solve_no_panic.
  - unfold NotificationHandler_GetBatch, NotificationRepo_GetByBatchID. solve_no_panic.
  - unfold NotificationHandler_Cancel, NotificationRepo_GetByID, NotificationRepo_UpdateStatus. solve_no_panic.
  - apply no_panic_bind; [apply no_panic_List|]. done.
Qed.

Lemma no_panic_templates r :
  no_panic (TemplateHandler_Create r) ∧ no_panic (TemplateHandler_Get r) ∧
  no_panic (TemplateHandler_Update r) ∧ no_panic (TemplateHandler_Delete r) ∧ no_panic (TemplateHandler_List r).
Proof.
  split_and!.
  - unfold TemplateHandler_Create, TemplateRepo_Create. solve_no_panic.
  - unfold TemplateHandler_Get, TemplateRepo_GetByID. solve_no_panic.
  - unfold TemplateHandler_Update, TemplateRepo_GetByID, TemplateRepo_Update. solve_no_panic.
  - unfold TemplateHandler_Delete, TemplateRepo_Delete. solve_no_panic.
  - unfold TemplateHandler_List, TemplateRepo_List. solve_no_panic.
Qed.

End api.

Section front.
Context {R : Type} `{RedisServer R} `{LuaNumber} `{PgEngine} `{TextTemplate} `{UUIDLib} `{WebsocketLib}.
Variable env : Env.

(** A handler that writes a complete response. *)
Definition answers (p : prog Out) : Prop :=
  ∀ w : World R,
    ∃ out w', run env p w = (Some out, w') ∧ o_panic out = false ∧ is_Some (o_status out) ∧ o_log out = [].

Lemma answers_serve p : no_panic p → answers (serve p).
Proof.
  intros Hp w. destruct (no_panic_run env p w Hp) as (resp & w' & Hrun).
  unfold serve. rewrite run_bind, Hrun. eexists _, w'. split; [reflexivity|].
  unfold respond. by destruct (rs_body resp).
Qed.

Lemma answers_route mc hijack r rt vs : answers (handle_route mc hijack r rt vs).
Proof.
  destruct (no_panic_notifications (to_request r vs)) as (? & ? & ? & ?).
  destruct (no_panic_templates (to_request r vs)) as (? & ? & ? & ? & ?).
  destruct rt; cbn [handle_route]; try (by apply answers_serve).
  - intros w. unfold WebSocketHandler_Upgrade. destruct (ws_Accept hijack r).
    + by eexists _, _.
    + rewrite run_trigger_bind. by eexists _, _.
  - apply answers_serve, no_panic_Create.
  - apply answers_serve, no_panic_BatchCreate.
Qed.

Lemma answers_mux mc hijack r : answers (mux mc hijack r).
Proof.
  unfold mux. destruct (segments (hq_path r)) as [segs|]; [|intros w; by eexists _, _].
  destruct (clean segs); cbn [negb]; [|intros w; by eexists _, _].
  destruct (matches (hq_method r) segs) as [|[rt vs] l]; [|apply answers_route].
  destruct (path_known segs); intros w; by eexists _, _.
Qed.

(** ** The middleware around any handler *)

Definition accepts_gzip (r : HttpRequest) : bool := contains "gzip" (hq_header r "Accept-Encoding").

(** The request as the handler inside the middleware sees it. *)
Definition limited (id : string) (r : HttpRequest) : HttpRequest :=
  set_body (limit_body (Z.shiftl 5 20) (hq_body r)) (with_request_id id r).

(** What [Recovery] makes of the output. *)
Definition after_recovery (id : string) (out : Out) : Out :=
  if o_panic out then recovered (http_Error error_body StatusInternalServerError (logged (LogPanic id) out)) else out.

(** What [Logging] and [Gzip] leave of a handler's output. *)
Definition after_gzip (gz : bool) (out : Out) : Out :=
  if gz then Write true "" (mkOut (<["Content-Encoding" := "gzip"]> (o_header out)) (o_status out)
                              (gzip_chunk <$> o_body out) (o_panic out) (o_log out))
  else out.

Definition after_logging (id : string) (r : HttpRequest) (out : Out) : Out :=
  if o_panic out then out
  else logged (LogRequest (hq_method r) (hq_path r) (default StatusOK (o_status out)) id) out.

(** Stores and memory of the process. *)
Definition same_state (w w' : World R) : Prop :=
  w_db w' = w_db w ∧ w_redis w' = w_redis w ∧ w_proc w' = w_proc w.

Lemma request_id_run r (w : World R) :
  ∃ id w', run env (request_id r) w = (Some id, w') ∧ same_state w w' ∧
    (hq_header r "X-Request-ID" ≠ "" → id = hq_header r "X-Request-ID") ∧
    (hq_header r "X-Request-ID" = "" → id = uuid_String (e_uuid env (w_pos w))).
Proof.
  unfold request_id. destruct (String.eqb_spec (hq_header r "X-Request-ID") "").
  - rewrite run_trigger_bind. eexists _, _. split; [reflexivity|]. by split.
  - eexists _, w. split; [reflexivity|]. by split.
Qed.

Lemma middleware_run (h : bool → HttpRequest → prog Out) hijack r (w : World R) :
  ∃ id w1 w', run env (with_middleware h hijack r) w =
      (Some (set_header "X-Request-ID" id (after_recovery id
         match (run env (h false (limited id r)) w1).1 with
         | Some out => after_logging id r (after_gzip (accepts_gzip r) out)
         | None => if accepts_gzip r then after_logging id r (after_gzip true panicked) else panicked
         end)), w') ∧
    same_state w w1 ∧ same_state (run env (h false (limited id r)) w1).2 w' ∧
    (hq_header r "X-Request-ID" ≠ "" → id = hq_header r "X-Request-ID") ∧
    (hq_header r "X-Request-ID" = "" → id = uuid_String (e_uuid env (w_pos w))).
Proof.
  destruct (request_id_run r w) as (id & w0 & Hid & Hs & Hid1 & Hid2).
  unfold with_middleware, RequestID. rewrite run_bind, Hid, run_bind.
  unfold Recovery. rewrite run_bind, run_outcome. unfold Logging, MaxBodySize, Gzip.
  change (set_body _ (with_request_id id r)) with (limited id r).
  change (hq_header (limited id r)) with (hq_header r). fold (accepts_gzip r).
  rewrite run_trigger_bind. cbn [handle fst snd]. exists id, (tick w0). rewrite run_bind.
  unfold after_logging. destruct (accepts_gzip r); cbn [after_gzip].
  - rewrite run_bind, run_outcome. destruct (run env (h false (limited id r)) (tick w0)) as [[out|] w2];
      cbn [fst snd default run mret prog_ret]; [|eexists; by split].
    destruct out as [hd st bd pn lg]. destruct pn; eexists; (split; [reflexivity|by split]).
  - destruct (run env (h false (limited id r)) (tick w0)) as [[out|] w2];
      cbn [fst snd default]; [|eexists; by split].
    destruct out as [hd st bd pn lg]. destruct pn; eexists; (split; [reflexivity|by split]).
Qed.

(** C28: every request is answered.  For every method, path, header and body, from
    every state and whatever the database, Redis and the clock do, the router
    terminates without a panic and a status is sent.  The response carries the
    request's [X-Request-ID] or, without one, a fresh UUID, and exactly one line is
    logged, with the request, this status and this id. *)
Theorem every_request_answered mc hijack r (w : World R) :
  ∃ out w', run env (NewRouter mc hijack r) w = (Some out, w') ∧
    o_panic out = false ∧
    let id := if String.eqb (hq_header r "X-Request-ID") "" then uuid_String (e_uuid env (w_pos w))
              else hq_header r "X-Request-ID" in
    o_header out !! "X-Request-ID" = Some id ∧
    ∃ status, o_status out = Some status ∧ o_log out = [LogRequest (hq_method r) (hq_path r) status id].
Proof.
  destruct (middleware_run (mux mc) hijack r w) as (id & w1 & w' & Hrun & _ & _ & Hid1 & Hid2).
  destruct (answers_mux mc false (limited id r) w1) as (out & w2 & Hh & Hp & [st Hst] & Hlog).
  rewrite Hh in Hrun. cbn [fst] in Hrun. eexists _, w'. split; [exact Hrun|].
  unfold after_recovery, after_logging.
  assert (Hpg : o_panic (after_gzip (accepts_gzip r) out) = false) by (by destruct (accepts_gzip r)).
  assert (Hsg : o_status (after_gzip (accepts_gzip r) out) = Some st).
  { destruct (accepts_gzip r); [|done]. cbn. by rewrite Hst. }
  assert (Hlg : o_log (after_gzip (accepts_gzip r) out) = []) by (by destruct (accepts_gzip r)).
  assert (Hid : id = if String.eqb (hq_header r "X-Request-ID") "" then uuid_String (e_uuid env (w_pos w))
                     else hq_header r "X-Request-ID")
    by (destruct (String.eqb_spec (hq_header r "X-Request-ID") ""); auto).
  rewrite Hpg. cbn. rewrite Hpg, <- Hid. split_and!; [exact Hpg|apply lookup_insert_eq|].
  exists st. split; [exact Hsg|]. cbn. by rewrite Hlg, Hsg.
Qed.

(** [Recovery].  When the handler panics before it wrote anything and the client
    does not accept gzip, the answer is a 500 with the JSON error, and the panic is
    logged with the id the response carries. *)
Theorem panic_is_500 (h : bool → HttpRequest → prog Out) hijack r (w : World R) :
  (∀ id w1, (run env (h false (limited id r)) w1).1 = None) → accepts_gzip r = false →
  ∃ out w', run env (with_middleware h hijack r) w = (Some out, w') ∧ o_panic out = false ∧
    o_status out = Some StatusInternalServerError ∧ o_body out = [Chunk false (error_body +:+ newline)] ∧
    ∃ id, o_header out !! "X-Request-ID" = Some id ∧ o_log out = [LogPanic id].
Proof.
  intros Hpanic Hgz. destruct (middleware_run h hijack r w) as (id & w1 & w' & Hrun & _).
  rewrite Hpanic, Hgz in Hrun. eexists _, w'. split; [exact Hrun|]. split_and!; [done..|].
  exists id. split; [apply lookup_insert_eq|done].
Qed.

(** To a client that accepts gzip the same panic is a 200.  [Recovery] is outside
    [Gzip], whose deferred [Close] writes the gzip header and trailer while the panic
    unwinds, and so sends status 200 before [Recovery] can send 500; its error text
    follows, not compressed, in a response marked as gzip. *)
Theorem panic_with_gzip_is_200 (h : bool → HttpRequest → prog Out) hijack r (w : World R) :
  (∀ id w1, (run env (h false (limited id r)) w1).1 = None) → accepts_gzip r = true →
  ∃ out w', run env (with_middleware h hijack r) w = (Some out, w') ∧
    o_status out = Some StatusOK ∧ o_header out !! "Content-Encoding" = Some "gzip" ∧
    o_body out = [Chunk true ""; Chunk false (error_body +:+ newline)] ∧
    ∀ m p st id, LogRequest m p st id ∉ o_log out.
Proof.
  intros Hpanic Hgz. destruct (middleware_run h hijack r w) as (id & w1 & w' & Hrun & _).
  rewrite Hpanic, Hgz in Hrun. eexists _, w'. split; [exact Hrun|]. split_and!; [done..|].
  intros m p st id' [=]%list_elem_of_singleton.
Qed.

(** A body whose first JSON value does not end within 5 MiB is refused: POST
    /api/v1/notifications answers 400 and changes nothing. *)
Theorem oversized_body_refused mc hijack r body (w : World R) :
  hq_method r = "POST" → hq_path r = "/api/v1/notifications" → hq_body r = Ok body →
  5 * 2 ^ 20 < Z.of_nat (String.length body) →
  json_Decode (String.substring 0 (Z.to_nat (5 * 2 ^ 20)) body) = None →
  ∃ out w', run env (NewRouter mc hijack r) w = (Some out, w') ∧
    o_status out = Some StatusBadRequest ∧ same_state w w'.
Proof.
  intros Hm Hp Hb Hlen Hdec.
  destruct (middleware_run (mux mc) hijack r w) as (id & w1 & w' & Hrun & Hs1 & Hs2 & _).
  assert (Hlim : limit_body (Z.shiftl 5 20) (hq_body r) = Err (EOther "http: request body too large")).
  { unfold limit_body. rewrite Hb. cbn [mbind result_bind]. change (Z.shiftl 5 20) with (5 * 2 ^ 20).
    rewrite (proj2 (Z.leb_gt _ _) Hlen). by rewrite Hdec. }
  assert (Hmux : run env (mux mc false (limited id r)) w1 =
    (Some (respond (writeError StatusBadRequest "invalid request body")), w1)).
  { unfold mux, limited, set_body, with_request_id. cbn [hq_path hq_method hq_body]. rewrite Hm, Hp.
    change (segments "/api/v1/notifications") with (Some ["api"; "v1"; "notifications"]%string).
    cbn [clean negb]. change (matches "POST" _) with [(RCreate, @nil (string * string))].
    cbn [handle_route]. cbv zeta.
    unfold serve, NotificationHandler_Create, to_request, decode_body. cbn [rq_body hq_body].
    rewrite Hlim. reflexivity. }
  rewrite Hmux in Hrun, Hs2. cbn [fst snd] in Hrun, Hs2. eexists _, w'. split; [exact Hrun|]. split.
  - by destruct (accepts_gzip r).
  - destruct Hs1 as (? & ? & ?), Hs2 as (? & ? & ?). split_and!; congruence.
Qed.

(** A WebSocket client is never connected.  [Logging] hands every handler a
    response writer that hides the connection's [http.Hijacker], so with a library
    that needs one GET /ws/notifications is always refused with an error status and
    no client is ever registered at the hub. *)
Theorem websocket_never_upgrades `{!WebsocketLaws} mc hijack r (w : World R) :
  hq_method r = "GET" → hq_path r = "/ws/notifications" →
  ∃ out w' code, run env (NewRouter mc hijack r) w = (Some out, w') ∧
    o_status out = Some code ∧ 400 ≤ code ∧ p_hub (w_proc w') = p_hub (w_proc w).
Proof.
  intros Hm Hp.
  destruct (middleware_run (mux mc) hijack r w) as (id & w1 & w' & Hrun & Hs1 & Hs2 & _).
  destruct (ws_needs_hijacker (limited id r)) as (code & Hacc & Hcode).
  assert (Hmux : run env (mux mc false (limited id r)) w1 = (Some (http_Error "" code no_output), w1)).
  { unfold mux. change (hq_path (limited id r)) with (hq_path r). change (hq_method (limited id r)) with (hq_method r).
    rewrite Hm, Hp. change (segments "/ws/notifications") with (Some ["ws"; "notifications"]%string).
    cbn [clean negb]. change (matches "GET" _) with [(RUpgrade, @nil (string * string))].
    cbn [handle_route]. cbv zeta. unfold WebSocketHandler_Upgrade. rewrite Hacc. reflexivity. }
  rewrite Hmux in Hrun, Hs2. cbn [fst snd] in Hrun, Hs2.
  destruct Hs1 as (_ & _ & Hp1), Hs2 as (_ & _ & Hp2).
  eexists _, w', code. split; [exact Hrun|]. split_and!; [|done|congruence].
  by destruct (accepts_gzip r).
Qed.
End front.

(** ** The routing table *)

(** Patterns some path matches both of. *)
Fixpoint overlap (p q : list seg) : bool :=
  match p, q with
  | [], [] => true
  | Lit a :: p', Lit b :: q' => String.eqb a b && overlap p' q'
  | _ :: p', _ :: q' => overlap p' q'
  | _, _ => false
  end.

Lemma overlap_spec p : ∀ q segs vs vs',
  match_segs p segs = Some vs → match_segs q segs = Some vs' → overlap p q = true.
Proof.
  induction p as [|[a|n] p IH]; intros [|[b|m] q] [|s segs] vs vs' Hp Hq; cbn in *; try done.
  - destruct (String.eqb_spec a s) as [->|]; [|done]. destruct (String.eqb_spec b s) as [->|]; [|done].
    rewrite String.eqb_refl. by eapply IH.
  - destruct (String.eqb a s); [|done]. destruct (String.eqb s ""); [done|].
    destruct (match_segs q segs) eqn:E; [|done]. by eapply IH.
  - destruct (String.eqb s ""); [done|]. destruct (String.eqb b s); [|done].
    destruct (match_segs p segs) eqn:E; [|done]. by eapply IH.
  - destruct (String.eqb s ""); [done|]. destruct (match_segs p segs) eqn:E; [|done].
    destruct (match_segs q segs) eqn:E'; [|done]. by eapply IH.
Qed.

Definition conflict (r1 r2 : string * list seg * route) : bool :=
  (match_method r1.1.1 r2.1.1 || match_method r2.1.1 r1.1.1) && overlap r1.1.2 r2.1.2.

Lemma matches_at_most_one (l : list (string * list seg * route)) method segs :
  forallb (λ r, String.eqb r.1.1 "GET" || String.eqb r.1.1 "POST" || String.eqb r.1.1 "PUT" || String.eqb r.1.1 "DELETE") l = true →
  ForallOrdPairs (λ r1 r2, conflict r1 r2 = false) l →
  (length (omap (match_route method segs) l) ≤ 1)%nat.
Proof.
  intros Hmeth Hall. induction Hall as [|r l Hr Hl IH]; [cbn; lia|].
  cbn [forallb] in Hmeth. apply andb_true_iff in Hmeth as [Hm1 Hml]. specialize (IH Hml). cbn.
  destruct (match_route method segs r) as [x|] eqn:Ex; [|done]. cbn.
  enough (omap (match_route method segs) l = []) as ->; [cbn; lia|].
  rewrite Forall_forall in Hr. rewrite forallb_forall in Hml. clear IH Hl.
  induction l as [|r2 l IH]; [done|]. cbn.
  destruct (match_route method segs r2) as [y|] eqn:Ey.
  - exfalso. specialize (Hr r2 ltac:(by left)). specialize (Hml r2 ltac:(by left)).
    unfold match_route in Ex, Ey.
    destruct (match_method r.1.1 method) eqn:E1; [|done]. destruct (match_method r2.1.1 method) eqn:E2; [|done].
    destruct (match_segs r.1.2 segs) as [vs|] eqn:S1; [|done].
    destruct (match_segs r2.1.2 segs) as [vs'|] eqn:S2; [|done].
    unfold conflict in Hr. rewrite (overlap_spec _ _ _ _ _ S1 S2), andb_true_r in Hr.
    revert Hr E1 E2 Hm1 Hml. unfold match_method.
    destruct (String.eqb_spec r.1.1 method) as [->|];
      destruct (String.eqb_spec r2.1.1 method) as [->|]; cbn; rewrite ?String.eqb_refl; try done.
    all: destruct (String.eqb_spec method "HEAD") as [->|]; rewrite ?andb_false_r; try done.
    all: rewrite ?andb_true_r; intros; repeat match goal with
      | Hx : String.eqb ?a ?b = true |- _ => apply String.eqb_eq in Hx; rewrite Hx in * end; try done.
  - apply IH.
    + intros r' Hr'. apply Hml. by right.
    + intros r' Hr'. apply Hr. by right.
Qed.

(** Only patterns of the path's length count. *)
Lemma match_segs_length p : ∀ segs vs, match_segs p segs = Some vs → length p = length segs.
Proof.
  induction p as [|[a|n] p IH]; intros [|s segs] vs Hm; cbn in *; try done.
  - destruct (String.eqb a s); [|done]. f_equal. by eapply IH.
  - destruct (String.eqb s ""); [done|]. destruct (match_segs p segs) eqn:E; [|done]. f_equal. by eapply IH.
Qed.

Lemma matches_by_length method segs :
  matches method segs =
    omap (match_route method segs) (filter (λ r, length r.1.2 = length segs) routes).
Proof.
  unfold matches. induction routes as [|r l IH]; [done|]. rewrite filter_cons. case_decide as Hl; cbn.
  - by rewrite IH.
  - rewrite IH. unfold match_route at 1. destruct (match_method _ _); [|done].
    destruct (match_segs r.1.2 segs) as [vs|] eqn:E; [|done]. by apply match_segs_length in E.
Qed.

(** The routing table is unambiguous: at most one pattern matches any method and
    path, so a request is served by the one handler the table names whatever the
    order of registration; and each handler is reached by its path, [{id}] being any
    non-empty segment. *)
Theorem routes_unambiguous method segs :
  (length (matches method segs) ≤ 1)%nat ∧
  ∀ id, id ≠ "" →
    matches "GET" ["api"; "v1"; "notifications"; id]%string = [(RGet, [("id", id)])] ∧
    matches "GET" ["api"; "v1"; "notifications"; "batch"; id]%string = [(RGetBatch, [("batch_id", id)])] ∧
    matches "POST" ["api"; "v1"; "notifications"; id; "cancel"]%string = [(RCancel, [("id", id)])] ∧
    matches "GET" ["api"; "v1"; "templates"; id]%string = [(RTGet, [("id", id)])] ∧
    matches "PUT" ["api"; "v1"; "templates"; id]%string = [(RTUpdate, [("id", id)])] ∧
    matches "DELETE" ["api"; "v1"; "templates"; id]%string = [(RTDelete, [("id", id)])] ∧
    matches "POST" ["api"; "v1"; "notifications"]%string = [(RCreate, [])] ∧
    matches "POST" ["api"; "v1"; "notifications"; "batch"]%string = [(RBatchCreate, [])] ∧
    matches "GET" ["api"; "v1"; "notifications"]%string = [(RList, [])] ∧
    matches "POST" ["api"; "v1"; "templates"]%string = [(RTCreate, [])] ∧
    matches "GET" ["api"; "v1"; "templates"]%string = [(RTList, [])].
Proof.
  split.
  - apply matches_at_most_one; [reflexivity|].
    unfold routes. repeat (constructor; [repeat (constructor; [reflexivity|]); constructor|]). constructor.
  - intros id Hid. apply String.eqb_neq in Hid.
    split_and!; rewrite matches_by_length;
      (match goal with |- context [filter ?P routes] => set (l := filter P routes); vm_compute in l; subst l end);
      unfold match_route; cbn; rewrite ?Hid; reflexivity.
Qed.

(** ** Witnesses *)

#[local] Existing Instances RefTemplate RefPg RefPg_laws RefUUID RefUUID_laws RefLua.

(** A library that upgrades what it can hijack and answers 501 otherwise. *)
Definition RefWebsocket : WebsocketLib := {| ws_Accept hijack _ := if hijack then None else Some 501 |}.
#[local] Existing Instance RefWebsocket.

Lemma RefWebsocket_laws : WebsocketLaws.
Proof. split. intros r. exists 501. by split. Qed.
#[local] Existing Instance RefWebsocket_laws.

Definition demo_http (method path : string) (encoding body : string) : HttpRequest :=
  mkHttpRequest method path (λ k, if String.eqb k "Accept-Encoding" then encoding else ""%string)
    (λ _, ""%string) (Ok body) 0 None.

Lemma websocket_never_upgrades_witness :
  ∃ out w' code, run demo_env (NewRouter NewMetricsCollector true (demo_http "GET" "/ws/notifications" "" ""))
      demo_world = (Some out, w') ∧ o_status out = Some code ∧ 400 ≤ code ∧
      p_hub (w_proc w') = p_hub (w_proc demo_world).
Proof.
  apply (websocket_never_upgrades demo_env); reflexivity.
Defined.

(** A handler that dereferences nil. *)
Definition broken_handler : bool → HttpRequest → prog Out := λ _ _, Panic.

Lemma panic_is_500_witness :
  ∃ out w', run demo_env (with_middleware broken_handler true (demo_http "GET" "/" "" "")) demo_world
      = (Some out, w') ∧ o_panic out = false ∧ o_status out = Some StatusInternalServerError ∧
    o_body out = [Chunk false (error_body +:+ newline)] ∧
    ∃ id, o_header out !! "X-Request-ID" = Some id ∧ o_log out = [LogPanic id].
Proof. apply (panic_is_500 demo_env broken_handler); [by intros id w1|vm_compute; reflexivity]. Defined.

Lemma panic_with_gzip_is_200_witness :
  ∃ out w', run demo_env (with_middleware broken_handler true (demo_http "GET" "/" "gzip, br" "")) demo_world
      = (Some out, w') ∧ o_status out = Some StatusOK ∧ o_header out !! "Content-Encoding" = Some "gzip" ∧
    o_body out = [Chunk true ""; Chunk false (error_body +:+ newline)] ∧
    ∀ m p st id, LogRequest m p st id ∉ o_log out.
Proof. apply (panic_with_gzip_is_200 demo_env broken_handler); [by intros id w1|vm_compute; reflexivity]. Defined.

(** Six megabytes of blanks. *)
Fixpoint blanks (n : nat) : string :=
  match n with O => "" | S n' => String " " (blanks n') end.

Lemma blanks_length n : String.length (blanks n) = n.
Proof. induction n as [|n IH]; [done|]. cbn. by rewrite IH. Qed.

Lemma blanks_head n m : String.substring 0 n (blanks m) = blanks (Nat.min n m).
Proof.
  revert m. induction n as [|n IH]; intros [|m]; try done. cbn. by rewrite IH.
Qed.

Lemma blanks_no_json n : json_Decode (blanks n) = None.
Proof.
  unfold json_Decode. cbn [parse_value].
  assert (Hws : skip_ws (blanks n) = "") by (induction n as [|n IH]; [done|exact IH]).
  by rewrite Hws.
Qed.

Lemma oversized_body_refused_witness :
  let r := demo_http "POST" "/api/v1/notifications" "" (blanks (Z.to_nat (6 * 2 ^ 20))) in
  ∃ out w', run demo_env (NewRouter NewMetricsCollector true r) demo_world = (Some out, w') ∧
    o_status out = Some StatusBadRequest ∧ same_state demo_world w'.
Proof.
  intros r. apply (oversized_body_refused demo_env _ _ r (blanks (Z.to_nat (6 * 2 ^ 20)))).
  - reflexivity.
  - reflexivity.
  - reflexivity.
  - rewrite blanks_length, Z2Nat.id; [reflexivity|discriminate].
  - rewrite blanks_head. apply blanks_no_json.
Defined.

Lemma routes_unambiguous_witness :
  matches "POST" ["api"; "v1"; "notifications"; "7"; "cancel"]%string = [(RCancel, [("id", "7")])]%string.
Proof.
  apply (routes_unambiguous "POST" ["api"; "v1"; "notifications"; "7"; "cancel"]%string).
  discriminate.
Defined.
