(* ===== verification/Refinement.v ===== *)
(** * The program refines the lifecycle specification

    Every program of the system (a request through the router, a scheduler, a
    dispatcher, a task of the pool) keeps the protocol of Lifecycle.v.  So every
    execution of API and worker processes, in any interleaving and under failed
    calls and crashes, is a run of the abstract machine, whose guarantees therefore
    hold of the tables. *)
From S2P Require Import Prelude GoLib GoJson Domain Uuid Retry Redis Postgres RateLimiter CircuitBreaker Hub.
From S2P Require Import Metrics TemplateEngine Effects Contract Reference Queue Provider Repository Lifecycle.
From S2P Require Import Processor Scheduler Dispatcher Handlers Templates Api.
From Stdlib Require Import ZArith Lia.
From stdpp Require Import base numbers list strings gmap fin_maps.

Open Scope Z_scope.

(** ** The workers keep the protocol *)

Section workers.
Context `{TextTemplate} `{UUIDLib}.

Lemma obeys_metrics k ch h : keeps h (metrics_incr k ch).
Proof. unfold metrics_incr. solve_obeys. Qed.

Lemma obeys_ack msgs h : keeps h (ack msgs).
Proof. unfold ack, Ack. solve_obeys. Qed.

Lemma obeys_Enqueue msg h : keeps h (Enqueue msg).
Proof. unfold Enqueue. solve_obeys. Qed.

Lemma obeys_EnqueueDelayed msg d h : keeps h (EnqueueDelayed msg d).
Proof. unfold EnqueueDelayed. solve_obeys. Qed.

Lemma obeys_dead_letter id err a h : keeps h (DeadLetterHandler_Handle id err a).
Proof. unfold DeadLetterHandler_Handle. solve_obeys. Qed.

(** Only what was claimed is given to the provider, once, and success is known to be
    its. *)
Definition sends_once (n : Notification) (h h' : list Lifecycle.fact) (r : result error string) : Prop :=
  (∀ f, f ∈ h → f ∈ h') ∧ (is_ok r = true → accepted_for h' (n_ID n)) ∧ spent (uuid_String (n_ID n)) h h'.

Definition may_send (n : Notification) (h : list Lifecycle.fact) : Prop :=
  Claimed n ∈ h ∧ (calls (uuid_String (n_ID n)) h < claims (uuid_String (n_ID n)) h)%nat.

Lemma sends_refused n h err : sends_once n h h (Err err).
Proof. split_and!; [done|done|apply spent_nothing]. Qed.

(** What the protocol asks of a provider: one call at most, only for what may be sent,
    and no panic. *)
Class ProviderObeys (provider : Provider) : Prop := {
  obeys_Send n h : may_send n h → obeys h (Send provider n) (sends_once n h);
  Send_no_panic n : no_panic (Send provider n);
}.

#[export] Instance webhook_Client_obeys : ProviderObeys webhook_Client.
Proof.
  split; [|intros n; cbn [Send webhook_Client]; unfold Client_Send; solve_no_panic].
  intros n h [Hc Hb]. cbn [Send webhook_Client]. unfold Client_Send. obeys_step. obeys_step.
  set (pl := webhook_payload x n).
  assert (Hmore : ∀ new, new = [Called pl] ∨ new = [Called pl; Accepted pl] → ∀ r : result error string,
    (is_ok r = true → Accepted pl ∈ new) → sends_once n h (h ++ new) r).
  { intros new Hnew r Hr. split_and!; [intros f Hf; apply elem_of_app; by left| |by apply (spent_call pl)].
    intros Hok. exists n, x. split_and!; [apply elem_of_app; by left|done|apply elem_of_app; right; auto]. }
  apply obeys_bind, obeys_trigger; [split; [by exists n, x|done]|]. intros [code|err]; cbn [observed].
  - destruct (400 <=? code); solve_obeys; apply Hmore; auto; [done|].
    intros _. right. left.
  - solve_obeys. apply Hmore; auto. done.
Qed.

Lemma obeys_doSend provider n h :
  ProviderObeys provider → may_send n h → obeys h (doSend provider n) (sends_once n h).
Proof.
  intros Hp Hc. unfold doSend. apply obeys_bind. eapply obeys_mono; [by apply obeys_Send|].
  intros h1 [pid|err] Hs; solve_obeys.
Qed.

#[export] Instance breaker_Provider_obeys provider t :
  ProviderObeys provider → ProviderObeys (breaker_Provider provider t).
Proof.
  intros Hp. split.
  2:{ intros n. cbn [Send breaker_Provider]. unfold CircuitBreaker_Send, doSend.
      pose proof (Send_no_panic n) as Hn. solve_no_panic. }
  intros n h Hc. cbn [Send breaker_Provider]. unfold CircuitBreaker_Send. obeys_step. obeys_step.
  destruct x as [[] lf]; simpl fst; cbv iota; try (by apply obeys_doSend).
  obeys_step. obeys_step. destruct (_ <=? _); [apply sends_refused|].
  obeys_step. obeys_step. by apply obeys_doSend.
Qed.

(** A failure is counted on the claimed row. *)
Lemma obeys_handleFailure p n msg err h :
  Claimed n ∈ h → keeps h (handleFailure p n msg err).
Proof.
  intros Hc. unfold handleFailure. cbn [n_ID n_MaxAttempts n_Channel set_Attempts].
  apply (keeps_bind _ _ _ _ (obeys_metrics _ _ _)). intros _.
  assert (Ha : attempt_of h (n_ID n) n (wrap64 (n_Attempts n + 1))) by done.
  destruct (n_MaxAttempts n <=? _) eqn:Hm; zbool; apply obeys_bind, obeys_plain; try done.
  - exists n. split; [done|]. by right.
  - intros _. apply (keeps_bind _ _ _ _ (obeys_dead_letter _ _ _ _)). intros _.
    apply (keeps_bind _ _ _ _ (obeys_ack _ _)). intros _. solve_obeys.
  - exists n. split; [done|]. by left.
  - intros [?|?]; [|done]. apply obeys_bind, obeys_plain; try done. intros rnd.
    apply (keeps_bind _ _ _ _ (obeys_EnqueueDelayed _ _ _)). intros [?|?]; [|done].
    apply (keeps_bind _ _ _ _ (obeys_ack _ _)). intros _. solve_obeys.
Qed.

(** The claims left for the notifications [ns]. *)
Definition covered (ns : list Notification) (h : list Lifecycle.fact) : Prop :=
  ∀ s, (calls s h + claims s (Claimed <$> ns) ≤ claims s h)%nat.

Lemma covered_head n ns h : covered (n :: ns) h → Claimed n ∈ h → may_send n h.
Proof.
  intros Hc Hn. split; [done|]. specialize (Hc (uuid_String (n_ID n))). unfold claims in *. cbn in Hc.
  rewrite String.eqb_refl in Hc. lia.
Qed.

Lemma covered_tail n ns h h' : covered (n :: ns) h → spent (uuid_String (n_ID n)) h h' → covered ns h'.
Proof.
  intros Hc Hs s. specialize (Hc s). destruct (Hs s) as [Hcl Hca]. unfold claims in *. cbn in Hc. lia.
Qed.

Lemma covered_claims ns h : balanced h → covered ns (h ++ (Claimed <$> ns)).
Proof.
  intros Hb s. specialize (Hb s). unfold claims, calls in *. rewrite !tally_app.
  assert (Hno : tally (is_call s) (Claimed <$> ns) = 0%nat) by (clear; by induction ns). lia.
Qed.

Lemma obeys_send_each p `{!ProviderObeys (p_provider p)} mm ns : ∀ h,
  (∀ n, n ∈ ns → Claimed n ∈ h) → covered ns h →
  obeys h (send_each p mm ns)
    (λ h' sent, (∀ f, f ∈ h → f ∈ h') ∧ ∀ e, e ∈ sent → accepted_for h' (n_ID e.1)).
Proof.
  induction ns as [|n ns IH]; intros h Hc Hcov; cbn [send_each].
  { split; [done|]. by intros e []%elem_of_nil. }
  apply obeys_bind. eapply obeys_mono; [apply obeys_Send, (covered_head n ns); [done|apply Hc; by left]|].
  intros h1 r (Hsub & Hacc & Hsp). pose proof (covered_tail _ _ _ _ Hcov Hsp) as Hcov1.
  destruct r as [pid|err].
  - apply (keeps_bind _ _ _ _ (obeys_metrics _ _ _)). intros _. apply obeys_bind.
    eapply obeys_mono; [apply IH; [intros m Hm; apply Hsub, Hc; by right|done]|].
    intros h2 rest [Hsub2 Hrest]. split; [auto|]. intros e [->|He]%elem_of_cons; [|auto].
    apply (accepted_for_mono h1); auto.
  - apply (keeps_bind _ _ _ _ (obeys_handleFailure _ _ _ _ _ (Hsub _ (Hc n (list_elem_of_here _ _))))).
    intros _. eapply obeys_mono; [apply IH; [intros m Hm; apply Hsub, Hc; by right|done]|].
    intros h2 sent [Hsub2 Hs]. auto.
Qed.

Lemma obeys_ProcessBatch p `{!ProviderObeys (p_provider p)} msgs h : balanced h → obeys h (ProcessBatch p msgs) (λ _ _, True).
Proof.
  intros Hb. unfold ProcessBatch, NotificationRepo_GetAndMarkProcessingBatch.
  destruct msgs as [|m msgs]; [done|]. set (l := m :: msgs). apply obeys_bind, obeys_bind, obeys_trigger; [exact I|].
  intros [ns|err]; apply obeys_ret; [|done]. cbn [wrap_err observed observed_sql]. destruct ns as [|n ns]; [done|].
  set (claimed := n :: ns). apply obeys_bind.
  eapply obeys_mono; [apply (obeys_send_each p); [|by apply covered_claims]|].
  { intros n' Hn'. apply elem_of_app. right. by apply list_elem_of_fmap_2. }
  intros h1 sent [_ Hs]. apply obeys_bind. destruct sent as [|e sent].
  - apply (keeps_bind _ _ _ _ (obeys_ack _ _)). by intros.
  - set (all := e :: sent) in *. unfold NotificationRepo_UpdateBatchSent.
    destruct (_ <? _)%nat; [done|]. apply obeys_bind, obeys_bind, obeys_plain; [|done|].
    + clearbody all. intros [k s] Hks. apply elem_of_zip_l in Hks. apply list_elem_of_fmap in Hks as (e' & -> & He').
      by apply Hs.
    + intros r. apply (keeps_bind _ _ _ _ (obeys_ack _ _)). intros _. solve_obeys.
Qed.

Lemma obeys_Process p `{!ProviderObeys (p_provider p)} msg h : balanced h → obeys h (Process p msg) (λ _ _, True).
Proof.
  intros Hb. unfold Process, NotificationRepo_GetAndMarkProcessing.
  apply obeys_bind, obeys_bind, obeys_trigger; [exact I|].
  intros [[n|]|err]; apply obeys_ret; cbn [row_or_not_found observed observed_sql].
  - assert (Hin : Claimed n ∈ h ++ [Claimed n]) by (apply elem_of_app; right; by apply list_elem_of_singleton).
    apply obeys_bind. eapply obeys_mono; [apply obeys_Send, (covered_head n []); [by apply (covered_claims [n])|done]|].
    intros h1 r (Hsub & Hacc & _). destruct r as [pid|err].
    + apply obeys_bind, obeys_plain; [by apply Hacc|done|]. intros [?|?]; [|done].
      apply (keeps_bind _ _ _ _ (obeys_ack _ _)). intros _.
      apply (keeps_bind _ _ _ _ (obeys_metrics _ _ _)). intros _. solve_obeys.
    + apply keeps_obeys; [apply obeys_handleFailure; auto|done].
  - apply keeps_obeys; [apply obeys_ack|done].
  - destruct (Is_NotFound _); [|done]. apply keeps_obeys; [apply obeys_ack|done].
Qed.
End workers.

(** ** Dispatchers and schedulers keep the protocol *)

Section loops.
Context `{TextTemplate} `{UUIDLib}.

Lemma obeys_for_metrics {A} (l : list A) k ch h : keeps h (for_each l (λ _, metrics_incr k ch)).
Proof. apply obeys_for_each; [|done]. intros x _. apply obeys_metrics. Qed.

Lemma obeys_AllowN rl ch n h : keeps h (AllowN rl ch n).
Proof. unfold AllowN, keeps. solve_obeys. Qed.

Lemma obeys_DequeueBatch c ch n h : keeps h (DequeueBatch c ch n).
Proof. unfold DequeueBatch, keeps. solve_obeys. Qed.

Lemma obeys_dispatch d ch h : keeps h (dispatch d ch).
Proof.
  unfold dispatch. apply (keeps_bind _ _ _ _ (obeys_AllowN _ _ _ _)). intros [n|]; [|done].
  destruct (n =? 0); [done|]. apply (keeps_bind _ _ _ _ (obeys_DequeueBatch _ _ _ _)).
  intros [[|m ms]|]; [done| |done]. apply (keeps_bind _ _ _ _ (obeys_for_metrics _ _ _ _)). done.
Qed.

Lemma obeys_eager_poll fuel d ch : ∀ h, keeps h (eager_poll fuel d ch).
Proof.
  induction fuel as [|fuel IH]; intros h; cbn [eager_poll]; [done|].
  apply (keeps_bind _ _ _ _ (obeys_dispatch _ _ _)). intros msgs. cbv zeta.
  destruct (_ <? _); [done|]. obeys_step. obeys_step. destruct x; [done|].
  apply (keeps_bind _ _ _ _ (IH h)). done.
Qed.

Lemma obeys_dispatch_ticks ticks fuel d ch : ∀ h, keeps h (dispatch_ticks ticks fuel d ch).
Proof.
  induction ticks as [|ticks IH]; intros h; cbn [dispatch_ticks]; [done|].
  unfold keeps. obeys_step. obeys_step. destruct x; [done|].
  apply (keeps_bind _ _ _ _ (obeys_eager_poll _ _ _ _)). intros [[sub []]|]; [|done|done].
  apply (keeps_bind _ _ _ _ (IH h)). done.
Qed.

Lemma obeys_dispatchLoop ticks fuel d ch h : keeps h (dispatchLoop ticks fuel d ch).
Proof.
  unfold dispatchLoop, NewTicker. destruct (_ <=? 0); [done|]. apply obeys_dispatch_ticks.
Qed.

Lemma obeys_dispatch_and_process d `{!ProviderObeys (p_provider (di_processor d))} ch h :
  balanced h → obeys h (dispatch_and_process d ch) (λ _ _, True).
Proof. intros Hb. apply (keeps_bind _ _ _ _ (obeys_dispatch _ _ _)). intros msgs. by apply obeys_ProcessBatch. Qed.

Lemma obeys_requeue key raw h : keeps h (requeue_member key raw).
Proof.
  unfold requeue_member. destruct (Unmarshal raw); [|done].
  apply (keeps_bind _ _ _ _ (obeys_Enqueue _ _)). intros r. solve_obeys.
Qed.

Lemma obeys_schedule_one n h : keeps h (schedule_one n).
Proof.
  unfold schedule_one. apply (keeps_bind _ _ _ _ (obeys_Enqueue _ _)). intros r.
  unfold NotificationRepo_UpdateStatus. solve_obeys.
Qed.

Lemma obeys_requeue_all key ms h : keeps h (for_each ms (requeue_member key)).
Proof. apply obeys_for_each; [|done]. intros m _. apply obeys_requeue. Qed.

Lemma obeys_poll_loop fuel : ∀ h, keeps h (poll_loop fuel).
Proof.
  induction fuel as [|fuel IH]; intros h; cbn [poll_loop]; [done|].
  unfold NotificationRepo_GetPendingScheduled, keeps. obeys_step. obeys_step. obeys_step. obeys_step.
  destruct x as [[|n ns]|]; cbn [wrap_err]; [done| |done].
  apply obeys_bind, obeys_for_each; [intros m _; apply obeys_schedule_one|apply IH].
Qed.

Lemma obeys_promote h : keeps h promoteDelayedRetries.
Proof.
  unfold promoteDelayedRetries, keeps. obeys_step. obeys_step. obeys_step. obeys_step.
  destruct x0; [apply obeys_requeue_all|done].
Qed.

Lemma obeys_reclaim_channel now ch h : keeps h (reclaim_channel now ch).
Proof.
  unfold reclaim_channel, keeps. obeys_step. obeys_step. destruct x; [apply obeys_requeue_all|done].
Qed.

Lemma obeys_poll fuel h : keeps h (poll fuel).
Proof.
  unfold poll, reclaimExpiredProcessing, keeps. obeys_step. obeys_step.
  destruct x as [[]|]; [|done|done]. apply (keeps_bind _ _ _ _ (obeys_poll_loop _ _)).
  intros [[]|]; [|done]. apply (keeps_bind _ _ _ _ (obeys_promote _)). intros _.
  obeys_step. obeys_step. obeys_step. apply obeys_for_each; [|done]. intros ch _. apply obeys_reclaim_channel.
Qed.

Lemma obeys_Scheduler_Start ticks fuel : ∀ h, keeps h (Scheduler_Start ticks fuel).
Proof.
  induction ticks as [|ticks IH]; intros h; cbn [Scheduler_Start]; [done|].
  unfold keeps. obeys_step. obeys_step. destruct x; [done|].
  apply (keeps_bind _ _ _ _ (obeys_poll _ _)). intros [[]|]; [apply IH|done].
Qed.
End loops.

(** ** The API keeps the protocol *)

Section api.
Context `{TextTemplate} `{UUIDLib} `{WebsocketLaws}.

Lemma obeys_content req h : keeps h (request_content req).
Proof. unfold request_content, TemplateRepo_GetByID, Render, getOrParse. solve_obeys. Qed.

Lemma obeys_build req h (Q : list Lifecycle.fact → result error Notification → Prop) :
  (∀ n, fresh_note n → Q h (Ok n)) → (∀ err, Q h (Err err)) → obeys h (buildNotification req) Q.
Proof.
  intros Hok Herr. unfold buildNotification.
  destruct (String.eqb _ _); [apply Herr|]. destruct (negb _); [apply Herr|]. cbv zeta.
  destruct (negb _); [apply Herr|]. apply (keeps_bind _ _ _ _ (obeys_content _ _)).
  intros [content|err]; [|apply Herr]. destruct (String.eqb _ _); [apply Herr|].
  obeys_step. obeys_step. obeys_step. obeys_step. apply Hok.
  split; [|done]. cbn. destruct (cr_ScheduledAt req); [by right|by left].
Qed.

Lemma obeys_builds batch reqs : ∀ h (Q : list Lifecycle.fact → result error (list Notification) → Prop),
  (∀ ns, Forall fresh_note ns → Q h (Ok ns)) → (∀ err, Q h (Err err)) →
  obeys h (buildNotifications batch reqs) Q.
Proof.
  induction reqs as [|req reqs IH]; intros h Q Hok Herr; cbn [buildNotifications]; [by apply Hok|].
  apply obeys_bind. apply (obeys_build req); [|apply Herr]. intros n Hn. cbv beta iota.
  apply obeys_bind. apply (IH h); [|apply Herr]. intros ns Hns. apply Hok, Forall_cons. by split.
Qed.

Lemma obeys_pipe msgs : ∀ h, keeps h (pipe_messages msgs).
Proof.
  induction msgs as [|m msgs IH]; intros h; cbn [pipe_messages]; [done|].
  destruct (Marshal m); [|done]. unfold keeps. obeys_step. obeys_step.
  apply (keeps_bind _ _ _ _ (IH h)). done.
Qed.

Lemma obeys_EnqueueBatch msgs h : keeps h (EnqueueBatch msgs).
Proof.
  unfold EnqueueBatch. destruct msgs as [|m msgs]; [done|].
  apply (keeps_bind _ _ _ _ (obeys_pipe _ _)). intros [cmds|]; solve_obeys.
Qed.

Lemma obeys_enqueue n h : keeps h (enqueue n).
Proof.
  unfold enqueue. destruct (String.eqb _ _); [done|].
  apply (keeps_bind _ _ _ _ (obeys_Enqueue _ _)). intros [?|]; [|done].
  unfold NotificationRepo_UpdateStatus. solve_obeys.
Qed.

Lemma obeys_batchEnqueue ns h : keeps h (batchEnqueue ns).
Proof.
  unfold batchEnqueue. destruct (unscheduled ns) as [|n todo]; [done|].
  apply (keeps_bind _ _ _ _ (obeys_EnqueueBatch _ _)). intros [?|]; [|done].
  unfold NotificationRepo_UpdateBatchStatus. solve_obeys.
Qed.

Lemma obeys_Create r h : keeps h (NotificationHandler_Create r).
Proof.
  unfold NotificationHandler_Create. destruct (decode_body _ _ _) as [req|]; [|done].
  apply obeys_bind. apply (obeys_build req); [|done]. intros n Hn. cbv beta iota. unfold NotificationRepo_Create.
  obeys_step. obeys_step. apply obeys_plain; [done|done|]. intros c. obeys_step.
  destruct (match c with Ok _ => _ | Err _ => _ end) as [?|err]; [|by destruct (Is_DuplicateKey err)].
  apply (keeps_bind _ _ _ _ (obeys_enqueue _ _)). done.
Qed.

Lemma obeys_BatchCreate r h : keeps h (NotificationHandler_BatchCreate r).
Proof.
  unfold NotificationHandler_BatchCreate. destruct (decode_body _ _ _) as [reqs|]; [|done].
  destruct (1000 <? _); [done|]. destruct (_ =? 0); [done|]. unfold keeps. obeys_step. obeys_step.
  apply obeys_bind. apply obeys_builds; [|done]. intros ns Hns. cbv beta iota. unfold NotificationRepo_CreateBatch.
  obeys_step. obeys_step. apply obeys_plain; [done|done|]. intros c. obeys_step.
  destruct (match c with Ok _ => _ | Err _ => _ end) as [?|err]; [|by destruct (Is_DuplicateKey err)].
  apply (keeps_bind _ _ _ _ (obeys_batchEnqueue _ _)). done.
Qed.

Lemma obeys_List f h : keeps h (NotificationRepo_List f).
Proof.
  unfold NotificationRepo_List. destruct (list_conditions f) as [[conds args] idx].
  destruct (base_conditions f) as [[cc ca] ci]. solve_obeys.
Qed.

Lemma obeys_notifications r h :
  keeps h (NotificationHandler_Get r) ∧ keeps h (NotificationHandler_GetBatch r) ∧
  keeps h (NotificationHandler_Cancel r) ∧ keeps h (NotificationHandler_List r).
Proof.
  split_and!.
  - unfold NotificationHandler_Get, NotificationRepo_GetByID. solve_obeys.
  - unfold NotificationHandler_GetBatch, NotificationRepo_GetByBatchID. solve_obeys.
  - unfold NotificationHandler_Cancel, NotificationRepo_GetByID, NotificationRepo_UpdateStatus. solve_obeys.
  - unfold NotificationHandler_List. apply (keeps_bind _ _ _ _ (obeys_List _ _)). done.
Qed.

Lemma obeys_templates r h :
  keeps h (TemplateHandler_Create r) ∧ keeps h (TemplateHandler_Get r) ∧
  keeps h (TemplateHandler_Update r) ∧ keeps h (TemplateHandler_Delete r) ∧ keeps h (TemplateHandler_List r).
Proof.
  split_and!.
  - unfold TemplateHandler_Create, TemplateRepo_Create. solve_obeys.
  - unfold TemplateHandler_Get, TemplateRepo_GetByID. solve_obeys.
  - unfold TemplateHandler_Update, TemplateRepo_GetByID, TemplateRepo_Update. solve_obeys.
  - unfold TemplateHandler_Delete, TemplateRepo_Delete. solve_obeys.
  - unfold TemplateHandler_List, TemplateRepo_List. solve_obeys.
Qed.

Lemma obeys_serve p h : keeps h p → keeps h (serve p).
Proof. intros Hp. apply (keeps_bind _ _ _ _ Hp). done. Qed.

(** The handlers run behind [Logging], which hides the hijacker. *)
Lemma obeys_route mc r rt vs h : keeps h (handle_route mc false r rt vs).
Proof.
  destruct (obeys_notifications (to_request r vs) h) as (? & ? & ? & ?).
  destruct (obeys_templates (to_request r vs) h) as (? & ? & ? & ? & ?).
  destruct rt; cbn [handle_route]; try (by apply obeys_serve).
  - apply obeys_serve. unfold HealthHandler_Ready. solve_obeys.
  - apply obeys_serve. unfold MetricsHandler_Metrics. solve_obeys.
  - unfold WebSocketHandler_Upgrade. destruct (ws_needs_hijacker r) as (code & -> & _). done.
  - apply obeys_serve, obeys_Create.
  - apply obeys_serve, obeys_BatchCreate.
Qed.

Lemma obeys_mux mc r h : keeps h (mux mc false r).
Proof.
  unfold mux. destruct (segments (hq_path r)) as [segs|]; [|done]. destruct (negb _); [done|].
  destruct (matches _ _) as [|[rt vs] l]; [by destruct (path_known segs)|apply obeys_route].
Qed.

(** *** Middleware *)

Lemma obeys_catch {A} (p : prog A) (Q : list Lifecycle.fact → option A → Prop) : ∀ h,
  obeys h p (λ h' a, Q h' (Some a)) → (∀ h', Q h' None) → obeys h (catch p) Q.
Proof.
  induction p as [a|X e k IH|]; intros h; simpl; [done| |by intros _ HQ].
  intros [He Hk] HQ. split; [done|]. intros x. by apply IH.
Qed.

Abbreviation allowed p := (∀ h, obeys h p (λ _ _, True)) (only parsing).

Lemma obeys_outcome (p : prog Out) : allowed p → allowed (outcome p).
Proof. intros Hp h. unfold outcome. apply obeys_bind, obeys_catch; [apply Hp|done]. Qed.

Lemma obeys_NewRouter mc hijack r : allowed (NewRouter mc hijack r).
Proof.
  assert (Hmux : ∀ rq, allowed (mux mc false rq)).
  { intros rq h. apply keeps_obeys; [apply obeys_mux|done]. }
  assert (Hgz : ∀ rq, allowed (Gzip (mux mc) false rq)).
  { intros rq h. unfold Gzip. destruct (contains _ _); [|apply Hmux].
    apply obeys_bind. eapply obeys_mono; [by apply obeys_outcome|done]. }
  intros h. unfold NewRouter, with_middleware, RequestID. apply obeys_bind. unfold request_id.
  assert (Hrest : ∀ h' id, obeys h' (out ← Recovery (Logging (MaxBodySize (Z.shiftl 5 20) (Gzip (mux mc)))) hijack (with_request_id id r);
    mret (set_header "X-Request-ID" id out)) (λ _ _, True)).
  { intros h' id. apply obeys_bind. unfold Recovery. apply obeys_bind. eapply obeys_mono.
    - apply obeys_outcome. intros h1. unfold Logging. obeys_step. obeys_step. apply obeys_bind.
      eapply obeys_mono; [apply Hgz|]. intros h2 out _. solve_obeys.
    - intros h1 out _. by destruct (o_panic out). }
  destruct (String.eqb _ _); [obeys_step; obeys_step|]; apply obeys_ret, Hrest.
Qed.
End api.

(** ** The system *)

Section system.
Context {R : Type} `{RedisServer R} `{LuaNumber} `{PgLaws} `{TextTemplate} `{UUIDLib} `{WebsocketLaws}.
Variable env : Env.

(** The goroutines of the API and worker processes: a request, a dispatcher's loop, a
    task of its pool (whose channel hands it the messages), a scheduler.  The workers'
    provider is any that keeps the protocol. *)
Inductive app_program : prog unit → Prop :=
| app_request mc hijack r : app_program (_ ← NewRouter mc hijack r; mret tt)
| app_dispatcher ticks fuel d ch : app_program (_ ← dispatchLoop ticks fuel d ch; mret tt)
| app_task p msgs : ProviderObeys (p_provider p) → app_program (ProcessBatch p msgs)
| app_single p msg : ProviderObeys (p_provider p) → app_program (Process p msg)
| app_dispatch d ch : ProviderObeys (p_provider (di_processor d)) → app_program (dispatch_and_process d ch)
| app_scheduler ticks fuel : app_program (Scheduler_Start ticks fuel).

Lemma app_program_obeys q : app_program q → obeys [] q (λ _ _, True).
Proof.
  pose proof balanced_nil as Hb. destruct 1.
  - apply obeys_bind. eapply obeys_mono; [apply obeys_NewRouter|done].
  - apply (keeps_bind _ _ _ _ (obeys_dispatchLoop _ _ _ _ _)). done.
  - by apply obeys_ProcessBatch.
  - by apply obeys_Process.
  - by apply obeys_dispatch_and_process.
  - apply keeps_obeys; [apply obeys_Scheduler_Start|done].
Qed.

(** What the next effect of goroutine [i] establishes. *)
Definition next_facts (i : nat) (c : Config R) : list Lifecycle.fact :=
  match c_threads c !! i with
  | Some (pid, Vis e _) =>
      match c_procs c !! pid with
      | Some pr => observed e (handle env e (mkWorld (c_db c) (c_redis c) (c_pos c) pr)).1
      | None => []
      end
  | _ => []
  end.

(** The steps of [sys_step] where the goroutines that start in process [pid] come from
    [P pid], and the record of what they established. *)
Inductive step_at (P : nat → prog unit → Prop) :
    Config R * list Lifecycle.fact → Config R * list Lifecycle.fact → Prop :=
| app_thread i c c' facts :
    sched_step env i c = Some c' → step_at P (c, facts) (c', facts ++ next_facts i c)
| app_spawn pid q c facts : P pid q →
    step_at P (c, facts) (mkConfig (c_db c) (c_redis c) (c_pos c) (c_procs c) (c_threads c ++ [(pid, q)]), facts)
| app_crash pid c facts :
    step_at P (c, facts) (mkConfig (c_db c) (c_redis c) (c_pos c) (c_procs c)
                           (filter (λ t, t.1 ≠ pid) (c_threads c)), facts)
| app_boot pr c facts : booted pr →
    step_at P (c, facts) (mkConfig (c_db c) (c_redis c) (c_pos c) (c_procs c ++ [pr]) (c_threads c), facts).

(** Any process may start them. *)
Definition step_of (P : prog unit → Prop) := step_at (λ _, P).

Lemma step_at_mono P Q s s' : (∀ pid q, P pid q → Q pid q) → step_at P s s' → step_at Q s s'.
Proof.
  intros HPQ [i c c' facts Hs|pid q c facts Hq|pid c facts|pr c facts Hpr];
    [by constructor|constructor; by apply HPQ|constructor|by constructor].
Qed.

Arguments app_thread {P} i c c' facts _.
Arguments app_spawn {P} pid q c facts _.
Arguments app_crash {P} pid c facts.
Arguments app_boot {P} pr c facts _.

(** Goroutines that meet a contract keep the invariants under which it is upheld. *)
Lemma obliged_star (ct : Contract) (I : Invariant) `{!Upholds env ct I} P s s' :
  (∀ q, P q → meets ct q (λ _, True)) → (∀ pr, booted pr → on_process I pr) → obliged ct I s.1 → star (step_of P) s s' → obliged ct I s'.1.
Proof.
  intros HP Hboot Hi Hstar. refine (star_invariant _ (λ s, obliged ct I s.1) _ _ _ Hi Hstar).
  clear s s' Hi Hstar. intros s s' Hob Hstep.
  destruct Hstep as [i c c' facts Hs|pid q c facts Hq|pid c facts|pr c facts Hpr0]; cbn [fst] in *.
  - by eapply (meets_sched_step env ct I).
  - destruct Hob as [Hst Hpr Hth]. split; cbn; [done|done|]. apply Forall_app. split; [done|].
    apply Forall_singleton. by apply HP.
  - destruct Hob as [Hst Hpr Hth]. split; cbn; [done|done|]. rewrite Forall_forall in Hth |- *.
    intros t [_ Ht]%list_elem_of_filter. by apply Hth.
  - destruct Hob as [Hst Hpr Hth]. split; cbn; [done| |done]. apply Forall_app. split; [done|].
    apply Forall_singleton. by apply Hboot.
Qed.

(** The system with the program's own goroutines. *)
Definition app_step := step_of app_program.

(** A goroutine keeps the protocol given what it learnt so far, [h]. *)
Definition disciplined (t : nat * prog unit) (h : list Lifecycle.fact) : Prop :=
  obeys h t.2 (λ _ _, True) ∧ balanced h.

(** The recorded facts are those of the goroutines and of the dead ones. *)
Record app_inv (s : Config R * list Lifecycle.fact) : Prop := {
  ai_db : db_wf (c_db s.1);
  ai_threads : ∃ hs dead, Forall2 disciplined (c_threads s.1) hs ∧ balanced dead ∧
    s.2 ≡ₚ concat hs ++ dead;
}.

Lemma ai_balanced s : app_inv s → balanced s.2.
Proof.
  intros [_ (hs & dead & Hth & Hdead & Hp)]. rewrite Hp.
  apply balanced_app; [|done]. apply balanced_concat. clear -Hth. by induction Hth as [|t h ts hs [_ Hb] _ IH]; constructor.
Qed.

Definition abstraction (s : Config R * list Lifecycle.fact) : Spec := (rows_of (c_db s.1), s.2).

Lemma concat_insert (hs : list (list Lifecycle.fact)) i h new :
  hs !! i = Some h → concat (<[i := h ++ new]> hs) ≡ₚ concat hs ++ new.
Proof.
  revert i. induction hs as [|h' hs IH]; intros [|i] Hi; cbn in *; [done|done| |].
  - injection Hi as ->. rewrite <- !app_assoc. f_equiv. apply Permutation_app_comm.
  - rewrite (IH i Hi). by rewrite app_assoc.
Qed.

(** A permitted effect keeps the balance. *)
Lemma permitted_balanced {X} (e : eff X) h x : permitted h e → balanced h → balanced (h ++ observed e x).
Proof.
  intros Hp Hb s. specialize (Hb s). unfold calls, claims in *. rewrite !tally_app.
  assert (Hnone : ∀ ns : list Notification, tally (is_call s) (Claimed <$> ns) = 0%nat) by (clear; by induction ns).
  destruct e as [? q| | | | |pl| | | | | |]; cbn [observed]; try (cbn; lia).
  - destruct q; cbn [observed_sql]; try (cbn; lia).
    + destruct x as [[n|]|]; cbn; lia.
    + destruct x as [ns|]; [rewrite Hnone|]; cbn; lia.
  - destruct Hp as [_ Hlt]. unfold calls, claims in Hlt.
    destruct x as [code|]; [destruct (400 <=? code)|]; cbn; destruct (String.eqb_spec (wp_NotificationID pl) s); subst; lia.
Qed.

(** The step of one goroutine. *)
Lemma thread_simulates i c c' facts :
  app_inv (c, facts) → sched_step env i c = Some c' →
  spec_step (abstraction (c, facts)) (abstraction (c', facts ++ next_facts i c)) ∧
  app_inv (c', facts ++ next_facts i c).
Proof.
  intros [Hwf (hs & dead & Hth & Hdead & Hp)] Hs. unfold next_facts. cbn in Hwf, Hth, Hp.
  pose proof Hs as Hs0. unfold sched_step in Hs.
  destruct (c_threads c !! i) as [[pid q]|] eqn:Et; cbn in Hs; [|done].
  destruct (c_procs c !! pid) as [pr|] eqn:Ep; cbn in Hs; [|done].
  destruct q as [|X e k|]; try done. set (w := mkWorld (c_db c) (c_redis c) (c_pos c) pr) in *.
  destruct (Forall2_lookup_l _ _ _ _ _ Hth Et) as (h & Hh & [He Hk] & Hb). cbn [snd] in He, Hk.
  assert (Hsub : ∀ f, f ∈ h → f ∈ facts).
  { intros f Hf. rewrite Hp. apply elem_of_app. left. apply list_elem_of_In, in_concat.
    exists h. split; apply list_elem_of_In; [by eapply list_elem_of_lookup_2|done]. }
  pose proof (handle_steps env e w facts Hwf (permitted_warranted h facts e Hsub He)) as Hstep.
  pose proof (sched_step_db_wf env i c c' Hs0 Hwf) as Hwf'.
  destruct (handle env e w) as [x w']. injection Hs as <-. split; [exact Hstep|].
  split; [exact Hwf'|]. exists (<[i := h ++ observed e x]> hs), dead. cbn. split_and!; [|done|].
  - apply Forall2_insert; [done|]. split; [apply Hk|by apply permitted_balanced].
  - rewrite (concat_insert hs i h _ Hh), Hp, <- !app_assoc. f_equiv. apply Permutation_app_comm.
Qed.

Lemma disciplined_program pid q : app_program q → disciplined (pid, q) [].
Proof. intros Hq. split; [by apply app_program_obeys|apply balanced_nil]. Qed.

(** When goroutines die their histories are kept. *)
Lemma filter_histories (P : nat * prog unit → Prop) `{∀ t, Decision (P t)} ts hs :
  Forall2 disciplined ts hs →
  ∃ hs' dead, Forall2 disciplined (filter P ts) hs' ∧ balanced dead ∧ concat hs ≡ₚ concat hs' ++ dead.
Proof.
  induction 1 as [|t h ts hs Hd _ (hs' & dead & Hth & Hb & Hp)].
  { exists [], []. split_and!; [done|apply balanced_nil|done]. }
  rewrite filter_cons. destruct (decide (P t)).
  - exists (h :: hs'), dead. split_and!; [by constructor|done|]. cbn. by rewrite Hp, app_assoc.
  - exists hs', (h ++ dead). split_and!; [done|by apply balanced_app; [apply Hd|]|].
    cbn. rewrite Hp, !app_assoc. f_equiv. apply Permutation_app_comm.
Qed.

Lemma app_step_simulates s s' :
  app_inv s → app_step s s' → spec_step (abstraction s) (abstraction s') ∧ app_inv s'.
Proof.
  intros Hinv Hstep. destruct Hstep as [i c c' facts Hs|pid q c facts Hq|pid c facts|pr c facts _].
  - by apply thread_simulates.
  - destruct Hinv as [Hwf (hs & dead & Hth & Hdead & Hp)]. split.
    + rewrite <- (app_nil_r facts) at 2. apply stutter.
    + split; [done|]. exists (hs ++ [[]]), dead. cbn. split_and!; [|done|].
      * apply Forall2_app; [done|]. constructor; [by apply disciplined_program|done].
      * by rewrite concat_app, app_nil_r.
  - destruct Hinv as [Hwf (hs & dead & Hth & Hdead & Hp)]. split.
    + rewrite <- (app_nil_r facts) at 2. apply stutter.
    + split; [done|]. cbn in *. destruct (filter_histories (λ t, t.1 ≠ pid) _ _ Hth) as (hs' & dead' & ? & ? & Hp').
      exists hs', (dead' ++ dead). split_and!; [done|by apply balanced_app|].
      by rewrite Hp, Hp', app_assoc.
  - destruct Hinv as [Hwf Hh]. split; [|by split]. rewrite <- (app_nil_r facts) at 2. apply stutter.
Qed.

Lemma app_star_simulates s s' :
  app_inv s → star app_step s s' → star spec_step (abstraction s) (abstraction s') ∧ app_inv s'.
Proof.
  intros Hinv Hstar. induction Hstar as [s|s1 s2 s3 _ IH Hstep]; [by split; [apply star_refl|]|].
  destruct (IH Hinv) as [Hsim Hinv2]. destruct (app_step_simulates _ _ Hinv2 Hstep) as [Hs Hinv3].
  split; [|done]. by eapply star_snoc.
Qed.

(** Without a registration an empty hub stays empty. *)
Definition nobody (pr : Proc) : Prop := h_clients (p_hub pr) = ∅.

Lemma exec_hub_nobody {A} (op : hub_op A) hb :
  no_register op → h_clients hb = ∅ → h_clients (exec_hub op hb).2 = ∅.
Proof.
  intros Hop He. destruct op; cbn in *; try done.
  - by rewrite He, delete_empty.
  - by rewrite He, fmap_empty.
  - rewrite BroadcastBatch_fmap. cbn. by rewrite He, fmap_empty.
  - rewrite He. apply map_eq. intros i. rewrite lookup_alter. by case_decide.
  - unfold WritePump_take. by rewrite He, lookup_empty.
Qed.

Lemma handle_nobody {X} (e : eff X) (w : World R) facts :
  warranted facts e → nobody (w_proc w) → nobody (w_proc (handle env e w).2).
Proof.
  intros Hp Hn. destruct e; cbn [handle]; try done.
  - by destruct (faulty _ _ _).
  - by destruct (faulty _ _ _).
  - by destruct (exec_cb _ _ _).
  - pose proof (exec_hub_nobody op (p_hub (w_proc w)) Hp Hn) as Hh. by destruct (exec_hub _ _).
  - by destruct (incr _ _ _).
  - by destruct (exec_cache _ _).
Qed.

Lemma app_step_nobody s s' :
  app_inv s → app_step s s' → Forall nobody (c_procs s.1) → Forall nobody (c_procs s'.1).
Proof.
  intros [_ (hs & dead & Hth & _)] Hstep Hn. destruct Hstep as [i c c' facts Hs|pid q c facts Hq|pid c facts|pr c facts Hb]; [|done|done|].
  2:{ cbn. apply Forall_app. split; [done|]. apply Forall_singleton. by destruct Hb as (? & ? & ->). }
  cbn in *. unfold sched_step in Hs.
  destruct (c_threads c !! i) as [[pid q]|] eqn:Et; cbn in Hs; [|done].
  destruct (c_procs c !! pid) as [pr|] eqn:Ep; cbn in Hs; [|done].
  destruct q as [|X e k|]; try done. set (w := mkWorld (c_db c) (c_redis c) (c_pos c) pr) in *.
  destruct (Forall2_lookup_l _ _ _ _ _ Hth Et) as (h & _ & [He _] & _).
  pose proof (handle_nobody e w h (permitted_warranted h h e (λ f Hf, Hf) He) (proj1 (Forall_lookup _ _) Hn pid pr Ep)) as Hw.
  destruct (handle env e w) as [x w']. injection Hs as <-. cbn. by apply Forall_insert.
Qed.

Lemma app_inv_start c : db_wf (c_db c) → Forall (λ t, app_program t.2) (c_threads c) → app_inv (c, []).
Proof.
  intros Hwf Hth. split; [done|]. exists (replicate (length (c_threads c)) []), []. cbn. split_and!.
  - induction Hth as [|[pid q] ts Hq _ IH]; cbn; constructor; [by apply disciplined_program|done].
  - apply balanced_nil.
  - rewrite app_nil_r. clear. by induction (c_threads c).
Qed.

(** The facts a schedule establishes. *)
Fixpoint schedule_facts (sched : list nat) (c : Config R) : list Lifecycle.fact :=
  match sched with
  | [] => []
  | i :: sched' =>
      next_facts i c ++ match sched_step env i c with Some c' => schedule_facts sched' c' | None => [] end
  end.

Lemma app_schedule_star P sched : ∀ c c' facts,
  run_schedule env sched c = Some c' → star (step_at P) (c, facts) (c', facts ++ schedule_facts sched c).
Proof.
  induction sched as [|i sched IH]; intros c c' facts Hr; cbn in Hr |- *.
  { injection Hr as <-. rewrite app_nil_r. apply star_refl. }
  destruct (sched_step env i c) as [c1|] eqn:E; cbn in Hr; [|done]. rewrite app_assoc.
  eapply star_trans; [eapply star_snoc; [apply star_refl|by apply (app_thread i)]|by apply IH].
Qed.

(** Where a schedule that can be followed leads. *)
Definition after (sched : list nat) (c : Config R) : Config R := default c (run_schedule env sched c).
Definition can_follow (sched : list nat) (c : Config R) : bool :=
  match run_schedule env sched c with Some _ => true | None => false end.

Lemma after_star_at P sched c facts :
  can_follow sched c = true → star (step_at P) (c, facts) (after sched c, facts ++ schedule_facts sched c).
Proof.
  unfold can_follow, after. intros Hc. apply app_schedule_star.
  by destruct (run_schedule env sched c).
Qed.

Lemma after_star P sched c facts :
  can_follow sched c = true → star (step_of P) (c, facts) (after sched c, facts ++ schedule_facts sched c).
Proof. apply after_star_at. Qed.

(** C3: The system implements the lifecycle machine.  Every execution of API and worker
    processes, with requests, dispatchers, pool tasks and schedulers starting at any
    time, interleaved effect by effect, under failed and timed-out calls and crashing
    processes, is a run of the abstract machine on the rows it leaves and the facts it
    recorded. *)
Theorem lifecycle_refinement c c' facts :
  db_wf (c_db c) → Forall (λ t, app_program t.2) (c_threads c) →
  star app_step (c, []) (c', facts) →
  star spec_step (rows_of (c_db c), []) (rows_of (c_db c'), facts).
Proof. intros Hwf Hth Hstar. by destruct (app_star_simulates _ _ (app_inv_start c Hwf Hth) Hstar). Qed.

(** What a row says of its delivery, given what was established. *)
Record truthful (facts : list Lifecycle.fact) (k : uuid) (n : Notification) : Prop := {
  tr_sent : n_Status n = StatusSent ∨ is_Some (n_SentAt n) → ∃ t, Accepted (webhook_payload t n) ∈ facts;
  tr_failed : n_Status n = StatusFailed → n_MaxAttempts n ≤ n_Attempts n;
  tr_claimed m : Claimed m ∈ facts → n_ID m = k → fixed_part m = fixed_part n;
}.

Lemma rows_truthful c c' facts k n :
  db_wf (c_db c) → notifications (c_db c) = ∅ → Forall (λ t, app_program t.2) (c_threads c) →
  star app_step (c, []) (c', facts) → notifications (c_db c') !! k = Some n → truthful facts k n.
Proof.
  intros Hwf Hempty Hth Hstar Hn. destruct (app_star_simulates _ _ (app_inv_start c Hwf Hth) Hstar) as [Hsim _].
  assert (Hini : spec_inv (abstraction (c, []))).
  { split; cbn; try (intros *; intros []%elem_of_nil); unfold rows_of; rewrite Hempty, fmap_empty;
      intros k0 l; by rewrite lookup_empty. }
  pose proof (spec_star_inv _ _ Hini Hsim) as [_ Hcl _ Hst Hse Hfa]. cbn in Hcl, Hst, Hse, Hfa.
  assert (Hrow : rows_of (c_db c') !! k = Some (life_of n)) by (by rewrite rows_of_lookup, Hn).
  split.
  - intros Hs. apply (Hse k (life_of n) Hrow). destruct Hs as [Hs|Hs]; [by apply (Hst k)|].
    cbn. by apply bool_decide_eq_true.
  - apply (Hfa k (life_of n) Hrow).
  - intros m Hm <-. destruct (Hcl m Hm) as (l & Hl & Hf). rewrite Hrow in Hl. injection Hl as <-.
    by rewrite <- Hf.
Qed.

(** A row tells the truth about its delivery.  In every such execution from an empty
    notifications table: a row that says "sent" was accepted by the provider with this
    row's recipient, channel and text; a row that says "failed" has used up its
    attempts; and only rows that were claimed, with the fixed part they have now, were
    ever given to the provider. *)
Theorem rows_tell_the_truth c c' facts k n :
  db_wf (c_db c) → notifications (c_db c) = ∅ → Forall (λ t, app_program t.2) (c_threads c) →
  star app_step (c, []) (c', facts) → notifications (c_db c') !! k = Some n →
  (n_Status n = StatusSent ∨ is_Some (n_SentAt n) → ∃ t, Accepted (webhook_payload t n) ∈ facts) ∧
  (n_Status n = StatusFailed → n_MaxAttempts n ≤ n_Attempts n) ∧
  (∀ m, Claimed m ∈ facts → n_ID m = k → fixed_part m = fixed_part n).
Proof.
  intros Hwf He Hth Hstar Hn. destruct (rows_truthful c c' facts k n Hwf He Hth Hstar Hn) as [? ? ?]. done.
Qed.

Lemma app_star_nobody c c' facts :
  db_wf (c_db c) → Forall (λ t, app_program t.2) (c_threads c) → Forall nobody (c_procs c) →
  star app_step (c, []) (c', facts) → Forall nobody (c_procs c').
Proof.
  intros Hwf Hth Hn Hstar.
  refine (proj2 (star_invariant app_step (λ s, app_inv s ∧ Forall nobody (c_procs s.1)) _ _ _ _ Hstar)).
  - intros s s' [Hinv Hs] Hstep. split; [|by eapply app_step_nobody].
    by apply (app_step_simulates s s').
  - split; [by apply app_inv_start|done].
Qed.

(** Nobody is ever told.  The hub of every process, of the API as of the workers,
    is without clients in every such execution, because no request can register one:
    the events the workers broadcast reach nobody. *)
Theorem hubs_stay_empty c c' facts :
  db_wf (c_db c) → Forall (λ t, app_program t.2) (c_threads c) → Forall nobody (c_procs c) →
  star app_step (c, []) (c', facts) → Forall nobody (c_procs c').
Proof. apply app_star_nobody. Qed.

(** C21: Nothing is forgotten.  A row that is in the table at any time of an execution
    stays there: its recipient, channel, text, priority, keys and schedule never
    change, and once it records a delivery it always does. *)
Theorem rows_persist c1 f1 c2 f2 k n :
  app_inv (c1, f1) → star app_step (c1, f1) (c2, f2) → notifications (c_db c1) !! k = Some n →
  ∃ n', notifications (c_db c2) !! k = Some n' ∧ fixed_part n' = fixed_part n ∧
    (is_Some (n_SentAt n) → is_Some (n_SentAt n')).
Proof.
  intros Hinv Hstar Hn. destruct (app_star_simulates _ _ Hinv Hstar) as [Hsim _].
  destruct (spec_star_continues _ _ k (life_of n) Hsim) as (l' & Hl' & Hf & Hs).
  { cbn. by rewrite rows_of_lookup, Hn. }
  cbn in Hl'. rewrite rows_of_lookup in Hl'. destruct (notifications (c_db c2) !! k) as [n'|]; [|done].
  injection Hl' as <-. exists n'. split_and!; [done|exact Hf|]. cbn in Hs.
  rewrite !bool_decide_eq_true in Hs. exact Hs.
Qed.
(** C4: The provider is called at most as often as a notification was claimed: once per
    claim, whatever crashes, faults and interleavings there are.  A notification that
    was never claimed is never sent, and a crash after the call does not repeat it
    without a new claim. *)
Theorem one_call_per_claim c c' facts k :
  db_wf (c_db c) → Forall (λ t, app_program t.2) (c_threads c) →
  star app_step (c, []) (c', facts) →
  (calls (uuid_String k) facts ≤ claims (uuid_String k) facts)%nat.
Proof.
  intros Hwf Hth Hstar. destruct (app_star_simulates _ _ (app_inv_start c Hwf Hth) Hstar) as [_ Hinv].
  by apply (ai_balanced _ Hinv).
Qed.
End system.

(** ** An execution *)

#[local] Existing Instances RefTemplate RefPg RefPg_laws RefUUID RefUUID_laws RefLua RefWebsocket RefWebsocket_laws.

(** A client creates an SMS through the router; a worker dispatches it. *)
Definition demo_create : HttpRequest :=
  demo_http "POST" "/api/v1/notifications" "" demo_body.
Definition demo_system : Config RefRedis :=
  mkConfig empty_DB empty_RefRedis 0 [demo_proc; demo_proc]
    [(0%nat, _ ← NewRouter NewMetricsCollector true demo_create; mret tt);
     (1%nat, dispatch_and_process demo_dispatcher ChannelSMS)].
Definition demo_mid : Config RefRedis := after demo_env (replicate 9 0%nat) demo_system.
Definition demo_end : Config RefRedis := after demo_env (replicate 16 1%nat) demo_mid.
Definition demo_facts1 : list Lifecycle.fact := [] ++ schedule_facts demo_env (replicate 9 0%nat) demo_system.
Definition demo_facts : list Lifecycle.fact := demo_facts1 ++ schedule_facts demo_env (replicate 16 1%nat) demo_mid.

Lemma demo_system_programs : Forall (λ t, app_program t.2) (c_threads demo_system).
Proof. constructor; [apply app_request|]. constructor; [apply app_dispatch, _|constructor]. Qed.

Lemma demo_system_wf : db_wf (c_db demo_system).
Proof. apply db_wf_empty. Qed.

Lemma demo_first_half : star (app_step demo_env) (demo_system, []) (demo_mid, demo_facts1).
Proof. apply (after_star demo_env app_program). vm_compute. reflexivity. Qed.

Lemma demo_second_half : star (app_step demo_env) (demo_mid, demo_facts1) (demo_end, demo_facts).
Proof. apply (after_star demo_env app_program). vm_compute. reflexivity. Qed.

Lemma demo_run : star (app_step demo_env) (demo_system, []) (demo_end, demo_facts).
Proof. exact (star_trans _ _ _ _ demo_first_half demo_second_half). Qed.

(** The row after the request and after the dispatch. *)
Lemma demo_row_mid : ∃ n, notifications (c_db demo_mid) !! 4%N = Some n ∧ n_Status n = StatusQueued.
Proof. eexists. split; vm_compute; reflexivity. Qed.

Lemma demo_row_end :
  ∃ n, notifications (c_db demo_end) !! 4%N = Some n ∧ n_Content n = "hello" ∧ n_Status n = StatusSent.
Proof. eexists. split; [vm_compute; reflexivity|]. split; reflexivity. Qed.

Lemma lifecycle_refinement_witness :
  star spec_step (rows_of (c_db demo_system), []) (rows_of (c_db demo_end), demo_facts).
Proof. exact (lifecycle_refinement demo_env _ _ _ demo_system_wf demo_system_programs demo_run). Defined.

Lemma rows_tell_the_truth_witness :
  ∃ n t, n_Content n = "hello" ∧ Accepted (webhook_payload t n) ∈ demo_facts.
Proof.
  destruct demo_row_end as (n & Hn & Hc & Hs). exists n.
  destruct (rows_tell_the_truth demo_env demo_system demo_end demo_facts 4%N n
    demo_system_wf eq_refl demo_system_programs demo_run Hn) as (Hsent & _).
  destruct (Hsent (or_introl Hs)) as [t Ht]. exists t. split; [exact Hc|exact Ht].
Defined.

Lemma rows_persist_witness :
  ∃ n n', n_Status n = StatusQueued ∧ notifications (c_db demo_end) !! 4%N = Some n' ∧
    fixed_part n' = fixed_part n.
Proof.
  destruct demo_row_mid as (n & Hn & Hs). exists n.
  assert (Hinv : app_inv (demo_mid, demo_facts1)).
  { apply (app_star_simulates demo_env (demo_system, [])); [|exact demo_first_half].
    exact (app_inv_start _ demo_system_wf demo_system_programs). }
  destruct (rows_persist demo_env _ _ _ _ 4%N n Hinv demo_second_half Hn) as (n' & Hn' & Hf & _).
  exists n'. split; [exact Hs|]. split; [exact Hn'|exact Hf].
Defined.

Lemma hubs_stay_empty_witness : Forall nobody (c_procs demo_end).
Proof.
  apply (hubs_stay_empty demo_env demo_system demo_end demo_facts);
    [exact demo_system_wf|exact demo_system_programs| |exact demo_run].
  constructor; [reflexivity|]. constructor; [reflexivity|constructor].
Defined.

(** The demo's provider call is the one its claim pays for. *)
Lemma one_call_per_claim_witness :
  calls (uuid_String 4%N) demo_facts = 1%nat ∧
  (calls (uuid_String 4%N) demo_facts ≤ claims (uuid_String 4%N) demo_facts)%nat.
Proof.
  split; [vm_compute; reflexivity|].
  exact (one_call_per_claim demo_env _ _ _ 4%N demo_system_wf demo_system_programs demo_run).
Defined.
