(* ===== verification/NoPanic.v ===== *)
(** * No goroutine panics

    A panic in a goroutine of a worker kills the process.  The code can panic where a
    counter of an unknown channel is dereferenced and where a ticker gets a period
    that is not positive; [calm_contract] is the contract under which the first never
    happens, given that claimed rows have legal channels (the schema's CHECK) and that
    the collectors know the legal channels. *)
From S2P Require Import Prelude GoLib GoJson Domain Uuid Retry Redis Postgres RateLimiter CircuitBreaker Hub.
From S2P Require Import Metrics TemplateEngine Effects Contract Reference Queue Provider Repository Lifecycle.
From S2P Require Import Processor Scheduler Dispatcher Handlers Templates Api Refinement.
From Stdlib Require Import ZArith Lia.
From stdpp Require Import base numbers list strings gmap fin_maps.

Open Scope Z_scope.

(** ** Calm programs *)

Section calm.
Context `{TextTemplate}.

(** What a statement can answer: claimed rows have legal channels. *)
Definition possible_sql {X} (q : sql X) : result error X → Prop :=
  match q in sql A return result error A → Prop with
  | getAndMarkProcessing _ => λ r, ∀ n, r = Ok (Some n) → Channel_Valid (n_Channel n) = true
  | getAndMarkProcessingBatch _ => λ r, ∀ ns, r = Ok ns → Forall (λ n, Channel_Valid (n_Channel n) = true) ns
  | _ => λ _, True
  end.

(** A collector knows the legal channels. *)
Definition possible {X} (e : eff X) : X → Prop :=
  match e in eff A return A → Prop with
  | ESql q => possible_sql q
  | EMetrics _ ch => λ r, Channel_Valid ch = true → r = Some tt
  | _ => λ _, True
  end.

Definition calm_contract : Contract := mkContract (λ _ _, True) (λ _, possible) False.

Definition calm {A} (p : prog A) : Prop := meets calm_contract p (λ _, True).

(** [f] need only be calm on what [p] can return. *)
Lemma calm_bind_results {A B} (p : prog A) (f : A → prog B) (Q : A → Prop) :
  meets calm_contract p Q → (∀ a, Q a → calm (f a)) → calm (p ≫= f).
Proof. apply meets_bind. Qed.

Lemma calm_bind {A B} (p : prog A) (f : A → prog B) : calm p → (∀ a, calm (f a)) → calm (p ≫= f).
Proof. apply meets_seq. Qed.

Lemma no_panic_calm {A} (p : prog A) : no_panic p → calm p.
Proof. by apply no_panic_meets. Qed.

Lemma calm_catch {A} (p : prog A) : calm (catch p).
Proof. unfold calm. induction p as [a|X e k IH|]; simpl; auto. Qed.

Lemma calm_metrics k ch : Channel_Valid ch = true → calm (metrics_incr k ch).
Proof. intros Hch. split; [done|]. intros x Hx. by rewrite (Hx Hch). Qed.

Lemma calm_for_each {A} (l : list A) (body : A → prog unit) : (∀ x, calm (body x)) → calm (for_each l body).
Proof. intros Hb. apply meets_for_each. intros x _. apply Hb. Qed.
End calm.

(** Splits a program into its binds and branches. *)
Ltac calm_step :=
  first
    [ done
    | apply calm_metrics; done
    | apply no_panic_calm, no_panic_trigger
    | apply calm_bind; [|intros ?]
    | progress cbv beta iota zeta
    | match goal with
      | |- calm (match ?x with _ => _ end) => destruct x
      | |- calm (if ?x then _ else _) => destruct x
      end ].
Ltac solve_calm := repeat calm_step.

(** ** The program's goroutines *)

Section programs.
Context `{TextTemplate} `{UUIDLib}.

Lemma calm_handleFailure p n msg err :
  Channel_Valid (n_Channel n) = true → calm (handleFailure p n msg err).
Proof.
  intros Hch. unfold handleFailure, NotificationRepo_UpdateStatusWithError, DeadLetterHandler_Handle,
    ack, Ack, EnqueueDelayed. cbn [n_Channel set_Attempts]. solve_calm.
Qed.

Lemma calm_send_each p `{!ProviderObeys (p_provider p)} mm ns :
  Forall (λ n, Channel_Valid (n_Channel n) = true) ns → calm (send_each p mm ns).
Proof.
  induction 1 as [|n ns Hn _ IH]; cbn [send_each]; [done|].
  apply calm_bind; [by apply no_panic_calm, Send_no_panic|]. intros [pid|err].
  - solve_calm.
  - apply calm_bind; [by apply calm_handleFailure|]. done.
Qed.

Lemma calm_ProcessBatch p `{!ProviderObeys (p_provider p)} msgs : calm (ProcessBatch p msgs).
Proof.
  unfold ProcessBatch, NotificationRepo_GetAndMarkProcessingBatch. destruct msgs as [|m msgs]; [done|].
  split; [done|]. intros x Hx. simpl in Hx. destruct x as [ns|err]; simpl; [|done]. specialize (Hx ns eq_refl).
  destruct ns as [|n ns]; [done|]. apply calm_bind; [by apply calm_send_each|]. intros sent.
  apply calm_bind; [|intros _; unfold ack, Ack; destruct sent; solve_calm].
  destruct sent as [|e sent]; [done|]. unfold NotificationRepo_UpdateBatchSent.
  rewrite !length_fmap, Nat.ltb_irrefl. solve_calm.
Qed.

Lemma calm_Process p `{!ProviderObeys (p_provider p)} msg : calm (Process p msg).
Proof.
  unfold Process. apply (calm_bind_results _ _ (λ r, ∀ n, r = Ok n → Channel_Valid (n_Channel n) = true)).
  - unfold NotificationRepo_GetAndMarkProcessing. split; [done|]. intros x Hx n. simpl in Hx.
    destruct x as [[m|]|]; cbn; try done. intros [= <-]. by apply Hx.
  - intros [n|err] Hn; [|unfold ack, Ack; solve_calm]. specialize (Hn n eq_refl).
    apply calm_bind; [by apply no_panic_calm, Send_no_panic|]. intros [pid|err].
    + unfold NotificationRepo_UpdateSent, ack, Ack. solve_calm.
    + by apply calm_handleFailure.
Qed.

Lemma calm_dispatch d ch : Channel_Valid ch = true → calm (dispatch d ch).
Proof.
  intros Hch. unfold dispatch, AllowN, DequeueBatch. solve_calm.
  apply calm_for_each. intros _. by apply calm_metrics.
Qed.

Lemma calm_eager_poll fuel d ch : Channel_Valid ch = true → calm (eager_poll fuel d ch).
Proof.
  intros Hch. induction fuel as [|fuel IH]; cbn [eager_poll]; [done|].
  apply calm_bind; [by apply calm_dispatch|]. intros msgs. solve_calm.
Qed.

Lemma calm_dispatchLoop ticks fuel d ch :
  Channel_Valid ch = true → 0 < di_pollInterval d → calm (dispatchLoop ticks fuel d ch).
Proof.
  intros Hch Hpos. unfold dispatchLoop, NewTicker.
  replace (di_pollInterval d <=? 0) with false by (symmetry; apply Z.leb_gt; lia).
  apply calm_bind; [done|]. intros _. induction ticks as [|ticks IH]; cbn [dispatch_ticks]; [done|].
  apply calm_bind; [done|]. intros []; [done|].
  apply calm_bind; [by apply calm_eager_poll|]. intros [[sub []]|]; solve_calm.
Qed.

Lemma calm_requeue_all key members : calm (for_each members (requeue_member key)).
Proof. apply calm_for_each. intros raw. unfold requeue_member, Enqueue. solve_calm. Qed.

Lemma calm_poll_loop fuel : calm (poll_loop fuel).
Proof.
  induction fuel as [|fuel IH]; cbn [poll_loop]; [done|].
  unfold NotificationRepo_GetPendingScheduled. apply calm_bind; [solve_calm|]. intros [[|n ns]|]; [done| |done].
  apply calm_bind; [|done]. apply calm_for_each. intros m.
  unfold schedule_one, Enqueue, NotificationRepo_UpdateStatus. solve_calm.
Qed.

Lemma calm_poll fuel : calm (poll fuel).
Proof.
  unfold poll. apply calm_bind; [done|]. intros [[]|]; [|done..].
  apply calm_bind; [apply calm_poll_loop|]. intros [[]|]; [|done].
  apply calm_bind; [|intros _; apply calm_bind; [|done]].
  - unfold promoteDelayedRetries. apply calm_bind; [done|]. intros now. apply calm_bind; [done|].
    intros [ms|]; [apply calm_requeue_all|done].
  - unfold reclaimExpiredProcessing. apply calm_bind; [done|]. intros now. apply calm_for_each. intros ch.
    unfold reclaim_channel. apply calm_bind; [done|]. intros [ms|]; [apply calm_requeue_all|done].
Qed.

Lemma calm_Scheduler_Start ticks fuel : calm (Scheduler_Start ticks fuel).
Proof.
  induction ticks as [|ticks IH]; cbn [Scheduler_Start]; [done|].
  apply calm_bind; [done|]. intros []; [done|]. apply calm_bind; [apply calm_poll|]. by intros [[]|].
Qed.

(** A request: [Recovery] catches what its handler does. *)
Lemma calm_outcome (p : prog Out) : calm (outcome p).
Proof. unfold outcome. apply calm_bind; [apply calm_catch|done]. Qed.

Context `{WebsocketLib}.

Lemma calm_NewRouter mc hijack r : calm (NewRouter mc hijack r).
Proof.
  unfold NewRouter, with_middleware, RequestID. apply calm_bind; [unfold request_id; solve_calm|]. intros id.
  apply calm_bind; [|done]. unfold Recovery. apply calm_bind; [apply calm_outcome|]. done.
Qed.
End programs.

(** ** The system *)

Section system.
Context {R : Type} `{RedisServer R} `{LuaNumber} `{PgLaws} `{TextTemplate} `{UUIDLib} `{WebsocketLib}.
Variable env : Env.

(** The answers of [handle] are possible. *)
Lemma exec_sql_possible {X} (q : sql X) now db : db_wf db → possible_sql q (exec_sql q now db).1.
Proof.
  intros Hwf. destruct q; cbn [possible_sql]; try done.
  - cbn [exec_sql]. intros n. destruct (notifications db !! id) as [m|] eqn:Hm; [|done].
    destruct (claimable m); [|done]. intros [= <-]. exact (ok_channel _ _ (wf_rows _ Hwf _ _ Hm)).
  - cbn [exec_sql]. intros ns [= <-]. apply Forall_forall. intros n Hn.
    apply list_elem_of_fmap in Hn as (m & -> & Hm).
    apply list_elem_of_fmap in Hm as ([k m'] & -> & [_ Hm]%list_elem_of_filter).
    apply pg_scan_elem in Hm. exact (ok_channel _ _ (wf_rows _ Hwf _ _ Hm)).
Qed.

Lemma handle_possible {X} (e : eff X) (w : World R) :
  db_wf (w_db w) → metrics_wf (p_metrics (w_proc w)) → possible e (handle env e w).1.
Proof.
  intros Hwf Hm. destruct e; cbn [possible]; try done.
  - cbn [handle]. pose proof (exec_sql_possible q (e_now env (w_pos w)) (w_db w) Hwf) as Hq.
    destruct (e_fault env (w_pos w)) as [|m|m]; cbn [faulty].
    + destruct (exec_sql _ _ _). exact Hq.
    + clear Hq. by destruct q.
    + destruct (exec_sql _ _ _). clear Hq. by destruct q.
  - cbn [handle]. intros Hch. destruct (incr_ok k ch _ Hm Hch) as (m & -> & _). done.
Qed.

(** The tables are in order, the collectors know the channels. *)
Definition calm_inv : Invariant := mkInvariant (λ db (_ : R), db_wf db) (λ pr, metrics_wf (p_metrics pr)).

#[export] Instance calm_upheld : Upholds env calm_contract calm_inv.
Proof.
  intros X e w [Hwf Hm] _. split; [split|by apply handle_possible].
  - by apply handle_db_wf.
  - by apply handle_metrics_wf.
Qed.

(** A calm program run alone returns. *)
Lemma calm_run {A} (q : prog A) (w : World R) :
  calm q → db_wf (w_db w) → metrics_wf (p_metrics (w_proc w)) → ∃ a w', run env q w = (Some a, w').
Proof.
  intros Hq Hwf Hm. destruct (meets_run env calm_contract calm_inv q _ w Hq (conj Hwf Hm)) as [_ Hr].
  destruct (run env q w) as [[a|] w']; [by eexists _, _|done].
Qed.

(** The goroutines of [app_program], for dispatchers whose ticker has a positive period
    and whose channels are legal. *)
Inductive sane_program : prog unit → Prop :=
| sane_request mc hijack r : sane_program (_ ← NewRouter mc hijack r; mret tt)
| sane_dispatcher ticks fuel d ch : Channel_Valid ch = true → 0 < di_pollInterval d →
    sane_program (_ ← dispatchLoop ticks fuel d ch; mret tt)
| sane_task p msgs : ProviderObeys (p_provider p) → sane_program (ProcessBatch p msgs)
| sane_single p msg : ProviderObeys (p_provider p) → sane_program (Process p msg)
| sane_scheduler ticks fuel : sane_program (Scheduler_Start ticks fuel).

Lemma sane_calm q : sane_program q → calm q.
Proof.
  destruct 1.
  - apply calm_bind; [apply calm_NewRouter|done].
  - apply calm_bind; [by apply calm_dispatchLoop|done].
  - by apply calm_ProcessBatch.
  - by apply calm_Process.
  - apply calm_Scheduler_Start.
Qed.

(** A calm goroutine has not panicked. *)
Lemma calm_no_panic c t : obliged calm_contract calm_inv c → t ∈ c_threads c → t.2 ≠ Panic.
Proof.
  intros [_ _ Hth] Ht Hp. rewrite Forall_forall in Hth. specialize (Hth t Ht). by rewrite Hp in Hth.
Qed.
End system.
