(* ===== verification/Wire.v ===== *)
(** * What the queues hold

    The wire contract: programs put into a queue, a processing set or the delayed set
    only the wire format of a message, and into a channel's queue or processing set
    only messages of this channel; rows get UUIDs as keys and counts of attempts that
    are not negative.  In return what they pop or read from these sets can be decoded,
    and claimed rows are typed.  Every goroutine of the system meets the contract, so
    the sorted sets and the rows keep their types in every execution. *)
From S2P Require Import Prelude Float64 GoLib GoJson GoTime Domain Uuid Retry Redis Postgres RateLimiter CircuitBreaker Hub.
From S2P Require Import Metrics TemplateEngine Effects Contract Reference Queue Rows Provider Repository Lifecycle.
From S2P Require Import Processor Scheduler Dispatcher Handlers Templates Api Refinement.
From Stdlib Require Import ZArith Lia.
From stdpp Require Import base numbers list strings gmap fin_maps.

Open Scope Z_scope.

(** ** The contract *)

(** The sorted sets that hold messages. *)
Definition work_key (key : string) : Prop :=
  key = retryDelayedKey ∨ ∃ ch, key = queue_key ch ∨ key = processing_key ch.

Section contract.
Context `{TextTemplate} `{UUIDLib}.

(** [raw] may be a member of [key]. *)
Definition placed (key raw : string) : Prop :=
  ∃ msg, message_ok msg ∧ Marshal msg = Ok raw ∧
    ∀ ch, key = queue_key ch ∨ key = processing_key ch → m_Channel msg = ch.

Definition wire_command {X} (c : rcmd X) : Prop :=
  match c with
  | RZAdd key _ raw => placed key raw
  | RZAddPipe entries => Forall (λ e, placed e.1.1 e.2) entries
  | RRateLimit key _ _ _ | RRateLimitBatch key _ _ _ _ => ∃ ch, key = ratelimit_key ch
  | _ => True
  end.

Definition wire_reply {X} (c : rcmd X) : X → Prop :=
  match c in rcmd A return A → Prop with
  | RZPopMin key _ => λ l, work_key key → Forall (λ e, placed key e.1) l
  | RZRange key _ => λ l, work_key key → Forall (placed key) l
  | _ => λ _, True
  end.

(** A row's key is a UUID, its attempts fit the column and its template variables are
    a map. *)
Definition row_typed (n : Notification) : Prop :=
  is_uuid (n_ID n) ∧ 0 ≤ n_Attempts n < 2 ^ 31 ∧ is_map (n_TemplateVars n) = true.

Definition wire_query {X} (q : sql X) : Prop :=
  match q with
  | insertNotification n => row_typed n
  | insertNotificationBatch ns => Forall row_typed ns
  | updateNotificationStatusWithError _ _ _ a => 0 ≤ a
  | _ => True
  end.

Definition wire_rows {X} (q : sql X) : X → Prop :=
  match q in sql A return A → Prop with
  | selectPendingScheduled _ | getAndMarkProcessingBatch _ => Forall row_typed
  | getAndMarkProcessing _ => λ o, ∀ n, o = Some n → row_typed n
  | _ => λ _, True
  end.

Definition wire_asks {X} (e : eff X) : Prop :=
  match e with ERedis c => wire_command c | ESql q => wire_query q | _ => True end.

Definition wire_answers {X} (e : eff X) : X → Prop :=
  match e in eff A return A → Prop with
  | ERedis c => λ r, ∀ a, r = Ok a → wire_reply c a
  | ESql q => λ r, ∀ a, r = Ok a → wire_rows q a
  | EUuid => is_uuid
  | _ => λ _, True
  end.

Definition wire_contract : Contract := mkContract (λ X, wire_asks) (λ X, wire_answers) True.

Definition wired {A} (p : prog A) : Prop := meets wire_contract p (λ _, True).
End contract.

(** ** Members and messages *)

Section members.
Context `{TextTemplate} `{UUIDLaws}.

Lemma Marshal_message_ok msg raw : is_uuid (m_NotificationID msg) → Marshal msg = Ok raw → message_ok msg.
Proof.
  unfold message_ok, Marshal, Message_json. intros Hid. split; [done|].
  destruct (m_ScheduledAt msg) as [t|]; [|done]. unfold Time_json, printable_time in *.
  destruct ((0 <=? _) && _) eqn:E; [|done]. apply andb_true_iff in E as [E1 E2]. zbool. lia.
Qed.

Lemma placed_queue msg raw : message_ok msg → Marshal msg = Ok raw → placed (queue_key (m_Channel msg)) raw.
Proof.
  intros Hok Hm. exists msg. split_and!; [done|done|].
  intros ch [Hk|Hk]; [by apply queue_key_inj in Hk|by apply queue_processing_ne in Hk].
Qed.

Lemma placed_delayed msg raw : message_ok msg → Marshal msg = Ok raw → placed retryDelayedKey raw.
Proof. intros Hok Hm. exists msg. split_and!; [done|done|]. by intros ch [Hk|Hk]. Qed.

Lemma placed_processing ch raw : placed (queue_key ch) raw → placed (processing_key ch) raw.
Proof.
  intros (msg & Hok & Hm & Hch). exists msg. split_and!; [done|done|]. specialize (Hch ch (or_introl eq_refl)).
  intros c [Hk|Hk]; [by apply processing_queue_ne in Hk|]. apply processing_key_inj in Hk. congruence.
Qed.

(** A placed member decodes, to the message it was written for. *)
Lemma placed_Unmarshal key raw msg :
  placed key raw → Unmarshal raw = Ok msg →
  message_ok msg ∧ Marshal msg = Ok raw ∧ ∀ ch, key = queue_key ch ∨ key = processing_key ch → m_Channel msg = ch.
Proof.
  intros (m & Hok & Hm & Hch) Hu. rewrite (Unmarshal_Marshal_message m raw Hok Hm) in Hu. by injection Hu as <-.
Qed.

Lemma placed_decodes key raw : placed key raw → is_ok (Unmarshal raw) = true.
Proof. intros (m & Hok & Hm & _). by rewrite (Unmarshal_Marshal_message m raw). Qed.

Lemma work_queue ch : work_key (queue_key ch).
Proof. right. exists ch. by left. Qed.
Lemma work_processing ch : work_key (processing_key ch).
Proof. right. exists ch. by right. Qed.
Lemma work_delayed : work_key retryDelayedKey.
Proof. by left. Qed.
End members.
#[export] Hint Resolve work_queue work_processing work_delayed : core.

(** ** Queue, workers and scheduler *)

Section workers.
Context `{TextTemplate} `{UUIDLaws}.

(** The messages of a channel. *)
Definition message_of (ch : string) (m : Message) : Prop := message_ok m ∧ m_Channel m = ch.

Lemma wired_sql {X} (q : sql X) : wire_query q → wired (trigger (ESql q)).
Proof. by split. Qed.

Lemma wired_metrics k ch : wired (metrics_incr k ch).
Proof. split; [exact I|]. intros [u|] _; exact I. Qed.

Lemma wired_ack msgs : wired (ack msgs).
Proof.
  unfold ack, Ack, wired. destruct msgs as [|m msgs]; [exact I|]. apply meets_seq; [|intros _; exact I].
  destruct (marshal_all _); [by split|exact I].
Qed.

Lemma wired_Enqueue msg : is_uuid (m_NotificationID msg) → wired (Enqueue msg).
Proof.
  intros Hid. unfold Enqueue. destruct (Marshal msg) as [raw|] eqn:Hm; [|done].
  split; [done|]. intros now _. split; [|done].
  apply placed_queue; [|done]. by eapply Marshal_message_ok.
Qed.

Lemma wired_EnqueueDelayed msg d : message_ok msg → wired (EnqueueDelayed msg d).
Proof.
  intros Hok. unfold EnqueueDelayed. destruct (Marshal msg) as [raw|] eqn:Hm; [|done].
  split; [done|]. intros now _. split; [|done]. by eapply placed_delayed.
Qed.

(** What is dequeued belongs to the channel. *)
Lemma decode_results_wire ch dl results msgs pipe :
  Forall (λ e : string * Z, placed (queue_key ch) e.1) results →
  decode_results (processing_key ch) dl results = Ok (msgs, pipe) →
  Forall (message_of ch) msgs ∧ Forall (λ e, placed e.1.1 e.2) pipe.
Proof.
  intros Hall. revert msgs pipe.
  induction Hall as [|[raw s] results Hraw _ IH]; intros msgs pipe; cbn [decode_results]; [by intros [= <- <-]|].
  destruct (Unmarshal raw) as [msg|] eqn:Hu; [|done].
  destruct (decode_results _ _ results) as [[ms cs]|]; [|done]. intros [= <- <-].
  destruct (IH ms cs eq_refl) as [Hms Hcs]. destruct (placed_Unmarshal _ _ _ Hraw Hu) as (Hok & Hm & Hch).
  split; constructor; try done.
  - split; [done|]. apply Hch. by left.
  - by apply placed_processing.
Qed.

(** The result of a dequeue: messages of the channel; or Redis did not answer.  No
    member of the queue fails to decode. *)
Definition dequeued (ch : string) (r : result error (list Message)) : Prop :=
  match r with
  | Ok msgs => Forall (message_of ch) msgs
  | Err err => ∃ e, err = EWrap "zpopmin batch" e ∨ err = EWrap "pipeline processing set" e
  end.

Lemma decode_results_total ch dl results :
  Forall (λ e : string * Z, placed (queue_key ch) e.1) results →
  ∃ msgs pipe, decode_results (processing_key ch) dl results = Ok (msgs, pipe).
Proof.
  induction 1 as [|[raw s] results Hraw _ (msgs & pipe & IH)]; [by eexists _, _|]. cbn [decode_results].
  pose proof (placed_decodes _ _ Hraw) as Hu. cbn [fst] in Hu.
  destruct (Unmarshal raw) as [msg|]; [|done]. rewrite IH. by eexists _, _.
Qed.

Lemma meets_DequeueBatch c ch count : meets wire_contract (DequeueBatch c ch count) (dequeued ch).
Proof.
  unfold DequeueBatch. split; [done|]. intros r Hr. destruct r as [results|e]; [|exists e; by left].
  specialize (Hr results eq_refl (work_queue ch)). simpl. destruct results as [|e results]; [constructor|].
  split; [done|]. intros now _.
  destruct (decode_results_total ch (f64 (UnixNano (now + visibilityTimeout c))) _ Hr) as (msgs & pipe & Hd).
  destruct (decode_results_wire ch _ _ _ _ Hr Hd) as [Hms Hp].
  change (processingPrefix +:+ ch) with (processing_key ch). rewrite Hd. split; [exact Hp|]. intros x _.
  destruct x as [?|e']; [done|exists e'; by right].
Qed.

Lemma wired_AllowN rl ch n : wired (AllowN rl ch n).
Proof.
  unfold AllowN. destruct (n <=? 0); [done|]. split; [done|]. intros now _. split; [by exists ch|]. done.
Qed.

(** What is submitted to the pool belongs to the channel. *)
Lemma meets_dispatch d ch : meets wire_contract (dispatch d ch) (Forall (message_of ch)).
Proof.
  unfold dispatch. apply meets_seq; [apply wired_AllowN|]. intros [n|]; [|by constructor].
  destruct (n =? 0); [by constructor|]. eapply meets_bind; [apply meets_DequeueBatch|].
  intros [msgs|] Hms; [|by constructor]. destruct msgs as [|m msgs]; [by constructor|].
  apply meets_seq; [|intros _; exact Hms]. apply meets_for_each. intros ? _. apply wired_metrics.
Qed.

Definition submitted_of (ch : string) (sub : list (list Message)) : Prop := Forall (Forall (message_of ch)) sub.

Lemma meets_eager_poll fuel d ch :
  meets wire_contract (eager_poll fuel d ch) (λ r, ∀ sub go_on, r = Some (sub, go_on) → submitted_of ch sub).
Proof.
  induction fuel as [|fuel IH]; cbn [eager_poll]; [done|].
  eapply meets_bind; [apply meets_dispatch|]. intros msgs Hms. cbv beta zeta.
  assert (Hsub : submitted_of ch (match msgs with [] => [] | _ => [msgs] end)) by (destruct msgs; [constructor|by constructor]).
  destruct (_ <? _); [by intros ? ? [= <- _]|]. split; [done|]. intros [] _; [by intros ? ? [= <- _]|].
  eapply meets_bind; [exact IH|]. intros [[more go_on]|] Hmore; [|done].
  intros ? ? [= <- _]. apply Forall_app. split; [done|]. by eapply Hmore.
Qed.

Lemma meets_dispatchLoop ticks fuel d ch : meets wire_contract (dispatchLoop ticks fuel d ch) (submitted_of ch).
Proof.
  unfold dispatchLoop, NewTicker. destruct (_ <=? 0); [done|]. apply meets_seq; [done|]. intros _.
  induction ticks as [|ticks IH]; cbn [dispatch_ticks]; [constructor|].
  split; [done|]. intros [] _; [constructor|]. eapply meets_bind; [apply meets_eager_poll|].
  intros [[sub []]|] Hsub; [|by eapply Hsub|constructor]. eapply meets_bind; [exact IH|].
  intros rest Hrest. apply Forall_app. split; [by eapply Hsub|done].
Qed.

Lemma wired_requeue key raw : placed key raw → wired (requeue_member key raw).
Proof.
  intros Hp. unfold requeue_member. destruct (Unmarshal raw) as [msg|] eqn:Hu; [|done].
  destruct (placed_Unmarshal _ _ _ Hp Hu) as ([Hid _] & _ & _).
  apply meets_seq; [by apply wired_Enqueue|]. intros [?|]; [|done]. by split.
Qed.

Lemma wired_requeue_all key ms : Forall (placed key) ms → wired (for_each ms (requeue_member key)).
Proof. rewrite Forall_forall. intros Hms. apply meets_for_each. intros raw Hraw. by apply wired_requeue, Hms. Qed.

Lemma wired_poll_loop fuel : wired (poll_loop fuel).
Proof.
  induction fuel as [|fuel IH]; cbn [poll_loop]; [done|]. unfold NotificationRepo_GetPendingScheduled.
  split; [done|]. intros r Hr. destruct r as [ns|]; simpl; [|done]. specialize (Hr ns eq_refl).
  destruct ns as [|n ns]; [done|]. apply meets_seq; [|done].
  assert (Hids : ∀ m, m ∈ n :: ns → row_typed m) by (by apply Forall_forall).
  apply meets_for_each. intros m Hm. unfold schedule_one.
  apply meets_seq; [apply wired_Enqueue; by apply Hids|]. intros [?|]; [|done].
  unfold NotificationRepo_UpdateStatus. solve_meets.
Qed.

Lemma wired_range key hi : work_key key →
  meets wire_contract (trigger (ERedis (RZRange key hi))) (λ r, ∀ ms, r = Ok ms → Forall (placed key) ms).
Proof. intros Hk. split; [done|]. intros r Hr ms ->. by apply (Hr ms). Qed.

Lemma wired_poll fuel : wired (poll fuel).
Proof.
  unfold poll. split; [done|]. intros [[]|] _; [|done..]. cbn [prog_bind].
  apply meets_seq; [apply wired_poll_loop|]. intros [[]|]; [|done].
  apply meets_seq; [|intros _; apply meets_seq; [|done]].
  - unfold promoteDelayedRetries. split; [done|]. intros now _. cbn [prog_bind].
    eapply meets_bind; [by apply wired_range|]. intros [ms|] Hms; [|done]. by apply wired_requeue_all, Hms.
  - unfold reclaimExpiredProcessing. split; [done|]. intros now _. cbn [prog_bind].
    apply meets_for_each. intros ch _. unfold reclaim_channel.
    eapply meets_bind; [apply (wired_range (processing_key ch)), work_processing|].
    intros [ms|] Hms; [|done]. by apply wired_requeue_all, Hms.
Qed.

Lemma wired_Scheduler_Start ticks fuel : wired (Scheduler_Start ticks fuel).
Proof.
  induction ticks as [|ticks IH]; cbn [Scheduler_Start]; [done|]. split; [done|].
  intros [] _; [done|]. cbn [prog_bind]. apply meets_seq; [apply wired_poll|]. by intros [[]|].
Qed.
End workers.

(** ** Providers and processor *)

Class ProviderWired `{TextTemplate} `{UUIDLib} (provider : Provider) : Prop :=
  Send_wired n : wired (Send provider n).

(** Symbolic execution of programs whose effects have no condition. *)
Ltac wired_step :=
  first
    [ exact I
    | apply meets_seq; [|intros ?]
    | apply meets_trigger; [exact I|intros ? _; exact I]
    | progress cbv beta iota zeta
    | match goal with
      | |- meets _ (match ?x with _ => _ end) _ => destruct x
      | |- meets _ (if ?x then _ else _) _ => destruct x
      end ].
Ltac solve_wired := unfold wired; repeat wired_step.

#[export] Instance webhook_Client_wired `{TextTemplate} `{UUIDLib} : ProviderWired webhook_Client.
Proof. intros n. cbn [Send webhook_Client]. unfold Client_Send. solve_wired. Qed.

#[export] Instance breaker_Provider_wired `{TextTemplate} `{UUIDLib} provider t :
  ProviderWired provider → ProviderWired (breaker_Provider provider t).
Proof.
  intros Hp n. assert (Hdo : wired (doSend provider n)).
  { unfold doSend. apply meets_seq; [apply Hp|]. intros r. solve_wired. }
  cbn [Send breaker_Provider]. unfold CircuitBreaker_Send. apply meets_seq; [by split|].
  intros st. destruct st.1; try exact Hdo. apply meets_seq; [by split|]. intros now.
  destruct (_ <=? t); [exact I|]. apply meets_seq; [by split|]. intros _. exact Hdo.
Qed.

Section processor.
Context `{TextTemplate} `{UUIDLaws}.
Context (p : Processor) `{!ProviderWired (p_provider p)}.

Lemma next_attempts n : row_typed n → wrap64 (n_Attempts n + 1) = n_Attempts n + 1 ∧ 0 ≤ n_Attempts n.
Proof. intros (_ & Ha & _). split; [|lia]. apply wrap64_id. unfold in_int64, int64_min, int64_max. lia. Qed.

Lemma wired_handleFailure n msg err : row_typed n → message_ok msg → wired (handleFailure p n msg err).
Proof.
  intros Hn Hok. destruct (next_attempts n Hn) as [Hw Ha]. unfold handleFailure. rewrite Hw. cbv zeta.
  apply meets_seq; [apply wired_metrics|]. intros _. destruct (_ <=? _).
  - apply meets_seq; [apply wired_sql; cbn; lia|]. intros _. apply meets_seq.
    { unfold DeadLetterHandler_Handle. solve_wired. }
    intros _. apply meets_seq; [apply wired_ack|]. intros _. by split.
  - apply meets_seq; [apply wired_sql; cbn; lia|]. intros [?|]; [|exact I].
    apply meets_seq; [by split|]. intros rnd. apply meets_seq; [by apply wired_EnqueueDelayed|].
    intros [?|]; [|exact I]. apply meets_seq; [apply wired_ack|]. intros _. by split.
Qed.

Lemma message_ok_zero : message_ok zero_message.
Proof. split; done. Qed.

Lemma msg_map_ok msgs (acc : gmap uuid Message) :
  Forall message_ok msgs → (∀ k m, acc !! k = Some m → message_ok m) →
  ∀ k m, foldl (λ m msg, <[m_NotificationID msg := msg]> m) acc msgs !! k = Some m → message_ok m.
Proof.
  intros Hms. revert acc. induction Hms as [|msg msgs Hmsg _ IH]; intros acc Hacc; [done|].
  apply IH. intros k m [[_ <-]|[_ Hm]]%lookup_insert_Some; [done|by eapply Hacc].
Qed.

Lemma wired_send_each mm ns :
  (∀ k m, mm !! k = Some m → message_ok m) → Forall row_typed ns → wired (send_each p mm ns).
Proof.
  intros Hmm. induction 1 as [|n ns Hn _ IH]; cbn [send_each]; [exact I|].
  apply meets_seq; [apply Send_wired|]. intros [pid|err].
  - apply meets_seq; [apply wired_metrics|]. intros _. apply meets_seq; [exact IH|]. intros rest. exact I.
  - apply meets_seq; [|intros _; exact IH]. apply wired_handleFailure; [exact Hn|].
    destruct (mm !! n_ID n) as [m|] eqn:Hm; [by eapply Hmm|apply message_ok_zero].
Qed.

Lemma wired_ProcessBatch msgs : Forall message_ok msgs → wired (ProcessBatch p msgs).
Proof.
  intros Hms. unfold ProcessBatch, NotificationRepo_GetAndMarkProcessingBatch.
  destruct msgs as [|m msgs]; [exact I|]. apply (meets_bind _ _ _ (λ r, ∀ ns, r = Ok ns → Forall row_typed ns)).
  { split; [exact I|]. intros x Hx ns. destruct x as [l|]; [|done]. intros [= <-]. by apply Hx. }
  intros [[|n ns]|] Hns; [exact I| |exact I]. specialize (Hns _ eq_refl).
  apply meets_seq; [by apply wired_send_each; [apply msg_map_ok|]|]. intros sent.
  apply meets_seq; [|intros _; apply meets_seq; [apply wired_ack|intros _; destruct sent; by split]].
  destruct sent as [|e sent]; [exact I|]. unfold NotificationRepo_UpdateBatchSent. solve_wired.
Qed.

Lemma wired_Process msg : message_ok msg → wired (Process p msg).
Proof.
  intros Hok. unfold Process, NotificationRepo_GetAndMarkProcessing.
  apply (meets_bind _ _ _ (λ r, ∀ n, r = Ok n → row_typed n)).
  { split; [exact I|]. intros x Hx n. simpl in Hx. destruct x as [[m|]|]; cbn; try done.
    intros [= <-]. by apply (Hx (Some m)). }
  intros [n|err] Hn; [specialize (Hn n eq_refl)|destruct (Is_NotFound err); [apply wired_ack|exact I]].
  apply meets_seq; [apply Send_wired|]. intros [pid|err]; [|by apply wired_handleFailure].
  apply meets_seq; [by apply wired_sql|]. intros [?|]; [|exact I].
  apply meets_seq; [apply wired_ack|]. intros _. apply meets_seq; [apply wired_metrics|]. intros _. by split.
Qed.
End processor.

(** ** The API *)

Section api.
Context `{TextTemplate} `{UUIDLaws} `{WebsocketLib}.

(** What every member keeps, the decoded struct has. *)
Lemma decode_fields_keep {A} (step : A → string * json → result error A) (P : A → Prop) fs : ∀ a b,
  (∀ a f a', step a f = Ok a' → P a → P a') → decode_fields step a fs = Ok b → P a → P b.
Proof.
  induction fs as [|f fs IH]; intros a b Hstep Hd Ha; cbn [decode_fields] in Hd; [by injection Hd as <-|].
  apply result_bind_Ok in Hd as (a' & Hf & Hd). apply (IH a' b Hstep Hd). by eapply Hstep.
Qed.

Lemma decode_body_keep {A} (step : A → string * json → result error A) (P : A → Prop) zero r a :
  (∀ a f a', step a f = Ok a' → P a → P a') → P zero → decode_body step zero r = Ok a → P a.
Proof.
  unfold decode_body. intros Hstep Hzero Hd. bind_ok Hd. destruct (json_Decode _) as [[| | | | |fs]|]; try done.
  - by injection Hd as <-.
  - by eapply decode_fields_keep.
Qed.

(** A decoded request has a map for its template variables. *)
Definition vars_typed (req : CreateNotificationRequest) : Prop := is_map (cr_TemplateVars req) = true.

Lemma decode_create_field_vars req f req' : decode_create_field req f = Ok req' → vars_typed req → vars_typed req'.
Proof.
  unfold vars_typed, decode_create_field. cbv zeta. intros Hf Hr.
  repeat (destruct (String.eqb _ _); [bind_ok Hf; injection Hf as <-; try exact Hr; eapply decode_map_is_map; eassumption|]).
  by injection Hf as <-.
Qed.

Lemma decode_creates_vars l : ∀ olds reqs,
  decode_creates olds l = Ok reqs → Forall vars_typed olds → Forall vars_typed reqs.
Proof.
  induction l as [|v l IH]; intros olds reqs Hd Holds; cbn [decode_creates] in Hd; [by injection Hd as <-|].
  bind_ok Hd. bind_ok Hd. injection Hd as <-. constructor; [|eapply IH; [done|by destruct Holds]].
  assert (Hold : vars_typed (default zero_create (head olds))) by (by destruct Holds).
  match goal with Hc : decode_create _ _ = Ok _ |- _ => unfold decode_create in Hc; destruct v; try discriminate Hc end.
  - by simplify_eq.
  - eapply decode_fields_keep; [exact decode_create_field_vars|done|done].
Qed.

Lemma decoded_batch_vars r reqs : decode_body decode_batch_field [] r = Ok reqs → Forall vars_typed reqs.
Proof.
  apply decode_body_keep; [|by constructor]. intros olds f reqs' Hf Holds. unfold decode_batch_field in Hf.
  destruct (String.eqb _ _); [|by injection Hf as <-].
  destruct f.2; try done; [by injection Hf as <-|]. by eapply decode_creates_vars.
Qed.

Lemma wired_request_content req : wired (request_content req).
Proof. unfold request_content, TemplateRepo_GetByID, Render, getOrParse. solve_wired. Qed.

Lemma meets_build req :
  vars_typed req →
  meets wire_contract (buildNotification req) (λ r, ∀ n, r = Ok n → row_typed n).
Proof.
  intros Hvars. unfold buildNotification. destruct (String.eqb _ _); [done|]. destruct (negb _); [done|]. cbv zeta.
  destruct (negb _); [done|]. apply meets_seq; [apply wired_request_content|].
  intros [content|]; [|done]. destruct (String.eqb _ _); [done|].
  apply meets_seq; [by split|]. intros now. split; [exact I|]. intros id Hid. intros n [= <-].
  split; [exact Hid|]. cbn. split; [lia|exact Hvars].
Qed.

Lemma meets_builds batch reqs :
  Forall vars_typed reqs →
  meets wire_contract (buildNotifications batch reqs) (λ r, ∀ ns, r = Ok ns → Forall row_typed ns).
Proof.
  induction 1 as [|req reqs Hreq _ IH]; cbn [buildNotifications]; [by intros ns [= <-]|].
  eapply meets_bind; [by apply meets_build|]. intros [n|] Hn; [|done].
  eapply meets_bind; [exact IH|]. intros [ns|] Hns; [|done].
  intros l [= <-]. constructor; [exact (Hn n eq_refl)|by apply Hns].
Qed.

Lemma meets_pipe msgs :
  Forall (λ m, is_uuid (m_NotificationID m)) msgs →
  meets wire_contract (pipe_messages msgs) (λ r, ∀ es, r = Ok es → Forall (λ e, placed e.1.1 e.2) es).
Proof.
  induction 1 as [|m msgs Hm _ IH]; cbn [pipe_messages]; [by intros es [= <-]|].
  destruct (Marshal m) as [raw|] eqn:Hraw; [|done].
  apply meets_seq; [by split|]. intros now. eapply meets_bind; [exact IH|].
  intros [es|] Hes; [|done]. intros l [= <-]. constructor; [|by apply Hes]. cbn.
  apply placed_queue; [|done]. by eapply Marshal_message_ok.
Qed.

Lemma wired_EnqueueBatch msgs : Forall (λ m, is_uuid (m_NotificationID m)) msgs → wired (EnqueueBatch msgs).
Proof.
  intros Hms. unfold EnqueueBatch. destruct msgs as [|m msgs]; [exact I|].
  eapply meets_bind; [by apply meets_pipe|]. intros [es|] Hes; [|exact I].
  split; [by apply Hes|]. intros r _. exact I.
Qed.

Lemma wired_enqueue n : row_typed n → wired (enqueue n).
Proof.
  intros Hid. unfold enqueue. destruct (String.eqb _ _); [exact I|].
  apply meets_seq; [by apply wired_Enqueue, Hid|]. intros [?|]; [|exact I].
  unfold NotificationRepo_UpdateStatus. solve_wired.
Qed.

Lemma wired_batchEnqueue ns : Forall row_typed ns → wired (batchEnqueue ns).
Proof.
  intros Hns. unfold batchEnqueue.
  assert (Hun : Forall (λ m, is_uuid (m_NotificationID m)) (MessageFromNotification <$> unscheduled ns)).
  { apply Forall_fmap. unfold unscheduled. rewrite Forall_forall in Hns |- *.
    intros n [_ Hn]%list_elem_of_filter. by apply Hns. }
  destruct (unscheduled ns) as [|n todo]; [exact I|].
  apply meets_seq; [by apply wired_EnqueueBatch|]. intros [?|]; [|exact I].
  unfold NotificationRepo_UpdateBatchStatus. solve_wired.
Qed.

Lemma wired_Create r : wired (NotificationHandler_Create r).
Proof.
  unfold NotificationHandler_Create. destruct (decode_body _ _ _) as [req|] eqn:Hreq; [|exact I].
  eapply meets_bind; [apply meets_build, (decode_body_keep _ vars_typed zero_create _ _ decode_create_field_vars eq_refl Hreq)|]. intros [n|] Hn; [|exact I]. specialize (Hn n eq_refl).
  apply meets_seq; [unfold NotificationRepo_Create; apply meets_seq; [by apply wired_sql|intros c; exact I]|].
  intros [?|err]; [|destruct (Is_DuplicateKey err); exact I].
  apply meets_seq; [by apply wired_enqueue|]. intros _. exact I.
Qed.

Lemma wired_BatchCreate r : wired (NotificationHandler_BatchCreate r).
Proof.
  unfold NotificationHandler_BatchCreate. destruct (decode_body _ _ _) as [reqs|] eqn:Hreqs; [|exact I].
  destruct (1000 <? _); [exact I|]. destruct (_ =? 0); [exact I|]. apply meets_seq; [by split|]. intros batch.
  eapply meets_bind; [apply meets_builds, (decoded_batch_vars r reqs Hreqs)|]. intros [ns|] Hns; [|exact I]. specialize (Hns ns eq_refl).
  apply meets_seq; [unfold NotificationRepo_CreateBatch; apply meets_seq; [by apply wired_sql|intros c; exact I]|].
  intros [?|err]; [|destruct (Is_DuplicateKey err); exact I].
  apply meets_seq; [by apply wired_batchEnqueue|]. intros _. exact I.
Qed.

Lemma wired_serve p : wired p → wired (serve p).
Proof. intros Hp. apply meets_seq; [exact Hp|]. intros resp. exact I. Qed.

Lemma wired_route mc hijack r rt vs : wired (handle_route mc hijack r rt vs).
Proof.
  destruct rt; cbn [handle_route]; try apply wired_serve.
  - exact I.
  - unfold HealthHandler_Ready. solve_wired.
  - unfold MetricsHandler_Metrics. solve_wired.
  - unfold WebSocketHandler_Upgrade. solve_wired.
  - apply wired_Create.
  - apply wired_BatchCreate.
  - unfold NotificationHandler_Get, NotificationRepo_GetByID. solve_wired.
  - unfold NotificationHandler_GetBatch, NotificationRepo_GetByBatchID. solve_wired.
  - unfold NotificationHandler_Cancel, NotificationRepo_GetByID, NotificationRepo_UpdateStatus. solve_wired.
  - unfold NotificationHandler_List, NotificationRepo_List. solve_wired.
  - unfold TemplateHandler_Create, TemplateRepo_Create. solve_wired.
  - unfold TemplateHandler_Get, TemplateRepo_GetByID. solve_wired.
  - unfold TemplateHandler_Update, TemplateRepo_GetByID, TemplateRepo_Update. solve_wired.
  - unfold TemplateHandler_Delete, TemplateRepo_Delete. solve_wired.
  - unfold TemplateHandler_List, TemplateRepo_List. solve_wired.
Qed.

Lemma wired_mux mc hijack r : wired (mux mc hijack r).
Proof.
  unfold mux. destruct (segments (hq_path r)) as [segs|]; [|exact I]. destruct (negb _); [exact I|].
  destruct (matches _ _) as [|[rt vs] l]; [destruct (path_known segs); exact I|apply wired_route].
Qed.

Lemma wired_catch {A} (p : prog A) : wired p → wired (catch p).
Proof.
  unfold wired. induction p as [a|X e k IH|]; simpl; [done| |done].
  intros [He Hk]. split; [done|]. intros x Hx. by apply IH, Hk.
Qed.

Lemma wired_outcome (p : prog Out) : wired p → wired (outcome p).
Proof. intros Hp. apply meets_seq; [by apply wired_catch|]. intros r. exact I. Qed.

Lemma wired_NewRouter mc hijack r : wired (NewRouter mc hijack r).
Proof.
  unfold NewRouter, with_middleware, RequestID. apply meets_seq; [unfold request_id; solve_wired|]. intros id.
  apply meets_seq; [|intros out; exact I]. unfold Recovery. apply meets_seq; [|intros out; exact I].
  apply wired_outcome. unfold Logging. apply meets_seq; [by split|]. intros start.
  apply meets_seq; [|intros out; solve_wired]. unfold MaxBodySize, Gzip.
  destruct (contains _ _); [|apply wired_mux]. apply meets_seq; [apply wired_outcome, wired_mux|].
  intros out. exact I.
Qed.
End api.

(** ** The stores keep the contract *)

Section stores.
Context {R : Type} `{RedisLaws R} `{LuaNumber} `{PgLaws} `{TextTemplate} `{UUIDLaws}.
Variable env : Env.

(** Every member of a set of messages is in its place, and these sets do not expire. *)
Record wire_ok (r : R) : Prop := {
  wk_placed key raw s : work_key key → zset r key !! raw = Some s → placed key raw;
  wk_ttl key : work_key key → deadline r key = None;
}.

Definition stored (n : Notification) : Prop := row_typed n ∧ readable (n_TemplateVars n).
Definition rows_typed (db : DB) : Prop := ∀ k n, notifications db !! k = Some n → stored n.

(** A server step that keeps a set of messages, or takes members out of it. *)
Definition shrinks (r r' : R) : Prop :=
  ∀ key, work_key key → (∀ raw s, zset r' key !! raw = Some s → zset r key !! raw = Some s) ∧
    (deadline r key = None → deadline r' key = None).

#[export] Instance shrinks_preorder : PreOrder shrinks.
Proof.
  split; [intros r key _; by split|]. intros r1 r2 r3 H12 H23 key Hk.
  destruct (H12 key Hk) as [Hz12 Hd12], (H23 key Hk) as [Hz23 Hd23].
  split; [intros raw s Hs; by apply Hz12, Hz23|auto].
Qed.

Lemma shrinks_ok r r' : shrinks r r' → wire_ok r → wire_ok r'.
Proof.
  intros Hsh [Hp Ht]. split.
  - intros key raw s Hk Hs. apply (Hp key raw s Hk). by apply (Hsh key Hk).
  - intros key Hk. apply (Hsh key Hk). by apply Ht.
Qed.

Lemma shrinks_ZREM key ms (r : R) : shrinks r (ZREM key ms r).
Proof.
  intros k _. split; [|by rewrite deadline_ZREM; case_decide]. intros raw s. rewrite zset_ZREM. by case_decide.
Qed.

Lemma shrinks_ZPOPMIN key n (r : R) : shrinks r (ZPOPMIN key n r).2.
Proof.
  intros k _. split; [|by rewrite deadline_ZPOPMIN; case_decide]. intros raw s. rewrite zset_ZPOPMIN. by case_decide.
Qed.

Lemma shrinks_SETNX key now ttl (r : R) : shrinks r (SETNX key now ttl r).2.
Proof. intros k _. by rewrite zset_SETNX, deadline_SETNX. Qed.

Lemma shrinks_expire t (r : R) : shrinks r (expire_keys t r).
Proof.
  intros k _. rewrite zset_expire_keys, deadline_expire_keys.
  destruct (deadline r k) as [d|]; [|done]. by destruct (d <=? t).
Qed.

Lemma shrinks_range key lo hi (r : R) : shrinks r (ZREMRANGEBYSCORE key lo hi r).
Proof.
  intros k _. rewrite zset_ZREMRANGEBYSCORE, deadline_ZREMRANGEBYSCORE. split; [|by case_decide].
  intros raw s. case_decide; [|done]. by intros [? _]%map_lookup_filter_Some.
Qed.

Lemma ratelimit_not_work ch : ¬ work_key (ratelimit_key ch).
Proof. intros [Hk|(c & [Hk|Hk])]; discriminate Hk. Qed.

Lemma shrinks_ZADD ch s m (r : R) : shrinks r (ZADD (ratelimit_key ch) s m r).
Proof.
  intros k Hk. rewrite zset_ZADD, deadline_ZADD, decide_False; [done|].
  intros <-. by apply ratelimit_not_work in Hk.
Qed.

Lemma shrinks_EXPIRE ch now ttl (r : R) : shrinks r (EXPIRE (ratelimit_key ch) now ttl r).
Proof.
  intros k Hk. rewrite zset_EXPIRE, deadline_EXPIRE, decide_False; [done|].
  intros [<- _]. by apply ratelimit_not_work in Hk.
Qed.

Lemma shrinks_entries ch now rnd n : ∀ i (r : R), shrinks r (add_entries (ratelimit_key ch) now rnd i n r).
Proof. induction n as [|n IH]; intros i r; cbn [add_entries]; [done|]. etransitivity; [apply shrinks_ZADD|apply IH]. Qed.

Lemma shrinks_script ch limit window now t rnd (r : R) :
  shrinks r (rateLimitScript (ratelimit_key ch) limit window now t rnd r).2.
Proof.
  unfold rateLimitScript. cbv zeta. destruct (_ <? limit); cbn [snd]; [|apply shrinks_range].
  etransitivity; [apply shrinks_range|]. etransitivity; [apply shrinks_ZADD|apply shrinks_EXPIRE].
Qed.

Lemma shrinks_batch_script ch limit window now count t rnd (r : R) :
  shrinks r (rateLimitBatchScript (ratelimit_key ch) limit window now count t rnd r).2.
Proof.
  unfold rateLimitBatchScript. cbv zeta. destruct (_ <=? 0); cbn [snd]; [apply shrinks_range|].
  etransitivity; [apply shrinks_range|]. etransitivity; [apply shrinks_entries|apply shrinks_EXPIRE].
Qed.

(** A placed member may be added. *)
Lemma wire_ok_ZADD key s raw (r : R) : placed key raw → wire_ok r → wire_ok (ZADD key s raw r).
Proof.
  intros Hpl [Hp Ht]. split; [|intros k Hk; by rewrite deadline_ZADD; apply Ht].
  intros k x s' Hk. rewrite zset_ZADD. case_decide as E; [subst k|by apply Hp].
  intros [[<- _]|[_ Hs]]%lookup_insert_Some; [done|by eapply Hp].
Qed.

Lemma wire_ok_ZADDs entries : ∀ r : R,
  Forall (λ e : string * Z * string, placed e.1.1 e.2) entries → wire_ok r → wire_ok (zadd_all entries r).
Proof.
  induction entries as [|[[key s] raw] es IH]; intros r Hes Hr; cbn [zadd_all]; [done|].
  apply Forall_cons in Hes as [He Hes]. apply IH; [done|]. by apply wire_ok_ZADD.
Qed.

Lemma exec_redis_wire {X} (c : rcmd X) t lua (r : R) :
  wire_command c → wire_ok r → wire_ok (exec_redis c t lua r).2 ∧ wire_reply c (exec_redis c t lua r).1.
Proof.
  intros Hc Hr. destruct c; cbn [exec_redis fst snd wire_command wire_reply] in *.
  - split; [by apply wire_ok_ZADD|done].
  - split; [by apply wire_ok_ZADDs|done].
  - split; [exact (shrinks_ok _ _ (shrinks_ZPOPMIN _ _ _) Hr)|]. intros Hk. rewrite ZPOPMIN_popped.
    apply Forall_forall. intros [raw s] Hin. apply (wk_placed _ Hr key raw s Hk), sorted_entries_lookup.
    apply list_elem_of_lookup in Hin as [i [Hi _]%lookup_take_Some]. by apply list_elem_of_lookup_2 in Hi.
  - split; [exact (shrinks_ok _ _ (shrinks_ZREM _ _ _) Hr)|done].
  - split; [done|]. intros Hk. apply Forall_forall. intros raw (s & Hs & _)%range_members. by apply (wk_placed _ Hr key raw s).
  - split; [exact (shrinks_ok _ _ (shrinks_SETNX _ _ _ _) Hr)|done].
  - destruct Hc as [ch ->]. split; [|done]. refine (shrinks_ok _ _ _ Hr). etransitivity; [apply shrinks_expire|apply shrinks_script].
  - destruct Hc as [ch ->]. split; [|done]. refine (shrinks_ok _ _ _ Hr). etransitivity; [apply shrinks_expire|apply shrinks_batch_script].
Qed.

(** *** The tables *)

Lemma typed_update us P f db :
  (∀ n, stored n → stored (f n)) → rows_typed db →
  rows_typed (set_notifications (update_ids us P f (notifications db)) db).
Proof. intros Hf Ht k n' (n & Hn & [->|(_ & _ & ->)])%lookup_update_ids_inv; [|apply Hf]; by eapply Ht. Qed.

Lemma typed_write (r : result error DB) db :
  (∀ db', r = Ok db' → rows_typed db') → rows_typed db → rows_typed (write_result r db).2.
Proof. intros Hr Ht. destruct r as [db'|]; [by apply Hr|done]. Qed.

Lemma typed_status us st f db db' :
  update_status_where us st f db = Ok db' → (∀ n, stored n → stored (f n)) →
  rows_typed db → rows_typed db'.
Proof.
  unfold update_status_where. destruct (Status_Check st); [intros [= <-]; apply typed_update|].
  by destruct (existsb _ _); [|intros [= <-]].
Qed.

Lemma coerced_typed n row : row_typed n → coerce_notification n = Ok row → stored row.
Proof.
  intros (Hid & Ha & Hvars) Hc. unfold coerce_notification in Hc. do 9 bind_ok Hc.
  destruct (_ && _ && _); [|done]. injection Hc as <-.
  match goal with He : admit_value (pg_jsonb _) = Ok ?v |- _ => apply admit_value_Ok in He; rename He into Hj end.
  split; [|exact (stored_readable _ _ Hj Hvars)]. split; [exact Hid|]. split; [|exact (pg_jsonb_kind _ _ Hj Hvars)].
  cbn.
  match goal with He : admit_value (pg_int4 (n_Attempts n)) = Ok ?a |- _ => rename He into Hi end.
  apply admit_value_Ok in Hi. unfold pg_int4 in Hi. destruct (_ && _); [|done]. injection Hi as <-. exact Ha.
Qed.

Lemma typed_insert n db db' : insert_notification n db = Ok db' → row_typed n → rows_typed db → rows_typed db'.
Proof.
  intros Hi Hn Ht. unfold insert_notification in Hi. bind_ok Hi.
  destruct (_ || _); [done|]. destruct (fk_ok _ _); [|done]. injection Hi as <-.
  intros k m. cbn [notifications set_notifications].
  intros [[_ <-]|[_ Hm]]%lookup_insert_Some; [by eapply coerced_typed|by eapply Ht].
Qed.

Lemma typed_inserts ns : ∀ db db',
  insert_notifications ns db = Ok db' → Forall row_typed ns → rows_typed db → rows_typed db'.
Proof.
  induction ns as [|n ns IH]; intros db db' Hi Hns Ht; cbn in Hi; [by injection Hi as <-|].
  apply Forall_cons in Hns as [Hn Hns]. apply result_bind_Ok in Hi as (db1 & H1' & H2').
  eapply IH; [exact H2'|done|]. by eapply typed_insert.
Qed.

Lemma typed_sent now id m db db' : mark_sent now id m db = Ok db' → rows_typed db → rows_typed db'.
Proof. unfold mark_sent. intros Hm. bind_ok Hm. injection Hm as <-. by apply typed_update. Qed.

Lemma typed_sent_batch now rows : ∀ db db', mark_sent_batch now rows db = Ok db' → rows_typed db → rows_typed db'.
Proof.
  induction rows as [|[id m] rows IH]; intros db db' Hm Ht; cbn in Hm; [by injection Hm as <-|].
  apply result_bind_Ok in Hm as (db1 & H1' & H2'). eapply IH; [exact H2'|]. by eapply typed_sent.
Qed.

(** The statements' part of the contract. *)
Lemma rows_typed_sql {X} (q : sql X) now db :
  wire_query q → rows_typed db → rows_typed (exec_sql q now db).2.
Proof.
  intros Hq Ht. destruct q; cbn [exec_sql snd wire_query] in *; try exact Ht; try (by apply typed_update);
    try (apply typed_write; [intros db' Hr|exact Ht]).
  - by eapply typed_insert.
  - by eapply typed_inserts.
  - by eapply typed_status.
  - bind_ok Hr. bind_ok Hr. eapply typed_status; [exact Hr| |done]. intros n ((Hid & _ & Hvars) & Hread). split; [|exact Hread].
    split; [exact Hid|]. split; [|exact Hvars].
    apply admit_value_Ok in E0. unfold pg_int4 in E0. destruct (_ && (_ <? _)) eqn:Eb; [|done].
    injection E0 as <-. apply andb_true_iff in Eb as [_ Eb%Z.ltb_lt]. by split.
  - by eapply typed_sent.
  - by eapply typed_sent_batch.
  - destruct (notifications db !! id) as [n|] eqn:E; [|done]. destruct (claimable n); [|done]. cbn [snd].
    rewrite (insert_update_ids id (touch_status now StatusProcessing) (notifications db) n E). by apply typed_update.
  - by eapply typed_status.
  - unfold insert_template in Hr. bind_ok Hr. destruct (_ || _); [done|]. by injection Hr as <-.
  - unfold update_template in Hr. destruct (templates db !! id); [bind_ok Hr; destruct (name_taken _ _ _); [done|]|];
      by injection Hr as <-.
  - by destruct (template_referenced id db).
  - unfold insert_dead_letter in Hr. bind_ok Hr. bind_ok Hr. destruct (bool_decide _); [done|].
    destruct (bool_decide _); [|done]. by injection Hr as <-.
Qed.

Lemma rows_where_typed P db n : rows_typed db → n ∈ rows_where P db → row_typed n.
Proof.
  intros Ht [_ Hn]%list_elem_of_filter. apply list_elem_of_fmap in Hn as ([k m] & -> & Hm).
  apply pg_scan_elem in Hm. by eapply Ht.
Qed.

Lemma exec_sql_rows {X} (q : sql X) now db a :
  rows_typed db → (exec_sql q now db).1 = Ok a → wire_rows q a.
Proof.
  intros Ht. destruct q; cbn [wire_rows]; try done.
  - cbn [exec_sql fst]. intros [= <-]. apply Forall_forall. intros n Hn.
    apply elem_of_take in Hn as (i & Hi & _). apply list_elem_of_lookup_2 in Hi.
    rewrite order_asc_perm in Hi. by eapply rows_where_typed.
  - cbn [exec_sql]. destruct (notifications db !! id) as [m|] eqn:Hm; [|by intros [= <-] n].
    destruct (claimable m); [|by intros [= <-] n]. intros [= <-] n [= <-]. by apply (Ht id m).
  - cbn [exec_sql fst]. intros [= <-]. apply Forall_forall. intros n Hn.
    apply list_elem_of_fmap in Hn as (m & -> & Hm).
    apply list_elem_of_fmap in Hm as ([k m'] & -> & [_ Hm]%list_elem_of_filter).
    apply pg_scan_elem in Hm. by apply (Ht k m').
Qed.

(** *** The system *)

Definition wire_stores (db : DB) (r : R) : Prop := db_wf db ∧ rows_typed db ∧ wire_ok r.
Definition wire_inv : Invariant := mkInvariant wire_stores (λ _ : Proc, True).

(** The generator of identifiers makes UUIDs. *)
Definition uuids_ok : Prop := ∀ i, is_uuid (e_uuid env i).

#[export] Instance wire_upheld : uuids_ok → Upholds env wire_contract wire_inv.
Proof.
  intros Huu X e w [(Hwf & Ht & Hr) _] He. pose proof (handle_db_wf env e w Hwf) as Hwf'.
  destruct e; try (split; [split; [|done]; done|done]).
  - cbn [handle] in *. pose proof (rows_typed_sql q (e_now env (w_pos w)) (w_db w) He Ht) as Ht'.
    pose proof (exec_sql_rows q (e_now env (w_pos w)) (w_db w)) as Ha. revert Hwf' Ht' Ha.
    destruct (e_fault env (w_pos w)) as [|m|m]; cbn [faulty];
      destruct (exec_sql q _ (w_db w)) as [r db]; cbn [fst snd]; intros Hwf' Ht' Ha;
      (split; [by split|]); intros a Hx; cbn in Hx; [by apply Ha|done..].
  - cbn [handle] in *. pose proof (exec_redis_wire c (e_now env (w_pos w)) (e_lua env (w_pos w)) (w_redis w) He Hr) as [Hr' Ha].
    destruct (e_fault env (w_pos w)) as [|m|m]; cbn [faulty];
      destruct (exec_redis c _ _ (w_redis w)) as [a rd]; cbn [fst snd] in *;
      (split; [by split|]); intros a' Hx; cbn in Hx; [by injection Hx as <-|done..].
  - split; [by split|apply Huu].
  - split; [|done]. split; [|done]. cbn [handle]. by destruct (exec_cb _ _ _).
  - split; [|done]. split; [|done]. cbn [handle]. by destruct (exec_hub _ _).
  - split; [|done]. split; [|done]. cbn [handle]. by destruct (incr _ _ _).
  - split; [|done]. split; [|done]. cbn [handle]. by destruct (exec_cache _ _).
Qed.
End stores.

Section system.
Context {R : Type} `{RedisLaws R} `{LuaNumber} `{PgLaws} `{TextTemplate} `{UUIDLaws} `{WebsocketLib}.
Variable env : Env.

(** The goroutines of [app_program], whose tasks are given messages of one channel, as
    what dispatchers submit is ([meets_dispatchLoop]). *)
Inductive wired_program : prog unit → Prop :=
| wired_request mc hijack r : wired_program (_ ← NewRouter mc hijack r; mret tt)
| wired_dispatcher ticks fuel d ch : wired_program (_ ← dispatchLoop ticks fuel d ch; mret tt)
| wired_task p ch msgs : ProviderWired (p_provider p) → Forall (message_of ch) msgs →
    wired_program (ProcessBatch p msgs)
| wired_single p msg : ProviderWired (p_provider p) → message_ok msg → wired_program (Process p msg)
| wired_dispatch d ch : ProviderWired (p_provider (di_processor d)) → wired_program (dispatch_and_process d ch)
| wired_scheduler ticks fuel : wired_program (Scheduler_Start ticks fuel).

Lemma message_of_ok ch msgs : Forall (message_of ch) msgs → Forall message_ok msgs.
Proof. intros Hms. eapply Forall_impl; [exact Hms|]. by intros m [? _]. Qed.

Lemma wired_dispatch_and_process d ch :
  ProviderWired (p_provider (di_processor d)) → wired (dispatch_and_process d ch).
Proof.
  intros Hp. unfold dispatch_and_process. eapply meets_bind; [apply meets_dispatch|]. intros msgs Hms.
  by apply wired_ProcessBatch, (message_of_ok ch).
Qed.

Lemma wired_program_wired q : wired_program q → wired q.
Proof.
  destruct 1.
  - apply meets_seq; [apply wired_NewRouter|]. intros out. exact I.
  - apply meets_seq; [eapply meets_any, meets_dispatchLoop|]. intros sub. exact I.
  - by apply wired_ProcessBatch, (message_of_ok ch).
  - by apply wired_Process.
  - by apply wired_dispatch_and_process.
  - apply wired_Scheduler_Start.
Qed.

(** The sets of messages are typed in every execution. *)
Lemma wire_star c c' facts :
  uuids_ok env → wire_stores (c_db c) (c_redis c) → Forall (λ t, wired_program t.2) (c_threads c) →
  star (step_of env wired_program) (c, []) (c', facts) → wire_stores (c_db c') (c_redis c').
Proof.
  intros Huu Hst Hth Hstar. pose proof (wire_upheld env Huu) as Hup.
  apply (ob_stores wire_contract wire_inv).
  refine (obliged_star env wire_contract wire_inv _ (_, _) (_, _) wired_program_wired _ _ Hstar).
  { done. }
  split; [exact Hst|by apply Forall_forall|]. eapply Forall_impl; [exact Hth|]. intros t. apply wired_program_wired.
Qed.

(** A run alone keeps them too, and ends as the program's contract says. *)
Lemma wire_run {A} (q : prog A) (Q : A → Prop) (w : World R) :
  uuids_ok env → wire_stores (w_db w) (w_redis w) → meets wire_contract q Q →
  wire_stores (w_db (run env q w).2) (w_redis (run env q w).2) ∧
  match (run env q w).1 with Some a => Q a | None => True end.
Proof.
  intros Huu Hst Hq. pose proof (wire_upheld env Huu) as Hup.
  destruct (meets_run env wire_contract wire_inv q Q w Hq (conj Hst I)) as [[Hst' _] Ha]. by split.
Qed.

(** What the other components ask of the queues. *)
Lemma wire_sets_produced (r : R) : wire_ok r → sets_produced r.
Proof.
  intros Hr. assert (Hk : ∀ key, work_key key → set_produced r key).
  { intros key Hk raw s Hs. destruct (wk_placed _ Hr key raw s Hk Hs) as (msg & ? & ? & _). by exists msg. }
  split; [by apply Hk|]. intros ch _. apply Hk. apply work_processing.
Qed.

Lemma wire_canonical (r : R) ch : wire_ok r → canonical (zset r (queue_key ch)).
Proof.
  intros Hr raw s Hs. destruct (wk_placed _ Hr _ raw s (work_queue ch) Hs) as (msg & ? & ? & _). by exists msg.
Qed.

Lemma wire_channel (r : R) ch m raw s :
  wire_ok r → message_ok m → Marshal m = Ok raw → zset r (queue_key ch) !! raw = Some s → m_Channel m = ch.
Proof.
  intros Hr Hok Hm Hs. destruct (wk_placed _ Hr _ raw s (work_queue ch) Hs) as (m' & Hok' & Hm' & Hch).
  assert (Hu : Ok (E := error) m = Ok m').
  { by rewrite <- (Unmarshal_Marshal_message m raw Hok Hm), <- (Unmarshal_Marshal_message m' raw Hok' Hm'). }
  injection Hu as ->. apply Hch. by left.
Qed.
End system.

(** ** The reference stores *)

Lemma wire_ok_empty `{UUIDLaws} `{TextTemplate} : wire_ok empty_RefRedis.
Proof. split; [|done]. intros key raw s _ Hs. discriminate Hs. Qed.

Lemma rows_typed_empty `{PgEngine} : rows_typed empty_DB.
Proof. intros k n Hn. discriminate Hn. Qed.
