(* ===== verification/Timing.v ===== *)
(** * How long things wait

    The timing contract of the workers: they create no rows; only a failed attempt puts
    a message into the delayed set, due at most the longest retry delay [D] from now;
    the scheduler's lock is taken for five seconds at most; and the rate limiter is
    charged at the present time.  It is stated at a horizon [T] that the clock does not pass;
    [timed_run] uses it at the moment a run ends.  So once the longest of these waits
    has passed, every delayed retry is due, the lock is free and the limiter grants a
    full batch. *)
From S2P Require Import Prelude Float64 GoLib GoJson GoTime Domain Uuid Retry Redis Postgres RateLimiter CircuitBreaker Hub.
From S2P Require Import Metrics TemplateEngine Effects Contract Reference Queue Provider Repository Lifecycle.
From S2P Require Import Processor Scheduler Dispatcher Handlers Templates Api Refinement Wire.
From Stdlib Require Import ZArith Lia.
From stdpp Require Import base numbers list strings gmap fin_maps.

Open Scope Z_scope.

(** ** The contract *)

Section contract.
Context `{TextTemplate} `{UUIDLib}.
Variables T D : Z.

Definition timing_command {X} (c : rcmd X) : Prop :=
  match c with
  | RZAdd key s _ => work_key key ∧ (key = retryDelayedKey → s ≤ f64 (UnixNano (T + D)))
  | RZAddPipe entries => Forall (λ e, work_key e.1.1 ∧ e.1.1 ≠ retryDelayedKey) entries
  | RSetNX _ ttl => ttl ≤ schedulerLockTTL
  | RRateLimit key _ _ now | RRateLimitBatch key _ _ now _ => (∃ ch, key = ratelimit_key ch) ∧ 0 ≤ now ≤ T
  | _ => True
  end.

Definition timing_asks {X} (e : eff X) : Prop :=
  match e with
  | ERedis c => timing_command c
  | ESql (insertNotification _) | ESql (insertNotificationBatch _) => False
  | _ => True
  end.

Definition timing_answers {X} (e : eff X) : X → Prop :=
  match e in eff A return A → Prop with
  | ENow => λ t, in_int64 t ∧ 0 ≤ t ≤ T
  | ERand => valid_rand
  | _ => λ _, True
  end.

Definition timing_contract : Contract := mkContract (λ X, timing_asks) (λ X, timing_answers) True.

(** It relies on the wire contract for the rows it claims. *)
Definition timely {A} (p : prog A) : Prop := meets (under wire_contract timing_contract) p (λ _, True).
End contract.

(** ** Programs *)

Section programs.
Context `{TextTemplate} `{UUIDLaws}.
Variables T D : Z.
Hypothesis HD : in_int64 (T + D).

Abbreviation timely := (timely T D) (only parsing).

(** An effect without conditions. *)
Lemma timely_plain {X} (e : eff X) : timing_asks T D e → timely (trigger e).
Proof. by split. Qed.

Ltac timely_step :=
  first
    [ exact I
    | apply meets_seq; [|intros ?]
    | apply timely_plain; exact I
    | progress cbv beta iota zeta
    | match goal with
      | |- meets _ (match ?x with _ => _ end) _ => destruct x
      | |- meets _ (if ?x then _ else _) _ => destruct x
      end ].
Ltac solve_timely := unfold Timing.timely; repeat timely_step.

Lemma timely_ack msgs : timely (ack msgs).
Proof.
  unfold ack, Ack. destruct msgs as [|m msgs]; [exact I|]. apply meets_seq; [|intros _; exact I].
  destruct (marshal_all _); [by apply timely_plain|exact I].
Qed.

Lemma timely_metrics k ch : timely (metrics_incr k ch).
Proof. split; [exact I|]. intros [u|] _; exact I. Qed.

Lemma timely_Enqueue msg : timely (Enqueue msg).
Proof.
  unfold Enqueue. destruct (Marshal msg) as [raw|]; [|exact I].
  apply meets_seq; [by apply timely_plain|]. intros now. apply timely_plain.
  split; [apply work_queue|discriminate].
Qed.

Lemma timely_EnqueueDelayed msg d : 0 ≤ d ≤ D → timely (EnqueueDelayed msg d).
Proof.
  intros Hd. unfold EnqueueDelayed. destruct (Marshal msg) as [raw|]; [|exact I].
  split; [exact I|]. intros now [_ [Hr Hle]]. apply timely_plain.
  split; [apply work_delayed|]. intros _. apply UnixNano_f64_mono; [lia| |done]. unfold in_int64 in *. lia.
Qed.

(** *** Queue and scheduler *)

Lemma decode_results_keys key dl results msgs pipe :
  decode_results key dl results = Ok (msgs, pipe) → Forall (λ e, e.1.1 = key) pipe.
Proof.
  revert msgs pipe. induction results as [|[raw s] results IH]; intros msgs pipe; cbn [decode_results].
  - by intros [= <- <-].
  - destruct (Unmarshal raw) as [msg|]; [|done].
    destruct (decode_results key dl results) as [[ms cs]|] eqn:E; [|done]. intros [= <- <-].
    constructor; [done|by eapply IH].
Qed.

Lemma timely_DequeueBatch c ch count : timely (DequeueBatch c ch count).
Proof.
  unfold DequeueBatch. apply meets_seq; [by apply timely_plain|]. intros [[|e results]|]; [exact I| |exact I].
  apply meets_seq; [by apply timely_plain|]. intros now.
  destruct (decode_results _ _ _) as [[msgs pipe]|] eqn:Hd; [|exact I]. apply decode_results_keys in Hd.
  apply meets_seq; [|intros r; exact I]. apply timely_plain.
  refine (Forall_impl _ _ _ Hd _). intros x ->. split; [apply work_processing|discriminate].
Qed.

Lemma timely_dispatch d ch : timely (dispatch d ch).
Proof.
  unfold dispatch. apply meets_seq.
  { unfold AllowN. destruct (_ <=? 0); [exact I|]. split; [exact I|]. intros now [_ [Hr Hnow]].
    apply meets_seq; [|intros r; exact I]. apply timely_plain. split; [by exists ch|].
    unfold UnixNano. by rewrite wrap64_id. }
  intros [n|]; [|exact I]. destruct (n =? 0); [exact I|]. apply meets_seq; [apply timely_DequeueBatch|].
  intros [[|m msgs]|]; [exact I| |exact I]. apply meets_seq; [|intros _; exact I].
  apply meets_for_each. intros ? _. apply timely_metrics.
Qed.

Lemma timely_requeue_all key ms : timely (for_each ms (requeue_member key)).
Proof.
  apply meets_for_each. intros raw _. unfold requeue_member. destruct (Unmarshal raw) as [msg|]; [|exact I].
  apply meets_seq; [apply timely_Enqueue|]. intros r. solve_timely.
Qed.

Lemma timely_poll fuel : timely (poll fuel).
Proof.
  assert (Hloop : timely (poll_loop fuel)).
  { induction fuel as [|fuel IH]; cbn [poll_loop]; [exact I|].
    apply meets_seq; [unfold NotificationRepo_GetPendingScheduled; solve_timely|].
    intros [[|n ns]|]; [exact I| |exact I]. apply meets_seq; [|intros _; exact IH].
    apply meets_for_each. intros m _. unfold schedule_one. apply meets_seq; [apply timely_Enqueue|].
    intros r. unfold NotificationRepo_UpdateStatus. solve_timely. }
  unfold poll. apply meets_seq; [by apply timely_plain|]. intros [[]|]; [|exact I..].
  apply meets_seq; [exact Hloop|]. intros [[]|]; [|exact I]. apply meets_seq.
  { unfold promoteDelayedRetries. apply meets_seq; [by apply timely_plain|]. intros now.
    apply meets_seq; [by apply timely_plain|]. intros [ms|]; [apply timely_requeue_all|exact I]. }
  intros _. apply meets_seq; [|intros _; exact I].
  unfold reclaimExpiredProcessing. apply meets_seq; [by apply timely_plain|]. intros now.
  apply meets_for_each. intros ch _. unfold reclaim_channel.
  apply meets_seq; [by apply timely_plain|]. intros [ms|]; [apply timely_requeue_all|exact I].
Qed.

(** *** Provider and processor *)

Class ProviderTimely (provider : Provider) : Prop := Send_timely n : timely (Send provider n).

#[export] Instance webhook_Client_timely : ProviderTimely webhook_Client.
Proof. intros n. cbn [Send webhook_Client]. unfold Client_Send. solve_timely. Qed.

#[export] Instance breaker_Provider_timely provider t :
  ProviderTimely provider → ProviderTimely (breaker_Provider provider t).
Proof.
  intros Hp n. assert (Hdo : timely (doSend provider n)).
  { unfold doSend. apply meets_seq; [apply Hp|]. intros r. solve_timely. }
  cbn [Send breaker_Provider]. unfold CircuitBreaker_Send. apply meets_seq; [by apply timely_plain|].
  intros st. destruct st.1; try exact Hdo. apply meets_seq; [by apply timely_plain|]. intros now.
  destruct (_ <=? t); [exact I|]. apply meets_seq; [by apply timely_plain|]. intros _. exact Hdo.
Qed.

Context (p : Processor) `{!ProviderTimely (p_provider p)}.
Hypothesis Hdelays : delays_within D (p_retrier p).

Lemma timely_handleFailure n msg err : row_typed n → timely (handleFailure p n msg err).
Proof.
  intros Hn. destruct (next_attempts n Hn) as [Hw Ha]. unfold handleFailure. rewrite Hw. cbv zeta.
  apply meets_seq; [apply timely_metrics|]. intros _. destruct (_ <=? _).
  - apply meets_seq; [by apply timely_plain|]. intros _.
    apply meets_seq; [unfold DeadLetterHandler_Handle; solve_timely|]. intros _.
    apply meets_seq; [apply timely_ack|]. intros _. by apply timely_plain.
  - apply meets_seq; [by apply timely_plain|]. intros [?|]; [|exact I].
    split; [exact I|]. intros rnd [_ Hrnd]. apply meets_seq; [apply timely_EnqueueDelayed, Hdelays; [lia|done]|].
    intros [?|]; [|exact I]. apply meets_seq; [apply timely_ack|]. intros _. by apply timely_plain.
Qed.

Lemma timely_send_each mm ns : Forall row_typed ns → timely (send_each p mm ns).
Proof.
  induction 1 as [|n ns Hn _ IH]; cbn [send_each]; [exact I|]. apply meets_seq; [apply Send_timely|]. intros [pid|err].
  - apply meets_seq; [apply timely_metrics|]. intros _. apply meets_seq; [exact IH|]. intros rest. exact I.
  - apply meets_seq; [by apply timely_handleFailure|]. intros _. exact IH.
Qed.

Lemma timely_ProcessBatch msgs : timely (ProcessBatch p msgs).
Proof.
  unfold ProcessBatch, NotificationRepo_GetAndMarkProcessingBatch. destruct msgs as [|m msgs]; [exact I|].
  apply (meets_bind _ _ _ (λ r, ∀ ns, r = Ok ns → Forall row_typed ns)).
  { split; [exact I|]. intros x [Hx _] ns. destruct x as [l|]; [|done]. intros [= <-]. by apply Hx. }
  intros [[|n ns]|] Hns; [exact I| |exact I]. apply meets_seq; [by apply timely_send_each, Hns|]. intros sent.
  apply meets_seq; [|intros _; apply meets_seq; [apply timely_ack|intros _; destruct sent; solve_timely]].
  destruct sent as [|e sent]; [exact I|]. unfold NotificationRepo_UpdateBatchSent. solve_timely.
Qed.
End programs.

(** ** The stores *)

Section stores.
Context {R : Type} `{RedisLaws R} `{LuaNumber} `{PgLaws} `{TextTemplate} `{UUIDLaws}.
Variable D : Z.

(** At the time [T]: no retry is due later than [D] from now, and the scheduler's lock
    does not last longer than its time to live, and no grant is from the future. *)
Record timed (T : Z) (r : R) : Prop := {
  tm_grants ch x s : zset r (ratelimit_key ch) !! x = Some s → 0 ≤ s ≤ f64 T;
  tm_delayed raw s : zset r retryDelayedKey !! raw = Some s → s ≤ f64 (UnixNano (T + D));
  tm_lock d : lock_until r schedulerLockKey = Some d → d ≤ T + schedulerLockTTL;
}.

Lemma timed_later T1 T2 r : T1 ≤ T2 → in_int64 (T1 + D) → in_int64 (T2 + D) → timed T1 r → timed T2 r.
Proof.
  intros Hle H1' H2' [Hg Hd Hl]. split.
  - intros ch x s Hs. specialize (Hg ch x s Hs). pose proof (f64_mono T1 T2 Hle). lia.
  - intros raw s Hs. etransitivity; [by eapply Hd|]. apply UnixNano_f64_mono; [lia|done..].
  - intros d Hs. specialize (Hl d Hs). lia.
Qed.

(** Server steps that add no retry and take no lock; [now] is when they charge the
    limiter. *)
Record quietly (now : Z) (r r' : R) : Prop := {
  qt_delayed raw s : zset r' retryDelayedKey !! raw = Some s → zset r retryDelayedKey !! raw = Some s;
  qt_lock : lock_until r' schedulerLockKey = lock_until r schedulerLockKey;
  qt_grants ch x s : zset r' (ratelimit_key ch) !! x = Some s →
    zset r (ratelimit_key ch) !! x = Some s ∨ s = f64 now;
}.

#[local] Instance quietly_preorder now : PreOrder (quietly now).
Proof.
  split; [intros r; split; [done|done|by left]|]. intros r1 r2 r3 [Hd12 Hl12 Hg12] [Hd23 Hl23 Hg23].
  split; [auto|congruence|]. intros ch x s Hs. destruct (Hg23 ch x s Hs) as [Hs2|?]; [by apply Hg12|by right].
Qed.

Lemma quietly_timed T now r r' : 0 ≤ now ≤ T → quietly now r r' → timed T r → timed T r'.
Proof.
  intros Hnow [Hz Hl Hq] [Hg Hd Hk]. split; [|intros raw s Hs; by eapply Hd, Hz|by rewrite Hl].
  intros ch x s Hs. destruct (Hq ch x s Hs) as [Hs' | ->]; [by eapply Hg|].
  split; [apply f64_nonneg_le; lia|apply f64_mono; lia].
Qed.

(** Steps that only take members out. *)
Lemma quietly_smaller now r r' :
  (∀ k x s, zset r' k !! x = Some s → zset r k !! x = Some s) →
  lock_until r' schedulerLockKey = lock_until r schedulerLockKey → quietly now r r'.
Proof. intros Hz Hl. split; [apply Hz|done|]. intros ch x s Hs. left. by apply Hz. Qed.

Lemma quietly_range now key lo hi (r : R) : quietly now r (ZREMRANGEBYSCORE key lo hi r).
Proof.
  apply quietly_smaller; [|apply lock_until_ZREMRANGEBYSCORE]. intros k x s. rewrite zset_ZREMRANGEBYSCORE.
  case_decide; [|done]. by intros [? _]%map_lookup_filter_Some.
Qed.

Lemma quietly_expire now t (r : R) : quietly now r (expire_keys t r).
Proof.
  apply quietly_smaller; [|apply lock_until_expire_keys]. intros k x s. rewrite zset_expire_keys.
  destruct (deadline r k) as [d|]; [|done]. by destruct (d <=? t).
Qed.

Lemma quietly_EXPIRE now ch t ttl (r : R) : quietly now r (EXPIRE (ratelimit_key ch) t ttl r).
Proof. apply quietly_smaller; [|by apply lock_until_EXPIRE]. intros k x s. by rewrite zset_EXPIRE. Qed.

Lemma quietly_grant now ch x (r : R) : quietly now r (ZADD (ratelimit_key ch) (f64 now) x r).
Proof.
  split; [|apply lock_until_ZADD|].
  - intros raw s. by rewrite zset_ZADD, decide_False.
  - intros c y s. rewrite zset_ZADD. case_decide; [|by left].
    intros [[_ <-]|[_ Hs]]%lookup_insert_Some; [by right|by left].
Qed.

Lemma quietly_entries now ch rnd n : ∀ i (r : R), quietly now r (add_entries (ratelimit_key ch) (f64 now) rnd i n r).
Proof.
  induction n as [|n IH]; intros i r; cbn [add_entries]; [reflexivity|].
  etransitivity; [apply quietly_grant|apply IH].
Qed.

Lemma quietly_script ch limit window now t rnd (r : R) :
  quietly now r (rateLimitScript (ratelimit_key ch) limit window now t rnd r).2.
Proof.
  unfold rateLimitScript. cbv zeta. destruct (_ <? limit); cbn [snd]; [|apply quietly_range].
  etransitivity; [apply quietly_range|]. etransitivity; [apply quietly_grant|apply quietly_EXPIRE].
Qed.

Lemma quietly_batch_script ch limit window now count t rnd (r : R) :
  quietly now r (rateLimitBatchScript (ratelimit_key ch) limit window now count t rnd r).2.
Proof.
  unfold rateLimitBatchScript. cbv zeta. destruct (_ <=? 0); cbn [snd]; [apply quietly_range|].
  etransitivity; [apply quietly_range|]. etransitivity; [apply quietly_entries|apply quietly_EXPIRE].
Qed.

Lemma timed_ZADD T key s raw (r : R) :
  work_key key → (key = retryDelayedKey → s ≤ f64 (UnixNano (T + D))) → timed T r → timed T (ZADD key s raw r).
Proof.
  intros Hk Hs [Hg Hd Hl]. split; [| |by rewrite lock_until_ZADD].
  - intros ch x s'. rewrite zset_ZADD, decide_False; [by apply Hg|]. intros ->. by apply ratelimit_not_work in Hk.
  - intros x s'. rewrite zset_ZADD. case_decide as E; [|by apply Hd].
    intros [[_ <-]|[_ Hx]]%lookup_insert_Some; [by apply Hs|by eapply Hd].
Qed.

Lemma timed_ZADDs T entries : ∀ r : R,
  Forall (λ e : string * Z * string, work_key e.1.1 ∧ e.1.1 ≠ retryDelayedKey) entries →
  timed T r → timed T (zadd_all entries r).
Proof.
  induction entries as [|[[key s] raw] es IH]; intros r Hes Hr; cbn [zadd_all]; [done|].
  apply Forall_cons in Hes as [[Hk Hne] Hes]. apply IH; [done|]. by apply timed_ZADD.
Qed.

Lemma exec_redis_timed {X} T (c : rcmd X) t lua (r : R) :
  0 ≤ t ≤ T → timing_command T D c → timed T r → timed T (exec_redis c t lua r).2.
Proof.
  intros Ht Hc Hr. destruct c; cbn [exec_redis snd timing_command] in *.
  - by apply timed_ZADD; [apply Hc..|].
  - by apply timed_ZADDs.
  - refine (quietly_timed T t _ _ Ht _ Hr). apply quietly_smaller; [|apply lock_until_ZPOPMIN].
    intros k x s. rewrite zset_ZPOPMIN. by case_decide.
  - refine (quietly_timed T t _ _ Ht _ Hr). apply quietly_smaller; [|apply lock_until_ZREM].
    intros k x s. rewrite zset_ZREM. by case_decide.
  - exact Hr.
  - destruct Hr as [Hg Hd Hl]. split.
    + intros ch x s. rewrite zset_SETNX. apply Hg.
    + intros raw s. rewrite zset_SETNX. apply Hd.
    + intros d. rewrite lock_until_SETNX. case_decide; [|apply Hl]. intros [= <-]. lia.
  - destruct Hc as [[ch ->] Hnow]. refine (quietly_timed T _ _ _ Hnow _ Hr).
    etransitivity; [apply quietly_expire|apply quietly_script].
  - destruct Hc as [[ch ->] Hnow]. refine (quietly_timed T _ _ _ Hnow _ Hr).
    etransitivity; [apply quietly_expire|apply quietly_batch_script].
Qed.

(** *** The rows *)

(** [db'] has no rows that [db] does not have. *)
Definition same_rows (db db' : DB) : Prop :=
  ∀ k, is_Some (notifications db' !! k) → is_Some (notifications db !! k).

Lemma same_rows_update us P f db : same_rows db (set_notifications (update_ids us P f (notifications db)) db).
Proof. intros k. cbn [notifications set_notifications]. by rewrite lookup_update_ids, fmap_is_Some. Qed.

Lemma same_rows_write (r : result error DB) db :
  (∀ db', r = Ok db' → same_rows db db') → same_rows db (write_result r db).2.
Proof. intros Hr. destruct r as [db'|]; [by apply Hr|by intros k]. Qed.

Lemma same_rows_refl db : same_rows db db.
Proof. by intros k. Qed.

Lemma same_rows_status us st f db db' : update_status_where us st f db = Ok db' → same_rows db db'.
Proof.
  unfold update_status_where. destruct (Status_Check st); [intros [= <-]; apply same_rows_update|].
  destruct (existsb _ _); [done|]. intros [= <-]. apply same_rows_refl.
Qed.

Lemma same_rows_sent now id m db db' : mark_sent now id m db = Ok db' → same_rows db db'.
Proof. unfold mark_sent. intros Hm. bind_ok Hm. injection Hm as <-. apply same_rows_update. Qed.

Lemma same_rows_sent_batch now rows : ∀ db db', mark_sent_batch now rows db = Ok db' → same_rows db db'.
Proof.
  induction rows as [|[id m] rows IH]; intros db db' Hm; cbn in Hm; [injection Hm as <-; apply same_rows_refl|].
  apply result_bind_Ok in Hm as (db1 & H1' & H2'). intros k Hk.
  by apply (same_rows_sent now id m db db1 H1'), (IH _ _ H2').
Qed.

Lemma exec_sql_same_rows {X} (q : sql X) now db :
  timing_asks 0 D (ESql q) → same_rows db (exec_sql q now db).2.
Proof.
  intros Hq. destruct q; cbn [exec_sql snd timing_asks] in *; try done; try apply same_rows_refl; try apply same_rows_update;
    try (apply same_rows_write; intros db' Hr).
  - by eapply same_rows_status.
  - bind_ok Hr. bind_ok Hr. by eapply same_rows_status.
  - by eapply same_rows_sent.
  - by eapply same_rows_sent_batch.
  - destruct (notifications db !! id) as [n|] eqn:E; [|apply same_rows_refl].
    destruct (claimable n); [|apply same_rows_refl]. cbn [snd].
    rewrite (insert_update_ids id (touch_status now StatusProcessing) (notifications db) n E). apply same_rows_update.
  - by eapply same_rows_status.
  - unfold insert_template in Hr. bind_ok Hr. destruct (_ || _); [done|]. injection Hr as <-. by intros k.
  - unfold update_template in Hr. destruct (templates db !! id); [bind_ok Hr; destruct (name_taken _ _ _); [done|]|];
      injection Hr as <-; by intros k.
  - intros k. by destruct (template_referenced id db).
  - unfold insert_dead_letter in Hr. bind_ok Hr. bind_ok Hr. destruct (bool_decide _); [done|].
    destruct (bool_decide _); [|done]. injection Hr as <-. by intros k.
Qed.

(** ** Runs *)

(** From the tables [db0] on. *)
Definition timing_inv (T : Z) (db0 : DB) : Invariant :=
  mkInvariant (λ db r, timed T r ∧ same_rows db0 db) (λ _ : Proc, True).

(** A clock that has not passed [T], and a fair source of draws. *)
Definition clock_until (T : Z) (env : Env) : Prop := ∀ i, in_int64 (e_now env i) ∧ 0 ≤ e_now env i ≤ T.
Definition draws_ok (env : Env) : Prop := ∀ i, valid_rand (e_rand env i).

Lemma timing_upheld T db0 env :
  clock_until T env → draws_ok env → Upholds env (timing_contract T D) (timing_inv T db0).
Proof.
  intros Hclock Hrand X e w [[Hr Hdb] _] He.
  assert (Hold : ∀ w', w_db w' = w_db w → w_redis w' = w_redis w → holds (timing_inv T db0) w').
  { intros w' Hd Hrd. split; [|exact I]. cbn. by rewrite Hd, Hrd. }
  destruct e; try (split; [by apply Hold|exact I]).
  - split; [|exact I]. split; [|exact I].
    pose proof (exec_sql_same_rows q (e_now env (w_pos w)) (w_db w) He) as Hq.
    pose proof (faulty_state (e_fault env (w_pos w)) (exec_sql q (e_now env (w_pos w))) (w_db w)) as Hf.
    cbn [handle]. destruct (faulty _ _ _) as [r db]. cbn [fst snd] in *. split; [exact Hr|].
    destruct Hf as [-> | ->]; [exact Hdb|]. intros k Hk. by apply Hdb, Hq.
  - split; [|exact I]. split; [|exact I]. cbn [handle].
    pose proof (exec_redis_timed T c (e_now env (w_pos w)) (e_lua env (w_pos w)) _ (proj2 (Hclock _)) He Hr) as Hr'.
    destruct (e_fault env (w_pos w)) as [|m|m]; cbn [faulty];
      destruct (exec_redis c _ _ (w_redis w)) as [a rd]; cbn [fst snd] in *; by split.
  - split; [by apply Hold|apply Hclock].
  - split; [by apply Hold|apply Hrand].
  - split; [|exact I]. apply Hold; cbn [handle]; by destruct (exec_cb _ _ _).
  - split; [|exact I]. apply Hold; cbn [handle]; by destruct (exec_hub _ _).
  - split; [|exact I]. apply Hold; cbn [handle]; by destruct (incr _ _ _).
  - split; [|exact I]. apply Hold; cbn [handle]; by destruct (exec_cache _ _).
Qed.

(** The clock stops at position [j]; a run that ends before does not notice. *)
Definition stopped_at (j : nat) (env : Env) : Env := {|
  e_now i := Z.min (e_now env i) (e_now env j);
  e_fault := e_fault env; e_uuid := e_uuid env; e_rand := e_rand env;
  e_http := e_http env; e_lua := e_lua env; e_done := e_done env |}.

Variable env : Env.

Lemma handle_stopped j {X} (e : eff X) (w : World R) :
  monotone_clock env → (w_pos w ≤ j)%nat → handle (stopped_at j env) e w = handle env e w.
Proof.
  intros [Hm _] Hj. destruct e; cbn [handle stopped_at e_now e_fault e_uuid e_rand e_http e_lua e_done];
    by rewrite ?(Z.min_l (e_now env (w_pos w)) _ (Hm _ _ Hj)).
Qed.

Lemma run_stopped j {A} (q : prog A) (w : World R) :
  monotone_clock env → (w_pos (run env q w).2 ≤ j)%nat → run (stopped_at j env) q w = run env q w.
Proof.
  intros Hm. revert w. induction q as [a|X e k IH|]; intros w Hj; simpl in *; [done| |done].
  pose proof (handle_pos env e w) as Hp. rewrite handle_stopped; [| |].
  - destruct (handle env e w) as [x w']. by apply IH.
  - done.
  - destruct (handle env e w) as [x w']. cbn [snd] in Hp. pose proof (run_pos env (k x) w'). lia.
Qed.

(** A run leaves nothing that waits longer than it may, counted from its end, and no
    new rows. *)
Lemma timed_run {A} (q : prog A) (w : World R) :
  monotone_clock env → 0 ≤ e_now env 0 → uuids_ok env → draws_ok env →
  wired q → (∀ T, in_int64 (T + D) → timely T D q) →
  let T := e_now env (w_pos (run env q w).2) in
  in_int64 (e_now env (w_pos w) + D) → in_int64 (T + D) →
  wire_stores (w_db w) (w_redis w) → timed (e_now env (w_pos w)) (w_redis w) →
  timed T (w_redis (run env q w).2) ∧ same_rows (w_db w) (w_db (run env q w).2).
Proof.
  intros Hm H0' Huu Hrand Hwired Htimely T Hin0 HinT Hst Htm.
  assert (HleT : e_now env (w_pos w) ≤ T) by (apply Hm, run_pos).
  set (j := w_pos (run env q w).2) in *. rewrite <- (run_stopped j q w Hm (le_n _)).
  assert (Hclock : clock_until T (stopped_at j env)).
  { intros i. cbn. destruct Hm as [Hmn Hr]. pose proof (Hr i) as Hi. pose proof (Hr j) as Hj.
    pose proof (Hmn 0%nat i (Nat.le_0_l _)). pose proof (Hmn 0%nat j (Nat.le_0_l _)). unfold in_int64, T in *. lia. }
  pose proof (wire_upheld (stopped_at j env) Huu) as Hup.
  pose proof (timing_upheld T (w_db w) (stopped_at j env) Hclock Hrand) as Hup2.
  pose proof (upholds_joint _ _ _ _ _ Hup Hup2) as Hup3.
  destruct (meets_run (stopped_at j env) _ _ q _ w (meets_joint _ _ q _ _ Hwired (Htimely T HinT))) as [[[_ Ht'] _] _].
  - split; [split; [exact Hst|]|done]. split; [by apply (timed_later (e_now env (w_pos w)))|by intros k].
  - exact Ht'.
Qed.
End stores.
