(* ===== verification/System.v ===== *)
(** * The system: API and workers together

    What follows from the components jointly: a pass of a worker over what it dequeued
    settles every row of the batch that can be claimed, a 201 leaves the row and its
    message where the workers find them, and, as runs of [run_schedule] in which
    goroutines of different processes take turns effect by effect, what their
    interleavings and crashes can do to a notification. *)
From S2P Require Import Prelude Float64 GoLib GoJson GoTime Domain Retry Uuid Redis Postgres RateLimiter.
From S2P Require Import CircuitBreaker Hub Metrics TemplateEngine Effects Reference Queue Provider Repository Processor.
From S2P Require Import Scheduler Dispatcher Handlers.
From Stdlib Require Import ZArith Lia.
From stdpp Require Import base numbers list strings gmap fin_maps.

Open Scope Z_scope.

(** ** What no program changes *)

Section frames.
Context {R : Type} `{RedisServer R} `{LuaNumber} `{PgEngine} `{TextTemplate}.
Variable env : Env.

(** An invariant of the process memory that every effect keeps. *)
Lemma run_proc_invariant (I : Proc → Prop) {A} (q : prog A) (w : World R) :
  (∀ X (e : eff X) (w : World R), I (w_proc w) → I (w_proc (handle env e w).2)) →
  I (w_proc w) → I (w_proc (run env q w).2).
Proof.
  intros Hstep. revert w. induction q as [a|X e k IH|]; intros w Hw; simpl; try done.
  specialize (Hstep X e w Hw). destruct (handle env e w) as [x w']. by apply IH.
Qed.

Lemma run_keeps_metrics_wf {A} (q : prog A) (w : World R) :
  metrics_wf (p_metrics (w_proc w)) → metrics_wf (p_metrics (w_proc (run env q w).2)).
Proof.
  apply (run_proc_invariant (λ pr, metrics_wf (p_metrics pr))). intros X e w'. apply handle_metrics_wf.
Qed.

Lemma exec_cb_timeout {A} (op : cb_op A) now cb : cb_timeout (exec_cb op now cb).2 = cb_timeout cb.
Proof.
  destruct op; simpl; try done.
  unfold try_half_open. by case_decide.
Qed.

Lemma run_keeps_timeout {A} (q : prog A) (w : World R) :
  cb_timeout (p_cb (w_proc (run env q w).2)) = cb_timeout (p_cb (w_proc w)).
Proof.
  apply (run_proc_invariant (λ pr, cb_timeout (p_cb pr) = cb_timeout (p_cb (w_proc w)))); [|done].
  intros X e w' Hw. destruct e; simpl; try done.
  - by destruct (faulty _ _ _).
  - by destruct (faulty _ _ _).
  - pose proof (exec_cb_timeout op (e_now env (w_pos w')) (p_cb (w_proc w'))) as Ht.
    destruct (exec_cb _ _ _) as [a cb]. simpl in *. congruence.
  - by destruct (exec_hub _ _).
  - by destruct (incr _ _ _).
  - by destruct (exec_cache _ _).
Qed.
End frames.

(** ** Passes over a batch *)

Section delivery.
Context {R : Type} `{RedisLaws R} `{LuaNumber} `{PgLaws} `{TextTemplate} `{UUIDLaws}.
Variable env : Env.
Variable p : Processor.
Variable timeout : Z.
Context `{!ProviderSpec env timeout (p_provider p)}.

(** The message is handed to a worker again and again, as retries, reclaims and
    duplicate deliveries do. *)
Fixpoint deliver (rounds : nat) (msg : Message) : prog unit :=
  match rounds with O => mret tt | S rounds' => _ ← ProcessBatch p [msg]; deliver rounds' msg end.

(** A worker that can process: its breaker, metrics and database are in order. *)
Record ready (w : World R) : Prop := {
  rd_timeout : cb_timeout (p_cb (w_proc w)) = timeout;
  rd_metrics : metrics_wf (p_metrics (w_proc w));
  rd_db : db_wf (w_db w);
}.

Lemma ready_run {A} (q : prog A) (w : World R) : ready w → ready (run env q w).2.
Proof.
  intros [Ht Hm Hd]. split.
  - by rewrite run_keeps_timeout.
  - by apply run_keeps_metrics_wf.
  - by apply run_db_wf.
Qed.

Lemma deliver_nothing rounds msg : ∀ (w : World R) n,
  quiet env → notifications (w_db w) !! m_NotificationID msg = Some n → claimable n = false →
  ∃ w', run env (deliver rounds msg) w = (Some tt, w') ∧
    notifications (w_db w') !! m_NotificationID msg = Some n.
Proof.
  induction rounds as [|rounds IH]; intros w n Hq Hn Hc; [by exists w|].
  cbn [deliver]. rewrite run_bind.
  destruct (ProcessBatch_keeps_unclaimable env p [msg] w Hq) as (w1 & Hrun & _ & Hsame).
  { intros k n' Hk Hn'. apply list_elem_of_singleton in Hk. subst k. congruence. }
  rewrite Hrun. apply IH; [done| |done]. by rewrite Hsame.
Qed.

(** The end of a delivery. *)
Definition delivered (n n' : Notification) : Prop :=
  n_Content n' = n_Content n ∧ n_Recipient n' = n_Recipient n ∧
  ((n_Status n' = StatusSent ∧ is_Some (n_ProviderMsgID n')) ∨
   (n_Status n' = StatusFailed ∧ n_Attempts n' = n_MaxAttempts n)).

(** The message of [k] among [msgs] waits in the delayed set. *)
Definition delayed_retry (msgs : list Message) (k : uuid) (w : World R) : Prop :=
  ∃ msg raw, msg ∈ msgs ∧ m_NotificationID msg = k ∧ Marshal msg = Ok raw ∧
    is_Some (zset (w_redis w) retryDelayedKey !! raw).

(** A pass over any batch of one channel: what can be claimed is settled. *)
Lemma batch_pass ch msgs (w : World R) :
  quiet env → texts_ok → ready w → Forall message_ok msgs → Forall (λ m, m_Channel m = ch) msgs →
  (∀ k n, notifications (w_db w) !! k = Some n → claimable n = true → workable n) →
  ∃ w', run env (ProcessBatch p msgs) w = (Some tt, w') ∧
    ∀ k n, notifications (w_db w) !! k = Some n →
      if bool_decide (k ∈ m_NotificationID <$> msgs) && claimable n
      then ∃ n', notifications (w_db w') !! k = Some n' ∧ settled n n' ∧
             (n_Status n' = StatusQueued → delayed_retry msgs k w')
      else notifications (w_db w') !! k = Some n.
Proof.
  intros Hq Htx [Ht Hm Hd] Hok Hch Hwk.
  destruct (existsb (λ k, match notifications (w_db w) !! k with Some n => claimable n | None => false end)
    (m_NotificationID <$> msgs)) eqn:Hex.
  - apply existsb_exists in Hex as (k0 & Hk0%list_elem_of_In & Hc0).
    destruct (notifications (w_db w) !! k0) as [n0|] eqn:Hn0; [|done].
    destruct (ProcessBatch_outcomes env p timeout ch msgs w) as (w' & t0 & Hrun & _ & Hrows & _); try done.
    + intros k n _. apply Hwk.
    + by exists k0, n0.
    + exists w'. split; [done|]. intros k n Hn. specialize (Hrows k n Hn).
      destruct (bool_decide _ && claimable n) eqn:Hb; [|done]. destruct Hrows as (r & n' & Hn' & Ho & Hdl).
      exists n'. apply andb_true_iff in Hb as [_ Hc].
      split_and!; [done|eapply outcome_settled; [by eapply Hwk|exact Ho]|exact Hdl].
  - assert (Hno : ∀ k n, k ∈ m_NotificationID <$> msgs → notifications (w_db w) !! k = Some n → claimable n = false).
    { intros k n Hk Hn. destruct (claimable n) eqn:Hc; [|done]. rewrite <- Hex. symmetry. apply existsb_exists.
      exists k. split; [by apply list_elem_of_In|]. by rewrite Hn. }
    destruct (ProcessBatch_keeps_unclaimable env p msgs w Hq Hno) as (w' & Hrun & _ & Hsame).
    exists w'. split; [done|]. intros k n Hn. rewrite Hsame, Hn.
    destruct (bool_decide (k ∈ m_NotificationID <$> msgs)) eqn:Hk; [|done].
    apply bool_decide_eq_true in Hk. by rewrite (Hno k n Hk Hn).
Qed.
End delivery.

(** ** From the queue to the provider, from the client to the queue *)

Section composition.
Context {R : Type} `{RedisLaws R} `{LuaNumber} `{PgLaws} `{TextTemplate} `{UUIDLaws}.
Variable env : Env.
Variable d : Dispatcher.
Variable timeout : Z.
Context `{!ProviderSpec env timeout (p_provider (di_processor d))}.

(** What the rate limiter would grant the dispatcher now. *)
Definition grant (ch : Channel) (w : World R) : Z :=
  Z.max 0 (Z.min (di_batchSize d) (rl_limit (di_rateLimiter d) -
    live_grants (di_rateLimiter d) ch (e_now env (w_pos w)) (e_now env (S (w_pos w))) (w_redis w))).

(** A channel as its producers leave it: messages of this channel in a queue without
    expiry, and rows with attempts left. *)
Record channel_ok (ch : Channel) (w : World R) : Prop := {
  ch_valid : Channel_Valid ch = true;
  ch_canonical : canonical (zset (w_redis w) (queue_key ch));
  ch_messages m raw s : message_ok m → Marshal m = Ok raw →
    zset (w_redis w) (queue_key ch) !! raw = Some s → m_Channel m = ch;
  ch_queue_ttl : no_ttl (w_redis w) (queue_key ch);
  ch_processing_ttl : no_ttl (w_redis w) (processing_key ch);
  ch_rows k n : notifications (w_db w) !! k = Some n → claimable n = true → workable n;
}.

(** The pass of a worker over a channel.  A dispatch takes what the rate limiter
    grants, at most a batch, or all there is, the most urgent first, into flight;
    and the task it submits settles it: every row of the batch that can be claimed
    ends sent, queued for a delayed retry, or failed, and no other row changes. *)
Theorem dispatched_batch_settles ch (w : World R) :
  quiet env → texts_ok → ready timeout w → channel_ok ch w → 0 < di_batchSize d →
  ∃ msgs w1 w2 deadline, run env (dispatch d ch) w = (Some msgs, w1) ∧
    Z.of_nat (length msgs) = Z.min (grant ch w) (Z.of_nat (size (zset (w_redis w) (queue_key ch)))) ∧
    handed_over ch deadline msgs (w_redis w) (w_redis w1) ∧
    run env (dispatch_and_process d ch) w = (Some tt, w2) ∧
    ∀ k n, notifications (w_db w) !! k = Some n →
      if bool_decide (k ∈ m_NotificationID <$> msgs) && claimable n
      then ∃ n', notifications (w_db w2) !! k = Some n' ∧ settled n n' ∧
             (n_Status n' = StatusQueued → delayed_retry msgs k w2)
      else notifications (w_db w2) !! k = Some n.
Proof.
  intros Hq Htx Hrd [Hch Hcan Hmsg Hqt Hpt Hrows] Hbs. pose proof Hrd as [_ Hm _].
  destruct (dispatch_takes_granted env d ch w Hq Hbs Hch Hm Hcan Hqt Hpt)
    as (msgs & w1 & dl & Hrun & Hlen & Hin & Hdb & Hho).
  pose proof (ready_run env timeout (dispatch d ch) w Hrd) as Hrd1. rewrite Hrun in Hrd1.
  destruct (batch_pass env (di_processor d) timeout ch msgs w1 Hq Htx Hrd1) as (w2 & Hrun2 & Hw2).
  - eapply Forall_impl; [exact Hin|]. by intros m [? _].
  - eapply Forall_impl; [exact Hin|]. intros m (? & raw & s & Hraw & Hs). by eapply Hmsg.
  - intros k n. cbn [snd]. rewrite Hdb. apply Hrows.
  - exists msgs, w1, w2, dl. split_and!; [done|done|done| |by rewrite Hdb in Hw2].
    unfold dispatch_and_process. by rewrite run_bind, Hrun.
Qed.

(** A row inserted for a fresh notification has its attempts left. *)
Lemma coerce_workable n row :
  coerce_notification n = Ok row → n_Attempts n = 0 → n_MaxAttempts n = 5 → workable row.
Proof.
  intros Hc Ha Hm. pose proof (coerce_notification_ok n row Hc) as ([_ Hch _ _] & _).
  unfold coerce_notification in Hc. rewrite Ha, Hm in Hc. do 9 bind_ok Hc.
  repeat match goal with He : admit_value (pg_int4 _) = Ok _ |- _ => injection He as <- end.
  destruct (_ && _ && _); [|done]. injection Hc as <-. split; [done|]. split; [split|]; closed_arith.
Qed.

(** [Create] answered 201: the notification it built was accepted. *)
Lemma create_accepted r (w w' : World R) resp :
  quiet env → run env (NotificationHandler_Create r) w = (Some resp, w') → rs_code resp = StatusCreated →
  ∃ req c n i, decode_body decode_create_field zero_create r = Ok req ∧ built_from req c n ∧
    n_ID n = e_uuid env i ∧ resp = writeJSON StatusCreated (Notification_json n) ∧ accepted n w w'.
Proof.
  intros Hq. unfold NotificationHandler_Create.
  destruct (decode_body decode_create_field zero_create r) as [req|err]; [|by intros [= <- <-]].
  destruct (build_spec env req w Hq) as (rb & w1 & Hrun & [Hdb Hrd] & Hb). rewrite run_bind, Hrun.
  destruct rb as [n|err]; [|by intros [= <- <-]]. destruct Hb as (c & _ & Hb & _ & i & Hi).
  rewrite run_bind, Create_run by done. cbv zeta.
  destruct (insert_notification n (w_db w1)) as [db'|err] eqn:Ei.
  - destruct (store_accepts env n w1 db' Hq Ei) as (w2 & Hrun2 & Hacc).
    { by eapply bf_status_plain. }
    { destruct Hb as [_ _ _ _ _ -> -> _ _ _]. by intros [t ->]. }
    rewrite run_bind, Hrun2. intros [= <- <-] _. exists req, c, n, i. split_and!; try done.
    unfold accepted in *. by rewrite <- Hdb, <- Hrd.
  - destruct (Is_UniqueViolation err); [by intros [= <- <-]|].
    cbn [Is_DuplicateKey]. rewrite (insert_not_sentinel _ _ _ Ei). by intros [= <- <-].
Qed.

(** The batch endpoint's 201: every request became a notification, all of them stored. *)
Lemma batch_created r (w w' : World R) resp :
  quiet env → run env (NotificationHandler_BatchCreate r) w = (Some resp, w') → rs_code resp = StatusCreated →
  ∃ reqs b ns, decode_body decode_batch_field [] r = Ok reqs ∧ Forall2 (built_in w b) reqs ns ∧
    batch_accepted ns w w'.
Proof.
  intros Hq. unfold NotificationHandler_BatchCreate.
  destruct (decode_body decode_batch_field [] r) as [reqs|err]; [|by intros [= <- <-]].
  destruct (1000 <? Z.of_nat (length reqs)); [by intros [= <- <-]|].
  destruct (Z.of_nat (length reqs) =? 0); [by intros [= <- <-]|].
  rewrite run_trigger_bind. cbn [handle fst snd]. set (b := e_uuid env _).
  destruct (buildNotifications_spec env b reqs (tick w) Hq) as (rb & w1 & Hrun & Hs & Hb). rewrite run_bind, Hrun.
  destruct rb as [ns|err]; [|by intros [= <- <-]].
  assert (Hs1 : same_stores w w1) by by eapply same_stores_trans; [|exact Hs].
  assert (Hb' : Forall2 (built_in w b) reqs ns) by (eapply Forall2_impl; [exact Hb|]; intros ??; by apply built_in_same).
  unfold NotificationRepo_CreateBatch. rewrite run_bind, run_sql by done.
  unfold after_sql, sql_at. cbn [exec_sql]. rewrite (proj1 Hs1).
  destruct (insert_notifications ns (w_db w)) as [db'|err] eqn:Ei; cbn [write_result fst snd].
  - destruct (batch_store_accepts env ns w w1 db' Hq Hs1 Ei) as (w2 & Hrun2 & Hacc).
    { intros n [i Hi]%list_elem_of_lookup.
      destruct (Forall2_lookup_r _ _ _ _ _ Hb' Hi) as (req & _ & Hbi). by eapply built_schedule. }
    rewrite run_bind, Hrun2. intros [= <- <-] _. by exists reqs, b, ns.
  - destruct (Is_UniqueViolation err); [by intros [= <- <-]|].
    cbn [Is_DuplicateKey]. by destruct (Is_DuplicateKey err); intros [= <- <-].
Qed.
End composition.

(** ** Interleavings and crashes *)

#[local] Existing Instances RefTemplate RefPg RefPg_laws RefUUID RefUUID_laws RefLua.

Definition goroutine {A} (q : prog A) : prog unit := _ ← q; mret tt.

(** One dispatch of the SMS worker and the pool task it submits. *)
Definition sms_worker : prog unit := dispatch_and_process demo_dispatcher ChannelSMS.

(** A process dies; a goroutine starts. *)
Definition kill (pid : nat) (c : Config RefRedis) : Config RefRedis :=
  mkConfig (c_db c) (c_redis c) (c_pos c) (c_procs c) (filter (λ t, t.1 ≠ pid) (c_threads c)).
Definition spawn (pid : nat) (q : prog unit) (c : Config RefRedis) : Config RefRedis :=
  mkConfig (c_db c) (c_redis c) (c_pos c) (c_procs c) (c_threads c ++ [(pid, q)]).

(** Two processes, the API and a worker, over given stores. *)
Definition two_processes (db : DB) (r : RefRedis) (threads : list (nat * prog unit)) : Config RefRedis :=
  mkConfig db r 0 [demo_proc; demo_proc] threads.

Definition sms_queue (ms : list Message) : RefRedis :=
  foldr (λ m r, match Marshal m with
                | Ok raw => ZADD (queue_key ChannelSMS) (calculateScore demo_start m) raw r
                | Err _ => r
                end) empty_RefRedis ms.

(** What is left of the only notification: status, whether it was sent, and how many
    messages there are in the queue and in flight. *)
Definition summary (id : uuid) (c : Config RefRedis) : option (Status * bool) * nat * nat :=
  ((λ n, (n_Status n, match n_SentAt n with Some _ => true | None => false end)) <$>
     notifications (c_db c) !! id,
   size (zset (c_redis c) (queue_key ChannelSMS)), size (zset (c_redis c) (processing_key ChannelSMS))).

Lemma run_schedule_star env sched : ∀ c c' : Config RefRedis,
  run_schedule env sched c = Some c' → star (sys_step env) c c'.
Proof.
  induction sched as [|i sched IH]; intros c c' Hr; cbn in Hr; [injection Hr as <-; apply star_refl|].
  destruct (sched_step env i c) as [c1|] eqn:E; cbn in Hr; [|done].
  eapply star_trans; [eapply star_snoc; [apply star_refl|by eapply step_thread]|by apply IH].
Qed.

(** The API can overwrite "sent".  [Create] enqueues the message before it writes
    "queued" and the UPDATE has no guard, so a worker can deliver in between: with
    one request, one worker and no failure there is an execution after which the
    notification was sent, no message is left, and the row says "queued". *)
Theorem create_overwrites_sent :
  let c0 := two_processes empty_DB empty_RefRedis
    [(0%nat, goroutine (NotificationHandler_Create (demo_request demo_body))); (1%nat, sms_worker)] in
  ∃ c, star (sys_step demo_env) c0 c ∧
    c_threads c = [(0%nat, mret tt); (1%nat, mret tt)] ∧
    summary 2 c = (Some (StatusQueued, true), 0%nat, 0%nat).
Proof.
  intros c0. set (sched := replicate 5 0%nat ++ replicate 16 1%nat ++ [0%nat]).
  exists (default c0 (run_schedule demo_env sched c0)). split.
  - apply (run_schedule_star demo_env sched). vm_compute. reflexivity.
  - vm_compute. split; reflexivity.
Qed.

(** C39: a notification can be reported cancelled and be delivered.  [Cancel] checks
    the status and updates the row in two statements; a worker that claims and sends
    in between is overwritten.  The client gets a 200 and the row says "cancelled",
    though the provider has accepted the notification. *)
Theorem cancel_overwrites_sent :
  let c0 := two_processes (w_db (demo_with [demo_notification 1 StatusQueued]))
    (sms_queue [demo_message 1 PriorityNormal])
    [(0%nat, goroutine (NotificationHandler_Cancel (demo_request ""))); (1%nat, sms_worker)] in
  ∃ c, star (sys_step demo_env) c0 c ∧
    c_threads c = [(0%nat, mret tt); (1%nat, mret tt)] ∧
    summary 1 c = (Some (StatusCancelled, true), 0%nat, 0%nat).
Proof.
  intros c0. set (sched := [0%nat] ++ replicate 16 1%nat ++ [0%nat]).
  exists (default c0 (run_schedule demo_env sched c0)). split.
  - apply (run_schedule_star demo_env sched). vm_compute. reflexivity.
  - vm_compute. split; reflexivity.
Qed.

(** *** Crashes *)

(** What happens to the system: a goroutine runs for up to [n] effects, a process
    dies, a goroutine starts. *)
Inductive move :=
| MRun (i n : nat)
| MCrash (pid : nat)
| MSpawn (pid : nat) (q : prog unit).

Fixpoint run_thread (env : Env) (i n : nat) (c : Config RefRedis) : Config RefRedis :=
  match n with
  | O => c
  | S n' => match sched_step env i c with Some c' => run_thread env i n' c' | None => c end
  end.

Definition play_move (env : Env) (c : Config RefRedis) (m : move) : Config RefRedis :=
  match m with
  | MRun i n => run_thread env i n c
  | MCrash pid => kill pid c
  | MSpawn pid q => spawn pid q c
  end.

Definition play (env : Env) (ms : list move) (c : Config RefRedis) : Config RefRedis :=
  foldl (play_move env) c ms.

Lemma run_thread_star env i n : ∀ c, star (sys_step env) c (run_thread env i n c).
Proof.
  induction n as [|n IH]; intros c; simpl; [apply star_refl|].
  destruct (sched_step env i c) as [c'|] eqn:E; [|apply star_refl].
  eapply star_trans; [eapply star_snoc; [apply star_refl|by eapply step_thread]|apply IH].
Qed.

Lemma play_star env ms : ∀ c, star (sys_step env) c (play env ms c).
Proof.
  induction ms as [|m ms IH]; intros c; [apply star_refl|].
  cbn [play foldl]. eapply star_trans; [|apply IH].
  destruct m; cbn [play_move]; [apply run_thread_star| |]; (eapply star_snoc; [apply star_refl|constructor]).
Qed.

(** A worker starts again: its scheduler polls, then it dispatches once, each as the
    goroutine of index [i]. *)
Definition recovery_round (i : nat) : list move :=
  [MCrash 1; MSpawn 1 (goroutine (poll 10)); MRun i 200;
   MCrash 1; MSpawn 1 sms_worker; MRun i 200].

(** Ten seconds pass with every effect. *)
Definition demo_env_slow : Env := {|
  e_now i := demo_start + Z.of_nat i * (10 * Second);
  e_fault := e_fault demo_env; e_uuid := e_uuid demo_env; e_rand := e_rand demo_env;
  e_http := e_http demo_env; e_lua := e_lua demo_env; e_done := e_done demo_env |}.

(** One queued SMS and one worker about to dispatch it. *)
Definition one_sms : Config RefRedis :=
  two_processes (w_db (demo_with [demo_notification 1 StatusQueued]))
    (sms_queue [demo_message 1 PriorityNormal]) [(1%nat, sms_worker)].


(** The message of a cancelled notification circulates.  [Cancel] leaves the message in
    the queue; a worker that takes it alone can claim nothing and does not acknowledge
    it, so the scheduler returns it to the queue and the next worker takes it again:
    recovery rounds (up to three are run) end as they began, the message in flight. *)
Theorem cancelled_message_circulates rounds :
  let c0 := two_processes (w_db (demo_with [demo_notification 1 StatusCancelled]))
              (sms_queue [demo_message 1 PriorityNormal]) [(1%nat, sms_worker)] in
  let c1 := play demo_env_slow [MRun 0 200] c0 in
  let c2 := play demo_env_slow (concat (replicate rounds (recovery_round 0))) c1 in
  (rounds ≤ 3)%nat →
  star (sys_step demo_env_slow) c0 c2 ∧ c_threads c2 = [(1%nat, mret tt)] ∧
  summary 1 c1 = (Some (StatusCancelled, false), 0%nat, 1%nat) ∧ summary 1 c2 = summary 1 c1.
Proof.
  intros c0 c1 c2 Hr. split; [eapply star_trans; apply play_star|].
  assert (Hcases : (rounds = 0 ∨ rounds = 1 ∨ rounds = 2 ∨ rounds = 3)%nat) by (clear -Hr; lia).
  destruct Hcases as [->|[->|[->| ->]]]; split_and!; vm_compute; reflexivity.
Qed.

(** A crash can lose a message.  The worker dies between taking the message out of
    the queue and recording it as in flight: the row says "queued" but there is no
    message, and recovery rounds do not bring one back. *)
Theorem crash_loses_message :
  let c1 := play demo_env_slow [MRun 0 3; MCrash 1] one_sms in
  let c2 := play demo_env_slow (recovery_round 0) c1 in
  star (sys_step demo_env_slow) one_sms c1 ∧ star (sys_step demo_env_slow) c1 c2 ∧
  summary 1 c1 = (Some (StatusQueued, false), 0%nat, 0%nat) ∧
  c_threads c2 = [(1%nat, mret tt)] ∧ summary 1 c2 = summary 1 c1 ∧
  zset (c_redis c2) retryDelayedKey = ∅.
Proof.
  intros c1 c2. split; [apply play_star|]. split; [apply play_star|].
  split_and!; vm_compute; reflexivity.
Qed.

(** Redis refuses the fifth call: the ZADD of [Create]. *)
Definition demo_env_zadd : Env :=
  demo_env_faults (λ i, if (i =? 4)%nat then Lost "connection reset" else NoFault).

(** A notification that was accepted may never be sent.  When the enqueue of
    [Create] fails the client still gets a 201 with status "pending"; no message exists
    and recovery rounds do not find the row. *)
Theorem create_accepts_undelivered :
  let create := NotificationHandler_Create (demo_request demo_body) in
  let c0 := two_processes empty_DB empty_RefRedis [(0%nat, goroutine create)] in
  let c1 := play demo_env_zadd (MRun 0 50 :: recovery_round 1) c0 in
  (rs_code <$> (run demo_env_zadd create demo_world).1) = Some 201 ∧
  star (sys_step demo_env_zadd) c0 c1 ∧
  c_threads c1 = [(0%nat, mret tt); (1%nat, mret tt)] ∧
  summary 2 c1 = (Some (StatusPending, false), 0%nat, 0%nat).
Proof.
  intros create c0 c1. split; [vm_compute; reflexivity|]. split; [apply play_star|].
  split; vm_compute; reflexivity.
Qed.

(** What the demo request asks for. *)
Definition demo_asked : CreateNotificationRequest :=
  match decode_body decode_create_field zero_create (demo_request demo_body) with Ok req => req | Err _ => zero_create end.
