(* ===== verification/Duplicates.v ===== *)
(** * Delivered twice

    The claim lets one worker at a time have a notification, and the provider is called
    once per claim ([one_call_per_claim]).  It does not follow that a notification is
    delivered once: a row that was sent can be claimable again.  This file has an
    execution of the system's own goroutines in which it happens without any failure. *)
From S2P Require Import Prelude Float64 GoLib GoJson GoTime Domain Retry Uuid Redis Postgres RateLimiter.
From S2P Require Import CircuitBreaker Hub Metrics TemplateEngine Effects Contract Reference Queue Provider Repository Lifecycle Processor.
From S2P Require Import Scheduler Dispatcher Handlers Templates Api Refinement System.
From Stdlib Require Import ZArith Lia.
From stdpp Require Import base numbers list strings gmap fin_maps.

Open Scope Z_scope.

#[local] Existing Instances RefTemplate RefPg RefPg_laws RefUUID RefUUID_laws RefLua RefWebsocket RefWebsocket_laws.

(** The goroutines take turns: [(i, n)] is [n] effects of goroutine [i]. *)
Definition turns (ts : list (nat * nat)) : list nat := mjoin ((λ t : nat * nat, replicate t.2 t.1) <$> ts).

(** The API answers a request, one worker dispatches and schedules, another dispatches. *)
Definition busy_api : Config RefRedis :=
  two_processes empty_DB empty_RefRedis
    [(0%nat, _ ← NewRouter NewMetricsCollector true demo_create; mret tt);
     (1%nat, sms_worker); (1%nat, Scheduler_Start 1 10); (1%nat, sms_worker)].

(** Up to the API's late UPDATE, and to the end. *)
Definition until_overwritten : list nat := turns [(0, 7); (1, 14); (0, 1)]%nat.
Definition until_sent_again : list nat := until_overwritten ++ turns [(0, 1); (2, 12); (1, 2); (3, 16)]%nat.

(** C38: A notification can be delivered twice although no call fails and nobody crashes.
    The worker delivers between the API's enqueue and its UPDATE, which then turns
    "sent" into "queued".  When the worker is slow to acknowledge, the visibility
    timeout passes, the scheduler returns the message to the queue, and the next
    worker claims the row and calls the provider again: it accepts both times. *)
Theorem delivered_twice :
  let c1 := after demo_env_slow until_overwritten busy_api in
  let c2 := after demo_env_slow until_sent_again busy_api in
  let facts := [] ++ schedule_facts demo_env_slow until_sent_again busy_api in
  let accepted_again f := match f with Accepted pl => String.eqb (wp_NotificationID pl) (uuid_String 4%N) | _ => false end in
  quiet demo_env_slow ∧ star (app_step demo_env_slow) (busy_api, []) (c2, facts) ∧
  summary 4 c1 = (Some (StatusQueued, true), 0%nat, 1%nat) ∧
  Forall (λ t, t.2 = mret tt) (c_threads c2) ∧ summary 4 c2 = (Some (StatusSent, true), 0%nat, 0%nat) ∧
  calls (uuid_String 4%N) facts = 2%nat ∧ tally accepted_again facts = 2%nat.
Proof.
  intros c1 c2 facts again. split; [done|].
  split; [apply (after_star demo_env_slow app_program); vm_compute; reflexivity|].
  split; [vm_compute; reflexivity|]. split; [vm_compute; repeat constructor|].
  split_and!; vm_compute; reflexivity.
Qed.
