(* ===== verification/Progress.v ===== *)
(** * From acceptance to the end

    A worker alternates polls and dispatches.  A [round] is a poll of the scheduler and
    a dispatch whose batch the pool runs, and [rounds] are several of them at given
    moments.  When they are far enough apart and the backlog of the channel fits into a
    batch, each round settles every notification that is due: so one that was accepted
    is sent, or failed with its attempts used up, after as many rounds as it has
    attempts.  The retries travel through the delayed set and the scheduler, as in the
    program. *)
From S2P Require Import Prelude Float64 GoLib GoJson GoTime Domain Retry Uuid Redis Postgres RateLimiter.
From S2P Require Import CircuitBreaker Hub Metrics TemplateEngine Effects Contract Reference Queue Provider Repository Processor.
From S2P Require Import Scheduler Dispatcher Handlers Templates Api Refinement Wire Timing System.
From Stdlib Require Import ZArith Lia.
From stdpp Require Import base numbers list strings gmap fin_maps.

Open Scope Z_scope.

Section rounds.
Context {R : Type} `{RedisLaws R} `{LuaNumber} `{PgLaws} `{TextTemplate} `{UUIDLaws}.
Variable env : Env.
Variable d : Dispatcher.
Variable ch : Channel.

(** Time passes until the environment is at position [i]. *)
Definition at_pos (i : nat) (w : World R) : World R := mkWorld (w_db w) (w_redis w) i (w_proc w).

(** Polls take one pass per batch of waiting notifications. *)
Definition enough (w : World R) : nat := S (size (waiting (w_db w))).

Definition round (fuel : nat) : prog unit := _ ← poll fuel; dispatch_and_process d ch.

(** Rounds that start at the given positions; [None] when one panics. *)
Fixpoint rounds (starts : list nat) (w : World R) : option (World R) :=
  match starts with
  | [] => Some w
  | i :: starts' =>
      match run env (round (enough w)) (at_pos i w) with
      | (Some _, w') => rounds starts' w'
      | (None, _) => None
      end
  end.

Variables timeout D : Z.

(** The longest wait: a retry's delay, the scheduler's lock. *)
Definition longest_wait : Z := Z.max D schedulerLockTTL.

(** Each round starts when the last one's waits are over, and finds, after its poll, a
    queue that fits into one batch. *)
Fixpoint paced (starts : list nat) (w : World R) : Prop :=
  match starts with
  | [] => True
  | i :: starts' =>
      (w_pos w ≤ i)%nat ∧ e_now env (w_pos w) + longest_wait ≤ e_now env i ∧
      Z.of_nat (size (zset (w_redis (run env (poll (enough w)) (at_pos i w)).2) (queue_key ch))) ≤
        Z.min (di_batchSize d) (rl_limit (di_rateLimiter d)) ∧
      paced starts' (run env (round (enough w)) (at_pos i w)).2
  end.

(** What the environment and the settings provide. *)
Record setting : Prop := {
  st_quiet : quiet env;
  st_texts : texts_ok;
  st_clock : monotone_clock env;
  st_epoch : 0 ≤ e_now env 0;
  st_range i : in_int64 (e_now env i + D);
  st_uuids : uuids_ok env;
  st_draws : draws_ok env;
  st_channel : Channel_Valid ch = true;
  st_batch : 0 < di_batchSize d;
  st_window : rl_windowNs (di_rateLimiter d) = Second;
  st_delays : delays_within D (p_retrier (di_processor d));
}.

(** The worker's process and the stores are in order. *)
Record in_order (w : World R) : Prop := {
  io_ready : ready timeout w;
  io_stores : wire_stores (w_db w) (w_redis w);
  io_timed : timed D (e_now env (w_pos w)) (w_redis w);
  io_rows k n : notifications (w_db w) !! k = Some n →
    claimable n = true ∨ n_Status n = StatusScheduled → workable n;
}.

(** The notification [k] is on its way: its message is queued or waits for a retry, or
    its time has come at [t]. *)
Inductive outstanding (t : Z) (w : World R) (k : uuid) (n : Notification) : Prop :=
| out_message msg raw : claimable n = true → message_of ch msg → m_NotificationID msg = k →
    Marshal msg = Ok raw →
    is_Some (zset (w_redis w) (queue_key ch) !! raw) ∨ is_Some (zset (w_redis w) retryDelayedKey !! raw) →
    outstanding t w k n
| out_scheduled : n_Channel n = ch → due t n = true → outstanding t w k n.

Context `{!ProviderSpec env timeout (p_provider (di_processor d))}.
Context `{!ProviderWired (p_provider (di_processor d))}.
Context (Htimely : ∀ T, ProviderTimely T D (p_provider (di_processor d))).
Hypothesis Hset : setting.

(** *** The pieces of a round *)

Lemma wired_round fuel : wired (round fuel).
Proof. apply meets_seq; [apply wired_poll|]. intros _. by apply wired_dispatch_and_process. Qed.

Lemma timely_round fuel T : in_int64 (T + D) → timely T D (round fuel).
Proof.
  intros HT. apply meets_seq; [by apply timely_poll|]. intros _. unfold dispatch_and_process.
  apply meets_seq; [apply timely_dispatch|]. intros msgs. apply timely_ProcessBatch; [done|apply Htimely|].
  exact (st_delays Hset).
Qed.

(** The limiter's window has passed: it grants a full batch. *)
Lemma full_grant T (w : World R) :
  (∀ x s, zset (w_redis w) (ratelimit_key ch) !! x = Some s → 0 ≤ s ≤ f64 T) →
  0 ≤ T → T + schedulerLockTTL ≤ e_now env (w_pos w) →
  grant env d ch w = Z.max 0 (Z.min (di_batchSize d) (rl_limit (di_rateLimiter d))).
Proof.
  intros Hg HT Hle. unfold grant, live_grants. set (now := e_now env (w_pos w)) in *.
  assert (Hnow : in_int64 now) by apply (st_clock Hset).
  rewrite (st_window Hset). unfold UnixNano. rewrite wrap64_id by done.
  unfold in_int64, int64_max, schedulerLockTTL, Second, Millisecond, Microsecond in *.
  assert (Herr : now - 2 ^ 9 ≤ f64 now) by (apply (f64_error now 63); lia).
  assert (Hcut : f64 T ≤ f64 (f64 now - 1000 * (1000 * 1000))) by (apply f64_mono; lia).
  rewrite (proj2 (map_size_empty_iff _)); [f_equal; f_equal; cbn; lia|].
  apply map_eq. intros x. rewrite lookup_empty, zset_ZREMRANGEBYSCORE, decide_True by done.
  apply map_lookup_filter_None. right. intros s Hs Hno. apply Hno. cbn [snd].
  rewrite zset_expire_keys in Hs. specialize (Hg x s). destruct (deadline _ _) as [dl|]; [|specialize (Hg Hs); lia].
  destruct (dl <=? _); [by rewrite lookup_empty in Hs|specialize (Hg Hs); lia].
Qed.

(** A run of the workers' programs keeps everything but the rows in order. *)
Lemma run_keeps_order {A} (q : prog A) (w : World R) :
  wired q → (∀ T, in_int64 (T + D) → timely T D q) →
  ready timeout w → wire_stores (w_db w) (w_redis w) → timed D (e_now env (w_pos w)) (w_redis w) →
  let w' := (run env q w).2 in
  ready timeout w' ∧ wire_stores (w_db w') (w_redis w') ∧ timed D (e_now env (w_pos w')) (w_redis w') ∧
  same_rows (w_db w) (w_db w').
Proof.
  intros Hw Ht Hrd Hst Htm w'. pose proof (st_range Hset) as Hr. split_and!.
  - by apply ready_run.
  - eapply (wire_run env q _ w (st_uuids Hset) Hst), Hw.
  - by eapply (timed_run D env q w (st_clock Hset) (st_epoch Hset) (st_uuids Hset) (st_draws Hset)).
  - by eapply (timed_run D env q w (st_clock Hset) (st_epoch Hset) (st_uuids Hset) (st_draws Hset)).
Qed.

(** The poll that opens a round gets the lock and finds every retry due. *)
Lemma round_poll i (w : World R) :
  in_order w → (w_pos w ≤ i)%nat → e_now env (w_pos w) + longest_wait ≤ e_now env i →
  ∃ w1, run env (poll (enough w)) (at_pos i w) = (Some (Some tt), w1) ∧ polled env (at_pos i w) w1 ∧
    (∀ raw msg s, zset (w_redis w) retryDelayedKey !! raw = Some s → Unmarshal raw = Ok msg →
       is_Some (zset (w_redis w1) (queue_key (m_Channel msg)) !! raw)).
Proof.
  intros [Hrd (Hwf & Ht & Hwk) Htm Hrows] Hi Hwait. unfold longest_wait in Hwait.
  destruct (poll_run env (enough w) (at_pos i w)) as (w1 & Hrun & Hpo).
  - exact (st_quiet Hset).
  - exact (st_clock Hset).
  - exact Hwf.
  - unfold lock_free. cbn [at_pos w_redis w_pos]. destruct (lock_until _ _) as [dl|] eqn:Hl; [|done].
    pose proof (tm_lock _ _ _ Htm dl Hl). lia.
  - by apply wire_sets_produced.
  - unfold enough. cbn [at_pos w_db]. lia.
  - exists w1. split_and!; [done|done|]. intros raw msg s Hs Hu.
    eapply (po_returned _ _ _ Hpo retryDelayedKey raw msg s); [by left|done|done|]. cbn [at_pos w_pos].
    etransitivity; [by eapply (tm_delayed _ _ _ Htm)|].
    apply UnixNano_f64_mono; [lia|exact (st_range Hset _)|apply (st_clock Hset)].
Qed.

(** The poll leaves the workable rows workable. *)
Lemma polled_workable i (w w1 : World R) k n1 :
  in_order w → polled env (at_pos i w) w1 → same_rows (w_db w) (w_db w1) →
  notifications (w_db w1) !! k = Some n1 → claimable n1 = true ∨ n_Status n1 = StatusScheduled → workable n1.
Proof.
  intros [_ _ _ Hrows] Hpo Hsame Hn1 Hcs. destruct (Hsame k (ex_intro _ _ Hn1)) as [n Hn].
  destruct (po_row _ _ _ Hpo k n Hn) as (n1' & Hn1' & Hcase). assert (n1' = n1) as -> by congruence.
  destruct Hcase as [[-> _]|[[Hs [t ->]] _]]; [by eapply Hrows|]. exact (Hrows k n Hn (or_intror Hs)).
Qed.

(** What an outstanding notification is after the poll: claimable, its message queued. *)
Definition queued_row (n n1 : Notification) (w1 : World R) (k : uuid) : Prop :=
  notifications (w_db w1) !! k = Some n1 ∧ claimable n1 = true ∧ (∀ n', settled n1 n' → settled n n') ∧
  ∃ m raw, message_of ch m ∧ m_NotificationID m = k ∧ Marshal m = Ok raw ∧
    is_Some (zset (w_redis w1) (queue_key ch) !! raw).

Lemma polled_outstanding i (w w1 : World R) k n :
  in_order w → polled env (at_pos i w) w1 →
  (∀ raw msg s, zset (w_redis w) retryDelayedKey !! raw = Some s → Unmarshal raw = Ok msg →
     is_Some (zset (w_redis w1) (queue_key (m_Channel msg)) !! raw)) →
  notifications (w_db w) !! k = Some n → outstanding (e_now env i) w k n → ∃ n1, queued_row n n1 w1 k.
Proof.
  intros [_ (Hwf & Ht & _) _ _] Hpo Hdelayed Hn Hout.
  destruct (po_row _ _ _ Hpo k n Hn) as (n1 & Hn1 & Hcase). exists n1. cbn [at_pos w_pos] in Hcase.
  destruct Hout as [msg raw Hc [Hok Hmch] Hid Hm Hin|Hnch Hdue].
  - destruct Hcase as [[-> _]|[[Hs _] _]]; [|unfold claimable in Hc; by rewrite Hs in Hc].
    split_and!; [done|done|done|]. exists msg, raw. split_and!; try done.
    destruct Hin as [Hin|[s Hs]]; [by apply (po_queue _ _ _ Hpo)|].
    rewrite <- Hmch. eapply Hdelayed; [exact Hs|]. by apply Unmarshal_Marshal_message.
  - destruct Hcase as [[_ Hnd]|[[_ [t ->]] Hin]]; [congruence|].
    split_and!; [done|done|done|]. rewrite Hnch in Hin.
    exists (mkMessage (n_ID n) (n_Channel n) (n_Priority n) None), (scheduled_raw n).
    split_and!; [|exact (ok_key _ _ (wf_rows _ Hwf _ _ Hn))|apply scheduled_Marshal|exact Hin].
    split; [|exact Hnch]. split; [exact (proj1 (proj1 (Ht k n Hn)))|done].
Qed.

(** The dispatch takes the whole queue. *)
Lemma round_dispatch T (w1 : World R) :
  ready timeout w1 → wire_stores (w_db w1) (w_redis w1) →
  (∀ k n, notifications (w_db w1) !! k = Some n → claimable n = true → workable n) →
  (∀ x s, zset (w_redis w1) (ratelimit_key ch) !! x = Some s → 0 ≤ s ≤ f64 T) →
  0 ≤ T → T + schedulerLockTTL ≤ e_now env (w_pos w1) →
  Z.of_nat (size (zset (w_redis w1) (queue_key ch))) ≤ Z.min (di_batchSize d) (rl_limit (di_rateLimiter d)) →
  ∃ msgs w2, run env (dispatch_and_process d ch) w1 = (Some tt, w2) ∧ Forall (message_of ch) msgs ∧
    (∀ m raw, message_ok m → Marshal m = Ok raw → is_Some (zset (w_redis w1) (queue_key ch) !! raw) → m ∈ msgs) ∧
    ∀ k n, notifications (w_db w1) !! k = Some n →
      if bool_decide (k ∈ m_NotificationID <$> msgs) && claimable n
      then ∃ n', notifications (w_db w2) !! k = Some n' ∧ settled n n' ∧
             (n_Status n' = StatusQueued → delayed_retry msgs k w2)
      else notifications (w_db w2) !! k = Some n.
Proof.
  intros Hrd Hst Hrows Hg HT Hle Hroom. pose proof Hst as (Hwf & Ht & Hwk).
  assert (Hch : channel_ok ch w1).
  { split; [exact (st_channel Hset)|by apply wire_canonical| |apply (wk_ttl _ Hwk), work_queue
           |apply (wk_ttl _ Hwk), work_processing|done].
    intros m raw s. by apply wire_channel. }
  destruct (dispatched_batch_settles env d timeout ch w1 (st_quiet Hset) (st_texts Hset) Hrd Hch (st_batch Hset))
    as (msgs & w1' & w2 & dl & Hrun1 & Hlen & Hho & Hrun2 & Hsettled).
  rewrite (full_grant T w1 Hg HT Hle) in Hlen. exists msgs, w2. split_and!; [done| | |done].
  - destruct (wire_run env _ _ w1 (st_uuids Hset) Hst (meets_dispatch d ch)) as [_ Hms].
    by rewrite Hrun1 in Hms.
  - intros m raw Hok Hm [s Hs]. destruct (Hho m raw s Hok Hm Hs) as [[? _]|(_ & _ & _ & _ & Hlt)]; [done|]. lia.
Qed.

(** What a pass leaves claimable or scheduled has attempts left. *)
Lemma settled_workable n n' :
  workable n → settled n n' → claimable n' = true ∨ n_Status n' = StatusScheduled → workable n'.
Proof.
  intros (Hc & Ha & Hm) ((_ & _ & Hch & _ & Hmax) & Hs). unfold claimable. unfold workable. rewrite Hch, Hmax.
  destruct Hs as [(-> & _)|[(-> & _ & -> & Hlt)|(-> & _)]]; [by intros [?|?]|intros _|by intros [?|?]].
  split_and!; [done|lia|lia|done].
Qed.

Definition finished (n : Notification) : Prop := claimable n = false ∧ n_Status n ≠ StatusScheduled.

(** A round settles all that is outstanding and leaves what is finished. *)
Lemma round_settles i (w : World R) :
  in_order w → (w_pos w ≤ i)%nat → e_now env (w_pos w) + longest_wait ≤ e_now env i →
  Z.of_nat (size (zset (w_redis (run env (poll (enough w)) (at_pos i w)).2) (queue_key ch))) ≤
    Z.min (di_batchSize d) (rl_limit (di_rateLimiter d)) →
  ∃ w2, run env (round (enough w)) (at_pos i w) = (Some tt, w2) ∧ in_order w2 ∧
    (∀ k n, notifications (w_db w) !! k = Some n → outstanding (e_now env i) w k n →
       ∃ n', notifications (w_db w2) !! k = Some n' ∧ settled n n' ∧
         (n_Status n' = StatusQueued → ∀ t, outstanding t w2 k n')) ∧
    (∀ k n, notifications (w_db w) !! k = Some n → finished n → notifications (w_db w2) !! k = Some n).
Proof.
  intros Hio Hi Hwait Hroom. pose proof Hio as [Hrd Hst Htm Hrows].
  assert (H0i : ∀ j, (i ≤ j)%nat → e_now env i ≤ e_now env j) by (intros j; apply (st_clock Hset)).
  assert (Htm0 : timed D (e_now env i) (w_redis w)).
  { refine (timed_later D _ _ _ _ _ _ Htm); [by apply (st_clock Hset)|apply (st_range Hset)..]. }
  destruct (round_poll i w Hio Hi Hwait) as (w1 & Hrun1 & Hpo & Hdelayed).
  pose proof (run_pos env (poll (enough w)) (at_pos i w)) as Hpos1.
  destruct (run_keeps_order (poll (enough w)) (at_pos i w)) as (Hrd1 & Hst1 & Htm1 & Hsame1);
    [apply wired_poll|intros T HT; by apply timely_poll|by destruct Hrd|done|done|].
  rewrite Hrun1 in *. cbn [snd] in *.
  pose proof (λ k n1, polled_workable i w w1 k n1 Hio Hpo Hsame1) as Hrows1.
  destruct (round_dispatch (e_now env (w_pos w)) w1 Hrd1 Hst1) as (msgs & w2 & Hrun2 & Hms & Hall & Hsettled).
  { intros k n Hn Hc. eapply Hrows1; [done|by left]. }
  { intros x s. rewrite (po_other _ _ _ Hpo) by (first [intros [Hk|(c & _ & Hk)]; discriminate Hk|discriminate]).
    apply (tm_grants _ _ _ Htm). }
  { etransitivity; [exact (st_epoch Hset)|]. apply (st_clock Hset). lia. }
  { unfold longest_wait in Hwait. specialize (H0i _ Hpos1). lia. }
  { exact Hroom. }
  assert (Hround : run env (round (enough w)) (at_pos i w) = (Some tt, w2)) by (unfold round; by rewrite run_bind, Hrun1).
  exists w2. split; [exact Hround|].
  destruct (run_keeps_order (round (enough w)) (at_pos i w)) as (Hrd2 & Hst2 & Htm2 & Hsame2);
    [apply wired_round|intros T HT; by apply timely_round|by destruct Hrd|done|done|].
  rewrite Hround in *. cbn [snd] in *. split_and!.
  - split; [done..|]. intros k n2 Hn2 Hcs. destruct (Hsame2 k (ex_intro _ _ Hn2)) as [n Hn].
    destruct (po_row _ _ _ Hpo k n Hn) as (n1 & Hn1 & _). specialize (Hsettled k n1 Hn1).
    destruct (bool_decide _ && claimable n1) eqn:Hb.
    + destruct Hsettled as (n2' & Hn2' & Hse & _). assert (n2' = n2) as -> by congruence.
      apply andb_true_iff in Hb as [_ Hc]. eapply settled_workable; [|exact Hse|exact Hcs].
      eapply Hrows1; [exact Hn1|by left].
    + assert (n1 = n2) as -> by congruence. by eapply Hrows1.
  - intros k n Hn Hout. destruct (polled_outstanding i w w1 k n Hio Hpo Hdelayed Hn Hout)
      as (n1 & Hn1 & Hc1 & Htrans & m & raw & [Hok Hmch] & Hid & Hm & Hin).
    specialize (Hsettled k n1 Hn1). rewrite bool_decide_true, Hc1 in Hsettled
      by (apply list_elem_of_fmap; exists m; split; [done|by eapply Hall]).
    destruct Hsettled as (n' & Hn' & Hse & Hdl). exists n'. split_and!; [done|by apply Htrans|].
    intros Hs t. destruct (Hdl Hs) as (m' & raw' & Hm'in & Hm'id & Hm' & Hraw').
    rewrite Forall_forall in Hms. eapply out_message; [by unfold claimable; rewrite Hs|by apply Hms|done|done|by right].
  - intros k n Hn [Hnc Hns]. destruct (po_row _ _ _ Hpo k n Hn) as (n1 & Hn1 & [[-> _]|[[? _] _]]); [|done].
    specialize (Hsettled k n Hn1). by rewrite Hnc, andb_false_r in Hsettled.
Qed.

Lemma rounds_run starts : ∀ w,
  in_order w → paced starts w → ∃ w', rounds starts w = Some w'.
Proof.
  induction starts as [|i starts IH]; intros w Hio Hp; [by exists w|].
  destruct Hp as (Hi & Hwait & Hroom & Hp).
  destruct (round_settles i w Hio Hi Hwait Hroom) as (w2 & Hrun & Hio2 & _).
  cbn [rounds]. rewrite Hrun in *. by apply IH.
Qed.

Lemma rounds_keep_finished starts : ∀ w k n,
  in_order w → paced starts w → notifications (w_db w) !! k = Some n → finished n →
  ∃ w', rounds starts w = Some w' ∧ notifications (w_db w') !! k = Some n.
Proof.
  induction starts as [|i starts IH]; intros w k n Hio Hp Hn Hf; [by exists w|].
  destruct Hp as (Hi & Hwait & Hroom & Hp).
  destruct (round_settles i w Hio Hi Hwait Hroom) as (w2 & Hrun & Hio2 & _ & Hkeep).
  cbn [rounds]. rewrite Hrun in *. apply IH; [done..|by apply Hkeep|done].
Qed.

(** An outstanding notification is at its end after as many rounds as it has attempts
    left. *)
Lemma rounds_deliver starts : ∀ w k n,
  in_order w → paced starts w → notifications (w_db w) !! k = Some n →
  match starts with [] => True | i :: _ => outstanding (e_now env i) w k n end →
  n_Attempts n < n_MaxAttempts n → n_MaxAttempts n - n_Attempts n ≤ Z.of_nat (length starts) →
  ∃ w' n', rounds starts w = Some w' ∧ notifications (w_db w') !! k = Some n' ∧ delivered n n'.
Proof.
  induction starts as [|i starts IH]; intros w k n Hio Hp Hn Hout Hlt Hle; [cbn in Hle; lia|].
  destruct Hp as (Hi & Hwait & Hroom & Hp).
  destruct (round_settles i w Hio Hi Hwait Hroom) as (w2 & Hrun & Hio2 & Hset2 & _).
  cbn [rounds]. rewrite Hrun in *. destruct (Hset2 k n Hn Hout) as (n1 & Hn1 & Hst & Hagain).
  destruct Hst as ((_ & Hrec & Hch' & Hcont & Hmax) & [Hsent|[Hqueued|Hfailed]]).
  - destruct Hsent as (Hs & Hpid & _).
    destruct (rounds_keep_finished starts w2 k n1 Hio2 Hp Hn1) as (w' & Hrun' & Hn').
    { split; [unfold claimable; by rewrite Hs|by rewrite Hs]. }
    exists w', n1. split_and!; [done|done|]. split_and!; [done|done|by left].
  - destruct Hqueued as (Hs & _ & Ha & Hlt1).
    destruct (IH w2 k n1 Hio2 Hp Hn1) as (w' & n' & Hrun' & Hn' & Hc' & Hr' & Hd').
    + destruct starts; [done|]. by apply Hagain.
    + lia.
    + cbn [length] in Hle. lia.
    + exists w', n'. split_and!; [done|done|]. split_and!; [congruence|congruence|].
      by rewrite Hmax in Hd'.
  - destruct Hfailed as (Hs & _ & Ha).
    destruct (rounds_keep_finished starts w2 k n1 Hio2 Hp Hn1) as (w' & Hrun' & Hn').
    { split; [unfold claimable; by rewrite Hs|by rewrite Hs]. }
    exists w', n1. split_and!; [done|done|]. split_and!; [done|done|by right].
Qed.
End rounds.

(** ** From the client to the provider *)

Section delivery.
Context {R : Type} `{RedisLaws R} `{LuaNumber} `{PgLaws} `{TextTemplate} `{UUIDLaws}.
Variable env : Env.
Variable d : Dispatcher.
Variables timeout D : Z.
Context `{!ProviderSpec env timeout (p_provider (di_processor d))}.
Context `{!ProviderWired (p_provider (di_processor d))}.
Context (Htimely : ∀ T, ProviderTimely T D (p_provider (di_processor d))).

(** The time a client asked for is over when the first round starts. *)
Definition time_has_come (req : CreateNotificationRequest) (starts : list nat) : Prop :=
  match cr_ScheduledAt req, starts with
  | Some t, i :: _ => pg_timestamp t ≤ pg_timestamp (e_now env i)
  | _, _ => True
  end.

(** The world of a worker after a request: the stores it left. *)
Definition worker_after (w' : World R) (pr : Proc) : World R := mkWorld (w_db w') (w_redis w') (w_pos w') pr.

(** The columns of a fresh row that the worker looks at hold what was inserted. *)
Lemma coerced_plain n row :
  coerce_notification n = Ok row → Channel_Valid (n_Channel n) = true →
  pg_varchar 20 (n_Status n) = Some (n_Status n) →
  n_Channel row = n_Channel n ∧ n_Status row = n_Status n ∧
  n_ScheduledAt row = pg_timestamp <$> n_ScheduledAt n ∧
  (n_Attempts row = n_Attempts n ∧ n_MaxAttempts row = n_MaxAttempts n) ∧ n_ID row = n_ID n.
Proof.
  intros Hc Hch Hst. unfold coerce_notification in Hc. do 9 bind_ok Hc.
  destruct (_ && _ && _); [|done]. injection Hc as <-. cbn.
  repeat match goal with He : admit_value _ = Ok _ |- _ => apply admit_value_Ok in He end.
  assert (Hplain : pg_varchar 10 (n_Channel n) = Some (n_Channel n)).
  { apply Channel_Valid_cases in Hch. destruct Hch as [-> |[-> | ->]];
      (apply pg_varchar_plain; [apply (proj1 (Nat.leb_le _ _)); reflexivity|reflexivity]). }
  unfold pg_int4 in *. repeat case_match; simplify_eq; by split_and!.
Qed.

(** An accepted notification in the stores of [w]: its row, waiting for its time or queued,
    and its message. *)
Definition arrived (n row : Notification) (w : World R) : Prop :=
  coerce_notification n = Ok row ∧
  match n_ScheduledAt n with
  | Some _ => notifications (w_db w) !! n_ID n = Some row
  | None => (∃ t, notifications (w_db w) !! n_ID n = Some (touch_status t StatusQueued row)) ∧
            is_Some (zset (w_redis w) (queue_key (n_Channel n)) !! scheduled_raw n)
  end.

(** It is outstanding once its time has come. *)
Lemma arrived_outstanding req c n row (w : World R) :
  built_from req c n → rows_typed (w_db w) → arrived n row w →
  ∃ row', notifications (w_db w) !! n_ID n = Some row' ∧ workable row' ∧
    n_Attempts row' = 0 ∧ n_MaxAttempts row' = 5 ∧ (∀ m, delivered row' m → delivered row m) ∧
    ∀ t, match cr_ScheduledAt req with Some ts => pg_timestamp ts ≤ pg_timestamp t | None => True end →
      outstanding (cr_Channel req) t w (n_ID n) row'.
Proof.
  intros [Hbok _ _ Hbc _ Hbs Hbst _ _ [Ha Hm]] Ht [Hrow Harr].
  destruct (coerced_plain n row Hrow) as (Hrch & Hrst & Hrsch & [Hra Hrm] & Hrid);
    [by rewrite Hbc; apply Hbok|rewrite Hbst; destruct (cr_ScheduledAt req);
      (apply pg_varchar_plain; [apply (proj1 (Nat.leb_le _ _)); reflexivity|reflexivity])|].
  assert (Hwork : workable row) by by apply (coerce_workable n).
  rewrite Hbs in Harr, Hrsch. rewrite Hbst in Hrst. destruct (cr_ScheduledAt req) as [ts|].
  - exists row. split_and!; [done|done|by rewrite Hra|by rewrite Hrm|done|].
    intros t Hts. apply out_scheduled; [by rewrite Hrch|]. unfold due. rewrite Hrst, Hrsch. cbn.
    by apply Z.leb_le.
  - destruct Harr as [[t0 Hn] Hq]. eexists. split; [exact Hn|].
    split_and!; [exact Hwork|by rewrite <- Ha|by rewrite <- Hm|done|].
    assert (Hid : is_uuid (n_ID n)) by (rewrite <- Hrid; by apply (Ht _ _ Hn)).
    intros t _. eapply (out_message _ _ _ _ _ (mkMessage (n_ID n) (n_Channel n) (n_Priority n) None) (scheduled_raw n)).
    + done.
    + split; [by split|exact Hbc].
    + done.
    + apply scheduled_Marshal.
    + left. by rewrite <- Hbc.
Qed.

(** A worker finds the stores in order after a request that added the rows [ids] and, to
    the queues, messages. *)
Lemma request_in_order ch (ids : list uuid) cmds (w w' : World R) pr :
  setting env d ch D →
  wire_stores (w_db w') (w_redis w') → timed D (e_now env (w_pos w)) (w_redis w) → (w_pos w ≤ w_pos w')%nat →
  (∀ k m, notifications (w_db w) !! k = Some m → claimable m = true ∨ n_Status m = StatusScheduled → workable m) →
  metrics_wf (p_metrics pr) → cb_timeout (p_cb pr) = timeout →
  (∀ k, k ∉ ids → notifications (w_db w') !! k = notifications (w_db w) !! k) →
  (∀ k m, k ∈ ids → notifications (w_db w') !! k = Some m → workable m) →
  w_redis w' = zadd_all cmds (w_redis w) → Forall (λ e, ∃ c, e.1.1 = queue_key c) cmds →
  in_order env timeout D (worker_after w' pr).
Proof.
  intros Hset Hst Htm Hpos Hrows Hmw Hto Hother Hnew Hr Hcmds.
  assert (Htm' : timed D (e_now env (w_pos w)) (w_redis w')).
  { rewrite Hr. apply timed_ZADDs; [|done]. eapply Forall_impl; [exact Hcmds|].
    intros [[key s] raw] [c Hkey]. cbn in Hkey |- *. subst key. split; [apply work_queue|discriminate]. }
  split; [by split; [| |apply Hst]|done| |].
  - refine (timed_later D _ _ _ _ _ _ Htm'); [by apply (st_clock _ _ _ _ Hset)|apply (st_range _ _ _ _ Hset)..].
  - intros k m. cbn [worker_after w_db]. destruct (decide (k ∈ ids)) as [Hk|Hk].
    + intros Hm _. by apply (Hnew k).
    + rewrite Hother by done. apply Hrows.
Qed.

(** From there the rounds bring it to its end. *)
Lemma arrived_delivered req c n row (w' : World R) pr starts :
  setting env d (cr_Channel req) D → in_order env timeout D (worker_after w' pr) →
  built_from req c n → arrived n row w' →
  paced env d (cr_Channel req) D starts (worker_after w' pr) → time_has_come req starts →
  (5 ≤ length starts)%nat →
  ∃ n' w2, rounds env d (cr_Channel req) starts (worker_after w' pr) = Some w2 ∧
    notifications (w_db w2) !! n_ID n = Some n' ∧ delivered row n'.
Proof.
  intros Hset Hio Hb Harr Hp Htime Hlen.
  destruct (arrived_outstanding req c n row (worker_after w' pr) Hb) as (row' & Hn & _ & Ha & Hm & Hdel & Hout);
    [by apply (io_stores _ _ _ _ Hio)|done|].
  destruct (rounds_deliver env d (cr_Channel req) timeout D Htimely Hset starts (worker_after w' pr) (n_ID n) row')
    as (w2 & n' & Hrun2 & Hn' & Hd); [done..| |lia|lia|].
  - destruct starts as [|j starts]; [done|]. apply Hout. unfold time_has_come in Htime.
    by destruct (cr_ScheduledAt req).
  - exists n', w2. split_and!; [done|done|by apply Hdel].
Qed.

(** What [Create] leaves has arrived, *)
Lemma accepted_arrived n (w w' : World R) :
  accepted n w w' →
  ∃ row cmds, arrived n row w' ∧
    (∀ k, k ≠ n_ID n → notifications (w_db w') !! k = notifications (w_db w) !! k) ∧
    w_redis w' = zadd_all cmds (w_redis w) ∧ Forall (λ e, ∃ c, e.1.1 = queue_key c) cmds.
Proof.
  intros (row & Hrow & _ & Hother & Hacc). unfold arrived. exists row.
  destruct (n_ScheduledAt n) as [ts|].
  - exists []. by destruct Hacc.
  - destruct Hacc as (t & s & Hn & Hr). exists [(queue_key (n_Channel n), s, scheduled_raw n)].
    split_and!; [done|by exists t| |done|done|].
    + rewrite Hr, zset_ZADD, decide_True, lookup_insert_eq by done. done.
    + constructor; [by eexists|constructor].
Qed.

(** and so has each notification of a batch. *)
Lemma batch_arrived b reqs ns (w w' : World R) :
  Forall2 (built_in w b) reqs ns → batch_accepted ns w w' →
  NoDup (n_ID <$> ns) ∧
  Forall2 (λ req n, ∃ c row, built_from req c n ∧ arrived n row w') reqs ns ∧
  ∃ cmds, (∀ k, k ∉ n_ID <$> ns → notifications (w_db w') !! k = notifications (w_db w) !! k) ∧
    w_redis w' = zadd_all cmds (w_redis w) ∧ Forall (λ e, ∃ c, e.1.1 = queue_key c) cmds.
Proof.
  intros Hb Hacc. pose proof Hacc as (_ & Hnd & Hother & Hrows & cmds & Hr & Hcmds).
  split; [done|]. split.
  - apply (Forall2_elem_impl _ _ _ _ Hb). intros req n _ Hn Hbi.
    pose proof (built_schedule w b req n Hbi) as Hsch. destruct Hbi as (_ & wi & c & _ & _ & Hbf).
    destruct (Hrows n Hn) as (row & Hrow & Hstored). exists c, row. split; [done|]. split; [done|].
    destruct (n_ScheduledAt n) eqn:Es; [done|]. split; [done|].
    eapply batch_accepted_queued; [exact Hacc|done|by apply Hsch].
  - exists cmds. split_and!; [done|done|]. apply Forall_forall. intros e [j Hj]%list_elem_of_lookup.
    destruct (Forall2_lookup_r _ _ _ _ _ Hcmds Hj) as (n & _ & s & ->). by exists (n_Channel n).
Qed.

Lemma after_request {A} (q : prog A) a (w w' : World R) :
  wired q → uuids_ok env → wire_stores (w_db w) (w_redis w) → run env q w = (Some a, w') →
  wire_stores (w_db w') (w_redis w') ∧ (w_pos w ≤ w_pos w')%nat.
Proof.
  intros Hq Huu Hst Hrun. destruct (wire_run env q _ w Huu Hst Hq) as [Hst' _].
  pose proof (run_pos env q w) as Hpos. by rewrite Hrun in Hst', Hpos.
Qed.

(** C6: Accepted notifications are delivered.  When nothing fails, a client's notification
    answered with 201 reaches its end: after five rounds of the channel's worker, the
    first of them not before the time the client asked for, each at least five seconds
    (and the longest retry delay) after the last, with the channel's backlog within one
    batch, the provider has accepted it, with what the client asked for as the columns
    hold it, and its row says sent; or it was refused five times and its row says
    failed. *)
Theorem accepted_is_delivered r req resp (w w' : World R) pr starts :
  setting env d (cr_Channel req) D →
  decode_body decode_create_field zero_create r = Ok req →
  run env (NotificationHandler_Create r) w = (Some resp, w') → rs_code resp = StatusCreated →
  wire_stores (w_db w) (w_redis w) → timed D (e_now env (w_pos w)) (w_redis w) →
  (∀ k m, notifications (w_db w) !! k = Some m → claimable m = true ∨ n_Status m = StatusScheduled → workable m) →
  metrics_wf (p_metrics pr) → cb_timeout (p_cb pr) = timeout →
  paced env d (cr_Channel req) D starts (worker_after w' pr) → time_has_come req starts →
  (5 ≤ length starts)%nat →
  ∃ c n row n' w2, built_from req c n ∧ resp = writeJSON StatusCreated (Notification_json n) ∧
    coerce_notification n = Ok row ∧
    rounds env d (cr_Channel req) starts (worker_after w' pr) = Some w2 ∧
    notifications (w_db w2) !! n_ID n = Some n' ∧ delivered row n'.
Proof.
  intros Hset Hreq Hrun Hcode Hst Htm Hrows Hmw Hto Hp Htime Hlen.
  destruct (create_accepted env r w w' resp (st_quiet _ _ _ _ Hset) Hrun Hcode)
    as (req' & c & n & i & Hreq' & Hb & _ & Hresp & Hacc).
  assert (req' = req) as -> by congruence.
  destruct (after_request _ resp w w' (wired_Create r) (st_uuids _ _ _ _ Hset) Hst Hrun) as [Hst' Hpos].
  destruct (accepted_arrived n w w' Hacc) as (row & cmds & Harr & Hother & Hr & Hcmds).
  destruct (arrived_outstanding req c n row w' Hb (proj1 (proj2 Hst')) Harr) as (row' & Hn & Hwk & _).
  assert (Hio : in_order env timeout D (worker_after w' pr)).
  { apply (request_in_order (cr_Channel req) [n_ID n] cmds w w' pr); try done.
    - intros k Hk. apply Hother. by intros ->; apply Hk; left.
    - intros k m ->%list_elem_of_singleton Hm. congruence. }
  destruct (arrived_delivered req c n row w' pr starts) as (n' & w2 & ? & ? & ?); [done..|].
  exists c, n, row, n', w2. by destruct Harr.
Qed.

(** C7: Accepted batches are delivered.  When nothing fails and a client's batch was
    answered with 201, each of its notifications for a channel reaches its end under
    that channel's worker: after five rounds, the first not before the times the
    client asked for, each of them was sent, or failed after five refusals, with what
    its request asked for as the columns hold it. *)
Theorem accepted_batch_is_delivered ch r reqs resp (w w' : World R) pr starts :
  setting env d ch D →
  decode_body decode_batch_field [] r = Ok reqs →
  run env (NotificationHandler_BatchCreate r) w = (Some resp, w') → rs_code resp = StatusCreated →
  wire_stores (w_db w) (w_redis w) → timed D (e_now env (w_pos w)) (w_redis w) →
  (∀ k m, notifications (w_db w) !! k = Some m → claimable m = true ∨ n_Status m = StatusScheduled → workable m) →
  metrics_wf (p_metrics pr) → cb_timeout (p_cb pr) = timeout →
  paced env d ch D starts (worker_after w' pr) → (5 ≤ length starts)%nat →
  (∀ req, req ∈ reqs → cr_Channel req = ch → time_has_come req starts) →
  ∃ w2 ns, rounds env d ch starts (worker_after w' pr) = Some w2 ∧ NoDup (n_ID <$> ns) ∧
    Forall2 (λ req n, ∃ c row, built_from req c n ∧ coerce_notification n = Ok row ∧
      (cr_Channel req = ch → ∃ n', notifications (w_db w2) !! n_ID n = Some n' ∧ delivered row n')) reqs ns.
Proof.
  intros Hset Hreqs Hrun Hcode Hst Htm Hrows Hmw Hto Hp Hlen Htime.
  destruct (batch_created env r w w' resp (st_quiet _ _ _ _ Hset) Hrun Hcode)
    as (reqs' & b & ns & Hreqs' & Hb & Hacc).
  assert (reqs' = reqs) as -> by congruence.
  destruct (after_request _ resp w w' (wired_BatchCreate r) (st_uuids _ _ _ _ Hset) Hst Hrun) as [Hst' Hpos].
  destruct (batch_arrived b reqs ns w w' Hb Hacc) as (Hnd & Harr & cmds & Hother & Hr & Hcmds).
  assert (Hio : in_order env timeout D (worker_after w' pr)).
  { apply (request_in_order ch (n_ID <$> ns) cmds w w' pr); try done.
    intros k m (n & -> & [i Hi]%list_elem_of_lookup)%list_elem_of_fmap Hm.
    destruct (Forall2_lookup_r _ _ _ _ _ Harr Hi) as (req & _ & c & row & Hbf & Har).
    destruct (arrived_outstanding req c n row w' Hbf (proj1 (proj2 Hst')) Har) as (row' & Hn & Hwk & _).
    congruence. }
  destruct (rounds_run env d ch timeout D Htimely Hset starts (worker_after w' pr) Hio Hp) as [w2 Hrun2].
  exists w2, ns. split; [done|]. split; [done|].
  apply (Forall2_elem_impl _ _ _ _ Harr). intros req n Hreq _ (c & row & Hbf & Har).
  exists c, row. split; [done|]. split; [by destruct Har|]. intros Hch. subst ch.
  destruct (arrived_delivered req c n row w' pr starts) as (n' & w2' & Hrun2' & Hn' & Hd); [done..|by apply Htime|done|].
  exists n'. by simplify_eq.
Qed.
End delivery.

(** ** Five refused attempts *)

#[local] Existing Instances RefTemplate RefPg RefPg_laws RefUUID RefUUID_laws RefLua.

(** A hundred seconds pass with each effect; the provider always answers 503. *)
Definition demo_env_slow : Env := {|
  e_now i := demo_start + Z.min (Z.of_nat i) 1000000 * (100 * Second);
  e_fault := e_fault demo_env; e_uuid := e_uuid demo_env; e_rand := e_rand demo_env;
  e_http _ _ := Ok 503; e_lua := e_lua demo_env; e_done := e_done demo_env |}.

Lemma demo_slow_setting : setting demo_env_slow demo_dispatcher ChannelSMS (5 * (5 * Minute) / 4).
Proof.
  split.
  - done.
  - exact demo_texts_ok.
  - split.
    + intros i j Hij. cbn. assert (0 ≤ 100 * Second) by (unfold Second, Millisecond, Microsecond; lia). nia.
    + intros i. cbn. unfold in_int64, int64_min, int64_max, demo_start, Second, Millisecond, Microsecond. lia.
  - closed_arith.
  - intros i. change (5 * (5 * Minute) / 4) with (375 * Second). cbn.
    unfold in_int64, int64_min, int64_max, demo_start, Second, Millisecond, Microsecond. lia.
  - intros i. by apply N.mod_lt.
  - intros i. closed_arith.
  - reflexivity.
  - reflexivity.
  - reflexivity.
  - apply (delays_within_max (NewStrategy Second (5 * Minute))); closed_arith.
Qed.

Lemma demo_timely T : ProviderTimely T (5 * (5 * Minute) / 4) (p_provider (di_processor demo_dispatcher)).
Proof. apply breaker_Provider_timely, webhook_Client_timely. Qed.

Definition demo_slow_created : option Response * World RefRedis :=
  run demo_env_slow (NotificationHandler_Create (demo_request demo_body)) demo_world.
Definition demo_starts : list nat := [20; 60; 100; 140; 180]%nat.

Lemma demo_paced :
  paced demo_env_slow demo_dispatcher ChannelSMS (5 * (5 * Minute) / 4) demo_starts
    (worker_after demo_slow_created.2 demo_proc).
Proof.
  cbn [paced demo_starts]. split_and!; try exact I;
    first [apply (proj1 (Nat.leb_le _ _)); vm_compute; reflexivity | vm_compute; discriminate].
Qed.

(** The notification is refused five times. *)
Lemma accepted_is_delivered_witness :
  ∃ row n' w2 id, rounds demo_env_slow demo_dispatcher ChannelSMS demo_starts
      (worker_after demo_slow_created.2 demo_proc) = Some w2 ∧
    notifications (w_db w2) !! id = Some n' ∧ delivered row n'.
Proof.
  destruct (accepted_is_delivered demo_env_slow demo_dispatcher (30 * Second) (5 * (5 * Minute) / 4) demo_timely
    (demo_request demo_body) demo_asked (default (writeJSON 0 (Ok JNull)) demo_slow_created.1)
    demo_world demo_slow_created.2 demo_proc demo_starts)
    as (c & n & row & n' & w2 & _ & _ & _ & Hrun & Hn' & Hd).
  - exact demo_slow_setting.
  - vm_compute. reflexivity.
  - vm_compute. reflexivity.
  - vm_compute. reflexivity.
  - split; [exact db_wf_empty|]. split; [exact rows_typed_empty|exact wire_ok_empty].
  - split; intros *; discriminate.
  - intros k m Hm. discriminate Hm.
  - exact metrics_wf_new.
  - reflexivity.
  - exact demo_paced.
  - exact I.
  - apply (proj1 (Nat.leb_le _ _)). reflexivity.
  - exists row, n', w2, (n_ID n). split; [exact Hrun|]. split; [exact Hn'|exact Hd].
Defined.

(** A batch of an SMS and a scheduled e-mail, delivered by the SMS worker. *)
Definition demo_batch_created : option Response * World RefRedis :=
  run demo_env_slow (NotificationHandler_BatchCreate (demo_request demo_batch)) demo_world.

Definition demo_batch_asked : list CreateNotificationRequest :=
  match decode_body decode_batch_field [] (demo_request demo_batch) with Ok reqs => reqs | Err _ => [] end.

Lemma demo_batch_times req : req ∈ demo_batch_asked → cr_Channel req = ChannelSMS → cr_ScheduledAt req = None.
Proof.
  assert (Hall : Forall (λ req, cr_Channel req = ChannelSMS → cr_ScheduledAt req = None) demo_batch_asked)
    by (vm_compute; repeat constructor; intros Hch; first [reflexivity|discriminate Hch]).
  rewrite Forall_forall in Hall. apply Hall.
Qed.

Lemma demo_batch_paced :
  paced demo_env_slow demo_dispatcher ChannelSMS (5 * (5 * Minute) / 4) demo_starts
    (worker_after demo_batch_created.2 demo_proc).
Proof.
  cbn [paced demo_starts]. split_and!; try exact I;
    first [apply (proj1 (Nat.leb_le _ _)); vm_compute; reflexivity | vm_compute; discriminate].
Qed.

Lemma accepted_batch_is_delivered_witness :
  ∃ w2 ns, rounds demo_env_slow demo_dispatcher ChannelSMS demo_starts
      (worker_after demo_batch_created.2 demo_proc) = Some w2 ∧ NoDup (n_ID <$> ns) ∧ length ns = 2%nat.
Proof.
  destruct (accepted_batch_is_delivered demo_env_slow demo_dispatcher (30 * Second) (5 * (5 * Minute) / 4) demo_timely
    ChannelSMS (demo_request demo_batch) demo_batch_asked (default (writeJSON 0 (Ok JNull)) demo_batch_created.1)
    demo_world demo_batch_created.2 demo_proc demo_starts)
    as (w2 & ns & Hrun & Hnd & Hall).
  - exact demo_slow_setting.
  - vm_compute. reflexivity.
  - vm_compute. reflexivity.
  - vm_compute. reflexivity.
  - split; [exact db_wf_empty|]. split; [exact rows_typed_empty|exact wire_ok_empty].
  - split; intros *; discriminate.
  - intros k m Hm. discriminate Hm.
  - exact metrics_wf_new.
  - reflexivity.
  - exact demo_batch_paced.
  - apply (proj1 (Nat.leb_le _ _)). reflexivity.
  - intros req Hreq Hch. unfold time_has_come. by rewrite (demo_batch_times req Hreq Hch).
  - exists w2, ns. split; [exact Hrun|]. split; [exact Hnd|]. by rewrite <- (Forall2_length _ _ _ Hall).
Defined.

(** It ends as the theorem says: failed, after its five attempts. *)
Example demo_slow_end :
  (λ w2 : World RefRedis, (λ n, (n_Status n, n_Attempts n)) <$> notifications (w_db w2) !! 2%N) <$>
    rounds demo_env_slow demo_dispatcher ChannelSMS demo_starts (worker_after demo_slow_created.2 demo_proc) =
  Some (Some (StatusFailed, 5)).
Proof. vm_compute. reflexivity. Qed.
