(* ===== verification/Shutdown.v ===== *)
(** * Stopping a worker (internal/app/worker.go, the end of RunWorker;
      internal/worker/dispatcher.go: Stop; internal/worker/pool.go: Stop)

    On a signal the context is cancelled and [RunWorker] calls [dispatcher.Stop],
    which closes the pool's channel and waits for its goroutines.  [worker_step] is
    the machine of the goroutines involved: the main goroutine, one dispatch loop and
    the pool.  Since a cancelled context makes every call fail, a dispatch dequeues
    nothing any more; the second part says what that does to the batches in work. *)
From S2P Require Import Prelude GoLib Domain Uuid Retry Redis Postgres RateLimiter CircuitBreaker Hub.
From S2P Require Import Metrics TemplateEngine Effects Reference Queue Provider Repository Lifecycle.
From S2P Require Import Processor Pool Dispatcher Api Refinement NoPanic System.
From Stdlib Require Import ZArith Lia.
From stdpp Require Import base numbers list strings gmap fin_maps.

(** ** The goroutines *)

Section machine.
(** A batch of messages, as [dispatch] captures it in the task it submits. *)
Context {T : Type}.

(** The dispatch loop: at its select, sending a task to the pool, returned, or dead of
    a send on a closed channel (and the process with it). *)
Inductive loop_state := AtSelect | Submitting (t : T) | LoopReturned | LoopPanicked (t : T).

(** A panic ends the process. *)
Definition alive (l : loop_state) : bool := match l with LoopPanicked _ => false | _ => true end.

(** [RunWorker]: waiting for the context, in [Stop]'s wait, past it. *)
Inductive main_state := Serving | Stopping | Stopped.

(** The last two fields record which batches were dequeued and which ran to the end. *)
Record Worker := mkWorker {
  wk_pool : Pool T;
  wk_loop : loop_state;
  wk_main : main_state;
  wk_dequeued : list T;
  wk_finished : list T;
}.

Definition start_worker (size : nat) : Worker :=
  mkWorker (Start (NewPool size)) AtSelect Serving [] [].

(** What a pool goroutine does. *)
Definition by_pool (a : action T) : bool :=
  match a with ATake _ | AFinish _ | AReturn _ => true | _ => false end.

Definition ended (a : action T) (p : Pool T) : list T :=
  match a with
  | AFinish i => match p_workers p !! i with Some (Running t) => [t] | _ => [] end
  | _ => []
  end.

Inductive worker_step : Worker → Worker → Prop :=
| ws_dispatch p m dq fin t : p_cancelled p = false →
    worker_step (mkWorker p AtSelect m dq fin) (mkWorker p (Submitting t) m (dq ++ [t]) fin)
| ws_submit p p' t m dq fin : Submit t p = Sent p' →
    worker_step (mkWorker p (Submitting t) m dq fin) (mkWorker p' AtSelect m dq fin)
| ws_submit_closed p t m dq fin : Submit t p = SendPanics →
    worker_step (mkWorker p (Submitting t) m dq fin) (mkWorker p (LoopPanicked t) m dq fin)
| ws_loop_done p m dq fin : p_cancelled p = true →
    worker_step (mkWorker p AtSelect m dq fin) (mkWorker p LoopReturned m dq fin)
| ws_pool a p p' l m dq fin : by_pool a = true → alive l = true → pool_act a p = Some p' →
    worker_step (mkWorker p l m dq fin) (mkWorker p' l m dq (fin ++ ended a p))
| ws_signal p p' l m dq fin : alive l = true → p_cancelled p = false → pool_act ACancel p = Some p' →
    worker_step (mkWorker p l m dq fin) (mkWorker p' l m dq fin)
| ws_stop p p' l dq fin : alive l = true → p_cancelled p = true → pool_act AClose p = Some p' →
    worker_step (mkWorker p l Serving dq fin) (mkWorker p' l Stopping dq fin)
| ws_wait p l dq fin : alive l = true → wait_done p = true →
    worker_step (mkWorker p l Stopping dq fin) (mkWorker p l Stopped dq fin).

(** The batch on its way to the pool, or the one whose send panicked. *)
Definition in_flight (l : loop_state) : list T :=
  match l with Submitting t | LoopPanicked t => [t] | _ => [] end.

(** A closed channel belongs to a main goroutine past its wait for the context; after the
    wait nobody runs. *)
Record worker_inv (size : nat) (s : Worker) : Prop := {
  wi_size : p_size (wk_pool s) = size;
  wi_closed : p_closed (wk_pool s) = match wk_main s with Serving => false | _ => true end;
  wi_cancelled : wk_main s ≠ Serving → p_cancelled (wk_pool s) = true;
  wi_stopped : wk_main s = Stopped → wait_done (wk_pool s) = true;
  wi_wf : pool_wf (wk_pool s);
  wi_workers : length (p_workers (wk_pool s)) = size;
  wi_panic : alive (wk_loop s) = false → wk_main s ≠ Serving;
}.

Lemma pool_act_frame a p p' :
  by_pool a = true → pool_act a p = Some p' →
  p_size p' = p_size p ∧ p_closed p' = p_closed p ∧ p_cancelled p' = p_cancelled p ∧
  length (p_workers p') = length (p_workers p) ∧ (wait_done p = true → False).
Proof.
  intros Ha Hs.
  assert (Hbusy : ∀ i w, p_workers p !! i = Some w → w ≠ Returned → wait_done p = true → False).
  { unfold wait_done. intros i w Hi Hw Hd. rewrite forallb_forall in Hd.
    specialize (Hd w (proj1 (list_elem_of_In _ _) (list_elem_of_lookup_2 _ _ _ Hi))). by destruct w. }
  destruct a; try done; cbn [pool_act] in Hs; destruct (p_workers p !! i) as [w|] eqn:Ei; try done; destruct w; try done.
  - destruct (p_tasks p); [done|]. injection Hs as <-. split_and!; try done; [apply length_insert|by eapply Hbusy].
  - injection Hs as <-. split_and!; try done; [apply length_insert|by eapply Hbusy].
  - destruct (_ || _); [|done]. injection Hs as <-. split_and!; try done; [apply length_insert|by eapply Hbusy].
Qed.

Lemma worker_step_inv size s s' : worker_inv size s → worker_step s s' → worker_inv size s'.
Proof.
  intros [Hsz Hcl Hcan Hst Hwf Hlen Hpan] Hstep.
  destruct Hstep as [p m dq fin t Hc|p p' t m dq fin Hs|p t m dq fin Hs|p m dq fin Hc
    |a p p' l m dq fin Ha Hl Hs|p p' l m dq fin Hl Hnc Hs|p p' l dq fin Hl Hc Hs|p l dq fin Hl Hd];
    cbn in *.
  - by split.
  - pose proof (pool_act_wf (ASubmit t) p p') as Hwf'. cbn in Hwf'. rewrite Hs in Hwf'.
    destruct (Submit_Sent _ _ _ Hs) as (-> & Hopen & _). rewrite Hopen in Hcl.
    destruct m; [|done..]. split; cbn; try done. by apply Hwf'.
  - split; cbn; try done. intros _ ->. unfold Submit in Hs. rewrite Hcl in Hs. by case_match.
  - by split.
  - destruct (pool_act_frame a p p' Ha Hs) as (? & ? & Hc & ? & Hbusy).
    split; cbn; [congruence|congruence|by rewrite Hc|intros Hm; exfalso; auto|by eapply pool_act_wf|congruence|done].
  - pose proof (pool_act_wf ACancel p p' Hs Hwf). injection Hs as <-. by split.
  - pose proof (pool_act_wf AClose p p' Hs Hwf). unfold close_tasks in Hs. cbn in Hs. rewrite Hcl in Hs.
    injection Hs as <-. by split.
  - split; cbn; try done. intros _. by apply Hcan.
Qed.

Lemma worker_star_inv size s : star worker_step (start_worker size) s → worker_inv size s.
Proof.
  apply (star_invariant worker_step (worker_inv size)); [intros; by eapply worker_step_inv|].
  split; cbn; try done; [apply started_wf|apply length_replicate].
Qed.

(** *** No batch is lost or run twice *)

Definition conserved (s : Worker) : Prop :=
  wk_dequeued s ≡ₚ wk_finished s ++ running (wk_pool s) ++ p_tasks (wk_pool s) ++ in_flight (wk_loop s).

Lemma ended_conserves a p p' :
  by_pool a = true → pool_act a p = Some p' → running p ++ p_tasks p ≡ₚ ended a p ++ running p' ++ p_tasks p'.
Proof.
  intros Ha Hs. pose proof (pool_run_conserves [a] p p') as Hone. cbn [pool_run mbind option_bind] in Hone.
  rewrite Hs in Hone. destruct (Hone eq_refl) as (Ht & Hr & _). cbn [submitted received finished] in Ht, Hr.
  rewrite Hs in Ht, Hr. destruct a; try done; cbn [ended submitted] in *; rewrite ?app_nil_r in *; cbn [app] in *.
  - by rewrite <- Hr, <- app_assoc, <- Ht.
  - by rewrite Hr, Ht, <- app_assoc.
  - by rewrite Hr, Ht.
Qed.

Lemma step_conserves s s' : worker_step s s' → conserved s → conserved s'.
Proof.
  unfold conserved. intros Hstep Hp.
  destruct Hstep as [p m dq fin t Hc|p p' t m dq fin Hs|p t m dq fin Hs|p m dq fin Hc
    |a p p' l m dq fin Ha Hl Hs|p p' l m dq fin Hl Hnc Hs|p p' l dq fin Hl Hc Hs|p l dq fin Hl Hd];
    cbn [wk_pool wk_loop wk_dequeued wk_finished in_flight] in *; try done.
  - by rewrite Hp, !app_nil_r, !app_assoc.
  - destruct (Submit_Sent _ _ _ Hs) as (-> & _). rewrite Hp. unfold running, push. cbn. by rewrite app_nil_r.
  - rewrite Hp, !(app_assoc (running _)), (ended_conserves a p p' Ha Hs), !app_assoc. done.
  - by injection Hs as <-.
  - unfold close_tasks in Hs. cbn in Hs. unfold close_tasks in Hs. destruct (p_closed p); [done|]. by injection Hs as <-.
Qed.

Lemma wait_done_idle (p : Pool T) : wait_done p = true → running p = [].
Proof.
  unfold wait_done, running. induction (p_workers p) as [|[] l IH]; cbn; [done|done|done|exact IH].
Qed.

(** Every batch that was dequeued has run to the end, runs, waits in the channel or is
    about to be sent to it; none twice.  When [Stop]'s wait is over, none runs any
    more: the ones left in the channel never will. *)
Theorem worker_conserves size s :
  star worker_step (start_worker size) s →
  wk_dequeued s ≡ₚ wk_finished s ++ running (wk_pool s) ++ p_tasks (wk_pool s) ++ in_flight (wk_loop s) ∧
  (wk_main s = Stopped → running (wk_pool s) = []).
Proof.
  intros Hstar. split.
  - refine (star_invariant worker_step conserved _ _ _ _ Hstar); [intros; by eapply step_conserves|].
    unfold conserved. cbn [wk_pool wk_dequeued wk_finished start_worker wk_loop in_flight].
    by rewrite started_running.
  - intros Hm. by apply wait_done_idle, (wi_stopped _ _ (worker_star_inv size s Hstar)).
Qed.

(** *** Stop returns *)

Definition weight (w : worker T) : nat := match w with Running _ => 2 | Waiting => 1 | Returned => 0 end.

Definition pool_work (p : Pool T) : nat := 2 * length (p_tasks p) + sum_list_with weight (p_workers p).

(** What is left to do once [Stop] has closed the channel. *)
Definition work_left (s : Worker) : nat :=
  pool_work (wk_pool s) +
  (match wk_loop s with AtSelect | Submitting _ => 1 | _ => 0 end) +
  (match wk_main s with Stopped => 0 | _ => 1 end).

Lemma weight_insert i w w0 (l : list (worker T)) :
  l !! i = Some w0 → sum_list_with weight (<[i := w]> l) + weight w0 = sum_list_with weight l + weight w.
Proof.
  revert i. induction l as [|x l IH]; intros [|i] Hi; [done|done| |].
  - injection Hi as ->. cbn. lia.
  - specialize (IH i Hi). change (<[S i := w]> (x :: l)) with (x :: <[i := w]> l). cbn [sum_list_with]. lia.
Qed.

Lemma pool_act_work a p p' : by_pool a = true → pool_act a p = Some p' → S (pool_work p') = pool_work p.
Proof.
  intros Ha Hs. unfold pool_work. destruct a; try done; cbn [pool_act] in Hs;
    destruct (p_workers p !! i) as [w|] eqn:Ei; try done; destruct w; try done.
  - destruct (p_tasks p) as [|t rest]; [done|]. injection Hs as <-. cbn [p_tasks p_workers length].
    pose proof (weight_insert i (Running t) _ _ Ei). cbn [weight] in *. lia.
  - injection Hs as <-. cbn [set_worker p_tasks p_workers]. pose proof (weight_insert i Waiting _ _ Ei).
    cbn [weight] in *. lia.
  - destruct (_ || _); [|done]. injection Hs as <-. cbn [set_worker p_tasks p_workers].
    pose proof (weight_insert i Returned _ _ Ei). cbn [weight] in *. lia.
Qed.

Lemma stopping_step size s s' :
  worker_inv size s → wk_main s ≠ Serving → worker_step s s' →
  wk_main s' ≠ Serving ∧ S (work_left s') = work_left s.
Proof.
  intros [_ Hcl Hcan _ _ _ _] Hm Hstep. specialize (Hcan Hm).
  destruct Hstep as [p m dq fin t Hc|p p' t m dq fin Hs|p t m dq fin Hs|p m dq fin Hc
    |a p p' l m dq fin Ha Hl Hs|p p' l m dq fin Hl Hnc Hs|p p' l dq fin Hl Hc Hs|p l dq fin Hl Hd];
    unfold work_left in *; cbn [wk_pool wk_loop wk_main] in *; try congruence; try (split; [done|lia]).
  - destruct (Submit_Sent _ _ _ Hs) as (_ & Hopen & _). destruct m; congruence.
  - split; [done|]. pose proof (pool_act_work a p p' Ha Hs). destruct l, m; lia.
Qed.

(** Somebody can go on as long as the wait is not over. *)
Lemma busy_worker (l : list (worker T)) :
  forallb (λ w, match w with Returned => true | _ => false end) l = false →
  ∃ i w, l !! i = Some w ∧ w ≠ Returned.
Proof.
  induction l as [|w l IH]; [done|]. cbn. destruct w as [|t|]; cbn; intros Hd.
  - by exists 0%nat, Waiting.
  - by exists 0%nat, (Running t).
  - destruct (IH Hd) as (i & w & ? & ?). by exists (S i), w.
Qed.

Lemma stopping_progress size s :
  worker_inv size s → wk_main s = Stopping → alive (wk_loop s) = true → ∃ s', worker_step s s'.
Proof.
  intros [_ _ Hcan _ _ _ _] Hm Hl. destruct s as [p l m dq fin]. cbn in *. subst m. specialize (Hcan ltac:(done)).
  destruct (wait_done p) eqn:Hd; [eexists; by apply ws_wait|].
  destruct (busy_worker _ Hd) as (i & w & Hi & Hw). destruct w as [|t|]; [| |done].
  - eexists. apply (ws_pool (AReturn i)); [done|done|]. cbn. rewrite Hi, Hcan. reflexivity.
  - eexists. apply (ws_pool (AFinish i)); [done|done|]. cbn. rewrite Hi. reflexivity.
Qed.

Lemma weight_bound (l : list (worker T)) : sum_list_with weight l ≤ 2 * length l.
Proof. induction l as [|[] l IH]; cbn in *; lia. Qed.

(** C33: [Stop] returns.  From its [close] on, the goroutines can take at most
    [6*size+2] steps in all, however they interleave, and they come to rest only when
    [RunWorker] has left [Stop], unless the process dies of the dispatch loop's panic. *)
Theorem Stop_terminates size s :
  star worker_step (start_worker size) s → wk_main s = Stopping →
  (∀ n s', nsteps worker_step n s s' → n ≤ 6 * size + 2) ∧
  (∀ s', star worker_step s s' → (∀ s'', ¬ worker_step s' s'') →
     wk_main s' = Stopped ∨ ∃ t, wk_loop s' = LoopPanicked t).
Proof.
  intros Hstar Hm. pose proof (worker_star_inv size s Hstar) as Hinv. split.
  - assert (Hwork : work_left s ≤ 6 * size + 2).
    { destruct Hinv as [Hsz _ _ _ [Hroom _] Hlen _]. unfold work_left, pool_work. unfold capacity in Hroom.
      pose proof (weight_bound (p_workers (wk_pool s))). destruct (wk_loop s), (wk_main s); lia. }
    intros n s' Hn. enough (n ≤ work_left s) by lia. clear Hwork Hstar. assert (Hm' : wk_main s ≠ Serving) by congruence.
    clear Hm. induction Hn as [s|n s s1 s' Hstep _ IH]; [lia|].
    destruct (stopping_step size s s1 Hinv Hm' Hstep) as [Hm1 <-].
    specialize (IH (worker_step_inv _ _ _ Hinv Hstep) Hm1). lia.
  - intros s' Hs' Hstuck. assert (Hinv' : worker_inv size s' ∧ wk_main s' ≠ Serving).
    { refine (star_invariant worker_step (λ s, worker_inv size s ∧ wk_main s ≠ Serving) _ _ _ _ Hs').
      - intros s1 s2 [Hi Hs] H12. split; [by eapply worker_step_inv|]. by apply (stopping_step size s1).
      - split; [done|congruence]. }
    destruct Hinv' as [Hinv' Hm']. destruct (wk_loop s') as [|t| |t] eqn:El; [| | |right; by exists t];
      left; (destruct (wk_main s') eqn:Em; [done| |done]);
      exfalso; (destruct (stopping_progress size s' Hinv' Em) as [s'' Hs'']; [by rewrite El|]); by apply (Hstuck s'').
Qed.

(** A pool of size 0, which the settings allow, has no goroutine and no room: the first
    batch that is dequeued waits in [Submit] for ever. *)
Theorem empty_pool_never_works s :
  star worker_step (start_worker 0) s → wk_finished s = [] ∧ p_tasks (wk_pool s) = [].
Proof.
  intros Hstar. pose proof (worker_star_inv 0 s Hstar) as [Hsz _ _ _ [Hroom _] Hlen _]. split.
  - clear Hsz Hroom Hlen. refine (proj2 (star_invariant worker_step
      (λ s, worker_inv 0 s ∧ wk_finished s = []) _ _ _ _ Hstar)); [|by split; [apply (worker_star_inv 0), star_refl|]].
    intros s1 s2 [Hi Hf] Hstep. split; [by eapply worker_step_inv|]. pose proof (wi_workers _ _ Hi) as Hlen.
    destruct Hstep as [| | | |a p p' l m dq fin Ha Hl Hs| | |]; cbn in *; try done.
    apply nil_length_inv in Hlen. rewrite Hf. destruct a; try done; cbn [pool_act] in Hs; by rewrite Hlen in Hs.
  - apply nil_length_inv. unfold capacity in Hroom. rewrite Hsz in Hroom. lia.
Qed.

(** *** Stop can kill the process *)

(** C36: A batch between its dequeue and its [Submit] when [Stop] closes the channel is lost:
    the only step left for the dispatch loop is to panic.  It happens only then, and
    it can happen to any batch, in a pool of any size. *)
Theorem stop_panics_dispatch size t :
  (∃ s, star worker_step (start_worker size) s ∧ wk_loop s = LoopPanicked t ∧
        wk_dequeued s = [t] ∧ wk_finished s = []) ∧
  (∀ s, star worker_step (start_worker size) s → wk_loop s = LoopPanicked t → wk_main s ≠ Serving) ∧
  (∀ s s', star worker_step (start_worker size) s → wk_main s ≠ Serving → wk_loop s = Submitting t →
     worker_step s s' → wk_loop s' = Submitting t ∨ wk_loop s' = LoopPanicked t).
Proof.
  split_and!.
  - set (p := Start (NewPool size) : Pool T).
    set (p1 := mkPool (p_size p) (p_tasks p) (p_closed p) (p_workers p) true).
    set (p2 := mkPool (p_size p) (p_tasks p) true (p_workers p) true).
    exists (mkWorker p2 (LoopPanicked t) Stopping [t] []). split; [|done].
    do 4 (eapply star_snoc; [|first
      [ by apply (ws_submit_closed p2 t) | by apply (ws_stop p1 p2) | by apply (ws_signal p p1)
      | by apply (ws_dispatch p Serving [] [] t) ]]).
    apply star_refl.
  - intros s Hstar Hl. apply (wi_panic _ _ (worker_star_inv size s Hstar)). by rewrite Hl.
  - intros s s' Hstar Hm Hl Hstep. pose proof (wi_closed _ _ (worker_star_inv size s Hstar)) as Hcl.
    destruct Hstep; cbn in *; simplify_eq; auto.
    destruct (Submit_Sent _ _ _ H) as (_ & Hopen & _). destruct m; congruence.
Qed.
End machine.

(** A worker with an idle pool is told to stop. *)
Definition demo_stopping : Worker (T := nat) :=
  mkWorker (mkPool 1 [] true [Waiting] true) AtSelect Stopping [] [].

Lemma demo_stopping_reachable : star worker_step (start_worker 1) demo_stopping.
Proof.
  set (p := Start (NewPool 1) : Pool nat). set (p1 := mkPool 1 [] false [Waiting] true : Pool nat).
  eapply star_snoc; [|by apply (ws_stop p1 (wk_pool demo_stopping))].
  eapply star_snoc; [apply star_refl|by apply (ws_signal p p1)].
Qed.

(** It is at rest after three steps, within the bound. *)
Lemma Stop_terminates_witness :
  ∃ s', nsteps worker_step 3 demo_stopping s' ∧ wk_main s' = Stopped ∧ 3 ≤ 6 * 1 + 2.
Proof.
  set (p := wk_pool demo_stopping). set (p1 := mkPool 1 [] true [Returned] true : Pool nat).
  exists (mkWorker p1 LoopReturned Stopped [] []).
  assert (Hn : nsteps worker_step 3 demo_stopping (mkWorker p1 LoopReturned Stopped [] [])).
  { eapply nsteps_l; [by apply (ws_pool (AReturn 0) p p1)|].
    eapply nsteps_l; [by apply (ws_loop_done p1)|].
    eapply nsteps_l; [by apply (ws_wait p1)|]. apply nsteps_O. }
  split; [exact Hn|]. split; [reflexivity|].
  exact (proj1 (Stop_terminates 1 demo_stopping demo_stopping_reachable eq_refl) 3 _ Hn).
Defined.

Lemma worker_conserves_witness :
  wk_dequeued demo_stopping ≡ₚ wk_finished demo_stopping ++ running (wk_pool demo_stopping) ++
    p_tasks (wk_pool demo_stopping) ++ in_flight (wk_loop demo_stopping).
Proof. exact (proj1 (worker_conserves 1 demo_stopping demo_stopping_reachable)). Defined.

(** ** A batch in work when the context is cancelled *)

Open Scope Z_scope.

(** From the [i]-th effect on every call made with the context fails. *)
Record cancelled_from (env : Env) (i : nat) : Prop := {
  cf_stores j : (i ≤ j)%nat → ∃ m, e_fault env j = Lost m;
  cf_http j pl : (i ≤ j)%nat → ∃ err, e_http env j pl = Err err;
  cf_done j : (i ≤ j)%nat → e_done env j = true;
}.

Section cancelled.
Context {R : Type} `{RedisServer R} `{LuaNumber} `{PgLaws} `{TextTemplate} `{UUIDLib}.
Variable env : Env.

Lemma cancelled_handle {X} (e : eff X) (w : World R) :
  cancelled_from env (w_pos w) → same_stores w (handle env e w).2.
Proof.
  intros Hc. destruct (cf_stores _ _ Hc (w_pos w) (le_n _)) as [m Hm].
  destruct e; cbn [handle]; rewrite ?Hm; try done.
  - by destruct (exec_cb _ _ _).
  - by destruct (exec_hub _ _).
  - by destruct (incr _ _ _).
  - by destruct (exec_cache _ _).
Qed.

Lemma cancelled_later i j : (i ≤ j)%nat → cancelled_from env i → cancelled_from env j.
Proof. intros Hle [Hs Hh Hd]. split; intros; [apply Hs|apply Hh|apply Hd]; lia. Qed.

(** Once cancelled, no program changes the tables or Redis. *)
Lemma cancelled_run {A} (q : prog A) (w : World R) :
  cancelled_from env (w_pos w) → same_stores w (run env q w).2.
Proof.
  revert w. induction q as [a|X e k IH|]; intros w Hc; cbn [run]; try apply same_stores_refl.
  pose proof (cancelled_handle e w Hc) as Hs. pose proof (handle_pos env e w) as Hpos.
  destruct (handle env e w) as [x w1]. cbn in Hs, Hpos. eapply same_stores_trans; [done|].
  apply IH. eapply cancelled_later; [|done]. lia.
Qed.

Variable p : Processor.
Context `{!ProviderObeys (p_provider p)}.

End cancelled.

#[local] Existing Instances RefTemplate RefPg RefPg_laws RefUUID RefUUID_laws RefLua RefWebsocket RefWebsocket_laws.

(** The context is cancelled at the [k]-th effect. *)
Definition demo_env_stop (k : nat) : Env := {|
  e_now := e_now demo_env;
  e_fault i := if (k <=? i)%nat then Lost "context canceled" else NoFault;
  e_uuid := e_uuid demo_env; e_rand := e_rand demo_env;
  e_http i pl := if (k <=? i)%nat then Err (EOther "context canceled") else e_http demo_env i pl;
  e_lua := e_lua demo_env; e_done i := (k <=? i)%nat |}.

Lemma demo_env_stop_cancelled k : cancelled_from (demo_env_stop k) k.
Proof.
  split; cbn; intros j; intros; replace (k <=? j)%nat with true by (symmetry; by apply Nat.leb_le);
    by eauto.
Qed.


(** A worker about to process a message it has dequeued. *)
Definition demo_batch : Effects.Config RefRedis :=
  two_processes (w_db (demo_in_flight StatusQueued)) (w_redis (demo_in_flight StatusQueued))
    [(1%nat, ProcessBatch demo_processor [demo_message 1 PriorityNormal])].

(** A stop can hide a delivery.  The provider accepts the notification, the context is
    cancelled, and the UPDATE that would have said so fails: the process comes to its
    end with the row "processing" and the message still recorded as in flight. *)
Theorem stop_hides_delivery :
  let c := after (demo_env_stop 4) (replicate 10 0%nat) demo_batch in
  let facts := schedule_facts (demo_env_stop 4) (replicate 10 0%nat) demo_batch in
  star (app_step (demo_env_stop 4)) (demo_batch, []) (c, facts) ∧
  calls (uuid_String 1%N) facts = 1%nat ∧
  existsb (λ f, match f with Accepted _ => true | _ => false end) facts = true ∧
  c_threads c = [(1%nat, mret tt)] ∧ summary 1 c = (Some (StatusProcessing, false), 0%nat, 1%nat).
Proof.
  intros c facts. split.
  - apply (after_star (demo_env_stop 4) app_program _ _ []). vm_compute. reflexivity.
  - split; [vm_compute; reflexivity|]. split; [vm_compute; reflexivity|]. split; vm_compute; reflexivity.
Qed.
