(* ===== verification/App.v ===== *)
(** * Start-up and wiring (internal/app)

    [NewInfra] opens the connections one after the other and gives back what it has
    when a step fails; its state is the set of resources that are open.  The drivers'
    answers are the record [Calls].  [RunWorker] builds a worker from the settings:
    here the memory of its process and the goroutines it starts.  [deployment] is any
    number of running commands of cmd/, API and workers, with their settings. *)
From S2P Require Import Prelude GoLib Domain Uuid Settings Retry Redis Postgres RateLimiter CircuitBreaker.
From S2P Require Import GoJson Hub Metrics TemplateEngine Effects Contract Reference Queue Rows Provider Repository Lifecycle.
From S2P Require Import Processor Scheduler Dispatcher Handlers Templates Api Refinement NoPanic Wire System.
From Stdlib Require Import ZArith Lia.
From stdpp Require Import base numbers list strings gmap fin_maps.

Open Scope Z_scope.

(** ** Opening the connections *)

Inductive resource := RPool | RSqlDB | RRedis | RExporter | RTracer.
#[export] Instance resource_eq_dec : EqDecision resource.
Proof. solve_decision. Defined.

(** Go's conversion to [int32]. *)
Definition int32 (z : Z) : Z := (z + 2 ^ 31) mod 2 ^ 32 - 2 ^ 31.

Record PoolConfig := mkPoolConfig {
  pl_MaxConns : Z;
  pl_MinConns : Z;
  pl_MaxConnLifetime : Z;
  pl_MaxConnIdleTime : Z;
  pl_HealthCheckPeriod : Z;
}.

Definition pool_config (d : DatabaseConfig) : PoolConfig :=
  mkPoolConfig (int32 (dc_MaxConns d)) (int32 (dc_MinConns d)) (dc_MaxConnLifetime d)
    (dc_MaxConnIdleTime d) (dc_HealthCheckPeriod d).

(** The drivers' answers. *)
Record Calls := mkCalls {
  ca_ParseConfig : string → result error unit;
  ca_NewWithConfig : PoolConfig → result error unit;
  ca_PoolPing : result error unit;
  ca_SqlOpen : string → result error unit;
  ca_SetDialect : string → result error unit;
  ca_Up : string → result error unit;
  ca_RedisPing : RedisConfig → result error unit;
  ca_NewExporter : string → result error unit;
  ca_NewResource : string → result error unit;
}.

(** internal/migration/migrator.go: [Run] *)
Definition migration_Run (calls : Calls) : result error unit :=
  _ ← ca_SetDialect calls "postgres"; ca_Up calls "migrations".

(** internal/observability/tracing.go; the provider owns the exporter. *)
Definition InitTracing (calls : Calls) (endpoint : string) (open : list resource) :
    result error unit * list resource :=
  match ca_NewExporter calls endpoint with
  | Err err => (Err (EWrap "create trace exporter" err), open)
  | Ok _ =>
      match ca_NewResource calls "insider" with
      | Err err => (Err (EWrap "create resource" err), RExporter :: open)
      | Ok _ => (Ok tt, RTracer :: open)
      end
  end.

Record Infra := mkInfra { in_Config : Settings.Config }.

Definition release (r : resource) (open : list resource) : list resource := filter (λ x, x ≠ r) open.

Section infra.
Context `{EnvLib}.
Variable getenv : string → option string.
Variable calls : Calls.

(** The result and the resources that are open when it returns. *)
Definition NewInfra (open : list resource) : result error Infra * list resource :=
  match Load getenv with
  | Err err => (Err (EWrap "load config" err), open)
  | Ok cfg =>
      let dsn := DSN (cf_Database cfg) in
      match ca_ParseConfig calls dsn with
      | Err err => (Err (EWrap "parse postgres config" err), open)
      | Ok _ =>
          match ca_NewWithConfig calls (pool_config (cf_Database cfg)) with
          | Err err => (Err (EWrap "connect to postgres" err), open)
          | Ok _ =>
              let open := RPool :: open in
              match ca_PoolPing calls with
              | Err err => (Err (EWrap "ping postgres" err), release RPool open)
              | Ok _ =>
                  match ca_SqlOpen calls dsn with
                  | Err err => (Err (EWrap "open sql db for migrations" err), release RPool open)
                  | Ok _ =>
                      let open := RSqlDB :: open in
                      match migration_Run calls with
                      | Err err =>
                          (Err (EWrap "run migrations" err), release RPool (release RSqlDB open))
                      | Ok _ =>
                          let open := RRedis :: release RSqlDB open in
                          match ca_RedisPing calls (cf_Redis cfg) with
                          | Err err => (Err (EWrap "connect to redis" err), release RPool open)
                          | Ok _ =>
                              let open :=
                                if tc_Enabled (cf_Tracing cfg)
                                then (InitTracing calls (tc_Endpoint (cf_Tracing cfg)) open).2 else open in
                              (Ok (mkInfra cfg), open)
                          end
                      end
                  end
              end
          end
      end
  end.
End infra.

Definition Infra_Close (open : list resource) : list resource := release RRedis (release RPool open).

(** ** Wiring *)

Section wiring.
Context `{TextTemplate} `{UUIDLib} `{WebsocketLib}.

Definition worker_processor (cfg : Settings.Config) : Processor :=
  NewProcessor (breaker_Provider webhook_Client (pc_CBTimeout (cf_Provider cfg)))
    (NewStrategy (wc_RetryBaseWait (cf_Worker cfg)) (wc_RetryMaxWait (cf_Worker cfg))).

Definition worker_dispatcher (cfg : Settings.Config) (channel : Channel) : Dispatcher :=
  NewSingleChannelDispatcher (NewConsumer (wc_VisibilityTimeout (cf_Worker cfg)))
    (NewRateLimiter (wc_RateLimit (cf_Worker cfg))) (worker_processor cfg) channel
    (wc_PollInterval (cf_Worker cfg)) (wc_BatchSize (cf_Worker cfg)).

(** The memory of a worker process; it has no template engine. *)
Definition worker_process (cfg : Settings.Config) : Proc :=
  mkProc (NewCircuitBreaker (pc_CBMaxFailures (cf_Provider cfg)) (pc_CBTimeout (cf_Provider cfg)))
    NewHub NewMetricsCollector NewEngine.

(** [Dispatcher.Start]: a loop for each of its channels. *)
Definition Dispatcher_Start (ticks fuel : nat) (d : Dispatcher) : list (prog unit) :=
  (λ ch, _ ← dispatchLoop ticks fuel d ch; mret tt) <$> Channels d.

(** The goroutines of a worker. *)
Definition RunWorker (ticks fuel : nat) (cfg : Settings.Config) (channel : Channel) : list (prog unit) :=
  Dispatcher_Start ticks fuel (worker_dispatcher cfg channel) ++ [Scheduler_Start ticks fuel].

(** The memory of the API process; it has no provider and no breaker. *)
Definition api_process : Proc := mkProc (NewCircuitBreaker 0 0) NewHub NewMetricsCollector NewEngine.

(** A command that runs: the memory of its process and the goroutines it started.
    Those of the API arrive with its requests. *)
Record Running := mkRunning { ru_proc : Proc; ru_threads : list (prog unit) }.

Definition api_running : Running := mkRunning api_process [].

Definition worker_running (ticks fuel : nat) (cfg : Settings.Config) (channel : Channel) : Running :=
  mkRunning (worker_process cfg) (RunWorker ticks fuel cfg channel).

(** The four commands, a worker by its channel. *)
Inductive Command := CmdApi | CmdWorkerSMS | CmdWorkerEmail | CmdWorkerPush.

Definition command_channel (c : Command) : option Channel :=
  match c with
  | CmdApi => None
  | CmdWorkerSMS => Some ChannelSMS
  | CmdWorkerEmail => Some ChannelEmail
  | CmdWorkerPush => Some ChannelPush
  end.

Definition running (ticks fuel : nat) (c : Command * Settings.Config) : Running :=
  match command_channel c.1 with
  | None => api_running
  | Some ch => worker_running ticks fuel c.2 ch
  end.

(** Running commands, each with the settings it has read, on the stores they share. *)
Definition deployment {R} (ticks fuel : nat) (cs : list (Command * Settings.Config)) (db : DB) (r : R) :
    Effects.Config R :=
  mkConfig db r 0 (ru_proc ∘ running ticks fuel <$> cs)
    (mjoin (imap (λ pid c, pair pid <$> ru_threads (running ticks fuel c)) cs)).
End wiring.

(** ** Resources *)

(** Start-up gives back what it opened.  When it succeeds both connections are open,
    the migration's is closed, and [Close] closes everything but the tracing; when it
    fails nothing is left open, except that a Redis client that does not answer the
    ping is left behind. *)
Theorem NewInfra_resources `{EnvLib} getenv calls :
  match NewInfra getenv calls [] with
  | (Ok infra, open) =>
      Load getenv = Ok (in_Config infra) ∧ RPool ∈ open ∧ RRedis ∈ open ∧ (RSqlDB ∉ open) ∧
      Infra_Close open =
        (if tc_Enabled (cf_Tracing (in_Config infra))
         then (InitTracing calls (tc_Endpoint (cf_Tracing (in_Config infra))) []).2 else [])
  | (Err err, open) => open = [] ∨ ∃ e, err = EWrap "connect to redis" e ∧ open = [RRedis]
  end.
Proof.
  unfold NewInfra. destruct (Load getenv) as [cfg|err]; [|by left].
  destruct (ca_ParseConfig _ _); [|by left]. destruct (ca_NewWithConfig _ _); [|by left].
  destruct (ca_PoolPing _); [|by left]. destruct (ca_SqlOpen _ _); [|by left].
  destruct (migration_Run _); [|by left]. destruct (ca_RedisPing _ _) as [?|err]; [|right; exists err; by split].
  cbn [in_Config]. split; [done|]. unfold InitTracing.
  destruct (tc_Enabled _); [destruct (ca_NewExporter _ _); [destruct (ca_NewResource _ _)|]|]; cbn [snd];
    (split_and!; [by apply (bool_decide_unpack _)|by apply (bool_decide_unpack _)
                 |by apply (bool_decide_unpack _)|reflexivity]).
Qed.

(** ** The deployment *)

Section deployed.
Context {R : Type} `{RedisServer R} `{LuaNumber} `{PgLaws} `{TextTemplate} `{UUIDLib} `{WebsocketLaws}.
Variable env : Env.

(** A goroutine of the deployment is one a command started. *)
Lemma deployment_threads (P : prog unit → Prop) ticks fuel cs db (r : R) :
  (∀ c cfg ch, (c, cfg) ∈ cs → command_channel c = Some ch → Forall P (RunWorker ticks fuel cfg ch)) →
  Forall (λ t, P t.2) (c_threads (deployment ticks fuel cs db r)).
Proof.
  intros HP. cbn [c_threads deployment]. apply Forall_forall. intros t (l & Ht & Hl)%list_elem_of_join.
  apply elem_of_lookup_imap in Hl as (pid & [c cfg] & -> & Hc%list_elem_of_lookup_2).
  apply list_elem_of_fmap in Ht as (q & -> & Hq). unfold running in Hq. cbn [fst] in Hq.
  destruct (command_channel c) as [ch|] eqn:E; [|by apply not_elem_of_nil in Hq].
  specialize (HP c cfg ch Hc E). rewrite Forall_forall in HP. by apply HP.
Qed.

Lemma deployment_procs (P : Proc → Prop) ticks fuel cs db (r : R) :
  P api_process → (∀ cfg, P (worker_process cfg)) → Forall P (c_procs (deployment ticks fuel cs db r)).
Proof.
  intros Ha Hw. cbn [c_procs deployment]. apply Forall_fmap, Forall_forall. intros [c cfg] _.
  unfold compose, running. cbn [fst snd]. destruct (command_channel c); [apply Hw|exact Ha].
Qed.

Lemma RunWorker_programs ticks fuel cfg ch : Forall app_program (RunWorker ticks fuel cfg ch).
Proof.
  unfold RunWorker, Dispatcher_Start. apply Forall_app. split.
  - apply Forall_fmap, Forall_forall. intros c _. apply app_dispatcher.
  - apply Forall_singleton, app_scheduler.
Qed.

(** A worker starts ready to process, whatever the settings. *)
Lemma worker_ready cfg db (r : R) i :
  db_wf db → ready (pc_CBTimeout (cf_Provider cfg)) (mkWorld db r i (worker_process cfg)).
Proof. intros Hwf. split; [reflexivity|exact metrics_wf_new|done]. Qed.

(** C1: The deployed system is safe.  From a database without notifications, while any
    number of API processes answer any requests and any number of workers, each with
    its settings, poll, dispatch, process and schedule, with goroutines interleaved,
    calls failing, processes dying and starting again: the constraints of the schema hold, every row
    tells the truth about its delivery, and no process has a WebSocket client to tell
    it to. *)
Theorem deployment_safe ticks fuel cs db (r : R) c facts :
  db_wf db → notifications db = ∅ →
  star (app_step env) (deployment ticks fuel cs db r, []) (c, facts) →
  db_wf (c_db c) ∧ (∀ k n, notifications (c_db c) !! k = Some n → truthful facts k n) ∧
  Forall nobody (c_procs c).
Proof.
  intros Hwf Hempty Hstar.
  assert (Hth : Forall (λ t, app_program t.2) (c_threads (deployment ticks fuel cs db r)))
    by (apply deployment_threads; intros; apply RunWorker_programs).
  split_and!.
  - by destruct (app_star_simulates env _ _ (app_inv_start (deployment ticks fuel cs db r) Hwf Hth) Hstar) as [_ [? _]].
  - intros k n Hn. by eapply (rows_truthful env (deployment ticks fuel cs db r)).
  - eapply (app_star_nobody env (deployment ticks fuel cs db r)); [done|done| |done].
    by apply deployment_procs.
Qed.

(** *** Panics *)

Lemma RunWorker_sane ticks fuel cfg ch :
  Channel_Valid ch = true → 0 < wc_PollInterval (cf_Worker cfg) →
  Forall sane_program (RunWorker ticks fuel cfg ch).
Proof.
  intros Hch Hpos. unfold RunWorker, Dispatcher_Start. apply Forall_app. split.
  - apply Forall_singleton. by apply sane_dispatcher.
  - apply Forall_singleton, sane_scheduler.
Qed.

Lemma booted_calm pr : booted pr → on_process (R:=R) calm_inv pr.
Proof. intros (? & ? & ->). exact metrics_wf_new. Qed.

Lemma command_channel_valid c ch : command_channel c = Some ch → Channel_Valid ch = true.
Proof. by destruct c; intros [= <-]. Qed.

Lemma deployment_calm ticks fuel cs db (r : R) :
  db_wf db → (∀ c cfg, (c, cfg) ∈ cs → c ≠ CmdApi → 0 < wc_PollInterval (cf_Worker cfg)) →
  obliged calm_contract calm_inv (deployment ticks fuel cs db r).
Proof.
  intros Hwf Hpos. split; [exact Hwf|apply deployment_procs; intros; exact metrics_wf_new|].
  apply (deployment_threads calm). intros c cfg ch Hc Hch. eapply Forall_impl; [|apply sane_calm].
  apply RunWorker_sane; [by eapply command_channel_valid|]. apply (Hpos c cfg Hc). by intros ->.
Qed.

End deployed.

(** *** Types of the stores *)

Section typed.
Context {R : Type} `{RedisLaws R} `{LuaNumber} `{PgLaws} `{TextTemplate} `{UUIDLaws} `{WebsocketLib}.
Variable env : Env.

Lemma deployment_wired ticks fuel cs db (r : R) :
  Forall (λ t, wired_program t.2) (c_threads (deployment ticks fuel cs db r)).
Proof.
  apply deployment_threads. intros _ cfg ch _ _. unfold RunWorker, Dispatcher_Start. apply Forall_app. split.
  - apply Forall_fmap, Forall_forall. intros c _. apply wired_dispatcher.
  - apply Forall_singleton, wired_scheduler.
Qed.

(** C5: The queues stay typed.  In every execution of the deployment that starts from
    typed stores, with goroutines interleaved, calls failing and processes dying: each
    member of a channel's queue or processing set is the wire format of a message of
    this channel, each delayed retry that of a message; every row is keyed by a UUID, its
    attempts fit the column and its template variables are a map.  So the rows of a
    SELECT are scanned back as they were stored; and a consumer never pops a member that does not
    decode, which [DequeueBatch] would lose with the rest of its batch: it returns
    messages of its channel, or Redis did not answer. *)
Theorem deployment_keeps_types ticks fuel cs db (r : R) c facts :
  uuids_ok env → db_wf db → rows_typed db → wire_ok r →
  star (step_of env wired_program) (deployment ticks fuel cs db r, []) (c, facts) →
  (∀ key ch raw s, key = queue_key ch ∨ key = processing_key ch → zset (c_redis c) key !! raw = Some s →
     ∃ msg, Unmarshal raw = Ok msg ∧ Marshal msg = Ok raw ∧ m_Channel msg = ch) ∧
  (∀ raw s, zset (c_redis c) retryDelayedKey !! raw = Some s →
     ∃ msg, Unmarshal raw = Ok msg ∧ Marshal msg = Ok raw) ∧
  (∀ k n, notifications (c_db c) !! k = Some n →
     n_ID n = k ∧ is_uuid k ∧ 0 ≤ n_Attempts n < 2 ^ 31 ∧ is_map (n_TemplateVars n) = true) ∧
  (∀ ns, Forall (λ n, notifications (c_db c) !! n_ID n = Some n) ns →
     scanNotifications (Ok ∘ columns_of <$> ns) None = Ok ns) ∧
  ∀ consumer ch count pr, ∃ res w', run env (DequeueBatch consumer ch count)
    (mkWorld (c_db c) (c_redis c) (c_pos c) pr) = (Some res, w') ∧ dequeued ch res.
Proof.
  intros Huu Hwf Ht Hr Hstar.
  destruct (wire_star env (deployment ticks fuel cs db r) _ _ Huu (conj Hwf (conj Ht Hr))
    (deployment_wired ticks fuel cs db r) Hstar) as (Hwf' & Ht' & Hr').
  split_and!.
  - intros key ch raw s Hk Hs. destruct (wk_placed _ Hr' key raw s) as (msg & Hok & Hm & Hch); [right; by exists ch|done|].
    exists msg. split_and!; [by apply Unmarshal_Marshal_message|done|by apply Hch].
  - intros raw s Hs. destruct (wk_placed _ Hr' _ raw s work_delayed Hs) as (msg & Hok & Hm & _).
    exists msg. split; [by apply Unmarshal_Marshal_message|done].
  - intros k n Hn. destruct (Ht' k n Hn) as [[Hid Ha] _]. by rewrite <- (ok_key _ _ (wf_rows _ Hwf' _ _ Hn)).
  - intros ns Hns. apply scan_reads_back. eapply Forall_impl; [exact Hns|]. intros n Hn. by apply (Ht' (n_ID n) n).
  - intros consumer ch count pr. set (w := mkWorld _ _ _ _).
    destruct (wire_run env _ _ w Huu (conj Hwf' (conj Ht' Hr')) (meets_DequeueBatch consumer ch count)) as [_ Hd].
    destruct (no_panic_run env (DequeueBatch consumer ch count) w) as (res & w' & Hrun).
    { unfold DequeueBatch. solve_no_panic. }
    rewrite Hrun in Hd. by exists res, w'.
Qed.
End typed.

#[local] Existing Instances RefTemplate RefPg RefPg_laws RefUUID RefUUID_laws RefLua RefWebsocket RefWebsocket_laws.

(** The API and the three workers on the default settings. *)
Definition demo_commands : list (Command * Settings.Config) :=
  (λ c, (c, default_config)) <$> [CmdApi; CmdWorkerSMS; CmdWorkerEmail; CmdWorkerPush].
Definition demo_deployment : Effects.Config RefRedis := deployment 1 1 demo_commands empty_DB empty_RefRedis.

Lemma demo_polls c cfg : (c, cfg) ∈ demo_commands → c ≠ CmdApi → 0 < wc_PollInterval (cf_Worker cfg).
Proof. intros (c' & [= -> ->] & _)%list_elem_of_fmap _. reflexivity. Qed.

Lemma deployment_safe_witness :
  db_wf (c_db (after demo_env (replicate 3 0%nat) demo_deployment)) ∧
  c_pos (after demo_env (replicate 3 0%nat) demo_deployment) = 3%nat.
Proof.
  assert (Hstar : star (app_step demo_env) (demo_deployment, [])
    (after demo_env (replicate 3 0%nat) demo_deployment,
     [] ++ schedule_facts demo_env (replicate 3 0%nat) demo_deployment)).
  { apply (after_star demo_env app_program). vm_compute. reflexivity. }
  destruct (deployment_safe demo_env 1 1 demo_commands empty_DB empty_RefRedis _ _ db_wf_empty eq_refl Hstar)
    as [Hwf _].
  split; [exact Hwf|]. vm_compute. reflexivity.
Defined.


Lemma demo_uuids_ok : uuids_ok demo_env.
Proof. intros i. apply N.mod_lt. discriminate. Qed.

Lemma deployment_keeps_types_witness :
  let c := after demo_env (replicate 3 0%nat) demo_deployment in
  c_pos c = 3%nat ∧ ∃ res w', run demo_env (DequeueBatch (NewConsumer Second) ChannelSMS 10)
    (mkWorld (c_db c) (c_redis c) (c_pos c) demo_proc) = (Some res, w') ∧ dequeued ChannelSMS res.
Proof.
  intros c. assert (Hf : can_follow demo_env (replicate 3 0%nat) demo_deployment = true) by (vm_compute; reflexivity).
  split; [vm_compute; reflexivity|].
  destruct (deployment_keeps_types demo_env 1 1 demo_commands empty_DB empty_RefRedis _ _ demo_uuids_ok
    db_wf_empty rows_typed_empty wire_ok_empty (after_star demo_env wired_program _ demo_deployment [] Hf))
    as (_ & _ & _ & _ & Hd).
  exact (Hd (NewConsumer Second) ChannelSMS 10 demo_proc).
Defined.
