(* ===== verification/Monitoring.v ===== *)
(** * What GET /metrics shows (observability/metrics.go in the deployment)

    Every process has a collector of its own.  The workers count, in theirs, what they
    send; only the API serves [GET /metrics], from its own, and nothing the API runs
    counts.  So the endpoint answers zeros for ever.  A goroutine is tied here to the
    command whose process runs it ([goroutine_of]); [uncounted] is the contract that a
    program increments no counter. *)
From S2P Require Import Prelude GoLib GoJson Domain Uuid Settings Retry Redis Postgres RateLimiter CircuitBreaker Hub.
From S2P Require Import Metrics TemplateEngine Effects Contract Reference Queue Provider Repository Lifecycle.
From S2P Require Import Processor Scheduler Dispatcher Handlers Templates Api Refinement System App.
From Stdlib Require Import ZArith Lia.
From stdpp Require Import base numbers list strings gmap fin_maps.

Open Scope Z_scope.

(** ** Programs that count nothing *)

Section uncounted.
Context `{TextTemplate} `{UUIDLib} `{WebsocketLib}.

Definition counts {X} (e : eff X) : Prop := match e with EMetrics _ _ => True | _ => False end.

Definition uncounted_contract : Contract := mkContract (λ _ e, ¬ counts e) (λ _ _ _, True) True.

Definition uncounted {A} (p : prog A) : Prop := meets uncounted_contract p (λ _, True).

Lemma uncounted_trigger {X} (e : eff X) : ¬ counts e → uncounted (trigger e).
Proof. by split. Qed.

Lemma uncounted_bind {A B} (p : prog A) (f : A → prog B) :
  uncounted p → (∀ a, uncounted (f a)) → uncounted (p ≫= f).
Proof. apply meets_seq. Qed.

Lemma uncounted_catch {A} (p : prog A) : uncounted p → uncounted (catch p).
Proof.
  unfold uncounted. induction p as [a|X e k IH|]; simpl; [done| |done].
  intros [He Hk]. split; [done|]. intros x Hx. by apply IH, Hk.
Qed.
End uncounted.

Ltac uncounted_step :=
  first
    [ exact I
    | apply uncounted_trigger; exact (λ f, f)
    | apply uncounted_bind; [|intros ?]
    | progress cbv beta iota zeta
    | match goal with
      | |- uncounted (match ?x with _ => _ end) => destruct x
      | |- uncounted (if ?x then _ else _) => destruct x
      end ].
Ltac solve_uncounted := repeat uncounted_step.

(** ** The API counts nothing *)

Section api.
Context `{TextTemplate} `{UUIDLib} `{WebsocketLib}.

Lemma uncounted_build req : uncounted (buildNotification req).
Proof. unfold buildNotification, request_content, TemplateRepo_GetByID, Render, getOrParse. solve_uncounted. Qed.

Lemma uncounted_builds batch reqs : uncounted (buildNotifications batch reqs).
Proof.
  induction reqs as [|req reqs IH]; cbn [buildNotifications]; [exact I|].
  apply uncounted_bind; [apply uncounted_build|]. intros [n|]; [|exact I].
  apply uncounted_bind; [exact IH|]. by intros [ns|].
Qed.

Lemma uncounted_enqueue n : uncounted (enqueue n).
Proof. unfold enqueue, Enqueue, NotificationRepo_UpdateStatus. solve_uncounted. Qed.

Lemma uncounted_batchEnqueue ns : uncounted (batchEnqueue ns).
Proof.
  unfold batchEnqueue, EnqueueBatch, NotificationRepo_UpdateBatchStatus.
  assert (Hpipe : ∀ msgs, uncounted (pipe_messages msgs)).
  { induction msgs as [|m msgs IH]; cbn [pipe_messages]; [exact I|]. destruct (Marshal m); [|exact I].
    apply uncounted_bind; [solve_uncounted|]. intros now. apply uncounted_bind; [exact IH|]. by intros [es|]. }
  destruct (unscheduled ns) as [|n todo]; [exact I|]. cbn [fmap list_fmap].
  apply uncounted_bind; [apply uncounted_bind; [apply (Hpipe (_ :: _))|]|]; intros ?; solve_uncounted.
Qed.

Lemma uncounted_Create r : uncounted (NotificationHandler_Create r).
Proof.
  unfold NotificationHandler_Create, NotificationRepo_Create. destruct (decode_body _ _ _); [|exact I].
  apply uncounted_bind; [apply uncounted_build|]. intros [n|]; [|exact I].
  apply uncounted_bind; [solve_uncounted|]. intros [?|err]; [|by destruct (Is_DuplicateKey err)].
  apply uncounted_bind; [apply uncounted_enqueue|done].
Qed.

Lemma uncounted_BatchCreate r : uncounted (NotificationHandler_BatchCreate r).
Proof.
  unfold NotificationHandler_BatchCreate, NotificationRepo_CreateBatch. destruct (decode_body _ _ _); [|exact I].
  destruct (1000 <? _); [exact I|]. destruct (_ =? 0); [exact I|]. apply uncounted_bind; [solve_uncounted|]. intros b.
  apply uncounted_bind; [apply uncounted_builds|]. intros [ns|]; [|exact I].
  apply uncounted_bind; [solve_uncounted|]. intros [?|err]; [|by destruct (Is_DuplicateKey err)].
  apply uncounted_bind; [apply uncounted_batchEnqueue|done].
Qed.

Lemma uncounted_serve p : uncounted p → uncounted (serve p).
Proof. intros Hp. by apply uncounted_bind. Qed.

Lemma uncounted_route mc hijack r rt vs : uncounted (handle_route mc hijack r rt vs).
Proof.
  destruct rt; cbn [handle_route]; try apply uncounted_serve.
  - exact I.
  - unfold HealthHandler_Ready. solve_uncounted.
  - unfold MetricsHandler_Metrics. solve_uncounted.
  - unfold WebSocketHandler_Upgrade. solve_uncounted.
  - apply uncounted_Create.
  - apply uncounted_BatchCreate.
  - unfold NotificationHandler_Get, NotificationRepo_GetByID. solve_uncounted.
  - unfold NotificationHandler_GetBatch, NotificationRepo_GetByBatchID. solve_uncounted.
  - unfold NotificationHandler_Cancel, NotificationRepo_GetByID, NotificationRepo_UpdateStatus. solve_uncounted.
  - unfold NotificationHandler_List, NotificationRepo_List. solve_uncounted.
  - unfold TemplateHandler_Create, TemplateRepo_Create. solve_uncounted.
  - unfold TemplateHandler_Get, TemplateRepo_GetByID. solve_uncounted.
  - unfold TemplateHandler_Update, TemplateRepo_GetByID, TemplateRepo_Update. solve_uncounted.
  - unfold TemplateHandler_Delete, TemplateRepo_Delete. solve_uncounted.
  - unfold TemplateHandler_List, TemplateRepo_List. solve_uncounted.
Qed.

Lemma uncounted_outcome (p : prog Out) : uncounted p → uncounted (outcome p).
Proof. intros Hp. apply uncounted_bind; [by apply uncounted_catch|done]. Qed.

Lemma uncounted_NewRouter mc hijack r : uncounted (NewRouter mc hijack r).
Proof.
  assert (Hmux : ∀ hj rq, uncounted (mux mc hj rq)).
  { intros hj rq. unfold mux. destruct (segments (hq_path rq)) as [segs|]; [|exact I]. destruct (negb _); [exact I|].
    destruct (matches _ _) as [|[rt vs] l]; [by destruct (path_known segs)|apply uncounted_route]. }
  unfold NewRouter, with_middleware, RequestID. apply uncounted_bind; [unfold request_id; solve_uncounted|]. intros id.
  apply uncounted_bind; [|done]. unfold Recovery. apply uncounted_bind; [|done].
  apply uncounted_outcome. unfold Logging. apply uncounted_bind; [solve_uncounted|]. intros start.
  apply uncounted_bind; [|intros out; solve_uncounted]. unfold MaxBodySize, Gzip.
  destruct (contains _ _); [|apply Hmux]. apply uncounted_bind; [by apply uncounted_outcome|done].
Qed.
End api.

(** ** Who runs what *)

Section deployed.
Context {R : Type} `{RedisServer R} `{LuaNumber} `{PgLaws} `{TextTemplate} `{UUIDLib} `{WebsocketLaws}.
Variable env : Env.

(** The goroutines of a command: the API answers requests, a worker dispatches, runs the
    tasks of its pool and schedules, each with the settings it has read. *)
Inductive goroutine_of : Command → prog unit → Prop :=
| go_request mc hijack r : goroutine_of CmdApi (_ ← NewRouter mc hijack r; mret tt)
| go_dispatcher c ch ticks fuel cfg : command_channel c = Some ch →
    goroutine_of c (_ ← dispatchLoop ticks fuel (worker_dispatcher cfg ch) ch; mret tt)
| go_task c ch cfg msgs : command_channel c = Some ch → goroutine_of c (ProcessBatch (worker_processor cfg) msgs)
| go_scheduler c ch ticks fuel : command_channel c = Some ch → goroutine_of c (Scheduler_Start ticks fuel).

Lemma goroutine_of_app c q : goroutine_of c q → app_program q.
Proof. destruct 1; constructor. apply _. Qed.

Lemma goroutine_of_api q : goroutine_of CmdApi q → uncounted q.
Proof.
  intros Hq. inversion Hq; subst; try discriminate.
  apply uncounted_bind; [apply uncounted_NewRouter|done].
Qed.

Lemma RunWorker_goroutines ticks fuel cfg c ch :
  command_channel c = Some ch → Forall (goroutine_of c) (RunWorker ticks fuel cfg ch).
Proof.
  intros Hch. unfold RunWorker, Dispatcher_Start. apply Forall_app. split.
  - apply Forall_singleton. by apply go_dispatcher.
  - apply Forall_singleton. by eapply go_scheduler.
Qed.

(** The command each process runs. *)
Variable role : nat → Command.

(** The collectors of the API processes are as they were created, and nothing that runs
    there will change that. *)
Record untouched (s : Effects.Config R * list Lifecycle.fact) : Prop := {
  un_procs pid pr : role pid = CmdApi → c_procs s.1 !! pid = Some pr → p_metrics pr = NewMetricsCollector;
  un_threads : Forall (λ t, role t.1 = CmdApi → uncounted t.2) (c_threads s.1);
}.

Lemma handle_uncounted {X} (e : eff X) (w : World R) :
  ¬ counts e → p_metrics (w_proc (handle env e w).2) = p_metrics (w_proc w).
Proof.
  intros He. destruct e; cbn [handle]; try done.
  - by destruct (faulty _ _ _).
  - by destruct (faulty _ _ _).
  - by destruct (exec_cb _ _ _).
  - by destruct (exec_hub _ _).
  - by destruct (exec_cache _ _).
Qed.

Lemma untouched_step s s' :
  step_at env (λ pid, goroutine_of (role pid)) s s' → untouched s → untouched s'.
Proof.
  intros Hstep [Hpr Hth]. destruct Hstep as [i c c' facts Hs|pid q c facts Hq|pid c facts|pr c facts Hb]; cbn [fst] in *.
  - unfold sched_step in Hs. destruct (c_threads c !! i) as [[pid q]|] eqn:Et; cbn in Hs; [|done].
    destruct (c_procs c !! pid) as [pr|] eqn:Ep; cbn in Hs; [|done].
    destruct q as [|X e k|]; try done. set (w := mkWorld (c_db c) (c_redis c) (c_pos c) pr) in *.
    pose proof (proj1 (Forall_lookup _ _) Hth i _ Et) as Hq. cbn [fst snd] in Hq.
    pose proof (handle_uncounted e w) as Hw. destruct (handle env e w) as [x w']. injection Hs as <-.
    split; cbn [fst c_procs c_threads].
    + intros pid' pr' Hrole. destruct (decide (pid' = pid)) as [->|Hne].
      * rewrite list_lookup_insert_eq by (by eapply lookup_lt_Some). intros [= <-].
        cbn [snd] in Hw. rewrite Hw; [by eapply Hpr|]. by apply Hq.
      * rewrite list_lookup_insert_ne by done. by apply Hpr.
    + apply Forall_insert; [done|]. intros Hrole. by apply Hq.
  - split; [done|]. cbn. apply Forall_app. split; [done|]. apply Forall_singleton. intros Hrole. cbn in *.
    rewrite Hrole in Hq. by apply goroutine_of_api.
  - split; [done|]. cbn. rewrite Forall_forall in Hth |- *. intros t [_ Ht]%list_elem_of_filter. by apply Hth.
  - split; [|done]. cbn. intros pid pr' Hrole [Hl|[_ Hl]]%lookup_app_Some; [by eapply Hpr|].
    apply list_lookup_singleton_Some in Hl as [_ <-]. by destruct Hb as (? & ? & ->).
Qed.

Lemma untouched_start ticks fuel cs db (r : R) :
  (∀ pid c cfg, cs !! pid = Some (c, cfg) → role pid = c) → untouched (deployment ticks fuel cs db r, []).
Proof.
  intros Hrole. split; cbn [fst].
  - intros pid pr _ Hl. pose proof (deployment_procs (λ pr, p_metrics pr = NewMetricsCollector) ticks fuel cs db r
      eq_refl (λ _, eq_refl)) as Hall. by apply (proj1 (Forall_lookup _ _) Hall pid).
  - apply Forall_forall. intros t (l & Ht & Hl)%list_elem_of_join Hapi.
    apply elem_of_lookup_imap in Hl as (pid & [c cfg] & -> & Hc).
    apply list_elem_of_fmap in Ht as (q & -> & Hq). cbn [fst] in Hapi. rewrite (Hrole pid c cfg Hc) in Hapi. subst c.
    by apply not_elem_of_nil in Hq.
Qed.

(** The snapshot of a system in which nothing ever happened. *)
Definition no_activity : json :=
  let zeros := JObj [("sent", JInt 0); ("failed", JInt 0); ("processing", JInt 0)] in
  JObj [("channels", JObj [("email", zeros); ("push", zeros); ("sms", zeros)]); ("websocket_connections", JInt 0)].

(** C29: The metrics endpoint shows nothing.  In every execution of the deployment, with
    each process running the goroutines of its command, the collector of an API process
    stays as it was created, and [GET /metrics] answers zeros: nothing sent, failed or
    processing, nobody connected.  The workers count in collectors of their own, which
    no endpoint serves. *)
Theorem metrics_endpoint_shows_nothing ticks fuel cs db (r : R) c facts pid pr :
  db_wf db → (∀ pid c cfg, cs !! pid = Some (c, cfg) → role pid = c) →
  star (step_at env (λ pid, goroutine_of (role pid))) (deployment ticks fuel cs db r, []) (c, facts) →
  role pid = CmdApi → c_procs c !! pid = Some pr →
  p_metrics pr = NewMetricsCollector ∧
  let w := mkWorld (c_db c) (c_redis c) (c_pos c) pr in
  (run env (MetricsHandler_Metrics (p_metrics pr)) w).1 = Some (writeJSON StatusOK (Ok no_activity)).
Proof.
  intros Hwf Hrole Hstar Hapi Hpr.
  assert (Hm : p_metrics pr = NewMetricsCollector).
  { refine (un_procs (c, facts) _ pid pr Hapi Hpr).
    exact (star_invariant _ untouched (λ s s' Hu Hs, untouched_step s s' Hs Hu) _ _ (untouched_start ticks fuel cs db r Hrole) Hstar). }
  split; [done|]. intros w. rewrite Hm. unfold MetricsHandler_Metrics. rewrite run_trigger_bind.
  assert (Hth : Forall (λ t, app_program t.2) (c_threads (deployment ticks fuel cs db r)))
    by (apply deployment_threads; intros; apply RunWorker_programs).
  pose proof (app_star_nobody env (deployment ticks fuel cs db r) c facts Hwf Hth) as Hn.
  assert (Hnobody : nobody pr).
  { refine (proj1 (Forall_lookup _ _) (Hn _ _) pid pr Hpr); [by apply deployment_procs|].
    refine (star_mono _ _ _ _ _ Hstar). intros s1 s2. apply step_at_mono. intros ? q. apply goroutine_of_app. }
  cbn [handle w w_proc exec_hub fst snd run mret prog_ret]. unfold Hub_Len. rewrite Hnobody, map_size_empty. reflexivity.
Qed.
End deployed.

(** ** A concrete run *)

#[local] Existing Instances RefTemplate RefPg RefPg_laws RefUUID RefUUID_laws RefLua RefWebsocket RefWebsocket_laws.

(** The API and the three workers, with one SMS to send. *)
Definition busy : Effects.Config RefRedis :=
  deployment 1 1 demo_commands (w_db (demo_with [demo_notification 1 StatusQueued])) (sms_queue [demo_message 1 PriorityNormal]).

Definition demo_role (pid : nat) : Command := match demo_commands !! pid with Some (c, _) => c | None => CmdApi end.

(** The SMS worker has taken a message, and counted it; the API shows nothing. *)
Lemma metrics_endpoint_shows_nothing_witness :
  let c := after demo_env (replicate 7 0%nat) busy in
  (λ pr, Processing <$> mc_channels (p_metrics pr) !! ChannelSMS) <$> c_procs c !! 1%nat = Some (Some 1) ∧
  ∃ pr, c_procs c !! 0%nat = Some pr ∧
    (run demo_env (MetricsHandler_Metrics (p_metrics pr)) (mkWorld (c_db c) (c_redis c) (c_pos c) pr)).1 =
      Some (writeJSON StatusOK (Ok no_activity)).
Proof.
  intros c. split; [vm_compute; reflexivity|].
  assert (Hf : can_follow demo_env (replicate 7 0%nat) busy = true) by (vm_compute; reflexivity).
  destruct (c_procs c !! 0%nat) as [pr|] eqn:Hpr; [|exfalso; revert Hpr; vm_compute; discriminate].
  exists pr. split; [reflexivity|].
  refine (proj2 (metrics_endpoint_shows_nothing demo_env demo_role 1 1 demo_commands _ _ c _ 0%nat pr _ _
    (after_star_at demo_env _ _ busy [] Hf) _ Hpr)).
  - by apply demo_db_wf.
  - intros pid c' cfg Hl. unfold demo_role. by rewrite Hl.
  - reflexivity.
Defined.
