(* ===== verification/Outage.v ===== *)
(** * While the circuit breaker is open

    A call that the open breaker turns away is settled like one the provider refused:
    [handleFailure] counts an attempt.  Here the provider behind the breaker is any
    program, even one that panics, so what is proved of it is that it is not called:
    a message that is delivered again and again in the meantime uses up its attempts,
    and its notification fails without ever having been sent.  On the default settings
    the backoff of all five attempts fits into the breaker's thirty seconds. *)
From S2P Require Import Prelude Float64 GoLib GoJson GoTime Domain Uuid Settings Retry Redis Postgres RateLimiter.
From S2P Require Import CircuitBreaker Hub Metrics TemplateEngine Effects Contract Reference Queue Provider Repository Processor OneMessage.
From S2P Require Import Scheduler Dispatcher Handlers Templates Api Refinement Wire Timing System Progress App.
From Stdlib Require Import ZArith Lia.
From stdpp Require Import base numbers list strings gmap fin_maps.

Open Scope Z_scope.

Section outage.
Context {R : Type} `{RedisLaws R} `{LuaNumber} `{PgLaws} `{TextTemplate} `{UUIDLaws}.
Variable env : Env.
(** Any provider whatsoever. *)
Variable prov : Provider.
Variable timeout : Z.
Variable retrier : Strategy.

Definition guarded : Processor := NewProcessor (breaker_Provider prov timeout) retrier.

(** The breaker is open and stays so: no time at which it is asked is late enough. *)
Definition outage (w : World R) : Prop :=
  cb_state (p_cb (w_proc w)) = StateOpen ∧
  ∀ i, time_Since (e_now env i) (cb_lastFailure (p_cb (w_proc w))) ≤ timeout.

(** It turns every call away. *)
Lemma outage_rejects n (w : World R) :
  outage w → run env (Send (p_provider guarded) n) w = (Some (Err ErrCircuitOpen), advance 2 w).
Proof.
  intros [Hst Hto]. cbn [Send p_provider guarded NewProcessor breaker_Provider]. unfold CircuitBreaker_Send.
  rewrite run_trigger_bind. destruct w as [db rd i [c hub met eng]]. cbn in Hst, Hto.
  cbn [handle exec_cb fst snd tick set_cb set_proc w_pos w_db w_redis w_proc p_cb p_hub p_metrics p_engine].
  rewrite Hst. rewrite run_trigger_bind. cbn [handle fst snd tick w_pos w_db w_redis w_proc].
  replace (time_Since _ _ <=? timeout) with true by (symmetry; apply Z.leb_le, Hto). reflexivity.
Qed.

(** A pass costs an attempt. *)
Lemma outage_pass msg raw n (w : World R) :
  quiet env → texts_ok → metrics_wf (p_metrics (w_proc w)) → db_wf (w_db w) → Marshal msg = Ok raw →
  notifications (w_db w) !! m_NotificationID msg = Some n → workable n → claimable n = true → outage w →
  ∃ w' t, let c := touch_status (e_now env (w_pos w)) StatusProcessing n in
    run env (ProcessBatch guarded [msg]) w = (Some tt, w') ∧
    notifications (w_db w') !! m_NotificationID msg = Some (failed_row t ErrCircuitOpen c c) ∧
    metrics_wf (p_metrics (w_proc w')) ∧ db_wf (w_db w') ∧ outage w'.
Proof.
  intros Hq Htx Hmw Hwf Hm Hn Hwk Hc Ho.
  destruct (claim_of_one env (m_NotificationID msg) n w Hq Hwf Hn Hc) as (w1 & Hone & Hbatch & Hproc).
  rewrite (GetAndMarkProcessing_run env _ n) in Hone by done.
  set (c := touch_status (e_now env (w_pos w)) StatusProcessing n) in *.
  assert (Hw1 : notifications (w_db w1) !! m_NotificationID msg = Some c)
    by (injection Hone as <-; cbn; by rewrite lookup_insert_eq).
  pose proof (ok_key _ _ (wf_rows _ Hwf _ _ Hn)) as Hid.
  assert (Hcid : msg_map [msg] !! n_ID c = Some msg)
    by (cbn [c n_ID touch_status]; rewrite Hid; apply lookup_insert_eq).
  assert (Ho1 : outage w1) by (unfold outage; by rewrite Hproc).
  destruct (handleFailure_settles env guarded c msg raw ErrCircuitOpen (advance 2 w1) Hq)
    as (w3 & t & Hrun & Hrow & _ & _ & _ & Hcb & Hm3);
    [by cbn [advance w_proc]; rewrite Hproc|by apply workable_retriable|done|].
  assert (Hbatch1 : run env (ProcessBatch guarded [msg]) w =
    (Some tt, mkWorld (w_db w3) (ZREM (processing_key (m_Channel msg)) [raw] (w_redis w3)) (S (w_pos w3)) (w_proc w3))).
  { unfold ProcessBatch. cbn [fmap list_fmap]. rewrite !run_bind, Hbatch. cbn [send_each].
    rewrite !run_bind, (outage_rejects c w1 Ho1), Hcid. cbn [default from_option id].
    rewrite run_bind, Hrun. cbn [mret prog_ret run]. rewrite run_bind. cbn [mret prog_ret run].
    by rewrite run_bind, (ack_one_run env msg raw). }
  eexists _, t. split; [exact Hbatch1|]. split_and!; [|done| |].
  - cbn [w_db]. rewrite Hrow. cbn [advance w_db]. rewrite Hw1. cbn. by rewrite decide_True.
  - pose proof (run_db_wf env (ProcessBatch guarded [msg]) w Hwf) as Hwf'. by rewrite Hbatch1 in Hwf'.
  - unfold outage. cbn [w_proc]. by rewrite Hcb.
Qed.

(** C34: An outage uses up the attempts.  While the breaker is open, a message that is
    delivered as often as its notification has attempts left ends with the
    notification failed: every attempt is counted, the error is "circuit breaker is
    open", nothing records a delivery, and the provider, whatever it is, has not been
    called. *)
Theorem outage_fails_unsent rounds msg raw : ∀ (w : World R) n,
  quiet env → texts_ok → metrics_wf (p_metrics (w_proc w)) → db_wf (w_db w) → Marshal msg = Ok raw →
  notifications (w_db w) !! m_NotificationID msg = Some n → workable n → claimable n = true → outage w →
  n_MaxAttempts n - n_Attempts n ≤ Z.of_nat rounds →
  ∃ w' n', run env (deliver guarded rounds msg) w = (Some tt, w') ∧
    notifications (w_db w') !! m_NotificationID msg = Some n' ∧
    n_Status n' = StatusFailed ∧ n_Attempts n' = n_MaxAttempts n ∧
    n_LastError n' = Some (Error ErrCircuitOpen) ∧
    n_SentAt n' = n_SentAt n ∧ n_ProviderMsgID n' = n_ProviderMsgID n.
Proof.
  induction rounds as [|rounds IH]; intros w n Hq Htx Hmw Hwf Hm Hn Hwk Hc Ho Hle;
    pose proof Hwk as (Hch & Hatt & Hmax); [lia|].
  cbn [deliver]. destruct (outage_pass msg raw n w) as (w1 & t & Hrun & Hn1 & Hmw1 & Hwf1 & Ho1); [done..|].
  rewrite run_bind, Hrun. unfold failed_row in Hn1. cbn [n_MaxAttempts n_Attempts touch_status] in Hn1.
  destruct (n_MaxAttempts n <=? n_Attempts n + 1) eqn:E; zbool.
  - destruct (deliver_nothing env guarded rounds msg w1 _ Hq Hn1 eq_refl) as (w' & Hrun' & Hn').
    eexists w', _. split; [exact Hrun'|]. split; [exact Hn'|]. cbn. split_and!; [done|lia|done..].
  - destruct (IH w1 _ Hq Htx Hmw1 Hwf1 Hm Hn1) as (w' & n' & Hrun' & Hn' & Hst & Ha & He & Hs & Hp); [|done|done|cbn; lia|].
    { split; [exact Hch|]. cbn. lia. }
    exists w', n'. by split_and!.
Qed.
End outage.

(** ** On the default settings *)

#[local] Existing Instances RefTemplate RefPg RefPg_laws RefUUID RefUUID_laws RefLua.

(** Ten milliseconds pass with every effect, for thirty seconds; [http] is what the
    provider would answer. *)
Definition outage_env (http : nat → webhookPayload → result error Z) : Env := {|
  e_now i := demo_start + Z.min (Z.of_nat i) 3000 * (10 * Millisecond);
  e_fault := e_fault demo_env; e_uuid := e_uuid demo_env; e_rand := e_rand demo_env;
  e_http := http; e_lua := e_lua demo_env; e_done := e_done demo_env |}.

(** The SMS worker, its breaker opened just now by the fifth failure in a row, and one
    SMS in the queue. *)
Definition tripped_worker : World RefRedis :=
  mkWorld (w_db (demo_with [demo_notification 1 StatusQueued])) (sms_queue [demo_message 1 PriorityNormal]) 0
    (mkProc (mkCB StateOpen 5 5 (30 * Second) demo_start) NewHub NewMetricsCollector NewEngine).

(** Five rounds of the worker within thirty seconds, each after the last one's backoff. *)
Definition outage_rounds : list nat := [0; 550; 1100; 1650; 2700]%nat.

(** Whatever the provider would answer, the notification is a dead letter after 27 seconds. *)
Theorem outage_outlasts_backoff http :
  (λ w : World RefRedis, ((λ n, (n_Status n, n_Attempts n, n_SentAt n)) <$> notifications (w_db w) !! 1%N,
      size (dead_letters (w_db w)), e_now (outage_env http) (w_pos w) - demo_start <=? 28 * Second)) <$>
    rounds (outage_env http) (worker_dispatcher default_config ChannelSMS) ChannelSMS outage_rounds tripped_worker =
  Some (Some (StatusFailed, 5, None), 1%nat, true).
Proof. vm_compute. reflexivity. Qed.

(** A provider that would panic if it were called. *)
Lemma outage_fails_unsent_witness :
  ∃ w' n', run (outage_env (λ _ _, Ok 200))
      (deliver (guarded (mkProvider (λ _, Panic)) (30 * Second) (NewStrategy Second (5 * Minute))) 5
         (demo_message 1 PriorityNormal)) tripped_worker = (Some tt, w') ∧
    notifications (w_db w') !! 1%N = Some n' ∧ n_Status n' = StatusFailed ∧ n_SentAt n' = None.
Proof.
  destruct (Marshal (demo_message 1 PriorityNormal)) as [raw|] eqn:Hm; [|discriminate Hm].
  destruct (outage_fails_unsent (outage_env (λ _ _, Ok 200)) (mkProvider (λ _, Panic)) (30 * Second)
    (NewStrategy Second (5 * Minute)) 5 (demo_message 1 PriorityNormal) raw tripped_worker
    (demo_notification 1 StatusQueued)) as (w' & n' & Hrun & Hn' & Hst & _ & _ & Hs & _).
  - done.
  - exact demo_texts_ok.
  - exact metrics_wf_new.
  - by apply demo_db_wf.
  - exact Hm.
  - reflexivity.
  - split; [reflexivity|]. split; [split|]; closed_arith.
  - reflexivity.
  - split; [reflexivity|]. intros i. unfold time_Since. cbn.
    unfold int64_min, int64_max, Second, Millisecond, Microsecond. lia.
  - closed_arith.
  - exists w', n'. split; [exact Hrun|]. split; [exact Hn'|]. split; [exact Hst|exact Hs].
Defined.
