(* ===== verification/Commands.v ===== *)
(** * The commands (cmd/api, cmd/worker-sms, cmd/worker-email, cmd/worker-push) and the
      HTTP server (internal/api/server.go)

    A command's [main] starts up as App.v says and then exits, or runs until its context
    is done: the memory of its process, the goroutines it starts, and how it will
    exit.  An exit has its code, the resources open at that moment and what was logged
    as an error.  What net/http and the signals decide are arguments: whether
    [ListenAndServe] failed, and what [Shutdown] answered. *)
From S2P Require Import Prelude GoLib Domain Uuid Settings Postgres TemplateEngine Effects Provider Api App.
From Stdlib Require Import ZArith Lia.
From stdpp Require Import base numbers list strings gmap fin_maps.

Open Scope Z_scope.

(** ** The HTTP server *)

Record Server := mkServer {
  sv_Addr : string;
  sv_ReadTimeout : Z;
  sv_WriteTimeout : Z;
}.

Definition NewServer (port readTimeout writeTimeout : Z) : Server :=
  mkServer (":" +:+ fmt_d port) readTimeout writeTimeout.

(** [http.Server]: [ListenAndServe] returns at once with an error, or serves; then
    [Shutdown] with its timeout. *)
Record HTTP := mkHTTP {
  ht_ListenAndServe : Server → option error;
  ht_Shutdown : Server → Z → result error unit;
}.

Definition Server_Start (http : HTTP) (s : Server) : option error := ht_ListenAndServe http s.
Definition Server_Shutdown (http : HTTP) (s : Server) (timeout : Z) : result error unit :=
  ht_Shutdown http s timeout.

(** ** The mains *)

Record Exit := mkExit {
  ex_code : Z;
  ex_open : list resource;
  ex_errors : list string;
}.

Section commands.
Context `{TextTemplate} `{UUIDLib} `{WebsocketLib} `{EnvLib}.
(** What becomes of a command: it exits in its start-up, or it runs and exits when its
    context is done. *)
Inductive Launch :=
| Exited (ex : Exit)
| Runs (r : Running) (ex : Exit).

Definition launch_exit (l : Launch) : Exit := match l with Exited ex | Runs _ ex => ex end.

Variable getenv : string → option string.
Variable calls : Calls.
(** The bounds on the loops of the goroutines, see [RunWorker]. *)
Variable ticks fuel : nat.

(** The body of a worker's [main], the same in the three files but for the channel.
    [RunWorker] returns nil when the context is done, and the deferred [Close] runs. *)
Definition worker_main (channel : Channel) : Launch :=
  match NewInfra getenv calls [] with
  | (Err _, open) => Exited (mkExit 1 open ["failed to initialize"])
  | (Ok infra, open) =>
      Runs (worker_running ticks fuel (in_Config infra) channel) (mkExit 0 (Infra_Close open) [])
  end.

Definition worker_sms_main : Launch := worker_main ChannelSMS.
Definition worker_email_main : Launch := worker_main ChannelEmail.
Definition worker_push_main : Launch := worker_main ChannelPush.

Variable http : HTTP.

(** [run] of the API: what serves the requests, what is open in the end and what was
    logged.  A failing server cancels the context as a signal does. *)
Definition api_run : result error Running * list resource * list string :=
  match NewInfra getenv calls [] with
  | (Err err, open) => (Err err, open, [])
  | (Ok infra, open) =>
      let cfg := cf_Server (in_Config infra) in
      let server := NewServer (sc_Port cfg) (sc_ReadTimeout cfg) (sc_WriteTimeout cfg) in
      (Ok api_running, Infra_Close open,
       match Server_Start http server with Some _ => ["HTTP server error"] | None => [] end ++
       match Server_Shutdown http server (sc_ShutdownTimeout cfg) with
       | Err _ => ["HTTP server shutdown error"]
       | Ok _ => []
       end)
  end.

Definition api_main : Launch :=
  match api_run with
  | (Err _, open, log) => Exited (mkExit 1 open (log ++ ["api server failed"]))
  | (Ok r, open, log) => Runs r (mkExit 0 open log)
  end.

Definition main (c : Command) : Launch :=
  match c with
  | CmdApi => api_main
  | CmdWorkerSMS => worker_sms_main
  | CmdWorkerEmail => worker_email_main
  | CmdWorkerPush => worker_push_main
  end.

(** ** What they do *)

(** What is left open: nothing, the tracing, or after a failed start the Redis client. *)
Definition left_open (open : list resource) : Prop :=
  open = [] ∨ open = [RTracer] ∨ open = [RExporter] ∨ open = [RRedis].

(** Every command in one: it exits at once when its start-up failed; otherwise it runs
    what [deployment] has for it and will close what it opened. *)
Lemma main_launch c :
  match NewInfra getenv calls [] with
  | (Ok infra, open) => ∃ errors,
      main c = Runs (running ticks fuel (c, in_Config infra)) (mkExit 0 (Infra_Close open) errors) ∧
      (c = CmdApi → (∀ s, is_Some (Server_Start http s)) → "HTTP server error" ∈ errors)
  | (Err _, open) => ∃ errors, main c = Exited (mkExit 1 open errors)
  end.
Proof.
  destruct c; cbn [main]; unfold api_main, api_run, worker_sms_main, worker_email_main, worker_push_main, worker_main;
    destruct (NewInfra getenv calls []) as [[infra|err] open]; try (by eexists).
  all: eexists; (split; [reflexivity|]); intros Hc Hfail; try discriminate Hc.
  apply elem_of_app. left. edestruct Hfail as [err ->]. left.
Qed.

End commands.
